(* ===== verification/_CoqProject ===== *)
-Q . S2P
Prelude.v
Mem.v
Lock.v
Util.v
Page.v
Mmu.v
Kmalloc.v
Boot.v
MmuFree.v
Ring.v
Input.v
DList.v
Vector.v
RBTree.v
RBInsert.v
HashMap.v
Path.v
Plic.v
Sbi.v
SbiCalls.v
Uaccess.v
Process.v
Sched.v
Syscall.v
Elf.v
Disk.v
Pci.v
Virtio.v
Transport.v
Devices.v
Block.v
Rng.v
FrameBuffer.v
Gpu.v
Minix.v
MinixCache.v
MinixFile.v
MinixSpec.v
MinixWrite.v
MinixOpen.v
Drawing.v
Paint.v
SyscallFile.v
Trap.v
Libc.v
Console.v
ProcessFree.v
