(* ===== verification/Prelude.v ===== *)
(** * Verification of an Sv39 RISC-V kernel

    The program is a small operating system for the QEMU virt board: a machine-mode
    monitor (src/sbi), a supervisor kernel (src/src) and a library of data structures
    both of them use (src/util). This library models its C code as executable functions
    and proves what the parts promise to each other, and also the places where a part
    breaks its promise.

    ** The parts and how they meet

    The monitor boots every hart, starts them for the kernel on request and forwards
    interrupts ([Sbi], over the UART ring of [Ring] and the controller of [Plic]). The
    kernel's page allocator ([Page]) feeds the page tables ([Mmu]), the heap ([Kmalloc])
    and the processes ([Process], [Elf]); [Boot] is the start of the kernel, which puts
    them to work. The scheduler ([Sched]) and the system calls
    ([Syscall]) act on processes; [Uaccess] moves bytes between the kernel and a process
    through the tables; [Input] hands events from the devices to the system calls.

    Devices are found on PCI ([Pci]), set up over virtio ([Transport], [Devices]) and then
    driven through a queue of requests ([Virtio]) by the drivers of the disk ([Block]),
    the display ([Gpu], which draws with [FrameBuffer]) and the random numbers ([Rng]). The
    drawing program ([Drawing], [Paint]) puts the display, the tablet of [Input], the heap
    and the files together.
    The Minix 3 file system ([Minix] and the files named after it) is written against the
    interface of [Disk], which the block driver implements; [SyscallFile] puts it together
    with [Uaccess] into the system calls on files.

    Below them are the structures of src/util: [Util] (util.c), [Ring], [DList] (list.c),
    [Vector], [RBTree], [HashMap] (map.c), [Path].

    ** What is where

    - [Prelude] (this file): integers of a given width, the outcome type [res], loops, the
      alignment macros of util.h; [Mem]: byte memory.
    - [Lock]: lock.c and any number of harts that interleave on the mutex.
    - [Util]: util.c. [Page]: page.c; its record holds the memory and [page_lock]; the
      bookkeeping bits are bytes of that memory.
    - [Mmu]: mmu.c. It is generic in the state and uses the class [PageAllocator] with its
      laws [PageAllocatorLaws]; the instance [page_allocator] proves that [Page] keeps
      them. [MmuFree]: what mmu_free gives back. [Uaccess]: uaccess.c, against the same
      class.
    - [Kmalloc]: kmalloc.c; a [Heap] holds the free, used and fresh lists. [Boot]: main of
      src/src/main.c up to the heap, and heap_init, with what it stores in the heap memory.
    - [Ring]: ring.c and the UART ring of sbi/src/uart.c. [Input]: input.c.
    - [DList], [RBTree]: pointer structures, in a finite map from addresses to records.
      [RBInsert]: why insertion keeps a tree red-black.
      [HashMap]: map.c, on [DList]. [Path]: path.c, on [Mem] and [DList].
    - [Vector]: vector.c. [Plic]: both plic.c. [Sbi]: main.c, hart.c, clint.c, rtc.c,
      svcall.c and ctrap.c of sbi/src. [SbiCalls]: sbi.c, the calls of the kernel into the
      monitor, down to its trap handler.
    - [Process], [Sched], [Syscall] (syscall.c), [Elf]: the same names in src/src; they
      share the record [Process.Kernel], whose field [vectors] has the descriptor vectors of
      the processes. [ProcessFree]: what process_free gives back.
      [SyscallFile]: the system calls of syscall.c on files. [Trap]: the table of system
      calls, gpu_redraw, and trap.c, which puts the calls, the scheduler, the display and
      the dispatch of interrupts of [Devices] together. [Libc]: the calls of user/libc,
      from the registers they load down to that handler. [Console]: the two console
      programs of user/.
    - [Disk]: little-endian words in a list of bytes, and the class of disks with its laws.
      [Virtio]: the queue the drivers share, over the class [Device]. [Block]: block.c, with
      the instance that makes it a disk. [Rng]: rng.c. [Gpu], [FrameBuffer]: gpu.c.
    - [Drawing]: the images of drawing.c, in files, which are the class [FileCalls] with the
      calls of [MinixFile] as its instance, and on the screen; [Paint]: a turn of
      drawing_proc, its keys and its tablet.
    - [Pci]: pci.c, over BARs as the class [Bars]. [Transport]: virtio.c, over registers as
      the class [Mmio]. [Devices]: virtio_init, block_init, gpu_init, input_init and the
      dispatch of interrupts.
    - [Minix]: minix3.c, mounting, bitmaps, inodes and the walk over the zones of a file;
      [MinixCache]: the cache of directories; [MinixFile]: the calls on files; [MinixSpec]:
      what a file is, and reading; [MinixWrite]: writing; [MinixOpen]: paths, opening and
      closing.

    Names are the source's; where Rocq reserves one or two files share one, a suffix
    tells them apart. The address an allocation returns, the time, the calling hart and
    what a device answers are arguments of the operation that asks, or operations of a
    class whose laws say what the program relies on. A class with laws has an instance
    in its file, on which the theorems that assume it are applied.

    ** Conventions

    A C integer is a [Z]; a conversion to a width is written where C converts. An
    operation that can fail as a C program returns [res]: [Ub] is undefined behaviour (a
    null, freed or unmapped access, an oversized shift), [Hang] a loop that cannot end,
    and error codes are ordinary values. [NoFuel] belongs to the model alone: the theorems
    prove that it does not occur, by giving the result [Ok] outright.

    Fuel is a bound the data gives: a string scan carries one more than the number of
    bytes of memory ([scan_fuel]), a walk of a list or a tree one more than its nodes
    ([list_fuel], [rb_fuel]), the passes of the list sort are an argument and the square
    of the length plus one suffices, a [for] loop has its trip count ([for_up]), a walk
    along capabilities, whose pointers are bytes, has 256. A loop that outlives such a
    bound has revisited a state, except where a theorem says otherwise
    ([DList.list_sort_strict_diverges]: every fuel runs out).

    ** What is proved

    - Memory management: page_nalloc takes free pages only and page_free undoes it; every
      sequence of kmalloc and kfree keeps the heap consistent and the blocks apart;
      mmu_map installs the translation asked for and no other, and mmu_map_range the
      whole range; the start of the kernel ends with a table that maps what main means to
      map and nothing else, and a heap of consecutive pages that hold the header and the
      chain of blocks, and zeros; mmu_free and process_free give back every page of a tree
      or a process, each once, and process_free both blocks of the descriptor vector.
    - Boundaries: copy_from and copy_to move the bytes the process may access, exactly;
      each call of the C library reaches the handler of its name, and the read and write
      of a process move the bytes between its memory and the file, through every layer.
    - Files: reading gives the bytes at the offset; writing stores them, makes the file
      longer and changes nothing else on the disk; a file that is written, closed, opened
      again and read gives back what was written; the cache finds what the path names.
    - Devices: enumeration gives every device addresses of its own; the set-up of a
      device ends with a queue that is idle, which is what the drivers' theorems assume;
      the block driver is a disk; the display shows the frame buffer; the drawing routines
      colour exactly their shape; the tablet draws one disc for each row it reports.
    - The consoles: both are line editors that stay inside their arrays. The one on the
      keyboard is put over the get_events of the library and the kernel, which stores no
      event: it goes through the events its array happens to hold, as many as the character
      that get_events returns says, and the keys that are typed never reach it.
    - The monitor: along any sequence of traps each one changes the status and the registers
      of a hart by the step its own registers ask for (start, take up, stop, or none), and
      a started hart gets the entry point, argument and table it was given; the calls of
      the kernel get the answers of the monitor and change nothing else of the hart, and
      the one that turns the machine off does not come back.
    - Data structures: the ring is a bounded queue, the list a sequence, the hash map a
      finite map, the tree search correct on every search tree, insertion keeps a tree
      red-black and so its height logarithmic, the sorts sort.
    - Concurrency: mutual exclusion of the mutex for any number of harts.
    - Defects, each as a theorem about the code as written: the scheduler that never
      leaves the oldest process and reads the list head, exit and map_clear after a free,
      the null dereference of rb_delete, the file descriptor table that stays locked, the
      transfer that overruns its buffer, the image that is stored on the pointer to it, the
      trap stack that is freed while others use it, the capability that is never looked
      at, and others stated as lemmas.

    ** What is not modelled, and the plan

    The rest of main (a start screen and test code) is not modelled. Inline assembly,
    linker scripts and printf (third party) are outside, and so are the drawing program of
    user/, which repeats drawing.c, and kfree of temporary buffers in the drivers, whose
    addresses are arguments. Three steps are left to an interface or dropped: the loop in
    which the block driver waits, which the law of the device ends when the request is
    served; the value the drivers store in the notification register; and path_split_free on
    the temporary list of minix3_parse_path. sleep in the console only lets time pass: the
    next call of get_events is in another world. *)
From stdpp Require Export base numbers list gmap fin_maps.
From Stdlib Require Export ZArith Lia ZifyBool.

#[global] Open Scope Z_scope.

(** * Machine integers

    A C integer is a [Z]; each conversion to a type of width [w] is written out. *)

Definition u8 (z : Z) : Z := z mod 2 ^ 8.
Definition u16 (z : Z) : Z := z mod 2 ^ 16.
Definition u32 (z : Z) : Z := z mod 2 ^ 32.
Definition u64 (z : Z) : Z := z mod 2 ^ 64.
Definition s32 (z : Z) : Z := (z + 2 ^ 31) mod 2 ^ 32 - 2 ^ 31.
Definition s64 (z : Z) : Z := (z + 2 ^ 63) mod 2 ^ 64 - 2 ^ 63.

Lemma u8_id z : 0 <= z < 2 ^ 8 -> u8 z = z.
Proof. apply Z.mod_small. Qed.
Lemma u16_id z : 0 <= z < 2 ^ 16 -> u16 z = z.
Proof. apply Z.mod_small. Qed.
Lemma u32_id z : 0 <= z < 2 ^ 32 -> u32 z = z.
Proof. apply Z.mod_small. Qed.
Lemma u64_id z : 0 <= z < 2 ^ 64 -> u64 z = z.
Proof. apply Z.mod_small. Qed.
Lemma s32_id z : - 2 ^ 31 <= z < 2 ^ 31 -> s32 z = z.
Proof. intros. unfold s32. rewrite Z.mod_small; lia. Qed.
Lemma s64_id z : - 2 ^ 63 <= z < 2 ^ 63 -> s64 z = z.
Proof. intros. unfold s64. rewrite Z.mod_small; lia. Qed.

Lemma u8_range z : 0 <= u8 z < 2 ^ 8.
Proof. apply Z.mod_pos_bound. lia. Qed.
Lemma u16_range z : 0 <= u16 z < 2 ^ 16.
Proof. apply Z.mod_pos_bound. lia. Qed.
Lemma u32_range z : 0 <= u32 z < 2 ^ 32.
Proof. apply Z.mod_pos_bound. lia. Qed.
Lemma u64_range z : 0 <= u64 z < 2 ^ 64.
Proof. apply Z.mod_pos_bound. lia. Qed.
Lemma s32_range z : - 2 ^ 31 <= s32 z < 2 ^ 31.
Proof. unfold s32. pose proof (Z.mod_pos_bound (z + 2 ^ 31) (2 ^ 32)). lia. Qed.

Lemma s32_u32 z : s32 (u32 z) = s32 z.
Proof. unfold s32, u32. rewrite Z.add_mod_idemp_l by lia. done. Qed.

(** [wid] removes the conversions whose argument is in range. *)
Ltac wid :=
  repeat match goal with
  | |- context [u8 ?z] => rewrite (u8_id z) by lia
  | |- context [u16 ?z] => rewrite (u16_id z) by lia
  | |- context [u32 ?z] => rewrite (u32_id z) by lia
  | |- context [u64 ?z] => rewrite (u64_id z) by lia
  | |- context [s32 ?z] => rewrite (s32_id z) by lia
  | |- context [s64 ?z] => rewrite (s64_id z) by lia
  end.

(** A decidable fact about concrete values. *)
Ltac computed := apply (bool_decide_unpack _); vm_compute; exact I.

(** [lia] with division and remainder by constants. *)
Ltac dlia := zify; Z.to_euclidean_division_equations; lia.

(** * Outcomes of C code

    [Ok] is a normal result. [Ub] is undefined behaviour (a null, freed or
    out-of-range access, a division by zero, an oversized shift). [Hang] is a
    loop of the source that cannot end ([while (1);], or a spin on a lock this
    very thread holds). [NoFuel] belongs to the model only: a loop ran out of
    the fuel it was given, and every termination theorem excludes it. *)
Inductive res (A : Type) : Type :=
| Ok (a : A)
| Ub
| Hang
| NoFuel.
Arguments Ok {A} a.
Arguments Ub {A}.
Arguments Hang {A}.
Arguments NoFuel {A}.

Definition res_bind {A B} (x : res A) (k : A -> res B) : res B :=
  match x with
  | Ok a => k a
  | Ub => Ub
  | Hang => Hang
  | NoFuel => NoFuel
  end.

Declare Scope csem_scope.
Delimit Scope csem_scope with csem.
Notation "'let*' x ':=' c 'in' k" := (res_bind c (fun x => k))
  (at level 10, x pattern, k at level 200) : csem_scope.
#[global] Open Scope csem_scope.

Lemma res_bind_ok {A B} (x : res A) (k : A -> res B) b :
  res_bind x k = Ok b -> exists a, x = Ok a /\ k a = Ok b.
Proof. destruct x; simpl; eauto; discriminate. Qed.

(** [inv_ok] opens every successful bind of the context. *)
Ltac inv_ok :=
  repeat match goal with
  | H : res_bind ?x _ = Ok _ |- _ =>
      let a := fresh "v" in let E := fresh "E" in
      apply res_bind_ok in H; destruct H as [a [E H]]
  | H : Ok _ = Ok _ |- _ => injection H as H; try subst
  | H : Ub = Ok _ |- _ => discriminate H
  | H : Hang = Ok _ |- _ => discriminate H
  | H : NoFuel = Ok _ |- _ => discriminate H
  end.

(** A pointer dereference that the source does not guard. *)
Definition deref {A} (x : option A) : res A :=
  match x with Some a => Ok a | None => Ub end.

(** * Loops

    [loop n body s] runs [body] until it is [Done], at most [n] times. *)
Inductive ctl (S R : Type) : Type :=
| Next (s : S)
| Done (r : R).
Arguments Next {S R} s.
Arguments Done {S R} r.

Fixpoint loop {S R} (n : nat) (body : S -> res (ctl S R)) (s : S) : res R :=
  match n with
  | O => NoFuel
  | Datatypes.S n' =>
      let* c := body s in
      match c with
      | Next s' => loop n' body s'
      | Done r => Ok r
      end
  end.

Lemma loop_S {S R} n (body : S -> res (ctl S R)) s :
  loop (Datatypes.S n) body s =
  let* c := body s in match c with Next s' => loop n body s' | Done r => Ok r end.
Proof. done. Qed.

(** Total correctness of a loop: an invariant, a decreasing measure that the
    fuel covers, and a postcondition established on exit. *)
Lemma loop_total {S R} (I : S -> Prop) (m : S -> nat) (Q : R -> Prop)
    (body : S -> res (ctl S R)) :
  (forall s, I s ->
     (exists s', body s = Ok (Next s') /\ I s' /\ (m s' < m s)%nat) \/
     (exists r, body s = Ok (Done r) /\ Q r)) ->
  forall n s, I s -> (m s < n)%nat -> exists r, loop n body s = Ok r /\ Q r.
Proof.
  intros Hbody n. induction n as [|n IH]; intros s HI Hm; [lia|]. simpl.
  destruct (Hbody s HI) as [(s' & -> & HI' & Hlt) | (r & -> & HQ)]; simpl.
  - apply IH; [done | lia].
  - eauto.
Qed.

(** Partial correctness, for a loop whose body may also fail. *)
Lemma loop_partial {S R} (I : S -> Prop) (Q : R -> Prop)
    (body : S -> res (ctl S R)) :
  (forall s c, I s -> body s = Ok c ->
     match c with Next s' => I s' | Done r => Q r end) ->
  forall n s r, I s -> loop n body s = Ok r -> Q r.
Proof.
  intros Hbody n. induction n as [|n IH]; intros s r HI H; simpl in H; [done|].
  inv_ok. specialize (Hbody _ _ HI E). destruct v; inv_ok; eauto.
Qed.

(** [for (i = lo; i < lo + n; i++) s = body(i, s)], no early exit. *)
Fixpoint for_up {S} (n : nat) (lo : Z) (body : Z -> S -> res S) (s : S) : res S :=
  match n with
  | O => Ok s
  | Datatypes.S n' => let* s' := body lo s in for_up n' (lo + 1) body s'
  end.

Lemma for_up_total {S} (I : Z -> S -> Prop) (body : Z -> S -> res S) n :
  forall lo s, I lo s ->
  (forall i s, lo <= i < lo + Z.of_nat n -> I i s ->
     exists s', body i s = Ok s' /\ I (i + 1) s') ->
  exists s', for_up n lo body s = Ok s' /\ I (lo + Z.of_nat n) s'.
Proof.
  induction n as [|n IH]; intros lo s HI Hb; cbn [for_up].
  - exists s. replace (lo + Z.of_nat 0) with lo by lia. done.
  - destruct (Hb lo s) as (s1 & -> & HI1); [lia | done |]. simpl.
    destruct (IH (lo + 1) s1 HI1) as (s2 & -> & HI2).
    + intros i s' Hi. apply Hb. lia.
    + exists s2. replace (lo + Z.of_nat (Datatypes.S n)) with (lo + 1 + Z.of_nat n) by lia.
      done.
Qed.

(** * Alignment to a power of two ([ALIGN_UP_POT], [ALIGN_DOWN_POT] of util.h) *)

Definition ALIGN_DOWN_POT (x y : Z) : Z := Z.land x (u64 (- y)).
Definition ALIGN_UP_POT (x y : Z) : Z := Z.land (u64 (x + y - 1)) (u64 (- y)).

Lemma neg_pow2_u64 k : 0 <= k < 64 -> u64 (- 2 ^ k) = Z.ldiff (Z.ones 64) (Z.ones k).
Proof.
  intros Hk. unfold u64. rewrite Z.ldiff_ones_r by lia.
  rewrite Z.shiftr_div_pow2, Z.shiftl_mul_pow2, Z.ones_div_pow2, Z.ones_equiv by lia.
  assert (0 < 2 ^ k) by lia.
  assert (2 ^ k <= 2 ^ 64) by (apply Z.pow_le_mono_r; lia).
  assert (2 ^ 64 = 2 ^ (64 - k) * 2 ^ k) as E.
  { rewrite <- Z.pow_add_r by lia. f_equal. lia. }
  rewrite <- (Z.mod_add _ 1) by lia. rewrite Z.mod_small by lia. nia.
Qed.

Lemma land_neg_pow2 x k :
  0 <= k < 64 -> 0 <= x < 2 ^ 64 -> Z.land x (u64 (- 2 ^ k)) = x / 2 ^ k * 2 ^ k.
Proof.
  intros Hk Hx. rewrite neg_pow2_u64 by done.
  transitivity (Z.ldiff x (Z.ones k)).
  - apply Z.bits_inj'. intros i Hi. rewrite Z.land_spec, !Z.ldiff_spec.
    destruct (decide (i < 64)).
    + rewrite (Z.ones_spec_low 64) by lia. reflexivity.
    + rewrite <- (Z.mod_small x (2 ^ 64)) by lia.
      rewrite Z.mod_pow2_bits_high by lia. reflexivity.
  - rewrite Z.ldiff_ones_r, Z.shiftr_div_pow2, Z.shiftl_mul_pow2 by lia. reflexivity.
Qed.

Lemma align_down_pot x k :
  0 <= k < 64 -> 0 <= x < 2 ^ 64 -> ALIGN_DOWN_POT x (2 ^ k) = x / 2 ^ k * 2 ^ k.
Proof. apply land_neg_pow2. Qed.

Lemma align_up_pot x k :
  0 <= k < 64 -> 0 <= x -> x + 2 ^ k - 1 < 2 ^ 64 ->
  ALIGN_UP_POT x (2 ^ k) = (x + 2 ^ k - 1) / 2 ^ k * 2 ^ k.
Proof.
  intros Hk Hx Hlt. assert (0 < 2 ^ k) by lia.
  unfold ALIGN_UP_POT. rewrite (u64_id (x + 2 ^ k - 1)) by lia.
  apply land_neg_pow2; lia.
Qed.

Lemma align_up_bounds x k :
  0 <= k < 64 -> 0 <= x -> x + 2 ^ k - 1 < 2 ^ 64 ->
  x <= ALIGN_UP_POT x (2 ^ k) < x + 2 ^ k /\ ALIGN_UP_POT x (2 ^ k) mod 2 ^ k = 0.
Proof.
  intros. rewrite align_up_pot by done. assert (0 < 2 ^ k) by lia.
  pose proof (Z.div_mod (x + 2 ^ k - 1) (2 ^ k)).
  pose proof (Z.mod_pos_bound (x + 2 ^ k - 1) (2 ^ k)).
  split; [nia | apply Z.mod_mul; lia].
Qed.

Lemma mod0_add a b n : a mod n = 0 -> b mod n = 0 -> (a + b) mod n = 0.
Proof.
  intros Ha Hb. destruct (decide (n = 0)) as [->|]; [rewrite Zmod_0_r in *; lia|].
  by rewrite Z.add_mod, Ha, Hb.
Qed.

Lemma mod0_sub a b n : a mod n = 0 -> b mod n = 0 -> (a - b) mod n = 0.
Proof. intros Ha Hb. by rewrite Zminus_mod, Ha, Hb. Qed.

(** * Bit fields as quotients and remainders *)

Lemma land_ones_field x k n : 0 <= k -> 0 <= n ->
  Z.land (Z.shiftr x k) (Z.ones n) = x / 2 ^ k mod 2 ^ n.
Proof. intros. by rewrite Z.land_ones, Z.shiftr_div_pow2 by lia. Qed.

Lemma lor_shiftl_add a b k : 0 <= k -> 0 <= b < 2 ^ k ->
  Z.lor (Z.shiftl a k) b = a * 2 ^ k + b.
Proof.
  intros Hk Hb. rewrite <- Z.shiftl_mul_pow2 by done.
  rewrite Z.add_nocarry_lxor, Z.lxor_lor; [done | |];
    apply Z.bits_inj'; intros i Hi; rewrite Z.land_spec, Z.bits_0;
    destruct (Z.lt_ge_cases i k).
  1, 3: by rewrite Z.shiftl_spec_low by lia.
  all: rewrite <- (Z.mod_small b (2 ^ k)), Z.mod_pow2_bits_high by lia; apply andb_false_r.
Qed.

(** A mask below [2 ^ k] sees only the low [k] bits. *)
Lemma land_low x c k : 0 <= k -> 0 <= c < 2 ^ k -> Z.land x c = Z.land (x mod 2 ^ k) c.
Proof.
  intros Hk Hc. rewrite <- Z.land_ones, <- Z.land_assoc by done. f_equal.
  rewrite Z.land_comm, Z.land_ones by done. by rewrite Z.mod_small.
Qed.

Lemma lor_range a b k : 0 <= k -> 0 <= a < 2 ^ k -> 0 <= b < 2 ^ k -> 0 <= Z.lor a b < 2 ^ k.
Proof.
  intros Hk Ha Hb. rewrite <- (Z.mod_small a (2 ^ k)), <- (Z.mod_small b (2 ^ k)) by lia.
  rewrite <- !Z.land_ones by done. rewrite <- Z.land_lor_distr_l, Z.land_ones by done.
  apply Z.mod_pos_bound. lia.
Qed.

(** * Single bits *)

Lemma u8_testbit v i : 0 <= i < 8 -> Z.testbit (u8 v) i = Z.testbit v i.
Proof. intros. unfold u8. apply Z.mod_pow2_bits_low. lia. Qed.

Lemma u32_testbit v i : 0 <= i < 32 -> Z.testbit (u32 v) i = Z.testbit v i.
Proof. intros. unfold u32. apply Z.mod_pow2_bits_low. lia. Qed.

Lemma one_bit i j : 0 <= i -> 0 <= j -> Z.testbit (Z.shiftl 1 i) j = bool_decide (i = j).
Proof.
  intros Hi Hj. rewrite Z.shiftl_1_l, Z.pow2_bits_eqb by done. apply eq_true_iff_eq.
  rewrite Z.eqb_eq, bool_decide_eq_true. done.
Qed.

Lemma land_one_bit b k : 0 <= k -> (Z.land b (Z.shiftl 1 k) =? 0) = negb (Z.testbit b k).
Proof.
  intros Hk. destruct (Z.testbit b k) eqn:E; cbn.
  - apply Z.eqb_neq. intros H0. apply (f_equal (fun z => Z.testbit z k)) in H0.
    rewrite Z.land_spec, E, one_bit, Z.bits_0, bool_decide_eq_true_2 in H0; done.
  - apply Z.eqb_eq, Z.bits_inj'. intros i Hi. rewrite Z.land_spec, one_bit, Z.bits_0 by done.
    destruct (decide (k = i)) as [<-|]; [by rewrite E|].
    by rewrite bool_decide_eq_false_2, andb_false_r.
Qed.

(** * Bytes: facts decided by enumerating the 256 values *)

Definition byte_ok (b : Z) : Prop := 0 <= b < 256.

#[global] Instance byte_ok_dec b : Decision (byte_ok b).
Proof. unfold byte_ok. apply _. Defined.

Lemma forall_byte (P : Z -> bool) :
  forallb P (seqZ 0 256) = true -> forall b, byte_ok b -> P b = true.
Proof.
  intros H b Hb. rewrite forallb_forall in H. apply H.
  apply list_elem_of_In, elem_of_seqZ. unfold byte_ok in Hb. lia.
Qed.

(** * Decimal strings *)

(** The number a decimal string denotes. *)
Definition digits_value (s : list Z) : Z := fold_left (fun r c => r * 10 + (c - 48)) s 0.

Definition digit (n k : Z) : Z := n / 10 ^ k mod 10 + 48.

Lemma digit_range n k : 48 <= digit n k < 58.
Proof. unfold digit. pose proof (Z.mod_pos_bound (n / 10 ^ k) 10). lia. Qed.

(** The digits of [n] below [10 ^ L], most significant first. *)
Fixpoint digits (n : Z) (L : nat) : list Z :=
  match L with O => [] | S L' => digit n (Z.of_nat L') :: digits n L' end.

Lemma digits_value_ok n L : 0 <= n -> digits_value (digits n L) = n mod 10 ^ Z.of_nat L.
Proof.
  intros Hn. unfold digits_value.
  assert (forall L acc, fold_left (fun r c => r * 10 + (c - 48)) (digits n L) acc =
            acc * 10 ^ Z.of_nat L + n mod 10 ^ Z.of_nat L) as H; [|by rewrite H].
  clear L. induction L as [|L IH]; intros acc.
  - cbn. rewrite Z.mod_1_r. lia.
  - cbn [digits fold_left]. rewrite IH. rewrite Nat2Z.inj_succ, Z.pow_succ_r by lia.
    unfold digit. replace (10 * 10 ^ Z.of_nat L) with (10 ^ Z.of_nat L * 10) by lia.
    rewrite Z.rem_mul_r by lia. ring.
Qed.

Lemma digits_lookup n L : forall k c, digits n L !! k = Some c ->
  (k < L)%nat /\ c = digit n (Z.of_nat L - 1 - Z.of_nat k).
Proof.
  induction L as [|L IH]; intros [|k] c H; try done; cbn in H.
  - injection H as <-. split; [lia|]. f_equal. lia.
  - destruct (IH k c H) as [Hk ->]. split; [lia|]. f_equal. lia.
Qed.

Lemma digits_length n L : length (digits n L) = L.
Proof. induction L; cbn; congruence. Qed.

Lemma digits_nonzero n L : Forall (fun c => 48 <= c < 58) (digits n L).
Proof. induction L; cbn; constructor; [apply digit_range|done]. Qed.

Lemma quot_pow n i : 0 <= n -> 0 <= i -> Z.quot (n / 10 ^ i) 10 = n / 10 ^ (i + 1).
Proof.
  intros Hn Hi. assert (0 < 10 ^ i) by lia. rewrite Z.quot_div_nonneg; [|apply Z.div_pos; lia|lia].
  rewrite Z.div_div, Z.pow_add_r by lia. done.
Qed.

(** * Hints shared by the components *)

Create HintDb csem.
Create Rewrite HintDb csem.
#[export] Hint Resolve u8_range u16_range u32_range u64_range s32_range : csem.
#[export] Hint Rewrite Z2Nat.id Nat2Z.id using lia : csem.
