(* ===== verification/Mem.v ===== *)
(** Byte-addressed memory shared by the components that read and write raw
    storage: little-endian loads and stores of any width, [memset], and the
    lemmas that say which bytes they touch. An access to an address the memory
    does not hold is [Ub]. *)
From S2P Require Import Prelude.

Abbreviation mem := (gmap Z Z).

Definition mem_ok (m : mem) : Prop := map_Forall (fun _ b => byte_ok b) m.

(** [mapped m a n]: the [n] bytes from [a] are all accessible. *)
Definition mapped (m : mem) (a n : Z) : Prop :=
  forall i, 0 <= i < n -> is_Some (m !! (a + i)).

(** [same_outside m m' a n]: [m'] differs from [m] at most on [a, a+n). *)
Definition same_outside (m m' : mem) (a n : Z) : Prop :=
  forall b, ~ (a <= b < a + n) -> m' !! b = m !! b.

Definition ld8 (m : mem) (a : Z) : res Z := deref (m !! a).

Definition st8 (m : mem) (a v : Z) : res mem :=
  match m !! a with
  | Some _ => Ok (<[a := u8 v]> m)
  | None => Ub
  end.

Fixpoint ld_le (n : nat) (m : mem) (a : Z) : res Z :=
  match n with
  | O => Ok 0
  | S n' => let* b := ld8 m a in let* r := ld_le n' m (a + 1) in Ok (b + 256 * r)
  end.

Fixpoint st_le (n : nat) (m : mem) (a v : Z) : res mem :=
  match n with
  | O => Ok m
  | S n' => let* m1 := st8 m a (v mod 256) in st_le n' m1 (a + 1) (v / 256)
  end.

Definition ld64 : mem -> Z -> res Z := ld_le 8.
Definition st64 : mem -> Z -> Z -> res mem := st_le 8.

(** [n] consecutive bytes from [a] set to [c]. *)
Fixpoint fill (n : nat) (m : mem) (a c : Z) : res mem :=
  match n with
  | O => Ok m
  | S n' => let* m1 := st8 m a c in fill n' m1 (a + 1) c
  end.

(** ** Basic facts *)

Lemma mapped_mono m a n b k :
  mapped m a n -> a <= b -> b + k <= a + n -> mapped m b k.
Proof.
  intros H Hb Hk i Hi. replace (b + i) with (a + (b - a + i)) by lia. apply H. lia.
Qed.

Lemma mapped_lookup m a n b : mapped m a n -> a <= b < a + n -> is_Some (m !! b).
Proof. intros H Hb. replace b with (a + (b - a)) by lia. apply H. lia. Qed.

Lemma mapped_dom m m' a n : dom m' = dom m -> mapped m a n -> mapped m' a n.
Proof.
  intros Hd H i Hi. apply elem_of_dom. rewrite Hd. apply elem_of_dom. by apply H.
Qed.

Lemma same_outside_refl m a n : same_outside m m a n.
Proof. done. Qed.

Lemma same_outside_trans m1 m2 m3 a n :
  same_outside m1 m2 a n -> same_outside m2 m3 a n -> same_outside m1 m3 a n.
Proof. intros H1 H2 b Hb. rewrite H2, H1; done. Qed.

Lemma same_outside_mono m m' a n b k :
  same_outside m m' a n -> b <= a -> a + n <= b + k -> same_outside m m' b k.
Proof. intros H Ha Hk c Hc. apply H. lia. Qed.

Lemma mem_ok_insert m a v : mem_ok m -> byte_ok v -> mem_ok (<[a := v]> m).
Proof. intros. by apply map_Forall_insert_2. Qed.

Lemma mem_ok_lookup m a b : mem_ok m -> m !! a = Some b -> byte_ok b.
Proof. intros H E. exact (H a b E). Qed.

Lemma st8_ok m a v :
  is_Some (m !! a) -> st8 m a v = Ok (<[a := u8 v]> m).
Proof. intros [b E]. unfold st8. by rewrite E. Qed.

Lemma dom_insert_is_Some (m : mem) a v : is_Some (m !! a) -> dom (<[a := v]> m) = dom m.
Proof. intros H. apply dom_insert_lookup_L. done. Qed.

Lemma u8_byte_ok v : byte_ok (u8 v).
Proof. apply u8_range. Qed.

(** ** Loads depend only on the bytes they read *)

Lemma ld_le_ext n : forall (m m' : mem) a,
  (forall b, a <= b < a + Z.of_nat n -> m' !! b = m !! b) ->
  ld_le n m' a = ld_le n m a.
Proof.
  induction n as [|n IH]; intros m m' a H; cbn [ld_le]; [done|].
  unfold ld8. rewrite H by lia. destruct (m !! a); simpl; [|done].
  rewrite (IH m m' (a + 1)); [done|]. intros b Hb. apply H. lia.
Qed.

Lemma ld_le_outside n (m m' : mem) a b k :
  same_outside m m' b k -> (a + Z.of_nat n <= b \/ b + k <= a) ->
  ld_le n m' a = ld_le n m a.
Proof. intros H Hd. apply ld_le_ext. intros c Hc. apply H. lia. Qed.

Lemma ld_le_ok n : forall m a, mem_ok m -> mapped m a (Z.of_nat n) ->
  exists v, ld_le n m a = Ok v /\ 0 <= v < 256 ^ Z.of_nat n.
Proof.
  induction n as [|n IH]; intros m a Hm Ha; cbn [ld_le].
  - exists 0. split; [done|]. change (256 ^ Z.of_nat 0) with 1. lia.
  - destruct (Ha 0) as [b Eb]; [lia|]. rewrite Z.add_0_r in Eb.
    unfold ld8. rewrite Eb. simpl.
    destruct (IH m (a + 1)) as (v & -> & Hv); [done | |].
    { eapply mapped_mono; [exact Ha | lia | lia]. }
    simpl. exists (b + 256 * v). split; [done|].
    pose proof (mem_ok_lookup _ _ _ Hm Eb) as Hb. unfold byte_ok in Hb.
    rewrite Nat2Z.inj_succ, Z.pow_succ_r by lia. nia.
Qed.

(** ** What a store does *)

Record stored (m m' : mem) (a n : Z) : Prop := mkStored {
  stored_dom : dom m' = dom m;
  stored_out : same_outside m m' a n;
  stored_ok : mem_ok m -> mem_ok m'
}.

Lemma stored_refl m a n : stored m m a n.
Proof. split; done. Qed.

Lemma stored_trans m1 m2 m3 a n :
  stored m1 m2 a n -> stored m2 m3 a n -> stored m1 m3 a n.
Proof.
  intros [? ? ?] [? ? ?]. split; [congruence | eauto using same_outside_trans | auto].
Qed.

Lemma stored_mono m m' a n b k :
  stored m m' a n -> b <= a -> a + n <= b + k -> stored m m' b k.
Proof. intros [? ? ?] Ha Hn. split; eauto using same_outside_mono. Qed.

Lemma stored_mapped m m' a n b k : stored m m' a n -> mapped m b k -> mapped m' b k.
Proof. intros [Hd _ _]. by apply mapped_dom. Qed.

Lemma st8_stored m a v m' : st8 m a v = Ok m' -> stored m m' a 1.
Proof.
  unfold st8. destruct (m !! a) eqn:E; [|discriminate]. intros [= <-]. split.
  - apply dom_insert_is_Some. eauto.
  - intros b Hb. apply lookup_insert_ne. lia.
  - intros. apply mem_ok_insert; auto using u8_byte_ok.
Qed.

Lemma st_le_spec n : forall m a v, mapped m a (Z.of_nat n) ->
  exists m', st_le n m a v = Ok m' /\ stored m m' a (Z.of_nat n) /\
    ld_le n m' a = Ok (v mod 256 ^ Z.of_nat n).
Proof.
  induction n as [|n IH]; intros m a v Ha; cbn [st_le ld_le].
  - exists m. rewrite Z.pow_0_r, Z.mod_1_r. auto using stored_refl.
  - assert (is_Some (m !! a)) as Hs by (apply (mapped_lookup _ _ _ _ Ha); lia).
    pose proof (st8_ok m a (v mod 256) Hs) as E1. rewrite E1. simpl.
    pose proof (st8_stored _ _ _ _ E1) as S1.
    destruct (IH (<[a:=u8 (v mod 256)]> m) (a + 1) (v / 256)) as (m' & -> & S2 & L).
    { eapply stored_mapped; [exact S1|]. eapply mapped_mono; [exact Ha | lia | lia]. }
    exists m'. split; [done|]. split.
    { eapply stored_trans; eapply stored_mono; [exact S1 | lia | lia | exact S2 | lia | lia]. }
    rewrite L. unfold ld8. rewrite (stored_out _ _ _ _ S2) by lia.
    rewrite lookup_insert_eq. simpl. f_equal.
    rewrite u8_id by (apply Z.mod_pos_bound; lia).
    rewrite Nat2Z.inj_succ, Z.pow_succ_r by lia.
    rewrite Z.rem_mul_r by lia. lia.
Qed.

Lemma fill_spec n : forall m a c, mapped m a (Z.of_nat n) ->
  exists m', fill n m a c = Ok m' /\ stored m m' a (Z.of_nat n) /\
    (forall b, a <= b < a + Z.of_nat n -> m' !! b = Some (u8 c)).
Proof.
  induction n as [|n IH]; intros m a c Ha; cbn [fill].
  - exists m. split; [done|]. split; [apply stored_refl | lia].
  - assert (is_Some (m !! a)) as Hs by (apply (mapped_lookup _ _ _ _ Ha); lia).
    pose proof (st8_ok m a c Hs) as E1. rewrite E1. simpl.
    pose proof (st8_stored _ _ _ _ E1) as S1.
    destruct (IH (<[a:=u8 c]> m) (a + 1) c) as (m' & -> & S2 & L).
    { eapply stored_mapped; [exact S1|]. eapply mapped_mono; [exact Ha | lia | lia]. }
    exists m'. split; [done|]. split.
    { eapply stored_trans; eapply stored_mono; [exact S1 | lia | lia | exact S2 | lia | lia]. }
    intros b Hb. destruct (decide (b = a)) as [->|].
    + rewrite (stored_out _ _ _ _ S2) by lia. apply lookup_insert_eq.
    + apply L. lia.
Qed.

(** A load from bytes that are all zero is zero. *)
Lemma ld_le_zero n : forall m a,
  (forall b, a <= b < a + Z.of_nat n -> m !! b = Some 0) -> ld_le n m a = Ok 0.
Proof.
  induction n as [|n IH]; intros m a H; cbn [ld_le]; [done|].
  unfold ld8. rewrite H by lia. simpl. rewrite IH; [done|]. intros b Hb. apply H. lia.
Qed.

Lemma ld64_st64 m a v : mapped m a 8 ->
  exists m', st64 m a v = Ok m' /\ stored m m' a 8 /\ ld64 m' a = Ok (u64 v).
Proof.
  intros H. destruct (st_le_spec 8 m a v H) as (m' & E & S & L).
  exists m'. split; [done|]. split; [done|]. unfold ld64. rewrite L. done.
Qed.

(** ** Concrete memories *)

(** ** Blocks of bytes *)

Fixpoint ld_list (n : nat) (m : mem) (a : Z) : res (list Z) :=
  match n with
  | O => Ok []
  | S n' => let* b := ld8 m a in let* l := ld_list n' m (a + 1) in Ok (b :: l)
  end.

Fixpoint st_list (m : mem) (a : Z) (l : list Z) : res mem :=
  match l with
  | [] => Ok m
  | b :: l' => let* m := st8 m a b in st_list m (a + 1) l'
  end.

Lemma ld_list_ok n : forall m a l, length l = n ->
  (forall i, 0 <= i < Z.of_nat n -> m !! (a + i) = l !! Z.to_nat i) -> ld_list n m a = Ok l.
Proof.
  induction n as [|n IH]; intros m a l Hl H; destruct l as [|b l]; try done. cbn [ld_list length] in *.
  pose proof (H 0 ltac:(lia)) as H0. rewrite Z.add_0_r in H0. unfold ld8. rewrite H0.
  cbn [Z.to_nat lookup list_lookup deref res_bind]. rewrite (IH m (a + 1) l); [done | lia |].
  intros i Hi. replace (a + 1 + i) with (a + (i + 1)) by lia. rewrite H by lia.
  by replace (Z.to_nat (i + 1)) with (S (Z.to_nat i)) by lia.
Qed.

Lemma st_list_ok l : forall m a, Forall byte_ok l -> mapped m a (Z.of_nat (length l)) ->
  exists m', st_list m a l = Ok m' /\ stored m m' a (Z.of_nat (length l)) /\
    forall i, 0 <= i < Z.of_nat (length l) -> m' !! (a + i) = l !! Z.to_nat i.
Proof.
  induction l as [|b l IH]; intros m a Hl Hm; cbn [st_list length] in *.
  { exists m. split; [done|]. split; [apply stored_refl | lia]. }
  apply Forall_cons in Hl as [Hb Hl].
  assert (is_Some (m !! a)) as Ha by (apply (mapped_lookup _ _ _ _ Hm); lia).
  pose proof (st8_ok m a b Ha) as E. pose proof (st8_stored _ _ _ _ E) as S1. rewrite E. cbn [res_bind].
  destruct (IH (<[a := u8 b]> m) (a + 1) Hl) as (m' & E' & S2 & H).
  { eapply stored_mapped; [exact S1|]. eapply mapped_mono; [exact Hm | lia | lia]. }
  exists m'. split; [done|]. split.
  - eapply stored_trans; [eapply stored_mono; [exact S1 | lia | lia]|].
    eapply stored_mono; [exact S2 | lia | lia].
  - intros i Hi. destruct (decide (i = 0)) as [->|].
    + rewrite (stored_out _ _ _ _ S2) by lia. rewrite Z.add_0_r, lookup_insert_eq.
      by rewrite (u8_id b) by (unfold byte_ok in Hb; lia).
    + replace (a + i) with (a + 1 + (i - 1)) by lia. rewrite H by lia.
      by replace (Z.to_nat i) with (S (Z.to_nat (i - 1))) by lia.
Qed.

(** The bytes [l] at [a] and nothing else. *)
Fixpoint mem_list (a : Z) (l : list Z) : mem :=
  match l with
  | [] => ∅
  | c :: l' => <[a := c]> (mem_list (a + 1) l')
  end.

(** [n] bytes [c] from [a]. *)
Definition mem_const (a n c : Z) : mem := list_to_map ((fun i => (i, c)) <$> seqZ a n).

Lemma mem_const_lookup a n c i : mem_const a n c !! i =
  if decide (a <= i < a + n) then Some c else None.
Proof.
  unfold mem_const. destruct (decide (a <= i < a + n)).
  - apply elem_of_list_to_map_1'.
    + intros y Hy. apply list_elem_of_fmap in Hy. naive_solver.
    + apply list_elem_of_fmap. exists i. split; [done|]. by apply elem_of_seqZ.
  - apply not_elem_of_list_to_map_1. rewrite <- list_fmap_compose, list_elem_of_fmap.
    intros (j & -> & Hj%elem_of_seqZ). done.
Qed.

Lemma mem_const_ok a n c : byte_ok c -> mem_ok (mem_const a n c).
Proof. intros Hc i b. rewrite mem_const_lookup. case_decide; naive_solver. Qed.

Lemma mem_const_mapped a n c : mapped (mem_const a n c) a n.
Proof. intros i Hi. rewrite mem_const_lookup, decide_True by lia. eauto. Qed.

(** ** Memory the kernel asks for *)

(** [kzalloc(n)], which returned [buf]. *)
Definition kzalloc (m : mem) (buf n : Z) : res mem :=
  if buf =? 0 then Ok m else fill (Z.to_nat (s32 n)) m buf 0.

Lemma kzalloc_ok m buf n : buf <> 0 -> 0 <= n < 2 ^ 31 -> mapped m buf n ->
  exists m', kzalloc m buf n = Ok m' /\ stored m m' buf n /\
    forall i, 0 <= i < n -> m' !! (buf + i) = Some 0.
Proof.
  intros Hb Hn Hm. unfold kzalloc. rewrite (proj2 (Z.eqb_neq _ _) Hb), s32_id by lia.
  destruct (fill_spec (Z.to_nat n) m buf 0) as (m' & E & S & H); rewrite Z2Nat.id in * by lia; [done|].
  exists m'. split; [done|]. split; [done|]. intros i Hi. by rewrite H by lia.
Qed.

#[global] Instance mem_ok_dec m : Decision (mem_ok m).
Proof. unfold mem_ok. apply _. Defined.

Lemma mapped_dec m a n :
  forallb (fun i => bool_decide (is_Some (m !! i))) (seqZ a n) = true -> mapped m a n.
Proof.
  rewrite forallb_forall. intros H i Hi. apply (bool_decide_unpack _), Is_true_true, H.
  apply list_elem_of_In, elem_of_seqZ. lia.
Qed.

#[export] Hint Resolve stored_refl same_outside_refl mem_ok_insert u8_byte_ok : csem.
