(* ===== verification/Lock.v ===== *)
(** The mutex of src/src/lock.c (src/sbi/src/lock.c is the same code).

    [mutex_trylock], [mutex_spinlock] and [mutex_unlock] act on one word with an
    atomic swap. The second half runs any number of harts that use the lock
    around a critical section, one atomic step at a time, in any interleaving. *)
From S2P Require Import Prelude.

Inductive Mutex := MUTEX_UNLOCKED | MUTEX_LOCKED.

#[export] Instance Mutex_eq_dec : EqDecision Mutex.
Proof. solve_decision. Defined.

(** [amoswap.w.aq old, MUTEX_LOCKED, (mutex)]; the result is [old != MUTEX_LOCKED]. *)
Definition mutex_trylock (m : Mutex) : bool * Mutex :=
  (bool_decide (m <> MUTEX_LOCKED), MUTEX_LOCKED).

(** [while (!mutex_trylock(mutex));] as seen by the one hart that runs: when the
    lock is taken nobody else will release it, and the loop never ends. *)
Definition mutex_spinlock (m : Mutex) : res Mutex :=
  let '(got, m') := mutex_trylock m in if got then Ok m' else Hang.

(** [amoswap.w.rl zero, zero, (mutex)]: unlocks whoever holds it. *)
Definition mutex_unlock (_ : Mutex) : Mutex := MUTEX_UNLOCKED.

Lemma spinlock_ok m m' : mutex_spinlock m = Ok m' -> m = MUTEX_UNLOCKED /\ m' = MUTEX_LOCKED.
Proof. destruct m; vm_compute; naive_solver. Qed.

(** ** Harts around one lock *)

Inductive pc := Idle | Spinning | Critical.

#[export] Instance pc_eq_dec : EqDecision pc.
Proof. solve_decision. Defined.

Record system := mkSystem { lk : Mutex; pcs : gmap nat pc }.

(** One atomic step of one hart. A spinning hart executes one [mutex_trylock]. *)
Inductive step : system -> system -> Prop :=
| step_enter s h :
    pcs s !! h = Some Idle ->
    step s (mkSystem (lk s) (<[h := Spinning]> (pcs s)))
| step_try s h got m' :
    pcs s !! h = Some Spinning ->
    mutex_trylock (lk s) = (got, m') ->
    step s (mkSystem m' (<[h := if got then Critical else Spinning]> (pcs s)))
| step_unlock s h :
    pcs s !! h = Some Critical ->
    step s (mkSystem (mutex_unlock (lk s)) (<[h := Idle]> (pcs s))).

Definition initial (s : system) : Prop :=
  lk s = MUTEX_UNLOCKED /\ map_Forall (fun _ p => p = Idle) (pcs s).

Definition reachable (s : system) : Prop := exists s0, initial s0 /\ rtc step s0 s.

(** The invariant: the word is [MUTEX_LOCKED] exactly when some hart is in its
    critical section, and then only one is. *)
Definition lock_inv (s : system) : Prop :=
  (forall h1 h2, pcs s !! h1 = Some Critical -> pcs s !! h2 = Some Critical -> h1 = h2) /\
  (lk s = MUTEX_LOCKED <-> exists h, pcs s !! h = Some Critical).

Lemma initial_inv s : initial s -> lock_inv s.
Proof.
  intros [Hu Hi]. split.
  - intros h1 h2 H1 _. specialize (Hi _ _ H1). discriminate.
  - rewrite Hu. split; [done|]. intros [h Hh]. specialize (Hi _ _ Hh). discriminate.
Qed.

(** Moving hart [h] between two places outside the critical section. *)
Lemma critical_insert_ne (p : gmap nat pc) h q h' :
  p !! h <> Some Critical -> q <> Critical ->
  <[h := q]> p !! h' = Some Critical <-> p !! h' = Some Critical.
Proof.
  intros Hp Hq. destruct (decide (h = h')) as [->|].
  - rewrite lookup_insert_eq. naive_solver.
  - by rewrite lookup_insert_ne.
Qed.

Lemma step_inv s s' : lock_inv s -> step s s' -> lock_inv s'.
Proof.
  intros [Hex Hlk] Hstep. destruct Hstep as [s h Hh | s h got m' Hh Ht | s h Hh];
    unfold lock_inv; cbn [lk pcs].
  - assert (pcs s !! h <> Some Critical) by congruence.
    setoid_rewrite critical_insert_ne; done.
  - destruct (lk s) eqn:El; vm_compute in Ht; injection Ht as <- <-.
    + assert (forall h', pcs s !! h' <> Some Critical) as Hno.
      { intros h' E. assert (MUTEX_UNLOCKED = MUTEX_LOCKED) by (apply Hlk; eauto). done. }
      assert (forall h', <[h:=Critical]> (pcs s) !! h' = Some Critical -> h' = h) as Hone.
      { intros h' E. destruct (decide (h = h')); [done|].
        rewrite lookup_insert_ne in E by done. by destruct (Hno h'). }
      split.
      * intros h1 h2 E1 E2. apply Hone in E1, E2. congruence.
      * split; [|done]. intros _. exists h. apply lookup_insert_eq.
    + assert (pcs s !! h <> Some Critical) by congruence.
      setoid_rewrite critical_insert_ne; done.
  - assert (forall h', <[h:=Idle]> (pcs s) !! h' <> Some Critical) as Hno.
    { intros h' E. destruct (decide (h = h')) as [->|].
      - rewrite lookup_insert_eq in E. done.
      - rewrite lookup_insert_ne in E by done. eauto. }
    split; [naive_solver|]. split; [done|]. intros [h' E]. by destruct (Hno h').
Qed.

Lemma reachable_inv s : reachable s -> lock_inv s.
Proof.
  intros (s0 & Hi & Hs). apply initial_inv in Hi.
  induction Hs as [|s0 s1 s Hst _ IH]; [done|]. eauto using step_inv.
Qed.

(** (C38) Mutual exclusion and no lost lock: in every interleaving at most one
    hart is between [mutex_spinlock] and [mutex_unlock]; and whenever no hart is,
    any spinning hart's next [mutex_trylock] acquires the lock. *)
Theorem mutex_mutual_exclusion s :
  reachable s ->
  (forall h1 h2, pcs s !! h1 = Some Critical -> pcs s !! h2 = Some Critical -> h1 = h2) /\
  ((forall h, pcs s !! h <> Some Critical) -> fst (mutex_trylock (lk s)) = true).
Proof.
  intros [Hex Hlk]%reachable_inv. split; [done|]. intros Hno.
  destruct (lk s); [done|]. destruct (proj1 Hlk) as [h Hh]; [done|]. by destruct (Hno h).
Qed.

Lemma mutex_mutual_exclusion_witness :
  let s := mkSystem MUTEX_LOCKED {[ 0%nat := Critical; 1%nat := Spinning ]} in
  reachable s /\
  ((forall h1 h2, pcs s !! h1 = Some Critical -> pcs s !! h2 = Some Critical -> h1 = h2) /\
   ((forall h, pcs s !! h <> Some Critical) -> fst (mutex_trylock (lk s)) = true)).
Proof.
  set (s := mkSystem MUTEX_LOCKED {[ 0%nat := Critical; 1%nat := Spinning ]}).
  assert (reachable s) as Hr.
  { exists (mkSystem MUTEX_UNLOCKED {[ 0%nat := Idle; 1%nat := Idle ]}). split.
    - split; [done|]. computed.
    - eapply rtc_l; [apply (step_enter _ 0%nat); reflexivity|].
      eapply rtc_l; [apply (step_enter _ 1%nat); reflexivity|].
      eapply rtc_l; [eapply (step_try _ 0%nat); reflexivity|]. apply rtc_refl. }
  split; [exact Hr | exact (mutex_mutual_exclusion s Hr)].
Defined.
