(* ===== verification/Util.v ===== *)
(** The memory and string utilities of src/util/src/util.c (src/user/libc/string.c holds
    copies of most of them) over the byte memory of [Mem].

    [char] is unsigned, as on RISC-V. Scans of a string carry fuel [scan_fuel m],
    one more than the number of bytes the memory holds: every iteration reads a
    new address, so a scan that is still running has left the memory ([Ub]). *)
From S2P Require Import Prelude Mem.

(** ** memset, memcpy, memmove, memcmp *)

(** [char l[] = {data x 8}] read back as one [long]. *)
Definition splat8 (data : Z) : Z := data * 0x0101010101010101.

Definition memset (m : mem) (dst data size : Z) : res mem :=
  let num_8_byte_copies := Z.quot size 8 in
  let num_1_byte_copies := Z.rem size 8 in
  let* m1 := for_up (Z.to_nat num_8_byte_copies) 0
               (fun i m => st64 m (dst + 8 * i) (splat8 (u8 data))) m in
  for_up (Z.to_nat num_1_byte_copies) 0
    (fun i m => st8 m (dst + 8 * num_8_byte_copies + i) data) m1.

Definition memcpy (m : mem) (dst src size : Z) : res mem :=
  let num_8_byte_copies := Z.quot size 8 in
  let num_1_byte_copies := Z.rem size 8 in
  let* m1 := for_up (Z.to_nat num_8_byte_copies) 0
               (fun i m => let* w := ld64 m (src + 8 * i) in st64 m (dst + 8 * i) w) m in
  for_up (Z.to_nat num_1_byte_copies) 0
    (fun i m => let* b := ld8 m (src + 8 * num_8_byte_copies + i) in
                st8 m (dst + 8 * num_8_byte_copies + i) b) m1.

Definition copy_up (m : mem) (dst src n : Z) : res mem :=
  for_up (Z.to_nat n) 0 (fun i m => let* b := ld8 m (src + i) in st8 m (dst + i) b) m.

Definition copy_down (m : mem) (dst src n : Z) : res mem :=
  for_up (Z.to_nat n) 0
    (fun i m => let* b := ld8 m (src + n - 1 - i) in st8 m (dst + n - 1 - i) b) m.

Definition memmove (m : mem) (dst src n : Z) : res mem :=
  if n =? 0 then Ok m
  else if (src <? dst) && (src + n >? dst) then copy_down m dst src n
  else copy_up m dst src n.

Definition memcmp (m : mem) (hay need size : Z) : res Z :=
  let last i := let* h := ld8 m (hay + i) in let* n := ld8 m (need + i) in Ok (h - n) in
  loop (S (Z.to_nat size))
    (fun i => if i <? size - 1
              then let* d := last i in if d =? 0 then Ok (Next (i + 1)) else Ok (Done d)
              else let* d := last i in Ok (Done d)) 0.

(** ** Strings *)

Definition scan_fuel (m : mem) : nat := S (size m).

Definition strlen (m : mem) (s : Z) : res Z :=
  loop (scan_fuel m)
    (fun len => let* c := ld8 m (s + len) in
                if c =? 0 then Ok (Done len) else Ok (Next (len + 1))) 0.

Definition strcmp (m : mem) (l r : Z) : res Z :=
  loop (scan_fuel m)
    (fun i => let* c1 := ld8 m (l + i) in
              let* c2 := ld8 m (r + i) in
              if c1 =? 0 then Ok (Done (s32 (u32 (c1 - c2))))
              else if c1 =? c2 then Ok (Next (i + 1))
              else Ok (Done (s32 (u32 (c1 - c2))))) 0.

(** One comparison of [strncmp]: [Done] is its early return. *)
Definition cmp1 (m : mem) (left right : Z) : res (ctl Z Z) :=
  let* c1 := ld8 m left in
  let* c2 := ld8 m right in
  if (c1 =? 0) || negb (c1 =? c2) then Ok (Done (s32 (u32 (c1 - c2))))
  else Ok (Next (s32 (u32 (c1 - c2)))).

(** The four comparisons of one turn of the unrolled loop. *)
Definition cmp4 (m : mem) (left right : Z) : res (ctl Z Z) :=
  let* a := cmp1 m left right in
  match a with Done d => Ok (Done d) | Next _ =>
  let* b := cmp1 m (left + 1) (right + 1) in
  match b with Done d => Ok (Done d) | Next _ =>
  let* c := cmp1 m (left + 2) (right + 2) in
  match c with Done d => Ok (Done d) | Next _ =>
  cmp1 m (left + 3) (right + 3) end end end.

Definition strncmp (m : mem) (left right n : Z) : res Z :=
  let tail st :=
    let '(i, n, last) := st in
    loop (S (Z.to_nat n))
      (fun '(i, n, last) =>
         if n >? 0 then
           let* c := cmp1 m (left + i) (right + i) in
           match c with
           | Done d => Ok (Done d)
           | Next d => Ok (Next (i + 1, n - 1, d))
           end
         else Ok (Done last)) (i, n, last) in
  if n >=? 4 then
    let* r := loop (S (Z.to_nat n))
      (fun '(i, n4) =>
         let* c := cmp4 m (left + i) (right + i) in
         match c with
         | Done d => Ok (Done (inl d))
         | Next d => if n4 - 1 >? 0 then Ok (Next (i + 4, n4 - 1))
                     else Ok (Done (inr (i + 4, d)))
         end) (0, Z.shiftr n 2) in
    match r with
    | inl d => Ok d
    | inr (i, d) => tail (i, Z.land n 3, d)
    end
  else tail (0, n, 0).

Definition strfindchr (m : mem) (r t : Z) : res Z :=
  loop (scan_fuel m)
    (fun i => let* c := ld8 m (r + i) in
              if c =? t then Ok (Done i)
              else if c =? 0 then Ok (Done (-1))
              else Ok (Next (i + 1))) 0.

Definition strcpy (m : mem) (dest s : Z) : res mem :=
  loop (scan_fuel m)
    (fun '(i, m) => let* c := ld8 m (s + i) in
                    if c =? 0 then let* m1 := st8 m (dest + i) 0 in Ok (Done m1)
                    else let* m1 := st8 m (dest + i) c in Ok (Next (i + 1, m1))) (0, m).

(** [block] is what g_kmalloc returns. The length is an [int]. *)
Definition strdup (m : mem) (block src : Z) : res (Z * mem) :=
  let* len := strlen m src in
  let ret := block in
  if ret =? 0 then Ok (0, m) else let* m := strcpy m ret src in Ok (ret, m).

Definition strncpy (m : mem) (dest s n : Z) : res mem :=
  loop (S (Z.to_nat n))
    (fun '(i, n, m) =>
       let* c := ld8 m (s + i) in
       if c =? 0 then let* m1 := st8 m (dest + i) 0 in Ok (Done m1)
       else if n >? 0 then let* m1 := st8 m (dest + i) c in Ok (Next (i + 1, n - 1, m1))
       else let* m1 := st8 m (dest + i) 0 in Ok (Done m1)) (0, n, m).

(** The comparison loop of [strstartswith] and [strendswith]. *)
Definition same_bytes (m : mem) (a b len : Z) : res bool :=
  loop (S (Z.to_nat len))
    (fun i => if i <? len then
                let* c := ld8 m (a + i) in
                let* d := ld8 m (b + i) in
                if c =? d then Ok (Next (i + 1)) else Ok (Done false)
              else Ok (Done true)) 0.

Definition strstartswith (m : mem) (src start : Z) : res bool :=
  let* src_len := strlen m src in
  let* start_len := strlen m start in
  if src_len <? start_len then Ok false else same_bytes m src start start_len.

Definition strendswith (m : mem) (src end_ : Z) : res bool :=
  let* src_len := strlen m src in
  let* end_len := strlen m end_ in
  let cmp := src_len - end_len in
  if src_len <? end_len then Ok false else same_bytes m (src + cmp) end_ end_len.

Definition is_digit (c : Z) : bool := (48 <=? c) && (c <=? 57).

(** [atoi]: an optional minus, then digits from the last to the first. Signed
    arithmetic wraps, as the generated instructions do. *)
Definition atoi (m : mem) (st : Z) : res Z :=
  let* c0 := ld8 m st in
  let n := c0 =? 45 in
  let st := if n then st + 1 else st in
  let* l := loop (scan_fuel m)
              (fun l => let* c := ld8 m (st + l) in
                        if is_digit c then Ok (Next (l + 1)) else Ok (Done l)) 0 in
  let* rp := for_up (Z.to_nat l) 0
              (fun k '(r, p) => let* c := ld8 m (st + (l - 1 - k)) in
                 Ok (s32 (r + p * (c - 48)), s32 (p * 10))) (0, 1) in
  let r := fst rp in
  Ok (if n then s32 (- r) else r).

(** ** Strings in memory *)

Fixpoint cstr (m : mem) (a : Z) (s : list Z) : Prop :=
  match s with
  | [] => m !! a = Some 0
  | c :: s' => c <> 0 /\ m !! a = Some c /\ cstr m (a + 1) s'
  end.

Lemma cstr_in m s : forall a i, cstr m a s -> 0 <= i <= Z.of_nat (length s) ->
  is_Some (m !! (a + i)).
Proof.
  induction s as [|c s IH]; intros a i H Hi; cbn [cstr length] in *.
  - replace (a + i) with a by lia. eauto.
  - destruct H as (_ & Hc & H). destruct (decide (i = 0)) as [->|].
    + rewrite Z.add_0_r. eauto.
    + replace (a + i) with (a + 1 + (i - 1)) by lia. apply IH; [done | lia].
Qed.

(** [k] consecutive mapped addresses need a memory of at least [k] bytes. *)
Lemma mapped_size (m : mem) a k : mapped m a (Z.of_nat k) -> (k <= size m)%nat.
Proof.
  intros H. rewrite <- size_dom.
  assert (list_to_set (seqZ a (Z.of_nat k)) ⊆ (dom m : gset Z)) as Hsub.
  { intros b Hb. apply elem_of_list_to_set, elem_of_seqZ in Hb. apply elem_of_dom.
    apply (mapped_lookup _ _ _ _ H). lia. }
  apply subseteq_size in Hsub.
  rewrite size_list_to_set, length_seqZ in Hsub by apply NoDup_seqZ. lia.
Qed.

Lemma cstr_size m a s : cstr m a s -> (S (length s) <= size m)%nat.
Proof.
  intros H. apply (mapped_size m a). intros i Hi. eapply cstr_in; [done | lia].
Qed.

Lemma cstr_skip m s : forall a i, cstr m a s -> 0 <= i <= Z.of_nat (length s) ->
  cstr m (a + i) (drop (Z.to_nat i) s).
Proof.
  induction s as [|c s IH]; intros a i H Hi; cbn [length] in Hi.
  - replace i with 0 by lia. rewrite Z.add_0_r. done.
  - destruct (decide (i = 0)) as [->|].
    + rewrite Z.add_0_r. done.
    + destruct H as (_ & _ & H). replace (a + i) with (a + 1 + (i - 1)) by lia.
      replace (Z.to_nat i) with (S (Z.to_nat (i - 1))) by lia. apply IH; [done | lia].
Qed.

(** The byte at offset [i] of a string: its character, or the terminator. *)
Lemma cstr_at m a s i : cstr m a s -> 0 <= i <= Z.of_nat (length s) ->
  m !! (a + i) = Some (default 0 (s !! Z.to_nat i)) /\
  (default 0 (s !! Z.to_nat i) = 0 <-> i = Z.of_nat (length s)).
Proof.
  intros H Hi. pose proof (cstr_skip _ _ _ _ H Hi) as Hs.
  assert (s !! Z.to_nat i = head (drop (Z.to_nat i) s)) as Hh.
  { rewrite head_lookup, lookup_drop. f_equal. lia. }
  pose proof (length_drop s (Z.to_nat i)) as Hl.
  rewrite Hh. destruct (drop (Z.to_nat i) s) as [|c t]; cbn in *.
  - split; [done | lia].
  - destruct Hs as (? & ? & ?). split; [done|]. split; [done | lia].
Qed.

Lemma strlen_spec m a s : cstr m a s -> strlen m a = Ok (Z.of_nat (length s)).
Proof.
  intros H. unfold strlen.
  destruct (loop_total (fun len => 0 <= len <= Z.of_nat (length s))
    (fun len => Z.to_nat (Z.of_nat (length s) - len)) (fun r => r = Z.of_nat (length s))
    (fun len => let* c := ld8 m (a + len) in
                if c =? 0 then Ok (Done len) else Ok (Next (len + 1))))
    with (n := scan_fuel m) (s := 0) as (r & -> & ->); [| lia | | done].
  - intros len Hlen. destruct (cstr_at m a s len H Hlen) as [E Hz].
    unfold ld8. rewrite E. cbn [deref res_bind].
    destruct (Z.eqb_spec (default 0 (s !! Z.to_nat len)) 0).
    + right. eexists. split; [done|]. tauto.
    + left. eexists. split; [done|]. assert (len <> Z.of_nat (length s)) by tauto. lia.
  - pose proof (cstr_size m a s H). unfold scan_fuel. lia.
Qed.

(** ** Comparison of strings: the reference is the lexicographic order on bytes *)

Fixpoint str_diff (l r : list Z) : Z :=
  match l, r with
  | [], [] => 0
  | [], d :: _ => - d
  | c :: _, [] => c
  | c :: l', d :: r' => if c =? d then str_diff l' r' else c - d
  end.

Lemma str_diff_zero l : forall r, Forall (fun c => c <> 0) l -> Forall (fun c => c <> 0) r ->
  str_diff l r = 0 <-> l = r.
Proof.
  induction l as [|c l IH]; intros [|d r] Hl Hr; cbn [str_diff];
    rewrite ?Forall_cons in *; try naive_solver lia.
  destruct (Z.eqb_spec c d) as [->|].
  - rewrite IH by tauto. naive_solver.
  - split; [lia | naive_solver].
Qed.

Lemma cstr_nonzero m s : forall a, cstr m a s -> Forall (fun c => c <> 0) s.
Proof. induction s; intros a' H; constructor; cbn in H; naive_solver. Qed.

Lemma cstr_byte m s : forall a, mem_ok m -> cstr m a s -> Forall byte_ok s.
Proof.
  induction s; intros a' Hm H; constructor; cbn in H.
  - eapply mem_ok_lookup; naive_solver.
  - naive_solver.
Qed.

(** The scan of [strcmp] from offset [i]. *)
Lemma strcmp_loop m l r : mem_ok m -> forall n sl sr i, cstr m (l + i) sl -> cstr m (r + i) sr ->
  (length sl < n)%nat ->
  loop n (fun i => let* c1 := ld8 m (l + i) in
              let* c2 := ld8 m (r + i) in
              if c1 =? 0 then Ok (Done (s32 (u32 (c1 - c2))))
              else if c1 =? c2 then Ok (Next (i + 1))
              else Ok (Done (s32 (u32 (c1 - c2))))) i = Ok (str_diff sl sr).
Proof.
  intros Hm n. induction n as [|n IH]; intros sl sr i Hl Hr Hn; [lia|]. cbn [loop].
  assert (forall c d, byte_ok c -> byte_ok d -> s32 (u32 (c - d)) = c - d) as Hw.
  { intros c d Hc Hd. unfold byte_ok in *. rewrite s32_u32. apply s32_id. lia. }
  pose proof (cstr_byte _ _ _ Hm Hl) as Bl. pose proof (cstr_byte _ _ _ Hm Hr) as Br.
  assert (byte_ok 0) by (unfold byte_ok; lia).
  unfold ld8. destruct sl as [|c sl], sr as [|d sr]; cbn [cstr str_diff length] in *;
    rewrite ?Forall_cons in *.
  - rewrite Hl, Hr. done.
  - destruct Hr as (? & -> & ?). rewrite Hl. cbn. rewrite Hw by tauto. done.
  - destruct Hl as (? & -> & ?). rewrite Hr. cbn.
    rewrite (proj2 (Z.eqb_neq c 0)) by done. rewrite Hw by tauto. by rewrite Z.sub_0_r.
  - destruct Hl as (? & -> & Hl), Hr as (? & -> & Hr). cbn.
    rewrite (proj2 (Z.eqb_neq c 0)) by done. destruct (Z.eqb_spec c d) as [->|].
    + cbn. apply IH; [by rewrite Z.add_assoc | by rewrite Z.add_assoc | lia].
    + cbn. rewrite Hw by tauto. done.
Qed.

Lemma strcmp_spec m l r sl sr : mem_ok m -> cstr m l sl -> cstr m r sr ->
  strcmp m l r = Ok (str_diff sl sr).
Proof.
  intros Hm Hl Hr. apply strcmp_loop; rewrite ?Z.add_0_r; try done.
  apply cstr_size in Hl. unfold scan_fuel. lia.
Qed.

(** ** [memset]: the word-wise fill equals the byte-wise one *)

Lemma fill_app a b : forall m x c,
  fill (a + b) m x c = let* m1 := fill a m x c in fill b m1 (x + Z.of_nat a) c.
Proof.
  induction a as [|a IH]; intros m x c; cbn [fill Nat.add].
  - cbn [res_bind]. by rewrite Z.add_0_r.
  - destruct (st8 m x c); cbn [res_bind]; [|done..]. rewrite IH.
    replace (x + 1 + Z.of_nat a) with (x + Z.of_nat (S a)) by lia. done.
Qed.

Lemma st8_u8 m a v : st8 m a (u8 v) = st8 m a v.
Proof. unfold st8, u8. by rewrite Z.mod_mod by lia. Qed.

(** The number whose [n] bytes are all [d]. *)
Fixpoint splat (n : nat) (d : Z) : Z :=
  match n with O => 0 | S n' => d + 256 * splat n' d end.

Lemma st_le_splat n d : byte_ok d -> forall m a, st_le n m a (splat n d) = fill n m a d.
Proof.
  intros Hd. unfold byte_ok in Hd. induction n as [|n IH]; intros m a; cbn [st_le fill splat]; [done|].
  replace (d + 256 * splat n d) with (splat n d * 256 + d) by lia.
  rewrite Z.div_add_l, (Z.div_small d 256), Z.add_0_r by lia.
  rewrite (Z.add_comm _ d), Z.mod_add, (Z.mod_small d 256) by lia.
  destruct (st8 m a d); cbn [res_bind]; auto.
Qed.

Lemma fill_u8 n d : forall m a, fill n m a (u8 d) = fill n m a d.
Proof.
  induction n as [|n IH]; intros m a; cbn [fill]; [done|]. rewrite st8_u8.
  destruct (st8 m a d); cbn [res_bind]; auto.
Qed.

Lemma st64_splat8 m a d : st64 m a (splat8 (u8 d)) = fill 8 m a d.
Proof.
  rewrite <- (fill_u8 8 d), <- (st_le_splat 8 (u8 d) (u8_byte_ok d)). unfold st64, splat8.
  f_equal. unfold splat. lia.
Qed.

Lemma for_up_ext {S} n : forall lo (f g : Z -> S -> res S) s,
  (forall i s, f i s = g i s) -> for_up n lo f s = for_up n lo g s.
Proof.
  induction n as [|n IH]; intros lo f g s H; cbn [for_up]; [done|].
  rewrite H. destruct (g lo s); cbn [res_bind]; auto.
Qed.

Lemma for_up_fill w c n : forall lo m a,
  for_up n lo (fun i m => fill w m (a + Z.of_nat w * i) c) m =
  fill (w * n) m (a + Z.of_nat w * lo) c.
Proof.
  induction n as [|n IH]; intros lo m a; cbn [for_up].
  - by rewrite Nat.mul_0_r.
  - replace (w * S n)%nat with (w + w * n)%nat by lia. rewrite fill_app.
    destruct (fill w m _ c); cbn [res_bind]; [|done..]. rewrite IH. f_equal. lia.
Qed.

(** [memset] is the byte-by-byte fill, on every memory and for every size: the
    same bytes are written and the same accesses fault. *)
Theorem memset_fill m dst data size :
  memset m dst data size = fill (Z.to_nat size) m dst data.
Proof.
  unfold memset. destruct (Z.le_gt_cases size 0).
  - assert (Z.quot size 8 <= 0) by dlia.
    assert (Z.rem size 8 <= 0) by dlia.
    rewrite !Z2Nat.nonpos by lia. done.
  - rewrite Z.quot_div_nonneg, Z.rem_mod_nonneg by lia.
    rewrite (for_up_ext _ _ _ (fun i m => fill 8 m (dst + Z.of_nat 8 * i) data))
      by (intros; apply st64_splat8).
    rewrite for_up_fill.
    replace (Z.to_nat size) with (8 * Z.to_nat (size / 8) + Z.to_nat (size mod 8))%nat by dlia.
    rewrite fill_app, Z.mul_0_r, Z.add_0_r.
    destruct (fill _ m dst data) as [m1| | |]; cbn [res_bind]; [|done..].
    rewrite (for_up_ext _ _ _ (fun i m => fill 1 m (dst + 8 * (size / 8) + Z.of_nat 1 * i) data)).
    + rewrite for_up_fill, Nat.mul_1_l, Z.mul_0_r, Z.add_0_r.
      replace (Z.of_nat (8 * Z.to_nat (size / 8))) with (8 * (size / 8)) by dlia. done.
    + intros i s. cbn [fill]. replace (Z.of_nat 1 * i) with i by lia.
      by destruct (st8 s _ data).
Qed.

Lemma memset_spec m dst data size : 0 <= size -> mapped m dst size ->
  exists m', memset m dst data size = Ok m' /\ stored m m' dst size /\
    (forall b, dst <= b < dst + size -> m' !! b = Some (u8 data)).
Proof.
  intros Hs Hm. rewrite memset_fill.
  destruct (fill_spec (Z.to_nat size) m dst data) as (m' & ? & ? & ?);
    rewrite Z2Nat.id in * by lia; eauto.
Qed.

(** ** Copies *)

(** The [k] bytes at [dst] of [m] are the ones [m0] had at [src]. *)
Definition copied (m0 m : mem) (dst src k : Z) : Prop :=
  forall i, 0 <= i < k -> m !! (dst + i) = m0 !! (src + i).

Lemma st_le_copy n : forall m0 m src dst v, mem_ok m0 ->
  ld_le n m0 src = Ok v -> mapped m dst (Z.of_nat n) ->
  exists m', st_le n m dst v = Ok m' /\ stored m m' dst (Z.of_nat n) /\
    copied m0 m' dst src (Z.of_nat n).
Proof.
  induction n as [|n IH]; intros m0 m src dst v Hok Hv Hm; cbn [ld_le st_le] in *.
  - exists m. split; [done|]. split; [apply stored_refl|]. intros i Hi. lia.
  - unfold ld8 in Hv. destruct (m0 !! src) as [b|] eqn:Eb; cbn [deref res_bind] in Hv; [|done].
    destruct (ld_le n m0 (src + 1)) as [w| | |] eqn:Ew; cbn [res_bind] in Hv; try done.
    injection Hv as <-. pose proof (mem_ok_lookup _ _ _ Hok Eb) as Hb. unfold byte_ok in Hb.
    replace ((b + 256 * w) mod 256) with b by dlia.
    replace ((b + 256 * w) / 256) with w by dlia.
    assert (is_Some (m !! dst)) as Hs by (apply (mapped_lookup _ _ _ _ Hm); lia).
    rewrite st8_ok by done. pose proof (st8_stored _ _ _ _ (st8_ok m dst b Hs)) as S1.
    cbn [res_bind]. destruct (IH m0 (<[dst:=u8 b]> m) (src + 1) (dst + 1) w) as (m' & -> & S2 & C).
    + done.
    + done.
    + eapply stored_mapped; [exact S1|]. eapply mapped_mono; [exact Hm | lia | lia].
    + exists m'. split; [done|]. split.
      * eapply stored_trans; eapply stored_mono; [exact S1 | lia | lia | exact S2 | lia | lia].
      * intros i Hi. destruct (decide (i = 0)) as [->|].
        -- rewrite !Z.add_0_r, (stored_out _ _ _ _ S2) by lia.
           rewrite lookup_insert_eq, Eb, u8_id by lia. done.
        -- specialize (C (i - 1)). replace (dst + 1 + (i - 1)) with (dst + i) in C by lia.
           replace (src + 1 + (i - 1)) with (src + i) in C by lia. apply C. lia.
Qed.

(** One step of a copy: [w] bytes at offset [o], the offsets before it being
    copied already and the source bytes it reads being still the original ones. *)
Lemma copy_step w m0 m dst src n o :
  mem_ok m0 -> stored m0 m dst n -> mapped m0 dst n -> mapped m0 src n ->
  0 <= o -> o + Z.of_nat w <= n ->
  (forall i, o <= i < o + Z.of_nat w -> m !! (src + i) = m0 !! (src + i)) ->
  exists v m', ld_le w m (src + o) = Ok v /\ st_le w m (dst + o) v = Ok m' /\
    stored m m' (dst + o) (Z.of_nat w) /\ stored m0 m' dst n /\
    (forall i, o <= i < o + Z.of_nat w -> m' !! (dst + i) = m0 !! (src + i)).
Proof.
  intros Hok St Hd Hs Ho Hn Hsrc.
  assert (ld_le w m (src + o) = ld_le w m0 (src + o)) as El.
  { apply ld_le_ext. intros b Hb. replace b with (src + (b - src)) by lia. apply Hsrc. lia. }
  destruct (ld_le_ok w m0 (src + o) Hok) as (v & Ev & _).
  { eapply mapped_mono; [exact Hs | lia | lia]. }
  destruct (st_le_copy w m0 m (src + o) (dst + o) v Hok Ev) as (m' & E & St' & C).
  { eapply stored_mapped; [exact St|]. eapply mapped_mono; [exact Hd | lia | lia]. }
  exists v, m'. rewrite El. do 3 (split; [done|]). split.
  - eapply stored_trans; [exact St|]. eapply stored_mono; [exact St' | lia | lia].
  - intros i Hi. specialize (C (i - o)). replace (dst + o + (i - o)) with (dst + i) in C by lia.
    replace (src + o + (i - o)) with (src + i) in C by lia. apply C. lia.
Qed.

Lemma ld_le_1 m a v : ld_le 1 m a = Ok v -> ld8 m a = Ok v.
Proof.
  cbn [ld_le]. destruct (ld8 m a); cbn [res_bind]; try done. intros [= <-]. f_equal. lia.
Qed.

Lemma st_le_1 m a v m' : st_le 1 m a v = Ok m' -> st8 m a v = Ok m'.
Proof.
  cbn [st_le]. change (v mod 256) with (u8 v). rewrite st8_u8.
  by destruct (st8 m a v); cbn [res_bind].
Qed.

(** A forward copy by words of [w] bytes, started at offset [b]. *)
Lemma copy_forward w b k m0 m1 dst src n :
  mem_ok m0 -> 0 <= b -> b + Z.of_nat w * Z.of_nat k <= n ->
  mapped m0 dst n -> mapped m0 src n -> (src < dst -> src + n <= dst) ->
  stored m0 m1 dst b -> copied m0 m1 dst src b ->
  forall body, (forall i m v m', ld_le w m (src + (b + Z.of_nat w * i)) = Ok v ->
    st_le w m (dst + (b + Z.of_nat w * i)) v = Ok m' -> body i m = Ok m') ->
  exists m2, for_up k 0 body m1 = Ok m2 /\
    stored m0 m2 dst (b + Z.of_nat w * Z.of_nat k) /\
    copied m0 m2 dst src (b + Z.of_nat w * Z.of_nat k).
Proof.
  intros Hok Hb Hn Hd Hs Hdir S1 C1 body Hbody.
  destruct (for_up_total (fun i m => stored m0 m dst (b + Z.of_nat w * i) /\
      copied m0 m dst src (b + Z.of_nat w * i)) body k 0 m1) as (m2 & E & S2 & C2).
  - by rewrite Z.mul_0_r, Z.add_0_r.
  - intros i m Hi (St & C). set (o := b + Z.of_nat w * i) in *.
    assert (0 <= o) by lia. assert (o + Z.of_nat w <= n) by nia.
    destruct (copy_step w m0 m dst src (o + Z.of_nat w) o) as (v & m' & Ev & Em & S' & S0 & C');
      [done | | | | lia | lia | |].
    + eapply stored_mono; [exact St | lia | lia].
    + eapply mapped_mono; [exact Hd | lia | lia].
    + eapply mapped_mono; [exact Hs | lia | lia].
    + intros j Hj. apply (stored_out _ _ _ _ St). lia.
    + exists m'. split; [eapply Hbody; done|].
      replace (b + Z.of_nat w * (i + 1)) with (o + Z.of_nat w) by lia.
      split; [done|]. intros j Hj. destruct (decide (o <= j)).
      * apply C'. lia.
      * rewrite (stored_out _ _ _ _ S') by lia. apply C. lia.
  - rewrite Z.add_0_l in *. eauto.
Qed.

Lemma copy_up_spec m dst src n :
  mem_ok m -> 0 <= n -> mapped m dst n -> mapped m src n -> (src < dst -> src + n <= dst) ->
  exists m', copy_up m dst src n = Ok m' /\ stored m m' dst n /\ copied m m' dst src n.
Proof.
  intros Hok Hn Hd Hs Hdir. unfold copy_up.
  destruct (copy_forward 1 0 (Z.to_nat n) m m dst src n) with (body := fun i m =>
      let* b := ld8 m (src + i) in st8 m (dst + i) b) as (m' & E & St & C); try done; try lia.
  - intros i Hi. lia.
  - intros i m1 v m' Ev Em. rewrite !Z.add_0_l, !Z.mul_1_l in *.
    rewrite (ld_le_1 _ _ _ Ev). cbn [res_bind]. by apply st_le_1.
  - replace (0 + Z.of_nat 1 * Z.of_nat (Z.to_nat n)) with n in * by lia. eauto.
Qed.

(** [memcpy], for ranges that do not overlap with the source in front. *)
Lemma memcpy_spec m dst src n :
  mem_ok m -> 0 <= n -> mapped m dst n -> mapped m src n -> (src < dst -> src + n <= dst) ->
  exists m', memcpy m dst src n = Ok m' /\ stored m m' dst n /\ copied m m' dst src n.
Proof.
  intros Hok Hn Hd Hs Hdir. unfold memcpy.
  rewrite Z.quot_div_nonneg, Z.rem_mod_nonneg by lia.
  destruct (copy_forward 8 0 (Z.to_nat (n / 8)) m m dst src n) with (body := fun i m =>
      let* w := ld64 m (src + 8 * i) in st64 m (dst + 8 * i) w)
    as (m1 & -> & S1 & C1); try done; try dlia.
  - intros i Hi. lia.
  - intros i m1 v m' Ev Em. rewrite !Z.add_0_l in *. change (Z.of_nat 8) with 8 in *.
    unfold ld64. by rewrite Ev.
  - cbn [res_bind]. replace (0 + Z.of_nat 8 * Z.of_nat (Z.to_nat (n / 8))) with (8 * (n / 8)) in *
      by dlia.
    destruct (copy_forward 1 (8 * (n / 8)) (Z.to_nat (n mod 8)) m m1 dst src n) with
      (body := fun i m => let* b := ld8 m (src + 8 * (n / 8) + i) in
                          st8 m (dst + 8 * (n / 8) + i) b)
      as (m2 & E2 & S2 & C2); try done; try dlia.
    + intros i m2 v m' Ev Em. rewrite !Z.mul_1_l, !Z.add_assoc in *.
      rewrite (ld_le_1 _ _ _ Ev). cbn [res_bind]. by apply st_le_1.
    + replace (8 * (n / 8) + Z.of_nat 1 * Z.of_nat (Z.to_nat (n mod 8))) with n in * by dlia.
      eauto.
Qed.

Lemma copy_down_spec m dst src n :
  mem_ok m -> 0 <= n -> mapped m dst n -> mapped m src n -> src <= dst ->
  exists m', copy_down m dst src n = Ok m' /\ stored m m' dst n /\ copied m m' dst src n.
Proof.
  intros Hok Hn Hd Hs Hdir. unfold copy_down.
  destruct (for_up_total (fun i m1 => stored m m1 (dst + n - i) i /\
      forall j, n - i <= j < n -> m1 !! (dst + j) = m !! (src + j))
    (fun i m => let* b := ld8 m (src + n - 1 - i) in st8 m (dst + n - 1 - i) b)
    (Z.to_nat n) 0 m) as (m' & E & St & C).
  - split; [apply stored_refl | intros; lia].
  - intros i m1 Hi (St & C).
    destruct (copy_step 1 m m1 dst src n (n - 1 - i)) as (v & m' & Ev & Em & S' & S0 & C');
      try done; try lia.
    + eapply stored_mono; [exact St | lia | lia].
    + intros j Hj. apply (stored_out _ _ _ _ St). lia.
    + replace (dst + (n - 1 - i)) with (dst + n - 1 - i) in * by lia.
      replace (src + (n - 1 - i)) with (src + n - 1 - i) in * by lia.
      exists m'. rewrite (ld_le_1 _ _ _ Ev). cbn [res_bind].
      split; [by apply st_le_1|]. split.
      * eapply stored_trans; eapply stored_mono; [exact St | lia | lia | exact S' | lia | lia].
      * intros j Hj. destruct (decide (j = n - 1 - i)) as [->|].
        -- apply C'. lia.
        -- rewrite (stored_out _ _ _ _ S') by lia. apply C. lia.
  - rewrite Z.add_0_l, Z2Nat.id in * by lia. exists m'. split; [done|].
    replace (dst + n - n) with dst in St by lia. split; [done|].
    intros j Hj. apply C. lia.
Qed.

(** memmove delivers the original source bytes to the destination for every
    overlap of the two ranges, and touches nothing else. *)
Theorem memmove_correct m dst src n :
  mem_ok m -> 0 <= n -> mapped m dst n -> mapped m src n ->
  exists m', memmove m dst src n = Ok m' /\
    (forall i, 0 <= i < n -> m' !! (dst + i) = m !! (src + i)) /\
    (forall b, ~ (dst <= b < dst + n) -> m' !! b = m !! b).
Proof.
  intros Hok Hn Hd Hs. unfold memmove. destruct (Z.eqb_spec n 0) as [->|].
  - exists m. split; [done|]. split; [lia | done].
  - destruct (Z.ltb_spec src dst); destruct (src + n >? dst) eqn:E; rewrite Z.gtb_ltb in E;
      cbn [andb].
    1: destruct (copy_down_spec m dst src n) as (m' & ? & [? ? ?] & ?); [done..|lia|eauto].
    all: destruct (copy_up_spec m dst src n) as (m' & ? & [? ? ?] & ?); [done..|lia|eauto].
Qed.

Lemma memmove_correct_witness :
  exists m', memmove (mem_list 0 [1; 2; 3; 4; 5; 6; 7; 8]) 2 0 5 = Ok m' /\
    (forall i, 0 <= i < 5 -> m' !! (2 + i) = mem_list 0 [1; 2; 3; 4; 5; 6; 7; 8] !! (0 + i)) /\
    (forall b, ~ (2 <= b < 2 + 5) -> m' !! b = mem_list 0 [1; 2; 3; 4; 5; 6; 7; 8] !! b).
Proof.
  apply memmove_correct; [| lia | |].
  - by apply (bool_decide_unpack _); vm_compute.
  - by apply mapped_dec.
  - by apply mapped_dec.
Defined.

(** ** [strncmp]: the unrolled loop equals the one-character-at-a-time one *)

Fixpoint strncmp_simple (n : nat) (m : mem) (left right last : Z) : res Z :=
  match n with
  | O => Ok last
  | S n' =>
      let* c := cmp1 m left right in
      match c with
      | Done d => Ok d
      | Next d => strncmp_simple n' m (left + 1) (right + 1) d
      end
  end.

Lemma strncmp_tail m left right : forall n fuel i last, (n < fuel)%nat ->
  loop fuel (fun '(i, n, last) =>
         if n >? 0 then
           let* c := cmp1 m (left + i) (right + i) in
           match c with
           | Done d => Ok (Done d)
           | Next d => Ok (Next (i + 1, n - 1, d))
           end
         else Ok (Done last)) (i, Z.of_nat n, last)
  = strncmp_simple n m (left + i) (right + i) last.
Proof.
  induction n as [|n IH]; intros fuel i last Hf; destruct fuel as [|fuel]; try lia; cbn [loop].
  - done.
  - replace (Z.of_nat (S n) >? 0) with true by lia. cbn [strncmp_simple].
    destruct (cmp1 m (left + i) (right + i)) as [[d|d]| | |]; cbn [res_bind]; try done.
    replace (Z.of_nat (S n) - 1) with (Z.of_nat n) by lia.
    rewrite IH by lia. by rewrite !Z.add_assoc.
Qed.

Lemma cmp4_simple m left right last k :
  (let* c := cmp4 m left right in
   match c with
   | Done d => Ok d
   | Next d => strncmp_simple k m (left + 4) (right + 4) d
   end) = strncmp_simple (4 + k) m left right last.
Proof.
  cbn [strncmp_simple Nat.add]. unfold cmp4.
  destruct (cmp1 m left right) as [[?|?]| | |]; cbn [res_bind]; try done.
  destruct (cmp1 m (left + 1) (right + 1)) as [[?|?]| | |]; cbn [res_bind]; try done.
  replace (left + 1 + 1) with (left + 2) by lia. replace (right + 1 + 1) with (right + 2) by lia.
  destruct (cmp1 m (left + 2) (right + 2)) as [[?|?]| | |]; cbn [res_bind]; try done.
  replace (left + 2 + 1) with (left + 3) by lia. replace (right + 2 + 1) with (right + 3) by lia.
  destruct (cmp1 m (left + 3) (right + 3)) as [[?|?]| | |]; cbn [res_bind]; try done.
  by rewrite <- !Z.add_assoc.
Qed.

(** [k + 1] turns of the unrolled loop, then [t] single characters. *)
Lemma strncmp_blocks m left right t : forall k fuel i last, (k < fuel)%nat ->
  (let* r := loop fuel (fun '(i, n4) =>
     let* c := cmp4 m (left + i) (right + i) in
     match c with
     | Done d => Ok (Done (inl d))
     | Next d => if n4 - 1 >? 0 then Ok (Next (i + 4, n4 - 1))
                 else Ok (Done (inr (i + 4, d)))
     end) (i, Z.of_nat (S k)) in
   match r with
   | inl d => Ok d
   | inr (i, d) => strncmp_simple t m (left + i) (right + i) d
   end) = strncmp_simple (4 * S k + t) m (left + i) (right + i) last.
Proof.
  induction k as [|k IH]; intros fuel i last Hf; destruct fuel as [|fuel]; try lia;
    cbn [loop].
  all: match goal with |- _ = strncmp_simple ?a _ _ _ _ =>
         replace a with (4 + (a - 4))%nat by lia end.
  all: rewrite <- cmp4_simple.
  all: destruct (cmp4 m (left + i) (right + i)) as [[d|d]| | |]; cbn [res_bind]; try done.
  - replace (Z.of_nat 1 - 1 >? 0) with false by lia. cbn [res_bind].
    rewrite !Z.add_assoc. f_equal. lia.
  - replace (Z.of_nat (S (S k)) - 1 >? 0) with true by lia. cbn [res_bind].
    replace (Z.of_nat (S (S k)) - 1) with (Z.of_nat (S k)) by lia.
    rewrite (IH fuel (i + 4) d) by lia. rewrite !Z.add_assoc. f_equal. lia.
Qed.

(** The four-way unrolled strncmp returns what the plain character loop
    returns, faults included, for every memory, both pointers and every bound. *)
Theorem strncmp_unrolled m left right n :
  strncmp m left right n = strncmp_simple (Z.to_nat n) m left right 0.
Proof.
  unfold strncmp. destruct (n >=? 4) eqn:E.
  - change (Z.land n 3) with (Z.land n (Z.ones 2)). rewrite Z.land_ones by lia.
    rewrite Z.shiftr_div_pow2 by lia. change (2 ^ 2) with 4.
    pose proof (strncmp_blocks m left right (Z.to_nat (n mod 4)) (Z.to_nat (n / 4 - 1))
                  (S (Z.to_nat n)) 0 0) as H.
    replace (Z.of_nat (S (Z.to_nat (n / 4 - 1)))) with (n / 4) in H by dlia.
    replace (4 * S (Z.to_nat (n / 4 - 1)) + Z.to_nat (n mod 4))%nat with (Z.to_nat n) in H by dlia.
    rewrite !Z.add_0_r in H. rewrite <- H by dlia.
    destruct (loop _ _ _) as [[d|[i d]]| | |]; cbn [res_bind]; try done.
    rewrite <- (strncmp_tail m left right _ (S (Z.to_nat (n mod 4)))) by lia.
    rewrite Z2Nat.id by dlia. done.
  - destruct (Z.le_gt_cases 0 n).
    + pose proof (strncmp_tail m left right (Z.to_nat n) (S (Z.to_nat n)) 0 0) as H'.
      rewrite !Z.add_0_r, Z2Nat.id in H' by lia. apply H'. lia.
    + rewrite Z2Nat.nonpos by lia. cbn [loop]. replace (n >? 0) with false by lia. done.
Qed.

(** strcmp returns the signed difference at the first differing byte, and
    zero exactly for equal strings. *)
Theorem strcmp_correct m l r sl sr : mem_ok m -> cstr m l sl -> cstr m r sr ->
  exists d, strcmp m l r = Ok d /\ d = str_diff sl sr /\ (d = 0 <-> sl = sr).
Proof.
  intros Hm Hl Hr. exists (str_diff sl sr). split; [by apply strcmp_spec|]. split; [done|].
  apply str_diff_zero; by eapply cstr_nonzero.
Qed.

Lemma strcmp_correct_witness :
  exists d, strcmp (mem_list 16 [97; 98; 0; 97; 99; 0]) 16 19 = Ok d /\
    d = str_diff [97; 98] [97; 99] /\ (d = 0 <-> [97; 98] = [97; 99]).
Proof.
  apply strcmp_correct.
  - by apply (bool_decide_unpack _); vm_compute.
  - by repeat split.
  - by repeat split.
Defined.

(** ** Copies of strings *)

(** Only the bytes of a string matter. *)
Lemma cstr_ext m m' s : forall a,
  (forall i, 0 <= i <= Z.of_nat (length s) -> m' !! (a + i) = m !! (a + i)) -> cstr m a s -> cstr m' a s.
Proof.
  induction s as [|c s IH]; intros a He Hs; cbn [cstr length] in *.
  - by rewrite <- (Z.add_0_r a), He, Z.add_0_r by lia.
  - destruct Hs as (Hc & Ha & Hs). split; [done|]. split.
    + by rewrite <- (Z.add_0_r a), He, Z.add_0_r by lia.
    + apply IH; [|done]. intros i Hi. rewrite <- Z.add_assoc. apply He. lia.
Qed.

(** What a copy of the string [s] at [dest] leaves of the memory [m0]. *)
Definition copied_upto (m0 m : mem) (dest : Z) (s : list Z) (k : Z) : Prop :=
  stored m0 m dest (Z.of_nat (length s) + 1) /\
  forall j, 0 <= j < k -> m !! (dest + j) = s !! Z.to_nat j.

Lemma str_copy_step m0 m dest s k v : copied_upto m0 m dest s k -> mapped m0 dest (Z.of_nat (length s) + 1) ->
  0 <= k <= Z.of_nat (length s) ->
  st8 m (dest + k) v = Ok (<[dest + k := u8 v]> m) /\
  stored m0 (<[dest + k := u8 v]> m) dest (Z.of_nat (length s) + 1) /\
  (s !! Z.to_nat k = Some (u8 v) -> copied_upto m0 (<[dest + k := u8 v]> m) dest s (k + 1)).
Proof.
  intros [St Hp] Hm Hk.
  assert (E : st8 m (dest + k) v = Ok (<[dest + k := u8 v]> m)).
  { apply st8_ok, (mapped_lookup m dest (Z.of_nat (length s) + 1)); [by eapply stored_mapped | lia]. }
  assert (S1 : stored m0 (<[dest + k := u8 v]> m) dest (Z.of_nat (length s) + 1)).
  { eapply stored_trans; [exact St|]. eapply stored_mono; [exact (st8_stored _ _ _ _ E) | lia | lia]. }
  split; [done|]. split; [done|]. intros Ek. split; [done|]. intros j Hj.
  destruct (decide (j = k)) as [->|Hne]; [by rewrite lookup_insert_eq|].
  rewrite lookup_insert_ne by lia. apply Hp. lia.
Qed.

Lemma str_copy_end m0 m dest s : Forall (fun c => c <> 0) s -> copied_upto m0 m dest s (Z.of_nat (length s)) ->
  m !! (dest + Z.of_nat (length s)) = Some 0 -> cstr m dest s.
Proof.
  intros Hnz [_ Hp]. revert dest Hp. induction Hnz as [|c s Hc _ IH]; intros dest Hp H0; cbn [cstr length] in *.
  - by rewrite <- (Z.add_0_r dest).
  - split; [done|]. split.
    + rewrite <- (Z.add_0_r dest). by apply (Hp 0); lia.
    + apply IH.
      * intros j Hj. rewrite <- Z.add_assoc, (Hp (1 + j)) by lia.
        by replace (Z.to_nat (1 + j)) with (S (Z.to_nat j)) by lia.
      * rewrite <- H0. f_equal. lia.
Qed.

(** strcpy into memory that does not meet the string copies it, zero and all. *)
Lemma strcpy_ok m dest src s : mem_ok m -> cstr m src s -> mapped m dest (Z.of_nat (length s) + 1) ->
  (dest + Z.of_nat (length s) < src \/ src + Z.of_nat (length s) < dest) ->
  exists m', strcpy m dest src = Ok m' /\ stored m m' dest (Z.of_nat (length s) + 1) /\
    cstr m' dest s /\ cstr m' src s.
Proof.
  intros Hok Hs Hm Hap. unfold strcpy. set (n := Z.of_nat (length s)) in *.
  destruct (loop_total (fun '(i, x) => 0 <= i <= n /\ copied_upto m x dest s i)
    (fun '(i, _) => Z.to_nat (n - i))
    (fun x => copied_upto m x dest s n /\ x !! (dest + n) = Some 0)
    (fun '(i, m) => let* c := ld8 m (src + i) in
                    if c =? 0 then let* m1 := st8 m (dest + i) 0 in Ok (Done m1)
                    else let* m1 := st8 m (dest + i) c in Ok (Next (i + 1, m1))))
    with (n := scan_fuel m) (s := (0, m)) as (m' & E & Hc & H0).
  - intros [i x] [Hi Hc]. destruct (cstr_at m src s i Hs Hi) as [Ei Hz].
    unfold ld8. rewrite (stored_out _ _ _ _ (proj1 Hc)), Ei by (fold n; lia). cbn [deref res_bind].
    destruct (str_copy_step m x dest s i (default 0 (s !! Z.to_nat i)) Hc Hm Hi) as (E & S1 & Hnext).
    destruct (Z.eqb_spec (default 0 (s !! Z.to_nat i)) 0) as [Ez|Ez].
    + right. apply Hz in Ez as En. rewrite Ez in E. rewrite E. cbn [res_bind]. eexists. split; [done|].
      subst i. fold n. split; [|apply lookup_insert_eq]. destruct Hc as [_ Hp]. rewrite Ez in S1.
      split; [done|]. intros j Hj. rewrite lookup_insert_ne by lia. by apply Hp.
    + left. rewrite E. cbn [res_bind]. eexists. split; [done|].
      assert (i <> n) by tauto. split; [|lia]. split; [lia|]. apply Hnext.
      destruct (lookup_lt_is_Some_2 s (Z.to_nat i)) as [c Ec]; [lia|]. rewrite Ec. cbn [default]. f_equal. symmetry.
      apply u8_id. exact (Forall_lookup_1 _ _ _ _ (cstr_byte _ _ _ Hok Hs) Ec).
  - split; [lia|]. split; [apply stored_refl|]. intros j Hj. lia.
  - pose proof (cstr_size m src s Hs). unfold scan_fuel. lia.
  - exists m'. split; [exact E|]. split; [exact (proj1 Hc)|]. split.
    + by apply (str_copy_end m); [by eapply cstr_nonzero | |].
    + apply (cstr_ext m); [|done]. intros i Hi. apply (stored_out _ _ _ _ (proj1 Hc)). fold n. lia.
Qed.

(** strdup gives a copy of the string in the block it gets, which has room for it, and 0
    when it gets none. *)
Lemma strdup_ok m block src s : mem_ok m -> cstr m src s ->
  (block <> 0 -> mapped m block (Z.of_nat (length s) + 1) /\
    (block + Z.of_nat (length s) < src \/ src + Z.of_nat (length s) < block)) ->
  exists m', strdup m block src = Ok (block, m') /\
    (block = 0 -> m' = m) /\ (block <> 0 -> cstr m' block s /\ cstr m' src s).
Proof.
  intros Hok Hs Hb. unfold strdup. rewrite (strlen_spec m src s Hs). cbn [res_bind].
  destruct (Z.eqb_spec block 0) as [->|Hne]; [by exists m|].
  destruct (Hb Hne) as [Hm Hap]. destruct (strcpy_ok m block src s Hok Hs Hm Hap) as (m' & -> & _ & H1 & H2).
  by exists m'.
Qed.
