(* ===== verification/Page.v ===== *)
(** The page allocator of src/src/page.c: two bookkeeping bits per page of the
    heap, stored at the start of the heap itself, under [page_lock].

    A page's bits are 0 (free), 2 (taken, more pages of the chunk follow) or 3
    (taken, last of its chunk). The heap bounds are the linker symbols. *)
From S2P Require Import Prelude Mem Lock Util.

Definition PAGE_SIZE : Z := 4096.

Record page_state := mkPages { pmem : mem; page_lock : Mutex }.

Section page.
Context (heap_start heap_end : Z).

Definition num_pages : Z := u64 (heap_end - heap_start) / PAGE_SIZE.
Definition bk_size : Z := ALIGN_UP_POT (num_pages / 4) PAGE_SIZE.
Definition num_pages_bk : Z := bk_size / PAGE_SIZE.

(** A shift by 32 or more of an [int] is undefined: that is [page_idx = -1]. *)
Definition bk_test (m : mem) (page_idx : Z) : res Z :=
  let byte_num := u64 (Z.quot page_idx 4) in
  let bit_num := u64 (Z.rem page_idx 4 * 2) in
  let* b := ld8 m (u64 (heap_start + byte_num)) in
  if bit_num <? 32 then Ok (Z.land (Z.shiftr b bit_num) 0x3) else Ub.

Definition bk_set (m : mem) (page_idx : Z) (last : bool) : res mem :=
  let byte_num := u64 (Z.quot page_idx 4) in
  let bit_num := u64 (Z.rem page_idx 4 * 2) in
  let* b := ld8 m (u64 (heap_start + byte_num)) in
  if bit_num <? 32 then
    st8 m (u64 (heap_start + byte_num))
      (Z.lor b (Z.shiftl (0x2 + (if last then 1 else 0)) bit_num))
  else Ub.

Definition bk_clear (m : mem) (page_idx : Z) : res mem :=
  let byte_num := u64 (Z.quot page_idx 4) in
  let bit_num := u64 (Z.rem page_idx 4 * 2) in
  let* b := ld8 m (u64 (heap_start + byte_num)) in
  if bit_num <? 32 then
    st8 m (u64 (heap_start + byte_num)) (Z.land b (Z.lnot (Z.shiftl 0x3 bit_num)))
  else Ub.

Definition map_page_to_idx (page_addr : Z) : Z :=
  if (page_addr >=? heap_end) || negb (Z.land page_addr 0xfff =? 0) then -1
  else s32 (u64 (page_addr - heap_start) / PAGE_SIZE).

Definition page_init (s : page_state) : res page_state :=
  let* l := mutex_spinlock (page_lock s) in
  let* m1 := memset (pmem s) heap_start 0 (s32 bk_size) in
  let* m2 := for_up (Z.to_nat num_pages_bk) 0 (fun i m => bk_set m i true) m1 in
  Ok (mkPages m2 (mutex_unlock l)).

(** The linear search; the loop state is [(i, start_indx, pages_free)] and the
    result [(start_indx, end_indx)]. *)
Definition nalloc_search (m : mem) (n : Z) : res (Z * Z) :=
  loop (S (Z.to_nat num_pages))
    (fun '(i, start_indx, pages_free) =>
       if i <? num_pages then
         let* b := bk_test m i in
         if b >=? 2 then Ok (Next (i + 1, -1, pages_free))
         else
           let start_indx := if start_indx =? -1 then i else start_indx in
           let pages_free := pages_free + 1 in
           if pages_free =? n then Ok (Done (start_indx, i))
           else Ok (Next (i + 1, start_indx, pages_free))
       else Ok (Done (start_indx, -1))) (0, -1, 0).

Definition page_nalloc (s : page_state) (n : Z) : res (option Z * page_state) :=
  if n <=? 0 then Ok (None, s)
  else
    let* l := mutex_spinlock (page_lock s) in
    let* r := nalloc_search (pmem s) n in
    let '(start_indx, end_indx) := r in
    if end_indx =? -1 then Ok (None, mkPages (pmem s) (mutex_unlock l))
    else
      let* m1 := for_up (Z.to_nat (end_indx - start_indx)) start_indx
                   (fun i m => bk_set m i false) (pmem s) in
      let* m2 := bk_set m1 end_indx true in
      Ok (Some (u64 (heap_start + s32 (start_indx * PAGE_SIZE))), mkPages m2 (mutex_unlock l)).

Definition page_znalloc (s : page_state) (n : Z) : res (option Z * page_state) :=
  if n <=? 0 then Ok (None, s)
  else
    let* r := page_nalloc s n in
    match r with
    | (None, s1) => Ok (None, s1)
    | (Some p, s1) =>
        let* m := memset (pmem s1) p 0 (s32 (n * PAGE_SIZE)) in
        Ok (Some p, mkPages m (page_lock s1))
    end.

(** [p = 0] is [NULL]. *)
Definition page_free (s : page_state) (p : Z) : res page_state :=
  if p =? 0 then Ok s
  else
    let page_idx := map_page_to_idx p in
    if page_idx <? 0 then Ok s
    else
      let* prev := bk_test (pmem s) (page_idx - 1) in
      if prev =? 2 then Ok s
      else
        let* end_idx := loop (S (Z.to_nat num_pages))
          (fun end_idx =>
             let* b := bk_test (pmem s) end_idx in
             if negb (b =? 3) && (end_idx <? u64 (num_pages - 1)) then Ok (Next (end_idx + 1))
             else Ok (Done end_idx)) page_idx in
        let* l := mutex_spinlock (page_lock s) in
        let* m := for_up (Z.to_nat (end_idx + 1 - page_idx)) page_idx
                    (fun i m => bk_clear m i) (pmem s) in
        Ok (mkPages m (mutex_unlock l)).

Definition page_count (taken : bool) (s : page_state) : res (Z * page_state) :=
  let* l := mutex_spinlock (page_lock s) in
  let* c := for_up (Z.to_nat num_pages) 0
              (fun i c => let* b := bk_test (pmem s) i in
                 Ok (if Bool.eqb (b >=? 2) taken then s32 (c + 1) else c)) 0 in
  Ok (c, mkPages (pmem s) (mutex_unlock l)).

Definition page_count_free : page_state -> res (Z * page_state) := page_count false.
Definition page_count_taken : page_state -> res (Z * page_state) := page_count true.

(** ** The bits of one page *)

(** Slot [k] of a bookkeeping byte. *)
Definition slot (b k : Z) : Z := Z.land (Z.shiftr b (k * 2)) 3.

Definition pos4 : list Z := [0; 1; 2; 3].

Lemma pos4_in k : 0 <= k < 4 -> In k pos4.
Proof. intros. assert (k = 0 \/ k = 1 \/ k = 2 \/ k = 3) as H' by lia. cbn. intuition. Qed.

Lemma slot_set b k j (l : Z) : byte_ok b -> 0 <= k < 4 -> 0 <= j < 4 -> l = 2 \/ l = 3 ->
  slot (u8 (Z.lor b (Z.shiftl l (k * 2)))) j = if j =? k then Z.lor (slot b k) l else slot b j.
Proof.
  intros Hb Hk%pos4_in Hj%pos4_in Hl.
  assert (In l [2; 3]) as Hl' by (cbn; intuition).
  set (P b := forallb (fun k => forallb (fun j => forallb (fun l =>
    slot (u8 (Z.lor b (Z.shiftl l (k * 2)))) j =?
      if j =? k then Z.lor (slot b k) l else slot b j) [2; 3]) pos4) pos4).
  assert (P b = true) as H by (apply forall_byte; [by vm_compute | done]).
  unfold P in H. rewrite forallb_forall in H. specialize (H k Hk).
  rewrite forallb_forall in H. specialize (H j Hj).
  rewrite forallb_forall in H. specialize (H l Hl'). by apply Z.eqb_eq in H.
Qed.

Lemma slot_clear b k j : byte_ok b -> 0 <= k < 4 -> 0 <= j < 4 ->
  slot (u8 (Z.land b (Z.lnot (Z.shiftl 3 (k * 2))))) j = if j =? k then 0 else slot b j.
Proof.
  intros Hb Hk%pos4_in Hj%pos4_in.
  set (P b := forallb (fun k => forallb (fun j =>
    slot (u8 (Z.land b (Z.lnot (Z.shiftl 3 (k * 2))))) j =?
      if j =? k then 0 else slot b j) pos4) pos4).
  assert (P b = true) as H by (apply forall_byte; [by vm_compute | done]).
  unfold P in H. rewrite forallb_forall in H. specialize (H k Hk).
  rewrite forallb_forall in H. specialize (H j Hj). by apply Z.eqb_eq in H.
Qed.

(** The bits of page [i], as the code reads them. *)
Definition bits (m : mem) (i : Z) : Z :=
  slot (default 0 (m !! (heap_start + i / 4))) (i mod 4).

Record heap_ok : Prop := mkHeapOk {
  hs_pos : 0 < heap_start;
  hs_lt : heap_start < heap_end < 2 ^ 64;
  hs_aligned : heap_start mod PAGE_SIZE = 0;
  he_aligned : heap_end mod PAGE_SIZE = 0;
  hp_small : num_pages < 2 ^ 19;
  hp_bk : num_pages <= 4 * bk_size
}.
Context (Hheap : heap_ok).

Lemma num_pages_eq : num_pages = (heap_end - heap_start) / PAGE_SIZE.
Proof. destruct Hheap. unfold num_pages. by rewrite u64_id by lia. Qed.

Lemma num_pages_bytes : heap_end = heap_start + num_pages * PAGE_SIZE.
Proof. rewrite num_pages_eq. destruct Hheap. unfold PAGE_SIZE in *. dlia. Qed.

Lemma num_pages_pos : 0 < num_pages.
Proof. pose proof num_pages_bytes. destruct Hheap. unfold PAGE_SIZE in *. lia. Qed.

Lemma bk_size_eq : bk_size = num_pages_bk * PAGE_SIZE.
Proof.
  pose proof num_pages_pos. destruct Hheap. unfold num_pages_bk, bk_size.
  change PAGE_SIZE with (2 ^ 12) at 1 2 3. change PAGE_SIZE with (2 ^ 12).
  rewrite align_up_pot by dlia. rewrite Z.div_mul by lia. done.
Qed.

Lemma bk_size_bounds : num_pages / 4 <= bk_size < num_pages / 4 + PAGE_SIZE.
Proof.
  pose proof num_pages_pos. destruct Hheap. unfold bk_size, PAGE_SIZE.
  change 4096 with (2 ^ 12). apply align_up_bounds; dlia.
Qed.

Lemma bk_pages_le : 0 < num_pages_bk <= num_pages.
Proof.
  pose proof bk_size_eq. pose proof bk_size_bounds. pose proof num_pages_pos.
  destruct Hheap. unfold PAGE_SIZE in *. dlia.
Qed.

(** The allocator's memory: every page's bookkeeping byte is there. *)
Record heap_mem (m : mem) : Prop := mkHeapMem {
  hm_ok : mem_ok m;
  hm_mapped : mapped m heap_start ((num_pages + 3) / 4)
}.

Lemma heap_mem_stored m m' a n : heap_mem m -> stored m m' a n -> heap_mem m'.
Proof. intros [? ?] S. split; [by apply S | by eapply stored_mapped]. Qed.

(** The bookkeeping byte of a page. *)
Lemma bk_byte m i : heap_mem m -> 0 <= i < num_pages ->
  exists b, m !! (heap_start + i / 4) = Some b /\ byte_ok b.
Proof.
  intros [Hok Hm] Hi. destruct (Hm (i / 4)) as [b Hb].
  - dlia.
  - exists b. split; [done | by eapply mem_ok_lookup].
Qed.

Lemma bk_addr i : 0 <= i < num_pages ->
  u64 (heap_start + u64 (Z.quot i 4)) = heap_start + i / 4 /\
  u64 (Z.rem i 4 * 2) = i mod 4 * 2.
Proof.
  intros Hi. pose proof num_pages_bytes. destruct Hheap. unfold PAGE_SIZE in *.
  rewrite Z.quot_div_nonneg, Z.rem_mod_nonneg by lia.
  rewrite (u64_id (i / 4)) by dlia. rewrite !u64_id by dlia. done.
Qed.

(** [m'] is [m] with the bits of page [i] replaced by [v]. *)
Record upd_bits (m m' : mem) (i v : Z) : Prop := mkUpd {
  ub_stored : stored m m' (heap_start + i / 4) 1;
  ub_bits : forall j, 0 <= j < num_pages -> bits m' j = if j =? i then v else bits m j
}.

Lemma bk_test_ok m i : heap_mem m -> 0 <= i < num_pages -> bk_test m i = Ok (bits m i).
Proof.
  intros Hm Hi. destruct (bk_byte m i Hm Hi) as (b & Eb & _).
  destruct (bk_addr i Hi) as [Ea Es]. unfold bk_test, bits, ld8. rewrite Ea, Es, Eb. cbn.
  destruct (Z.ltb_spec (i mod 4 * 2) 32); [done | dlia].
Qed.

(** The common shape of [bk_set] and [bk_clear]: rewrite the byte of page [i]. *)
Lemma upd_byte m i b b' v : heap_mem m -> 0 <= i < num_pages ->
  m !! (heap_start + i / 4) = Some b ->
  (forall j, 0 <= j < 4 -> slot (u8 b') j = if j =? i mod 4 then v else slot b j) ->
  exists m', st8 m (heap_start + i / 4) b' = Ok m' /\ upd_bits m m' i v.
Proof.
  intros Hm Hi Eb Hs. assert (is_Some (m !! (heap_start + i / 4))) as H by eauto.
  exists (<[heap_start + i / 4 := u8 b']> m). rewrite st8_ok by done. split; [done|]. split.
  - eapply st8_stored. by apply st8_ok.
  - intros j Hj. unfold bits. destruct (decide (j / 4 = i / 4)) as [E|E].
    + rewrite E, lookup_insert_eq, Eb. cbn [default]. rewrite Hs by dlia.
      destruct (Z.eqb_spec j i) as [->|]; [by rewrite Z.eqb_refl|].
      destruct (Z.eqb_spec (j mod 4) (i mod 4)); [dlia | done].
    + rewrite lookup_insert_ne by lia. destruct (Z.eqb_spec j i); [congruence | done].
Qed.

Lemma bk_set_ok m i last : heap_mem m -> 0 <= i < num_pages ->
  exists m', bk_set m i last = Ok m' /\
    upd_bits m m' i (Z.lor (bits m i) (if last then 3 else 2)).
Proof.
  intros Hm Hi. destruct (bk_byte m i Hm Hi) as (b & Eb & Hb).
  destruct (bk_addr i Hi) as [Ea Es]. unfold bk_set, ld8. rewrite Ea, Es, Eb. cbn [deref res_bind].
  destruct (Z.ltb_spec (i mod 4 * 2) 32); [|dlia].
  eapply upd_byte; [done | done | done |]. intros j Hj. unfold bits. rewrite Eb.
  cbn [default]. destruct last; apply slot_set; auto; dlia.
Qed.

Lemma bk_clear_ok m i : heap_mem m -> 0 <= i < num_pages ->
  exists m', bk_clear m i = Ok m' /\ upd_bits m m' i 0.
Proof.
  intros Hm Hi. destruct (bk_byte m i Hm Hi) as (b & Eb & Hb).
  destruct (bk_addr i Hi) as [Ea Es]. unfold bk_clear, ld8. rewrite Ea, Es, Eb.
  cbn [deref res_bind]. destruct (Z.ltb_spec (i mod 4 * 2) 32); [|dlia].
  eapply upd_byte; [done | done | done |]. intros j Hj. apply slot_clear; auto; dlia.
Qed.

(** Changes confined to the bookkeeping bytes. *)
Definition bk_stored (m m' : mem) : Prop := stored m m' heap_start bk_size.

Lemma upd_bk_stored m m' i v : 0 <= i < num_pages -> upd_bits m m' i v -> bk_stored m m'.
Proof.
  intros Hi [S _]. eapply stored_mono; [exact S | dlia |].
  pose proof (hp_bk Hheap). dlia.
Qed.

(** A run of pages, each rewritten by [op] to [g] of its bits. *)
Lemma upd_range (op : Z -> mem -> res mem) (g : Z -> Z) k lo m :
  (forall i m, heap_mem m -> 0 <= i < num_pages ->
     exists m', op i m = Ok m' /\ upd_bits m m' i (g (bits m i))) ->
  heap_mem m -> 0 <= lo -> lo + Z.of_nat k <= num_pages ->
  exists m', for_up k lo op m = Ok m' /\ bk_stored m m' /\
    (forall j, 0 <= j < num_pages ->
       bits m' j = if (lo <=? j) && (j <? lo + Z.of_nat k) then g (bits m j) else bits m j).
Proof.
  intros Hop Hm Hlo Hk.
  apply (for_up_total (fun i m' => bk_stored m m' /\ (forall j, 0 <= j < num_pages ->
    bits m' j = if (lo <=? j) && (j <? i) then g (bits m j) else bits m j)) op).
  - split; [apply stored_refl|]. intros j Hj.
    destruct (Z.leb_spec lo j), (Z.ltb_spec j lo); try done; lia.
  - intros i m1 Hi [S1 B1].
    destruct (Hop i m1) as (m2 & E & U); [eapply heap_mem_stored; done | lia |].
    exists m2. split; [done|]. split.
    + eapply stored_trans; [exact S1|]. eapply upd_bk_stored; [|done]. lia.
    + intros j Hj. rewrite (ub_bits _ _ _ _ U) by done. rewrite !B1 by lia.
      destruct (Z.eqb_spec j i) as [->|].
      * replace (i <? i) with false by lia. replace (i <? i + 1) with true by lia.
        replace (lo <=? i) with true by lia. done.
      * replace (j <? i + 1) with (j <? i) by lia. done.
Qed.

(** ** What the linear search finds *)

(** The number of free pages among the first [k]. *)
Fixpoint nfree (m : mem) (k : nat) : Z :=
  match k with
  | O => 0
  | S k' => nfree m k' + (if bits m (Z.of_nat k') <? 2 then 1 else 0)
  end.

Lemma nfree_bounds m k : 0 <= nfree m k <= Z.of_nat k.
Proof. induction k; cbn [nfree]; [lia|]. case_match; lia. Qed.

(** [st..en] is the free run the search returns: [en] is the [n]-th free page
    and the run that holds it starts at [st]. *)
Record found (m : mem) (n st en : Z) : Prop := mkFound {
  fd_range : 0 <= st <= en /\ en < num_pages;
  fd_free : forall j, st <= j <= en -> bits m j < 2;
  fd_left : st = 0 \/ 2 <= bits m (st - 1);
  fd_count : nfree m (Z.to_nat (en + 1)) = n
}.

Lemma found_short m n st en : found m n st en -> en - st + 1 <= n.
Proof.
  intros [Hr Hf _ Hc]. rewrite <- Hc.
  assert (forall k, (k <= Z.to_nat (en - st + 1))%nat ->
    Z.of_nat k <= nfree m (Z.to_nat st + k)) as H.
  { induction k as [|k IH]; intros Hk.
    - pose proof (nfree_bounds m (Z.to_nat st + 0)). lia.
    - rewrite Nat.add_succ_r. cbn [nfree]. specialize (Hf (Z.of_nat (Z.to_nat st + k))).
      replace (_ <? 2) with true by lia. lia. }
  specialize (H (Z.to_nat (en - st + 1))).
  replace (Z.to_nat st + Z.to_nat (en - st + 1))%nat with (Z.to_nat (en + 1)) in H by lia. lia.
Qed.

Definition search_inv (m : mem) (n : Z) : Z * Z * Z -> Prop := fun '(i, st, pf) =>
  0 <= i <= num_pages /\ pf = nfree m (Z.to_nat i) /\ 0 <= pf < n /\
  ((st = -1 /\ (i = 0 \/ 2 <= bits m (i - 1))) \/
   (0 <= st < i /\ (st = 0 \/ 2 <= bits m (st - 1)) /\ forall j, st <= j < i -> bits m j < 2)).

Lemma nalloc_search_spec m n : heap_mem m -> 0 < n ->
  exists st en, nalloc_search m n = Ok (st, en) /\
    ((en = -1 /\ nfree m (Z.to_nat num_pages) < n) \/ found m n st en).
Proof.
  intros Hm Hn. pose proof num_pages_pos. unfold nalloc_search.
  edestruct (loop_total (search_inv m n) (fun '(i, _, _) => Z.to_nat (num_pages - i))
    (fun '(st, en) => (en = -1 /\ nfree m (Z.to_nat num_pages) < n) \/ found m n st en))
    as ([st en] & -> & Hq); [| | | eauto].
  - intros [[i st] pf] (Hi & -> & Hpf & Hst). destruct (Z.ltb_spec i num_pages).
    2: { right. eexists. split; [done|]. left. replace num_pages with i by lia. lia. }
    rewrite bk_test_ok by (done || lia). cbn [res_bind].
    assert (nfree m (Z.to_nat (i + 1)) =
      nfree m (Z.to_nat i) + (if bits m i <? 2 then 1 else 0)) as En.
    { replace (Z.to_nat (i + 1)) with (S (Z.to_nat i)) by lia. cbn [nfree].
      by rewrite Z2Nat.id by lia. }
    destruct (bits m i >=? 2) eqn:Eb.
    + left. eexists. split; [done|]. split; [|lia]. replace (bits m i <? 2) with false in En by lia.
      unfold search_inv. rewrite En. replace (i + 1 - 1) with i by lia. lia.
    + replace (bits m i <? 2) with true in En by lia.
      set (st' := if st =? -1 then i else st).
      assert (0 <= st' <= i /\ (st' = 0 \/ 2 <= bits m (st' - 1)) /\
        forall j, st' <= j <= i -> bits m j < 2) as (Hs1 & Hs2 & Hs3).
      { unfold st'. destruct (Z.eqb_spec st (-1)) as [->|].
        - split; [lia|]. split; [lia|]. intros j Hj. replace j with i by lia. lia.
        - destruct Hst as [|(? & ? & Hf)]; [lia|]. split; [lia|]. split; [done|].
          intros j Hj. destruct (decide (j = i)) as [->|]; [lia | apply Hf; lia]. }
      destruct (Z.eqb_spec (nfree m (Z.to_nat i) + 1) n) as [Hc|].
      * right. eexists. split; [done|]. right. split; [lia | done | done | lia].
      * left. eexists. split; [done|]. split; [|lia]. unfold search_inv. rewrite En.
        repeat split; try lia. right. split; [lia|]. split; [done|].
        intros j Hj. apply Hs3. lia.
  - split; [lia|]. split; [done|]. split; [lia|]. left. lia.
  - cbn beta iota. lia.
Qed.

(** ** The allocator's invariant and the effect of each operation *)

Record page_inv (s : page_state) : Prop := mkPageInv {
  pi_mem : heap_mem (pmem s);
  pi_bits : forall i, 0 <= i < num_pages ->
    bits (pmem s) i = 0 \/ bits (pmem s) i = 2 \/ bits (pmem s) i = 3;
  pi_bk : forall i, 0 <= i < num_pages_bk -> bits (pmem s) i = 3;
  pi_next : forall i, 0 <= i < num_pages -> bits (pmem s) i = 2 ->
    i + 1 < num_pages /\ 2 <= bits (pmem s) (i + 1);
  pi_lock : page_lock s = MUTEX_UNLOCKED
}.

(** Pages [st..en] are one chunk in [m']; all other bits are those of [m]. *)
Definition allocated (m m' : mem) (st en : Z) : Prop :=
  bk_stored m m' /\
  forall j, 0 <= j < num_pages ->
    bits m' j = if j =? en then 3 else if (st <=? j) && (j <? en) then 2 else bits m j.

Lemma page_addr_eq i : 0 <= i < num_pages ->
  u64 (heap_start + s32 (i * PAGE_SIZE)) = heap_start + i * PAGE_SIZE.
Proof.
  intros Hi. pose proof num_pages_bytes. destruct Hheap. unfold PAGE_SIZE in *.
  rewrite (s32_id (i * 4096)) by lia. rewrite u64_id by lia. done.
Qed.

Lemma allocate_run m st en :
  heap_mem m -> 0 <= st <= en /\ en < num_pages -> (forall j, st <= j <= en -> bits m j = 0) ->
  exists m1 m', for_up (Z.to_nat (en - st)) st (fun i m => bk_set m i false) m = Ok m1 /\
    bk_set m1 en true = Ok m' /\ allocated m m' st en.
Proof.
  intros Hm Hr Hf.
  destruct (upd_range (fun i m => bk_set m i false) (fun v => Z.lor v 2)
    (Z.to_nat (en - st)) st m) as (m1 & E1 & S1 & B1); [| done | lia | lia |].
  { intros i m0 Hm0 Hi. apply (bk_set_ok m0 i false); done. }
  rewrite Z2Nat.id in B1 by lia. replace (st + (en - st)) with en in B1 by lia.
  destruct (bk_set_ok m1 en true) as (m' & E' & U); [by eapply heap_mem_stored | lia |].
  exists m1, m'. split; [done|]. split; [done|]. split.
  - eapply stored_trans; [exact S1|]. eapply upd_bk_stored; [|exact U]. lia.
  - intros j Hj. rewrite (ub_bits _ _ _ _ U), !B1 by lia.
    destruct (Z.eqb_spec j en) as [->|].
    + replace (en <? en) with false by lia. rewrite andb_false_r, Hf by lia. done.
    + destruct ((st <=? j) && (j <? en)) eqn:E; [|done]. rewrite Hf by lia. done.
Qed.

Lemma allocated_inv s m' st en : page_inv s -> 0 <= st <= en /\ en < num_pages ->
  (forall j, st <= j <= en -> bits (pmem s) j = 0) -> allocated (pmem s) m' st en ->
  page_inv (mkPages m' MUTEX_UNLOCKED).
Proof.
  intros [Hm Hb Hk Hn Hl] Hr Hf [S B]. split; cbn [pmem page_lock].
  - by eapply heap_mem_stored.
  - intros i Hi. rewrite B by done. repeat case_match; auto.
  - intros i Hi. pose proof bk_pages_le. pose proof (Hk i Hi) as E.
    assert (~ st <= i <= en) by (intros Hin; rewrite Hf in E by done; done).
    rewrite B by lia. destruct (Z.eqb_spec i en); [lia|].
    replace ((st <=? i) && (i <? en)) with false by lia. done.
  - intros i Hi E. rewrite B in E by done. destruct (Z.eqb_spec i en); [done|].
    destruct ((st <=? i) && (i <? en)) eqn:Ein.
    + split; [lia|]. rewrite B by lia. repeat case_match; lia.
    + destruct (Hn i Hi E) as [? H2]. split; [done|]. rewrite B by lia. repeat case_match; lia.
  - done.
Qed.

(** The whole of [page_nalloc] on a consistent allocator. *)
Lemma page_nalloc_spec s n : page_inv s -> 0 < n ->
  (page_nalloc s n = Ok (None, s) /\ nfree (pmem s) (Z.to_nat num_pages) < n) \/
  exists st en m', page_nalloc s n =
      Ok (Some (heap_start + st * PAGE_SIZE), mkPages m' MUTEX_UNLOCKED) /\
    found (pmem s) n st en /\ allocated (pmem s) m' st en /\
    page_inv (mkPages m' MUTEX_UNLOCKED).
Proof.
  intros Hs Hn. destruct (Hs) as [Hm Hb Hk Hn' Hl]. destruct s as [m l]; cbn [pmem page_lock] in *.
  subst l. unfold page_nalloc; cbn [pmem page_lock].
  replace (n <=? 0) with false by lia. change (mutex_spinlock MUTEX_UNLOCKED) with (Ok MUTEX_LOCKED).
  destruct (nalloc_search_spec m n Hm Hn) as (st & en & -> & [[-> Hc] | Hf]); cbn [res_bind].
  - left. done.
  - right. exists st, en. pose proof (fd_range _ _ _ _ Hf) as Hr.
    assert (forall j, st <= j <= en -> bits m j = 0) as Hz.
    { intros j Hj. pose proof (fd_free _ _ _ _ Hf j Hj). specialize (Hb j). lia. }
    destruct (allocate_run m st en Hm Hr Hz) as (m1 & m' & E1 & E2 & Ha).
    exists m'. replace (en =? -1) with false by lia. rewrite E1. cbn [res_bind].
    rewrite E2. cbn [res_bind]. rewrite page_addr_eq by lia.
    split; [done|]. split; [done|]. split; [done|].
    exact (allocated_inv _ _ _ _ Hs Hr Hz Ha).
Qed.

(** Pages [st..en] form one allocated chunk. *)
Definition chunk (m : mem) (st en : Z) : Prop :=
  0 <= st <= en /\ en < num_pages /\ bits m en = 3 /\ (forall j, st <= j < en -> bits m j = 2).

Lemma map_page_to_idx_eq i : 0 <= i < num_pages ->
  map_page_to_idx (heap_start + i * PAGE_SIZE) = i.
Proof.
  intros Hi. pose proof num_pages_bytes. destruct Hheap. unfold map_page_to_idx, PAGE_SIZE in *.
  replace (heap_start + i * 4096 >=? heap_end) with false by lia.
  change 0xfff with (Z.ones 12). rewrite Z.land_ones by lia. change (2 ^ 12) with 4096.
  rewrite Z.mod_add, hs_aligned0 by lia. cbn [negb orb Z.eqb].
  replace (heap_start + i * 4096 - heap_start) with (i * 4096) by lia.
  rewrite u64_id by lia. rewrite Z.div_mul by lia. rewrite s32_id by lia. done.
Qed.

(** [page_free] of the first page of a chunk clears exactly that chunk. *)
Lemma page_free_spec m st en :
  heap_mem m -> chunk m st en -> 0 < st -> bits m (st - 1) <> 2 ->
  exists m', page_free (mkPages m MUTEX_UNLOCKED) (heap_start + st * PAGE_SIZE) =
      Ok (mkPages m' MUTEX_UNLOCKED) /\ bk_stored m m' /\
    (forall j, 0 <= j < num_pages ->
       bits m' j = if (st <=? j) && (j <=? en) then 0 else bits m j).
Proof.
  intros Hm (Hr & Hn & He & Hc) Hst Hprev. unfold page_free.
  assert (heap_start + st * PAGE_SIZE =? 0 = false) as ->.
  { destruct Hheap. unfold PAGE_SIZE. lia. }
  rewrite map_page_to_idx_eq by lia. replace (st <? 0) with false by lia. cbn [pmem page_lock].
  rewrite bk_test_ok by (done || lia). cbn [res_bind].
  replace (bits m (st - 1) =? 2) with false by lia.
  edestruct (loop_total (fun i => st <= i <= en) (fun i => Z.to_nat (en - i)) (fun r => r = en))
    as (r & -> & ->); [| | |cbn [res_bind]].
  - intros i Hi. cbn beta. rewrite bk_test_ok by (done || lia). cbn [res_bind].
    assert (u64 (num_pages - 1) = num_pages - 1) as ->.
    { rewrite u64_id; [done|]. destruct Hheap. lia. }
    destruct (Z.eq_dec i en) as [->|].
    + rewrite He. cbn. right. eauto.
    + rewrite Hc by lia. replace (i <? num_pages - 1) with true by lia. left.
      eexists. split; [done|]. lia.
  - lia.
  - lia.
  - change (mutex_spinlock MUTEX_UNLOCKED) with (Ok MUTEX_LOCKED). cbn [res_bind].
    destruct (upd_range (fun i m => bk_clear m i) (fun _ => 0) (Z.to_nat (en + 1 - st)) st m)
      as (m' & -> & S & B); [intros; by apply bk_clear_ok | done | lia | lia |].
    exists m'. split; [done|]. split; [done|]. intros j Hj. rewrite B by done.
    replace (j <? st + Z.of_nat (Z.to_nat (en + 1 - st))) with (j <=? en) by lia. done.
Qed.

(** Freeing a chunk keeps the allocator consistent. *)
Lemma page_free_inv s m' st en : page_inv s -> num_pages_bk <= st -> chunk (pmem s) st en ->
  bits (pmem s) (st - 1) <> 2 -> bk_stored (pmem s) m' ->
  (forall j, 0 <= j < num_pages ->
     bits m' j = if (st <=? j) && (j <=? en) then 0 else bits (pmem s) j) ->
  page_inv (mkPages m' MUTEX_UNLOCKED).
Proof.
  intros [Hm Hb Hk Hn Hl] Hst (Hr & Hlt & He & Hc) Hp S B. pose proof bk_pages_le.
  split; cbn [pmem page_lock].
  - by eapply heap_mem_stored.
  - intros i Hi. rewrite B by done. case_match; auto.
  - intros i Hi. rewrite B by lia. replace (st <=? i) with false by lia. by apply Hk.
  - intros i Hi E. rewrite B in E by done. case_match; [done|].
    destruct (Hn i Hi E) as [? H2]. split; [done|]. rewrite B by lia.
    destruct ((st <=? i + 1) && (i + 1 <=? en)) eqn:Ein; [|done].
    assert (i = st - 1) as -> by lia. done.
  - done.
Qed.

(** The chunk [page_nalloc] returned is one that [page_free] accepts. *)
Lemma nalloc_chunk s n st en m' : page_inv s -> found (pmem s) n st en ->
  allocated (pmem s) m' st en ->
  num_pages_bk <= st /\ chunk m' st en /\ bits m' (st - 1) <> 2.
Proof.
  intros [Hm Hb Hk Hn Hl] [Hr Hf Hleft _] [S B]. pose proof bk_pages_le.
  assert (num_pages_bk <= st) as Hst.
  { destruct (Z.le_gt_cases num_pages_bk st); [done|]. specialize (Hf st). specialize (Hk st). lia. }
  split; [done|]. split.
  - split; [lia|]. split; [lia|]. split.
    + rewrite B, Z.eqb_refl by lia. done.
    + intros j Hj. rewrite B by lia. replace (j =? en) with false by lia.
      replace ((st <=? j) && (j <? en)) with true by lia. done.
  - rewrite B by lia. replace (st - 1 =? en) with false by lia.
    replace (st <=? st - 1) with false by lia. cbn [andb]. intros E.
    destruct (Hn (st - 1)) as [_ H2]; [lia | done |]. replace (st - 1 + 1) with st in H2 by lia.
    specialize (Hf st). lia.
Qed.

(** ** Properties *)

(** (C14) page_nalloc never hands out a taken page. On a consistent allocator it
    returns; NULL leaves the state as it was and means fewer than n pages are
    free; otherwise the chunk it returns lies past the bookkeeping pages, was
    entirely free, is at most n pages long (exactly one page for n = 1), is marked
    as one chunk, and no other page's bits and no byte outside the bookkeeping
    area change. The allocator stays consistent and unlocked. *)
Theorem page_nalloc_takes_free s n : page_inv s -> 0 < n ->
  (page_nalloc s n = Ok (None, s) /\ nfree (pmem s) (Z.to_nat num_pages) < n) \/
  exists st en s1, page_nalloc s n = Ok (Some (heap_start + st * PAGE_SIZE), s1) /\
    num_pages_bk <= st /\ en - st + 1 <= n /\
    (forall j, st <= j <= en -> bits (pmem s) j = 0) /\
    chunk (pmem s1) st en /\
    (forall j, 0 <= j < num_pages -> ~ (st <= j <= en) -> bits (pmem s1) j = bits (pmem s) j) /\
    (forall a, ~ (heap_start <= a < heap_start + bk_size) -> pmem s1 !! a = pmem s !! a) /\
    page_inv s1.
Proof.
  intros Hs Hn. destruct (page_nalloc_spec s n Hs Hn) as [H | (st & en & m' & E & F & A & I)];
    [by left | right].
  exists st, en, (mkPages m' MUTEX_UNLOCKED). split; [done|].
  destruct (nalloc_chunk _ _ _ _ _ Hs F A) as (Hst & Hc & _). pose proof (fd_range _ _ _ _ F).
  split; [done|]. split; [by eapply found_short|]. split.
  { intros j Hj. pose proof (fd_free _ _ _ _ F j Hj). pose proof (pi_bits _ Hs j). lia. }
  split; [done|]. destruct A as [S B]. split.
  - intros j Hj Hout. cbn [pmem]. rewrite B by done. replace (j =? en) with false by lia.
    replace ((st <=? j) && (j <? en)) with false by lia. done.
  - split; [apply S | done].
Qed.

(** When the first n free pages of the heap are consecutive, page_nalloc(n)
    returns all n of them. *)
Theorem page_nalloc_first_fit s n st : page_inv s -> 0 < n ->
  0 <= st -> st + n <= num_pages ->
  (forall j, 0 <= j < st -> bits (pmem s) j <> 0) ->
  (forall j, st <= j < st + n -> bits (pmem s) j = 0) ->
  exists s1, page_nalloc s n = Ok (Some (heap_start + st * PAGE_SIZE), s1) /\
    chunk (pmem s1) st (st + n - 1).
Proof.
  intros Hs Hn Hst Hlt Hbefore Hfree.
  assert (forall k, (k <= Z.to_nat st)%nat -> nfree (pmem s) k = 0) as H0.
  { induction k as [|k IH]; intros Hk; cbn [nfree]; [done|]. rewrite IH by lia.
    specialize (Hbefore (Z.of_nat k)). pose proof (pi_bits _ Hs (Z.of_nat k)).
    replace (_ <? 2) with false by lia. done. }
  assert (forall k, (k <= Z.to_nat n)%nat ->
    nfree (pmem s) (Z.to_nat st + k) = Z.of_nat k) as H1.
  { induction k as [|k IH]; intros Hk; [rewrite Nat.add_0_r; by apply H0|].
    rewrite Nat.add_succ_r. cbn [nfree]. rewrite IH, Hfree by lia. cbn. lia. }
  assert (forall a b, (a <= b)%nat -> nfree (pmem s) a <= nfree (pmem s) b) as Hmono.
  { intros a b Hab. induction Hab; cbn [nfree]; [lia|]. case_match; lia. }
  destruct (page_nalloc_spec s n Hs Hn) as [[_ Hc] | (st' & en & m' & E & F & A & I)].
  - specialize (H1 (Z.to_nat n)). specialize (Hmono (Z.to_nat st + Z.to_nat n)%nat
      (Z.to_nat num_pages)). lia.
  - pose proof (found_short _ _ _ _ F). destruct (F) as [Hr Hf Hleft Hcnt].
    pose proof (pi_bits _ Hs st') as Hb.
    assert (en = st + n - 1) as ->.
    { destruct (Z.lt_trichotomy en (st + n - 1)) as [|[|]]; [|done|].
      - specialize (Hmono (Z.to_nat (en + 1)) (Z.to_nat (st + n - 1))).
        specialize (H1 (Z.to_nat (n - 1))).
        replace (Z.to_nat (st + n - 1)) with (Z.to_nat st + Z.to_nat (n - 1))%nat in Hmono by lia.
        lia.
      - specialize (H1 (Z.to_nat n)).
        specialize (Hmono (Z.to_nat st + Z.to_nat n)%nat (Z.to_nat en)).
        replace (Z.to_nat (en + 1)) with (S (Z.to_nat en)) in Hcnt by lia. cbn [nfree] in Hcnt.
        specialize (Hf en). rewrite Z2Nat.id in Hcnt by lia.
        replace (bits (pmem s) en <? 2) with true in Hcnt by lia. lia. }
    assert (st' = st) as ->.
    { destruct (Z.lt_trichotomy st' st) as [|[|]]; [|done|].
      - specialize (Hbefore st'). specialize (Hf st'). lia.
      - specialize (Hfree (st' - 1)). lia. }
    exists (mkPages m' MUTEX_UNLOCKED). split; [done|].
    by destruct (nalloc_chunk _ _ _ _ _ Hs F A) as (_ & ? & _).
Qed.

(** page_free after page_nalloc restores the bookkeeping of every page and
    touches nothing outside the bookkeeping area: no page is lost and none is
    freed twice. *)
Theorem page_free_nalloc s n p s1 : page_inv s -> 0 < n ->
  page_nalloc s n = Ok (Some p, s1) ->
  exists s2, page_free s1 p = Ok s2 /\ page_inv s2 /\
    (forall j, 0 <= j < num_pages -> bits (pmem s2) j = bits (pmem s) j) /\
    (forall a, ~ (heap_start <= a < heap_start + bk_size) -> pmem s2 !! a = pmem s !! a).
Proof.
  intros Hs Hn Ha.
  destruct (page_nalloc_spec s n Hs Hn) as [[H _] | (st & en & m' & E & F & A & I)]; [congruence|].
  rewrite E in Ha. injection Ha as <- <-.
  destruct (nalloc_chunk _ _ _ _ _ Hs F A) as (Hst & Hc & Hp). pose proof bk_pages_le.
  destruct (page_free_spec m' st en) as (m2 & E2 & S2 & B2); [apply I | done | lia | done |].
  exists (mkPages m2 MUTEX_UNLOCKED). split; [done|]. split.
  { eapply (page_free_inv (mkPages m' MUTEX_UNLOCKED)); done. }
  destruct A as [S1 B1]. cbn [pmem]. split.
  - intros j Hj. rewrite B2, B1 by done.
    destruct ((st <=? j) && (j <=? en)) eqn:Ein.
    + pose proof (fd_free _ _ _ _ F j). pose proof (pi_bits _ Hs j). lia.
    + pose proof (fd_range _ _ _ _ F). replace (j =? en) with false by lia.
      replace ((st <=? j) && (j <? en)) with false by lia. done.
  - intros a Ha. rewrite (stored_out _ _ _ _ S2), (stored_out _ _ _ _ S1) by done. done.
Qed.

Lemma page_count_spec taken s : page_inv s ->
  page_count taken s = Ok (if taken then num_pages - nfree (pmem s) (Z.to_nat num_pages)
                           else nfree (pmem s) (Z.to_nat num_pages), s).
Proof.
  intros Hs. destruct s as [m l]. pose proof (pi_mem _ Hs) as Hm. pose proof (pi_lock _ Hs) as Hl.
  cbn [pmem page_lock] in *. subst l. pose proof num_pages_pos. pose proof (hp_small Hheap).
  unfold page_count; cbn [pmem page_lock].
  change (mutex_spinlock MUTEX_UNLOCKED) with (Ok MUTEX_LOCKED). cbn [res_bind].
  edestruct (for_up_total (fun i c => c = if taken then i - nfree m (Z.to_nat i)
    else nfree m (Z.to_nat i))) as (c & -> & ->); [| | cbn [res_bind]].
  - by destruct taken.
  - intros i c Hi ->. cbn beta. rewrite bk_test_ok by (done || lia). cbn [res_bind].
    eexists. split; [done|]. replace (Z.to_nat (i + 1)) with (S (Z.to_nat i)) by lia.
    cbn [nfree]. rewrite Z2Nat.id by lia. pose proof (nfree_bounds m (Z.to_nat i)).
    assert (Bool.eqb (bits m i >=? 2) taken =
      if taken then negb (bits m i <? 2) else bits m i <? 2) as -> by (destruct taken; lia).
    destruct taken, (bits m i <? 2); cbn [negb]; rewrite ?s32_id by lia; lia.
  - by rewrite Z.add_0_l, Z2Nat.id by lia.
Qed.

(** The two counters agree with each other: each counts exactly its pages,
    and together they count every page of the heap once. *)
Theorem page_counts_partition s : page_inv s ->
  exists f t, page_count_free s = Ok (f, s) /\ page_count_taken s = Ok (t, s) /\
    f = nfree (pmem s) (Z.to_nat num_pages) /\ f + t = num_pages.
Proof.
  intros Hs. eexists _, _. unfold page_count_free, page_count_taken.
  rewrite !page_count_spec by done. do 3 (split; [done|]). lia.
Qed.

(** page_init makes the allocator consistent from any memory: the pages that
    hold the bookkeeping are taken, every other page is free, and only the
    bookkeeping bytes are written. *)
Theorem page_init_correct s : mem_ok (pmem s) -> mapped (pmem s) heap_start bk_size ->
  page_lock s = MUTEX_UNLOCKED ->
  exists s', page_init s = Ok s' /\ page_inv s' /\
    (forall i, num_pages_bk <= i < num_pages -> bits (pmem s') i = 0) /\
    stored (pmem s) (pmem s') heap_start bk_size.
Proof.
  intros Hok Hmap Hl. destruct s as [m l]. cbn [pmem page_lock] in *. subst l.
  pose proof bk_pages_le. pose proof bk_size_bounds. pose proof (hp_small Hheap).
  pose proof (hp_bk Hheap). unfold page_init; cbn [pmem page_lock].
  change (mutex_spinlock MUTEX_UNLOCKED) with (Ok MUTEX_LOCKED). cbn [res_bind].
  unfold PAGE_SIZE in *. rewrite s32_id by dlia.
  destruct (memset_spec m heap_start 0 bk_size) as (m1 & -> & S1 & Z1); [dlia | done |].
  cbn [res_bind].
  assert (forall i, 0 <= i < num_pages -> bits m1 i = 0) as B1.
  { intros i Hi. unfold bits. rewrite Z1 by dlia. cbn [default]. change (u8 0) with 0.
    unfold slot. by rewrite Z.shiftr_0_l. }
  assert (heap_mem m1) as Hm1.
  { split; [by apply S1|]. eapply stored_mapped; [exact S1|].
    eapply mapped_mono; [exact Hmap | lia | dlia]. }
  destruct (upd_range (fun i m => bk_set m i true) (fun v => Z.lor v 3) (Z.to_nat num_pages_bk)
    0 m1) as (m2 & -> & S2 & B2); [intros; by apply bk_set_ok | done | lia | lia |].
  cbn [res_bind]. rewrite Z2Nat.id, Z.add_0_l in B2 by lia.
  exists (mkPages m2 MUTEX_UNLOCKED). split; [done|]. cbn [pmem].
  assert (forall i, 0 <= i < num_pages -> bits m2 i = if i <? num_pages_bk then 3 else 0) as B.
  { intros i Hi. rewrite B2, B1 by done. replace (0 <=? i) with true by lia. cbn [andb]. by case_match. }
  split; [split; cbn [pmem page_lock]|].
  - by eapply heap_mem_stored.
  - intros i Hi. rewrite B by done. case_match; auto.
  - intros i Hi. rewrite B by lia. by replace (i <? num_pages_bk) with true by lia.
  - intros i Hi. rewrite B by done. by case_match.
  - done.
  - split.
    + intros i Hi. rewrite B by lia. by replace (i <? num_pages_bk) with false by lia.
    + by eapply stored_trans.
Qed.

(** A decision procedure for [page_inv] on concrete states. *)
Lemma page_inv_check s : mem_ok (pmem s) -> mapped (pmem s) heap_start ((num_pages + 3) / 4) ->
  page_lock s = MUTEX_UNLOCKED ->
  forallb (fun i => let b := bits (pmem s) i in
    ((b =? 0) || (b =? 2) || (b =? 3)) && (negb (i <? num_pages_bk) || (b =? 3)) &&
    (negb (b =? 2) || ((i + 1 <? num_pages) && (2 <=? bits (pmem s) (i + 1)))))
    (seqZ 0 num_pages) = true ->
  page_inv s.
Proof.
  intros Hok Hmap Hl Hb. pose proof bk_pages_le. rewrite forallb_forall in Hb.
  split; [done | | | | done]; intros i Hi; specialize (Hb i);
    rewrite <- list_elem_of_In, elem_of_seqZ in Hb; cbn beta zeta in Hb;
    specialize (Hb ltac:(lia)); lia.
Qed.

(** Writes past the bookkeeping area do not concern the allocator. *)
Lemma bits_outside m m' a n i : stored m m' a n -> heap_start + bk_size <= a ->
  0 <= i < num_pages -> bits m' i = bits m i.
Proof.
  intros S Ha Hi. unfold bits. rewrite (stored_out _ _ _ _ S); [done|].
  pose proof (hp_bk Hheap). dlia.
Qed.

Lemma page_inv_outside s m' a n : page_inv s -> stored (pmem s) m' a n ->
  heap_start + bk_size <= a -> page_inv (mkPages m' (page_lock s)).
Proof.
  intros [Hm Hb Hk Hn Hl] S Ha. pose proof bk_pages_le.
  pose proof (fun i => bits_outside _ _ _ _ i S Ha) as E.
  split; cbn [pmem page_lock]; [by eapply heap_mem_stored | | | | done]; intros i Hi.
  - rewrite E by done. auto.
  - rewrite E by lia. auto.
  - rewrite E by done. intros E2. destruct (Hn i Hi E2). rewrite E by lia. done.
Qed.

End page.

(** ** A concrete heap of five pages

    Page 0 holds the bookkeeping; pages 2 and 4 are taken, 1 and 3 are free. *)

Definition demo_heap : page_state := mkPages (mem_list 4096 [51; 3]) MUTEX_UNLOCKED.

Lemma demo_heap_ok : heap_ok 4096 24576.
Proof. split; vm_compute; try done; split; done. Qed.

Lemma demo_heap_inv : page_inv 4096 24576 demo_heap.
Proof.
  apply (page_inv_check _ _ demo_heap_ok).
  - by apply (bool_decide_unpack _); vm_compute.
  - by apply mapped_dec.
  - done.
  - by vm_compute.
Qed.

Lemma page_nalloc_takes_free_witness :
  (page_nalloc 4096 24576 demo_heap 1 = Ok (None, demo_heap) /\
     nfree 4096 (pmem demo_heap) (Z.to_nat (num_pages 4096 24576)) < 1) \/
  exists st en s1, page_nalloc 4096 24576 demo_heap 1 = Ok (Some (4096 + st * PAGE_SIZE), s1) /\
    num_pages_bk 4096 24576 <= st /\ en - st + 1 <= 1 /\
    (forall j, st <= j <= en -> bits 4096 (pmem demo_heap) j = 0) /\
    chunk 4096 24576 (pmem s1) st en /\
    (forall j, 0 <= j < num_pages 4096 24576 -> ~ (st <= j <= en) ->
       bits 4096 (pmem s1) j = bits 4096 (pmem demo_heap) j) /\
    (forall a, ~ (4096 <= a < 4096 + bk_size 4096 24576) -> pmem s1 !! a = pmem demo_heap !! a) /\
    page_inv 4096 24576 s1.
Proof.
  apply (page_nalloc_takes_free 4096 24576 demo_heap_ok demo_heap 1 demo_heap_inv). lia.
Defined.

Lemma page_nalloc_first_fit_witness :
  exists s1, page_nalloc 4096 24576 demo_heap 1 = Ok (Some (4096 + 1 * PAGE_SIZE), s1) /\
    chunk 4096 24576 (pmem s1) 1 (1 + 1 - 1).
Proof.
  apply (page_nalloc_first_fit 4096 24576 demo_heap_ok demo_heap 1 1 demo_heap_inv); try done.
  - intros j Hj. assert (j = 0) as -> by lia. done.
  - intros j Hj. assert (j = 1) as -> by lia. done.
Defined.

Lemma page_free_nalloc_witness :
  let s1 := mkPages (mem_list 4096 [63; 3]) MUTEX_UNLOCKED in
  exists s2, page_free 4096 24576 s1 8192 = Ok s2 /\ page_inv 4096 24576 s2 /\
    (forall j, 0 <= j < num_pages 4096 24576 ->
       bits 4096 (pmem s2) j = bits 4096 (pmem demo_heap) j) /\
    (forall a, ~ (4096 <= a < 4096 + bk_size 4096 24576) -> pmem s2 !! a = pmem demo_heap !! a).
Proof.
  apply (page_free_nalloc 4096 24576 demo_heap_ok demo_heap 1 8192 _ demo_heap_inv);
    [lia | by vm_compute].
Defined.

Lemma page_counts_partition_witness :
  exists f t, page_count_free 4096 24576 demo_heap = Ok (f, demo_heap) /\
    page_count_taken 4096 24576 demo_heap = Ok (t, demo_heap) /\
    f = nfree 4096 (pmem demo_heap) (Z.to_nat (num_pages 4096 24576)) /\
    f + t = num_pages 4096 24576.
Proof. apply (page_counts_partition 4096 24576 demo_heap_ok), demo_heap_inv. Defined.

(** The same heap before [page_init], full of garbage. *)
Definition raw_heap : page_state := mkPages (mem_const 4096 4096 255) MUTEX_UNLOCKED.

Lemma raw_heap_ok : mem_ok (pmem raw_heap).
Proof. by apply mem_const_ok. Qed.

Lemma raw_heap_mapped : mapped (pmem raw_heap) 4096 (bk_size 4096 24576).
Proof. replace (bk_size 4096 24576) with 4096 by done. apply mem_const_mapped. Qed.

Lemma page_init_correct_witness :
  exists s', page_init 4096 24576 raw_heap = Ok s' /\
    page_inv 4096 24576 s' /\
    (forall i, num_pages_bk 4096 24576 <= i < num_pages 4096 24576 ->
       bits 4096 (pmem s') i = 0) /\
    stored (pmem raw_heap) (pmem s') 4096 (bk_size 4096 24576).
Proof.
  exact (page_init_correct 4096 24576 demo_heap_ok raw_heap raw_heap_ok raw_heap_mapped eq_refl).
Defined.

(** page_nalloc can hand out fewer pages than it was asked for: a taken page
    resets start_indx but not pages_free. With pages 1 and 3 free and page 2
    taken, a request for two pages returns page 3 alone, whose right neighbour
    belongs to another chunk. *)
Theorem page_nalloc_short_chunk :
  page_inv 4096 24576 demo_heap /\ bits 4096 (pmem demo_heap) 4 = 3 /\
  exists s1, page_nalloc 4096 24576 demo_heap 2 = Ok (Some (4096 + 3 * PAGE_SIZE), s1) /\
    chunk 4096 24576 (pmem s1) 3 3.
Proof.
  split; [apply demo_heap_inv|]. split; [done|]. eexists. split; [by vm_compute|].
  split; [done|]. split; [done|]. split; [done|]. intros j Hj. lia.
Qed.
