(* ===== verification/Mmu.v ===== *)
(** The Sv39 page tables of src/src/mmu.c, against an interface of the page
    allocator they take their tables from.

    A table is a page of 512 little-endian words in the shared memory. The
    operations are generic in the state [St] that holds that memory and the
    allocator; [page_allocator] at the end is the instance by [Page]. *)
From S2P Require Import Prelude Mem Lock Util Page.

Definition MMU_LEVEL_1G : Z := 2.
Definition MMU_LEVEL_2M : Z := 1.
Definition MMU_LEVEL_4K : Z := 0.
Definition PAGE_SIZE_AT_LVL (x : Z) : Z := Z.shiftl 1 (x * 9 + 12).

Definition PB_VALID : Z := 1.
Definition PB_READ : Z := 2.
Definition PB_WRITE : Z := 4.
Definition PB_EXECUTE : Z := 8.
Definition PB_USER : Z := 16.

Definition PTE_PPN0_BIT : Z := 10.
Definition PTE_PPN1_BIT : Z := 19.
Definition PTE_PPN2_BIT : Z := 28.
Definition ADDR_0_BIT : Z := 12.
Definition ADDR_1_BIT : Z := 21.
Definition ADDR_2_BIT : Z := 30.

Definition MMU_TRANSLATE_PAGE_FAULT : Z := u64 (-1).

(** [vpn[lvl]] of a virtual address, [ppn[lvl]] of a physical one. *)
Definition vpn (vaddr lvl : Z) : Z :=
  if lvl =? 0 then Z.land (Z.shiftr vaddr ADDR_0_BIT) 0x1FF
  else if lvl =? 1 then Z.land (Z.shiftr vaddr ADDR_1_BIT) 0x1FF
  else Z.land (Z.shiftr vaddr ADDR_2_BIT) 0x1FF.

Definition ppn (paddr lvl : Z) : Z :=
  if lvl =? 0 then Z.land (Z.shiftr paddr ADDR_0_BIT) 0x1FF
  else if lvl =? 1 then Z.land (Z.shiftr paddr ADDR_1_BIT) 0x1FF
  else Z.land (Z.shiftr paddr ADDR_2_BIT) 0x3FFFFFF.

Definition pte_ppn (pte lvl : Z) : Z :=
  if lvl =? 0 then Z.land (Z.shiftr pte PTE_PPN0_BIT) 0x1FF
  else if lvl =? 1 then Z.land (Z.shiftr pte PTE_PPN1_BIT) 0x1FF
  else Z.land (Z.shiftr pte PTE_PPN2_BIT) 0x3FFFFFF.

(** [tab->entries[i]] *)
Definition ld_entry (m : mem) (tab i : Z) : res Z := ld64 m (tab + 8 * i).

(** The table a branch entry points to: [(pte << 2) & ~0xFFFUL]. *)
Definition pte_table (pte : Z) : Z := Z.land (u64 (Z.shiftl pte 2)) (u64 (Z.lnot 0xFFF)).

(** ** Reading: [mmu_translate] and [mmu_access_ok] *)

Definition mmu_translate (m : mem) (tab vaddr : Z) : res Z :=
  if tab =? 0 then Ok MMU_TRANSLATE_PAGE_FAULT
  else
    let* pte := ld_entry m tab (vpn vaddr 2) in
    if Z.land pte PB_VALID =? 0 then Ok MMU_TRANSLATE_PAGE_FAULT
    else if negb (Z.land pte 0xE =? 0) then
      Ok (Z.lor (Z.shiftl (pte_ppn pte 2) ADDR_2_BIT) (Z.land vaddr 0x3FFFFFFF))
    else
      let tab := pte_table pte in
      let* pte := ld_entry m tab (vpn vaddr 1) in
      if Z.land pte PB_VALID =? 0 then Ok MMU_TRANSLATE_PAGE_FAULT
      else if negb (Z.land pte 0xE =? 0) then
        Ok (Z.lor (Z.lor (Z.shiftl (pte_ppn pte 2) ADDR_2_BIT)
                         (Z.shiftl (pte_ppn pte 1) ADDR_1_BIT)) (Z.land vaddr 0x1FFFFF))
      else
        let tab := pte_table pte in
        let* pte := ld_entry m tab (vpn vaddr 0) in
        if Z.land pte PB_VALID =? 0 then Ok MMU_TRANSLATE_PAGE_FAULT
        else if negb (Z.land pte 0xE =? 0) then
          Ok (Z.lor (Z.lor (Z.lor (Z.shiftl (pte_ppn pte 2) ADDR_2_BIT)
                                  (Z.shiftl (pte_ppn pte 1) ADDR_1_BIT))
                           (Z.shiftl (pte_ppn pte 0) ADDR_0_BIT)) (Z.land vaddr 0xFFF))
        else Ok MMU_TRANSLATE_PAGE_FAULT.

(** The loop runs [i] from 2 down to 0: three turns, and the exit. *)
Definition mmu_access_ok (m : mem) (tab vaddr required_perms : Z) : res bool :=
  if tab =? 0 then Ok false
  else
    loop 4
      (fun '(i, tab) =>
         if i >=? MMU_LEVEL_4K then
           let* tab_entry := ld_entry m tab (vpn vaddr i) in
           if Z.land tab_entry PB_VALID =? 0 then Ok (Done false)
           else if negb (Z.land tab_entry 0xe =? 0) then
             Ok (Done (Z.land tab_entry required_perms =? required_perms))
           else Ok (Next (i - 1, pte_table tab_entry))
         else Ok (Done false)) (MMU_LEVEL_1G, tab).

(** ** Writing, over the page-allocator interface *)

Class PageAllocator (St : Type) := {
  pa_mem : St -> mem;
  pa_set : St -> mem -> St;
  pa_zalloc : St -> res (option Z * St);
  pa_free : St -> Z -> res St
}.

Section mmu.
Context {St : Type} `{!PageAllocator St}.

Definition st_entry (s : St) (tab i v : Z) : res St :=
  let* m := st64 (pa_mem s) (tab + 8 * i) v in Ok (pa_set s m).

Definition mmu_table_create (s : St) : res (option Z * St) := pa_zalloc s.

(** The entry [mmu_map] writes at level [lvl]. *)
Definition leaf_entry (paddr lvl bits : Z) : Z :=
  let e :=
    if lvl =? 2 then Z.shiftl (ppn paddr 2) PTE_PPN2_BIT
    else if lvl =? 1 then
      Z.lor (Z.shiftl (ppn paddr 2) PTE_PPN2_BIT) (Z.shiftl (ppn paddr 1) PTE_PPN1_BIT)
    else
      Z.lor (Z.lor (Z.shiftl (ppn paddr 2) PTE_PPN2_BIT) (Z.shiftl (ppn paddr 1) PTE_PPN1_BIT))
        (Z.shiftl (ppn paddr 0) PTE_PPN0_BIT) in
  Z.lor (Z.lor e bits) PB_VALID.

(** One turn of the loop of [mmu_map]: follow the entry of [currLevel], or hang
    a new table there. [Done None] is the failed allocation. *)
Definition map_step (vaddr lvl : Z) : Z * Z * St -> res (ctl (Z * Z * St) (option Z * St)) :=
  fun '(currLevel, tab, s) =>
    if currLevel >? lvl then
      let* entry := ld_entry (pa_mem s) tab (vpn vaddr currLevel) in
      if negb (Z.land entry PB_VALID =? 0) then
        Ok (Next (currLevel - 1, u64 (Z.shiftl (Z.shiftr entry 10) 12), s))
      else
        let* r := mmu_table_create s in
        match r with
        | (None, s1) => Ok (Done (None, s1))
        | (Some new_table, s1) =>
            let* s2 := st_entry s1 tab (vpn vaddr currLevel)
                         (Z.lor (Z.shiftr new_table 2) PB_VALID) in
            Ok (Next (currLevel - 1, new_table, s2))
        end
    else Ok (Done (Some tab, s)).

Definition mmu_map (s : St) (tab vaddr paddr lvl bits : Z) : res (bool * St) :=
  if (tab =? 0) || (lvl >? MMU_LEVEL_1G) || (Z.land bits 0xE =? 0) then Ok (false, s)
  else
    let* r := loop 4 (map_step vaddr lvl) (MMU_LEVEL_1G, tab, s) in
    match r with
    | (None, s1) => Ok (false, s1)
    | (Some tab, s1) =>
        let* s2 := st_entry s1 tab (vpn vaddr lvl) (leaf_entry paddr lvl bits) in
        Ok (true, s2)
    end.

(** [depth] bounds the recursion: a tree of tables has three levels. *)
Fixpoint mmu_free (depth : nat) (s : St) (tab : Z) : res St :=
  match depth with
  | O => NoFuel
  | S d =>
      if tab =? 0 then Ok s
      else
        let* s1 := for_up (Z.to_nat (Z.quot PAGE_SIZE 8)) 0
          (fun i s =>
             let* pte := ld_entry (pa_mem s) tab i in
             if negb (Z.land pte PB_VALID =? 0) then
               let* s1 := if Z.land pte 0xE =? 0 then mmu_free d s (pte_table pte) else Ok s in
               st_entry s1 tab i 0
             else Ok s) s in
        pa_free s1 tab
  end.

Definition mmu_map_range (s : St) (tab start_virt end_virt start_phys lvl bits : Z)
    : res (Z * St) :=
  let start_virt := ALIGN_DOWN_POT start_virt (PAGE_SIZE_AT_LVL lvl) in
  let end_virt := ALIGN_UP_POT end_virt (PAGE_SIZE_AT_LVL lvl) in
  let num_bytes := u64 (end_virt - start_virt) in
  loop (S (Z.to_nat (num_bytes / PAGE_SIZE_AT_LVL lvl + 1)))
    (fun '(i, pages_mapped, s) =>
       if i <? num_bytes then
         let* r := mmu_map s tab (u64 (start_virt + i)) (u64 (start_phys + i)) lvl bits in
         match r with
         | (false, s1) => Ok (Done (pages_mapped, s1))
         | (true, s1) => Ok (Next (u64 (i + PAGE_SIZE_AT_LVL lvl), pages_mapped + 1, s1))
         end
       else Ok (Done (pages_mapped, s))) (0, 0, s).

End mmu.

(** ** Page-table entries as numbers *)

Lemma vpn_eq v l : vpn v l =
  if l =? 0 then v / 2 ^ 12 mod 512 else if l =? 1 then v / 2 ^ 21 mod 512
  else v / 2 ^ 30 mod 512.
Proof.
  unfold vpn, ADDR_0_BIT, ADDR_1_BIT, ADDR_2_BIT. change 0x1FF with (Z.ones 9).
  rewrite !land_ones_field by lia. done.
Qed.

Lemma vpn_range v l : 0 <= vpn v l < 512.
Proof. rewrite vpn_eq. repeat case_match; apply Z.mod_pos_bound; lia. Qed.

Lemma ppn_eq v l : ppn v l =
  if l =? 0 then v / 2 ^ 12 mod 512 else if l =? 1 then v / 2 ^ 21 mod 512
  else v / 2 ^ 30 mod 2 ^ 26.
Proof.
  unfold ppn, ADDR_0_BIT, ADDR_1_BIT, ADDR_2_BIT. change 0x1FF with (Z.ones 9).
  change 0x3FFFFFF with (Z.ones 26). rewrite !land_ones_field by lia. done.
Qed.

Lemma pte_ppn_eq e l : pte_ppn e l =
  if l =? 0 then e / 2 ^ 10 mod 512 else if l =? 1 then e / 2 ^ 19 mod 512
  else e / 2 ^ 28 mod 2 ^ 26.
Proof.
  unfold pte_ppn, PTE_PPN0_BIT, PTE_PPN1_BIT, PTE_PPN2_BIT. change 0x1FF with (Z.ones 9).
  change 0x3FFFFFF with (Z.ones 26). rewrite !land_ones_field by lia. done.
Qed.

Lemma pte_table_eq e : 0 <= e -> pte_table e = e / 2 ^ 10 mod 2 ^ 52 * 2 ^ 12.
Proof.
  intros He. unfold pte_table. change (Z.lnot 0xFFF) with (- 2 ^ 12).
  rewrite land_neg_pow2 by (lia || apply u64_range). unfold u64.
  rewrite Z.shiftl_mul_pow2 by lia. dlia.
Qed.

(** The two ways the code computes the next table agree. *)
Lemma next_table_eq e : 0 <= e -> u64 (Z.shiftl (Z.shiftr e 10) 12) = pte_table e.
Proof.
  intros He. rewrite pte_table_eq by done. unfold u64.
  rewrite Z.shiftl_mul_pow2, Z.shiftr_div_pow2 by lia. dlia.
Qed.

Definition valid (e : Z) : bool := negb (Z.land e PB_VALID =? 0).
Definition is_leaf (e : Z) : bool := negb (Z.land e 0xE =? 0).
Definition branch (e : Z) : Prop := valid e = true /\ is_leaf e = false.

(** A branch entry made from a page address points back to that page. *)
Lemma branch_entry p : 0 < p < 2 ^ 56 -> p mod 4096 = 0 ->
  let e := Z.lor (Z.shiftr p 2) PB_VALID in
  0 <= e < 2 ^ 64 /\ branch e /\ pte_table e = p.
Proof.
  intros Hp Ha e.
  assert (e = p / 4096 * 2 ^ 10 + 1) as Ee.
  { unfold e, PB_VALID. rewrite Z.shiftr_div_pow2 by lia.
    replace (p / 2 ^ 2) with (Z.shiftl (p / 4096) 10) by (rewrite Z.shiftl_mul_pow2 by lia; dlia).
    apply lor_shiftl_add; lia. }
  assert (e mod 2 ^ 10 = 1) as Em by (rewrite Ee; dlia).
  split; [rewrite Ee; dlia|]. split.
  - unfold branch, valid, is_leaf, PB_VALID.
    rewrite (land_low e 1 10), (land_low e 0xE 10), Em by lia. done.
  - rewrite pte_table_eq, Ee by (rewrite Ee; dlia). dlia.
Qed.

(** The entry of a mapping: the page frame above bit 10, the flags below. *)
Lemma leaf_entry_eq p l bits : 0 <= l <= 2 -> 0 <= p -> 0 <= bits < 2 ^ 10 ->
  leaf_entry p l bits =
    p / 2 ^ (12 + 9 * l) * 2 ^ (9 * l) mod 2 ^ 44 * 2 ^ 10 + Z.lor bits 1.
Proof.
  intros Hl Hp Hb. unfold leaf_entry, PTE_PPN0_BIT, PTE_PPN1_BIT, PTE_PPN2_BIT, PB_VALID.
  assert (0 <= Z.lor bits 1 < 2 ^ 10) by (apply lor_range; lia).
  assert (Z.lor (Z.shiftl (ppn p 2) 28) (Z.shiftl (ppn p 1) 19) =
    Z.shiftl (ppn p 2 * 2 ^ 9 + ppn p 1) 19) as E1.
  { rewrite !ppn_eq. cbn [Z.eqb Pos.eqb]. rewrite lor_shiftl_add;
      rewrite ?Z.shiftl_mul_pow2 by lia; dlia. }
  rewrite <- Z.lor_assoc.
  assert (l = 0 \/ l = 1 \/ l = 2) as [-> | [-> | ->]] by lia; cbn [Z.eqb Pos.eqb].
  - rewrite E1.
    replace (Z.lor (Z.shiftl (ppn p 2 * 2 ^ 9 + ppn p 1) 19) (Z.shiftl (ppn p 0) 10))
      with (Z.shiftl ((ppn p 2 * 2 ^ 9 + ppn p 1) * 2 ^ 9 + ppn p 0) 10).
    2: { rewrite !ppn_eq. cbn [Z.eqb Pos.eqb]. rewrite lor_shiftl_add;
         rewrite ?Z.shiftl_mul_pow2 by lia; dlia. }
    rewrite lor_shiftl_add by lia. rewrite !ppn_eq. cbn [Z.eqb Pos.eqb].
    cbn [Z.mul Z.add]. dlia.
  - rewrite E1.
    replace (Z.shiftl (ppn p 2 * 2 ^ 9 + ppn p 1) 19)
      with (Z.shiftl ((ppn p 2 * 2 ^ 9 + ppn p 1) * 2 ^ 9) 10)
      by (rewrite !Z.shiftl_mul_pow2 by lia; lia).
    rewrite lor_shiftl_add by lia. rewrite !ppn_eq. cbn [Z.eqb Pos.eqb].
    change (12 + 9 * 1) with 21. change (9 * 1) with 9. dlia.
  - replace (Z.shiftl (ppn p 2) 28) with (Z.shiftl (ppn p 2 * 2 ^ 18) 10)
      by (rewrite !Z.shiftl_mul_pow2 by lia; lia).
    rewrite lor_shiftl_add by lia. rewrite !ppn_eq. cbn [Z.eqb Pos.eqb].
    change (12 + 9 * 2) with 30. change (9 * 2) with 18. dlia.
Qed.

(** ** The walk both readers perform *)

(** The leaf entry that maps [v] below table [t] of level [l], with its level. *)
Fixpoint walk (l : nat) (m : mem) (t v : Z) : res (option (Z * Z)) :=
  let* e := ld_entry m t (vpn v (Z.of_nat l)) in
  if negb (valid e) then Ok None
  else if is_leaf e then Ok (Some (Z.of_nat l, e))
  else match l with
       | O => Ok None
       | S l' => walk l' m (pte_table e) v
       end.

(** The physical address a leaf of level [l] gives to [v]. *)
Definition leaf_pa (l e v : Z) : Z :=
  if l =? 2 then Z.lor (Z.shiftl (pte_ppn e 2) ADDR_2_BIT) (Z.land v 0x3FFFFFFF)
  else if l =? 1 then
    Z.lor (Z.lor (Z.shiftl (pte_ppn e 2) ADDR_2_BIT) (Z.shiftl (pte_ppn e 1) ADDR_1_BIT))
      (Z.land v 0x1FFFFF)
  else
    Z.lor (Z.lor (Z.lor (Z.shiftl (pte_ppn e 2) ADDR_2_BIT) (Z.shiftl (pte_ppn e 1) ADDR_1_BIT))
      (Z.shiftl (pte_ppn e 0) ADDR_0_BIT)) (Z.land v 0xFFF).

Definition pa_of_walk (v : Z) (w : option (Z * Z)) : Z :=
  match w with
  | None => MMU_TRANSLATE_PAGE_FAULT
  | Some (l, e) => leaf_pa l e v
  end.

Definition access_of_walk (perms : Z) (w : option (Z * Z)) : bool :=
  match w with
  | None => false
  | Some (_, e) => Z.land e perms =? perms
  end.

Lemma translate_walk m t v : t <> 0 ->
  mmu_translate m t v = let* w := walk 2 m t v in Ok (pa_of_walk v w).
Proof.
  intros Ht. unfold mmu_translate. replace (t =? 0) with false by lia.
  cbn [walk]. change (Z.of_nat 2) with 2. change (Z.of_nat 1) with 1. change (Z.of_nat 0) with 0.
  unfold valid, is_leaf.
  repeat (match goal with |- context [ld_entry m ?t ?i] => destruct (ld_entry m t i) end;
    cbn [res_bind]; [|done..]; rewrite ?negb_involutive;
    match goal with |- context [Z.land ?a PB_VALID =? 0] =>
      destruct (Z.land a PB_VALID =? 0) end; [done|];
    match goal with |- context [Z.land ?a 0xE =? 0] =>
      destruct (Z.land a 0xE =? 0) end; cbn [negb]; [|done]).
  done.
Qed.

Lemma access_walk m t v perms : t <> 0 ->
  mmu_access_ok m t v perms = let* w := walk 2 m t v in Ok (access_of_walk perms w).
Proof.
  intros Ht. unfold mmu_access_ok, MMU_LEVEL_1G, MMU_LEVEL_4K.
  replace (t =? 0) with false by lia.
  cbn [loop walk]. change (Z.of_nat 2) with 2. change (Z.of_nat 1) with 1. change (Z.of_nat 0) with 0.
  change (2 >=? 0) with true. cbv iota. unfold valid, is_leaf.
  do 3 (match goal with |- context [ld_entry m ?t ?i] => destruct (ld_entry m t i) end;
    cbn [res_bind]; [|done..]; rewrite ?negb_involutive;
    match goal with |- context [Z.land ?a PB_VALID =? 0] =>
      destruct (Z.land a PB_VALID =? 0) end; cbn [res_bind]; [done|];
    match goal with |- context [Z.land ?a 0xE =? 0] =>
      destruct (Z.land a 0xE =? 0) end; cbn [negb res_bind]; [|done];
    change (2 - 1) with 1; change (1 - 1) with 0; change (1 >=? 0) with true;
    change (0 >=? 0) with true; cbv iota).
  done.
Qed.

(** The address a mapping of [p] at level [l] gives to [v]. *)
Lemma leaf_pa_entry p l bits v : 0 <= l <= 2 -> 0 <= p -> 0 <= bits < 2 ^ 10 ->
  leaf_pa l (leaf_entry p l bits) v =
    p / 2 ^ (12 + 9 * l) * 2 ^ (12 + 9 * l) mod 2 ^ 56 + v mod 2 ^ (12 + 9 * l).
Proof.
  intros Hl Hp Hb. rewrite leaf_entry_eq by done.
  assert (0 <= Z.lor bits 1 < 2 ^ 10) as Hf by (apply lor_range; lia).
  set (f := Z.lor bits 1) in *. clearbody f.
  unfold leaf_pa, ADDR_0_BIT, ADDR_1_BIT, ADDR_2_BIT.
  change 0x3FFFFFFF with (Z.ones 30). change 0x1FFFFF with (Z.ones 21). change 0xFFF with (Z.ones 12).
  rewrite !Z.land_ones by lia.
  assert (l = 0 \/ l = 1 \/ l = 2) as [-> | [-> | ->]] by lia; cbn [Z.eqb Pos.eqb];
    rewrite ?pte_ppn_eq; cbn [Z.eqb Pos.eqb].
  - change (12 + 9 * 0) with 12. change (9 * 0) with 0.
    set (e := p / 2 ^ 12 * 2 ^ 0 mod 2 ^ 44 * 2 ^ 10 + f).
    rewrite (lor_shiftl_add _ (Z.shiftl (e / 2 ^ 19 mod 512) 21)) by
      (rewrite ?Z.shiftl_mul_pow2 by lia; dlia).
    replace (e / 2 ^ 28 mod 2 ^ 26 * 2 ^ 30 + Z.shiftl (e / 2 ^ 19 mod 512) 21) with
      (Z.shiftl (e / 2 ^ 28 mod 2 ^ 26 * 2 ^ 9 + e / 2 ^ 19 mod 512) 21) by
      (rewrite !Z.shiftl_mul_pow2 by lia; lia).
    rewrite (lor_shiftl_add _ (Z.shiftl (e / 2 ^ 10 mod 512) 12)) by
      (rewrite ?Z.shiftl_mul_pow2 by lia; dlia).
    replace (_ * 2 ^ 21 + Z.shiftl (e / 2 ^ 10 mod 512) 12) with
      (Z.shiftl (e / 2 ^ 10 mod 2 ^ 44) 12) by (rewrite !Z.shiftl_mul_pow2 by lia; dlia).
    rewrite lor_shiftl_add by dlia. unfold e. dlia.
  - change (12 + 9 * 1) with 21. change (9 * 1) with 9.
    set (e := p / 2 ^ 21 * 2 ^ 9 mod 2 ^ 44 * 2 ^ 10 + f).
    rewrite (lor_shiftl_add _ (Z.shiftl (e / 2 ^ 19 mod 512) 21)) by
      (rewrite ?Z.shiftl_mul_pow2 by lia; dlia).
    replace (e / 2 ^ 28 mod 2 ^ 26 * 2 ^ 30 + Z.shiftl (e / 2 ^ 19 mod 512) 21) with
      (Z.shiftl (e / 2 ^ 19 mod 2 ^ 35) 21) by (rewrite !Z.shiftl_mul_pow2 by lia; dlia).
    rewrite lor_shiftl_add by dlia. unfold e. dlia.
  - change (12 + 9 * 2) with 30. change (9 * 2) with 18.
    rewrite lor_shiftl_add by dlia. dlia.
Qed.

(** ** What the page allocator promises *)

Class PageAllocatorLaws (St : Type) `{!PageAllocator St} := {
  pa_inv : St -> Prop;
  pa_owned : St -> Z -> Prop;
  pa_room : St -> Z;     (* how many pages it can still give *)
  pa_inv_ok s : pa_inv s -> mem_ok (pa_mem s);
  pa_owned_page s p : pa_inv s -> pa_owned s p ->
    0 < p /\ p mod 4096 = 0 /\ p + 4096 <= 2 ^ 56 /\ mapped (pa_mem s) p 4096;
  pa_zalloc_law s : pa_inv s -> exists r s', pa_zalloc s = Ok (r, s') /\ pa_inv s' /\
    match r with
    | None => s' = s /\ pa_room s <= 0
    | Some p => ~ pa_owned s p /\ pa_owned s' p /\
        (forall q, pa_owned s q -> pa_owned s' q) /\
        (forall q a, pa_owned s q -> q <= a < q + 4096 -> pa_mem s' !! a = pa_mem s !! a) /\
        (forall a, p <= a < p + 4096 -> pa_mem s' !! a = Some 0) /\
        pa_room s' = pa_room s - 1
    end;
  pa_write_law s p m' a n : pa_inv s -> pa_owned s p -> stored (pa_mem s) m' a n ->
    p <= a -> a + n <= p + 4096 ->
    pa_inv (pa_set s m') /\ pa_mem (pa_set s m') = m' /\
    (forall q, pa_owned s q -> pa_owned (pa_set s m') q) /\ pa_room (pa_set s m') = pa_room s
}.

Section tree.
Context {St : Type} `{!PageAllocator St} `{!PageAllocatorLaws St}.

(** A tree of tables: [L] gives every table its level, no two entries point to
    the same table, and a branch leads one level down. *)
Record tree_ok (s : St) (root : Z) (L : gmap Z nat) : Prop := mkTree {
  tr_inv : pa_inv s;
  tr_root : L !! root = Some 2%nat;
  tr_owned : forall t l, L !! t = Some l -> pa_owned s t;
  tr_child : forall t l i e, L !! t = Some l -> 0 <= i < 512 ->
    ld_entry (pa_mem s) t i = Ok e -> branch e ->
    exists l', l = S l' /\ L !! pte_table e = Some l';
  tr_inj : forall t1 t2 l1 l2 i1 i2 e1 e2, L !! t1 = Some l1 -> L !! t2 = Some l2 ->
    0 <= i1 < 512 -> 0 <= i2 < 512 ->
    ld_entry (pa_mem s) t1 i1 = Ok e1 -> ld_entry (pa_mem s) t2 i2 = Ok e2 ->
    branch e1 -> branch e2 -> pte_table e1 = pte_table e2 -> t1 = t2 /\ i1 = i2
}.

Lemma tr_page s root L t l : tree_ok s root L -> L !! t = Some l ->
  0 < t /\ t mod 4096 = 0 /\ t + 4096 <= 2 ^ 56 /\ mapped (pa_mem s) t 4096.
Proof. intros [Hi _ Ho _ _] Ht. eapply pa_owned_page; eauto. Qed.

Lemma entry_ok s root L t l i : tree_ok s root L -> L !! t = Some l -> 0 <= i < 512 ->
  exists e, ld_entry (pa_mem s) t i = Ok e /\ 0 <= e < 2 ^ 64.
Proof.
  intros Ht El Hi. destruct (tr_page _ _ _ _ _ Ht El) as (_ & _ & _ & Hm).
  apply (ld_le_ok 8); [apply pa_inv_ok, Ht|]. eapply mapped_mono; [exact Hm | lia | lia].
Qed.

(** [at_level l t]: the walk for [v] from the root arrives at table [t] of level [l]. *)
Inductive at_level (m : mem) (root v : Z) : nat -> Z -> Prop :=
| at_root : at_level m root v 2 root
| at_down l t e : at_level m root v (S l) t ->
    ld_entry m t (vpn v (Z.of_nat (S l))) = Ok e -> branch e ->
    at_level m root v l (pte_table e).

Lemma at_level_le m root v l t : at_level m root v l t -> (l <= 2)%nat.
Proof. induction 1; lia. Qed.

Lemma at_level_in s root L v l t : tree_ok s root L -> at_level (pa_mem s) root v l t ->
  L !! t = Some l.
Proof.
  intros Ht. induction 1 as [|l t e _ IH E B]; [apply Ht|].
  destruct (tr_child _ _ _ Ht _ _ _ _ IH (vpn_range _ _) E B) as (l' & [= <-] & ?). done.
Qed.

Lemma walk_at m root v l t : at_level m root v l t -> walk 2 m root v = walk l m t v.
Proof.
  induction 1 as [|l t e _ IH E [Bv Bl]]; [done|]. rewrite IH. cbn [walk].
  rewrite E. cbn [res_bind]. rewrite Bv, Bl. done.
Qed.

(** [v] and [v'] lie in the same page of level [l]. *)
Definition same_page (l : nat) (v v' : Z) : Prop :=
  forall k, (l <= k <= 2)%nat -> vpn v (Z.of_nat k) = vpn v' (Z.of_nat k).

Lemma at_level_agree m root v v' l t : at_level m root v l t ->
  (forall k, (l < k <= 2)%nat -> vpn v (Z.of_nat k) = vpn v' (Z.of_nat k)) ->
  at_level m root v' l t.
Proof.
  intros H. pose proof (at_level_le _ _ _ _ _ H) as Hle. revert Hle.
  induction H as [|l t e H IH E B]; intros Hle Hag; [constructor|].
  pose proof (at_level_le _ _ _ _ _ H).
  eapply at_down; [apply IH | | done]; [done | intros; apply Hag; lia |].
  rewrite <- Hag by lia. done.
Qed.

(** Two walks that meet came the same way. *)
Lemma at_level_inj s root L v v' l t : tree_ok s root L ->
  at_level (pa_mem s) root v l t -> at_level (pa_mem s) root v' l t ->
  forall k, (l < k <= 2)%nat -> vpn v (Z.of_nat k) = vpn v' (Z.of_nat k).
Proof.
  intros Ht H. induction H as [|l t e H IH E B]; intros H' k Hk; [lia|].
  inversion H' as [Ea Eb | l2 t2 e2 H2 E2 B2 Ea Eb].
  - exfalso. subst. pose proof (at_level_le _ _ _ _ _ H). lia.
  - subst l2.
    destruct (tr_inj _ _ _ Ht t t2 (S l) (S l) (vpn v (Z.of_nat (S l))) (vpn v' (Z.of_nat (S l)))
      e e2) as [-> Hv]; eauto using at_level_in, vpn_range.
    destruct (decide (k = S l)) as [->|]; [done|]. apply IH; [done | lia].
Qed.

Lemma walk_ok s root L v l : forall t, tree_ok s root L -> L !! t = Some l ->
  exists w, walk l (pa_mem s) t v = Ok w.
Proof.
  induction l as [|l IH]; intros t Ht El; cbn [walk];
    match goal with |- context [ld_entry _ t ?i] =>
      destruct (entry_ok _ _ _ _ _ i Ht El (vpn_range _ _)) as (e & E & _) end;
    rewrite E; cbn [res_bind];
    destruct (valid e) eqn:Ev, (is_leaf e) eqn:Eb; cbn [negb]; eauto.
  destruct (tr_child _ _ _ Ht _ _ _ _ El (vpn_range _ _) E) as (l' & [= <-] & El'); [done|].
  by apply IH.
Qed.

(** ** Writing one entry of one table *)

Record entry_written (s s' : St) (t i e : Z) : Prop := mkWritten {
  ew_inv : pa_inv s';
  ew_owned : forall q, pa_owned s q -> pa_owned s' q;
  ew_room : pa_room s' = pa_room s;
  ew_new : ld_entry (pa_mem s') t i = Ok e;
  ew_same : forall t' i', pa_owned s t' -> 0 <= i' < 512 -> (t', i') <> (t, i) ->
    ld_entry (pa_mem s') t' i' = ld_entry (pa_mem s) t' i'
}.

Lemma owned_apart s p q : pa_inv s -> pa_owned s p -> pa_owned s q -> p <> q ->
  p + 4096 <= q \/ q + 4096 <= p.
Proof.
  intros Hs Hp Hq Hne. apply (pa_owned_page s) in Hp as (? & ? & _), Hq as (? & ? & _); try done.
  dlia.
Qed.

Lemma st_entry_ok s t i e : pa_inv s -> pa_owned s t -> 0 <= i < 512 -> 0 <= e < 2 ^ 64 ->
  exists s', st_entry s t i e = Ok s' /\ entry_written s s' t i e.
Proof.
  intros Hs Ht Hi He. destruct (pa_owned_page _ _ Hs Ht) as (_ & _ & _ & Hm).
  destruct (ld64_st64 (pa_mem s) (t + 8 * i) e) as (m' & E & S & L).
  { eapply mapped_mono; [exact Hm | lia | lia]. }
  destruct (pa_write_law _ _ _ _ _ Hs Ht S) as (Hs' & Em & Ho & Hrm); [lia | lia |].
  exists (pa_set s m'). unfold st_entry. rewrite E. split; [done|]. split; rewrite ?Em; try done.
  - unfold ld_entry. rewrite L. by rewrite u64_id.
  - intros t' i' Ht' Hi' Hne. unfold ld_entry, ld64. eapply ld_le_outside; [apply S|].
    change (Z.of_nat 8) with 8. destruct (decide (t = t')) as [->|].
    + assert (i <> i') by congruence. lia.
    + destruct (owned_apart s t t'); [done..| |]; lia.
Qed.

(** Hanging an empty table [p] in an invalid entry changes no walk. *)
Lemma hang_table s s1 s2 root L t l i p :
  tree_ok s root L -> L !! t = Some (S l) -> 0 <= i < 512 ->
  (exists e0, ld_entry (pa_mem s) t i = Ok e0 /\ valid e0 = false) ->
  pa_inv s1 -> ~ pa_owned s p -> pa_owned s1 p ->
  (forall q, pa_owned s q -> pa_owned s1 q) ->
  (forall q a, pa_owned s q -> q <= a < q + 4096 -> pa_mem s1 !! a = pa_mem s !! a) ->
  (forall a, p <= a < p + 4096 -> pa_mem s1 !! a = Some 0) ->
  forall e, branch e -> pte_table e = p -> entry_written s1 s2 t i e ->
  tree_ok s2 root (<[p := l]> L) /\
  forall k t' v, L !! t' = Some k -> walk k (pa_mem s2) t' v = walk k (pa_mem s) t' v.
Proof.
  intros Ht El Hi (e0 & E0 & V0) Hs1 Hp Hp1 Ho Hsame Hzero e Be Ep [Hinv Hown _ Hnew Hrest].
  assert (L !! p = None) as Lp.
  { destruct (L !! p) eqn:E; [|done]. destruct Hp. eapply tr_owned; eauto. }
  assert (forall t' k i', L !! t' = Some k -> 0 <= i' < 512 -> (t', i') <> (t, i) ->
    ld_entry (pa_mem s2) t' i' = ld_entry (pa_mem s) t' i') as Hold.
  { intros t' k i' E' Hi' Hne. assert (pa_owned s t') by (eapply tr_owned; eauto).
    rewrite Hrest by eauto. apply ld_le_ext. intros b Hb. eapply Hsame; [done|].
    change (Z.of_nat 8) with 8 in Hb. lia. }
  assert (forall i', 0 <= i' < 512 -> ld_entry (pa_mem s2) p i' = Ok 0) as Hfresh.
  { intros i' Hi'. rewrite Hrest; [| done | done |].
    - apply ld_le_zero. intros b Hb. apply Hzero. change (Z.of_nat 8) with 8 in Hb. lia.
    - intros [= -> _]. congruence. }
  assert (~ branch 0) as B0 by (intros [? _]; done).
  assert (forall t' k i' e', <[p:=l]> L !! t' = Some k -> 0 <= i' < 512 ->
    ld_entry (pa_mem s2) t' i' = Ok e' -> branch e' ->
    (t' = t /\ i' = i /\ e' = e /\ k = S l) \/
    (L !! t' = Some k /\ ld_entry (pa_mem s) t' i' = Ok e' /\ (t', i') <> (t, i))) as Hcase.
  { intros t' k i' e' E' Hi' Ee Hb. destruct (decide (t' = p)) as [->|].
    { rewrite Hfresh in Ee by done. injection Ee as <-. done. }
    rewrite lookup_insert_ne in E' by done.
    destruct (decide ((t', i') = (t, i))) as [[= -> ->]|Hne].
    - left. rewrite Hnew in Ee. rewrite El in E'. naive_solver.
    - right. rewrite (Hold _ _ _ E' Hi' Hne) in Ee. done. }
  split.
  - split; [done | | | |].
    + rewrite lookup_insert_ne; [apply Ht|]. intros ->. by rewrite (tr_root _ _ _ Ht) in Lp.
    + intros t' k E'. apply Hown. destruct (decide (t' = p)) as [->|]; [done|].
      rewrite lookup_insert_ne in E' by done. apply Ho. eapply tr_owned; eauto.
    + intros t' k i' e' E' Hi' Ee Hb.
      destruct (Hcase _ _ _ _ E' Hi' Ee Hb) as [(-> & -> & -> & ->) | (E2 & Ee2 & _)].
      * exists l. split; [done|]. rewrite Ep. apply lookup_insert_eq.
      * destruct (tr_child _ _ _ Ht _ _ _ _ E2 Hi' Ee2 Hb) as (l' & -> & E3). exists l'.
        split; [done|]. rewrite lookup_insert_ne; [done|]. congruence.
    + intros t1 t2 l1 l2 i1 i2 e1 e2 E1 E2 H1 H2 D1 D2 Hb1 Hb2 Heq.
      destruct (Hcase _ _ _ _ E1 H1 D1 Hb1) as [(-> & -> & -> & ->) | (F1 & G1 & _)],
               (Hcase _ _ _ _ E2 H2 D2 Hb2) as [(-> & -> & -> & ->) | (F2 & G2 & _)]; [done | | |].
      * destruct (tr_child _ _ _ Ht _ _ _ _ F2 H2 G2 Hb2) as (? & _ & ?). congruence.
      * destruct (tr_child _ _ _ Ht _ _ _ _ F1 H1 G1 Hb1) as (? & _ & ?). congruence.
      * eapply tr_inj; [exact Ht | exact F1 | exact F2 | done..].
  - induction k as [|k IH]; intros t' v E'; cbn [walk];
      match goal with |- context [vpn v ?j] => pose proof (vpn_range v j) as Hv end;
      match goal with |- context [ld_entry (pa_mem s2) t' ?j] =>
        destruct (decide ((t', j) = (t, i))) as [Heq|Hne] end.
    + injection Heq as -> _. congruence.
    + by rewrite (Hold _ _ _ E' Hv Hne).
    + injection Heq as -> ->. rewrite El in E'. injection E' as <-.
      rewrite Hnew, E0. cbn [res_bind]. destruct Be as [-> ->]. rewrite V0. cbn [negb].
      rewrite Ep. destruct l; cbn [walk]; rewrite Hfresh by apply vpn_range; done.
    + rewrite (Hold _ _ _ E' Hv Hne).
      destruct (ld_entry (pa_mem s) t' _) as [e'| | |] eqn:E2; cbn [res_bind]; try done.
      destruct (valid e') eqn:V2, (is_leaf e') eqn:B2; cbn [negb]; try done.
      apply IH. destruct (tr_child _ _ _ Ht _ _ _ _ E' Hv E2) as (k' & [= <-] & ?); done.
Qed.

(** Writing a leaf in entry [i] of [t]: walks that end there see it, no other
    walk changes. *)
Lemma write_leaf_tree s s2 root L t l i e :
  tree_ok s root L -> L !! t = Some l -> is_leaf e = true -> entry_written s s2 t i e ->
  tree_ok s2 root L.
Proof.
  intros Ht El Le [Hinv Hown _ Hnew Hrest].
  assert (forall t' k i' e', L !! t' = Some k -> 0 <= i' < 512 ->
    ld_entry (pa_mem s2) t' i' = Ok e' -> branch e' ->
    ld_entry (pa_mem s) t' i' = Ok e') as Hold.
  { intros t' k i' e' E' Hi' Ee [_ Hb]. destruct (decide ((t', i') = (t, i))) as [[= -> ->]|].
    - rewrite Hnew in Ee. congruence.
    - rewrite Hrest in Ee; [done | eapply tr_owned; eauto | done..]. }
  split; [done | apply Ht | | |].
  - intros. apply Hown. eapply tr_owned; eauto.
  - intros. eapply tr_child; eauto.
  - intros. eapply tr_inj; eauto.
Qed.

Lemma write_leaf_other s s2 root L t l i e v' :
  tree_ok s root L -> L !! t = Some l -> entry_written s s2 t i e ->
  ~ (at_level (pa_mem s) root v' l t /\ vpn v' (Z.of_nat l) = i) ->
  forall k t', at_level (pa_mem s) root v' k t' ->
    walk k (pa_mem s2) t' v' = walk k (pa_mem s) t' v'.
Proof.
  intros Ht El [Hinv Hown _ Hnew Hrest] Hno.
  assert (forall k t', at_level (pa_mem s) root v' k t' ->
    ld_entry (pa_mem s2) t' (vpn v' (Z.of_nat k)) =
    ld_entry (pa_mem s) t' (vpn v' (Z.of_nat k))) as Hold.
  { intros k t' Ha. pose proof (at_level_in _ _ _ _ _ _ Ht Ha) as E'.
    apply Hrest; [eapply tr_owned; eauto | apply vpn_range |]. intros [= -> <-].
    assert (k = l) as -> by congruence. by apply Hno. }
  induction k as [|k IH]; intros t' Ha; cbn [walk]; rewrite (Hold _ _ Ha); [done|].
  destruct (ld_entry (pa_mem s) t' _) as [e'| | |] eqn:E2; cbn [res_bind]; try done.
  destruct (valid e') eqn:V2, (is_leaf e') eqn:B2; cbn [negb]; try done.
  apply IH. eapply at_down; done.
Qed.

Lemma write_leaf_same s s2 root L v v' t l e :
  tree_ok s root L -> at_level (pa_mem s) root v l t ->
  entry_written s s2 t (vpn v (Z.of_nat l)) e -> valid e = true -> is_leaf e = true ->
  same_page l v v' -> walk 2 (pa_mem s2) root v' = Ok (Some (Z.of_nat l, e)).
Proof.
  intros Ht Ha [Hinv Hown _ Hnew Hrest] Ve Le Hv.
  pose proof (at_level_in _ _ _ _ _ _ Ht Ha) as El.
  pose proof (at_level_le _ _ _ _ _ Ha).
  assert (forall k t', at_level (pa_mem s) root v' k t' -> (l <= k)%nat ->
    at_level (pa_mem s2) root v' k t') as Hat.
  { induction 1 as [|k t' e' Ha' IH E B]; intros Hk; [constructor|].
    eapply at_down; [apply IH; lia | | done]. rewrite Hrest; [done | | apply vpn_range |].
    - eapply tr_owned; [done|]. by eapply at_level_in.
    - intros [= -> _]. pose proof (at_level_in _ _ _ _ _ _ Ht Ha'). assert (S k = l) by congruence.
      lia. }
  rewrite (walk_at _ _ _ l t).
  - destruct l; cbn [walk]; rewrite <- Hv, Hnew by lia; cbn [res_bind]; by rewrite Ve, Le.
  - apply Hat; [|lia]. eapply at_level_agree; [exact Ha|]. intros. apply Hv. lia.
Qed.

(** ** [mmu_map] *)

(** What the descent has reached: a tree with the same walks, and the table of
    level [cl] on the way to [v]. *)
Definition descended (s0 : St) (root v : Z) (cl : Z) (tab : Z) (s : St) : Prop :=
  (exists L, tree_ok s root L) /\ 0 <= cl <= 2 /\
  at_level (pa_mem s) root v (Z.to_nat cl) tab /\
  (forall v', walk 2 (pa_mem s) root v' = walk 2 (pa_mem s0) root v') /\
  pa_room s0 - (2 - cl) <= pa_room s.

Lemma map_step_ok s0 root v lvl cl tab s :
  (forall k e, walk 2 (pa_mem s0) root v = Ok (Some (k, e)) -> k <= lvl) ->
  0 <= lvl < cl -> descended s0 root v cl tab s ->
  (exists s1, map_step v lvl (cl, tab, s) = Ok (Done (None, s1)) /\
     descended s0 root v cl tab s1 /\ pa_room s1 <= 0) \/
  (exists tab' s1, map_step v lvl (cl, tab, s) = Ok (Next (cl - 1, tab', s1)) /\
     descended s0 root v (cl - 1) tab' s1).
Proof.
  intros Hnoleaf Hlvl ((L & Ht) & Hcl & Ha & Hw & Hrm).
  pose proof (at_level_in _ _ _ _ _ _ Ht Ha) as El.
  destruct (Z.to_nat cl) as [|l'] eqn:El'; [lia|].
  assert (cl = Z.of_nat (S l')) as -> by lia. clear El'.
  destruct (entry_ok _ _ _ _ _ (vpn v (Z.of_nat (S l'))) Ht El (vpn_range _ _)) as (e & E & He).
  unfold map_step. replace (Z.of_nat (S l') >? lvl) with true by lia.
  rewrite E. cbn [res_bind]. fold (valid e). destruct (valid e) eqn:Ve.
  - right. rewrite next_table_eq by lia. eexists _, _. split; [done|].
    assert (branch e) as Be.
    { split; [done|]. destruct (is_leaf e) eqn:Le; [|done].
      specialize (Hnoleaf (Z.of_nat (S l')) e). rewrite <- Hw, (walk_at _ _ _ _ _ Ha) in Hnoleaf.
      cbn [walk] in Hnoleaf. rewrite E in Hnoleaf. cbn [res_bind] in Hnoleaf.
      rewrite Ve, Le in Hnoleaf. specialize (Hnoleaf eq_refl). lia. }
    split; [by exists L|]. split; [lia|]. split; [|split; [done | lia]].
    replace (Z.to_nat (Z.of_nat (S l') - 1)) with l' by lia. by eapply at_down.
  - unfold mmu_table_create. pose proof (tr_inv _ _ _ Ht) as Hinv.
    destruct (pa_zalloc_law s Hinv) as ([p|] & s1 & -> & Hs1 & Hr); cbn [res_bind].
    2: { left. destruct Hr as [-> Hr]. eexists. split; [done|]. split; [|done].
         split; [by exists L|]. by rewrite Nat2Z.id. }
    destruct Hr as (Hp & Hp1 & Ho & Hsame & Hzero & Hrm1).
    destruct (pa_owned_page _ _ Hs1 Hp1) as (P1 & P2 & P3 & _).
    destruct (branch_entry p) as (He' & Be & Ep); [lia | done |].
    destruct (st_entry_ok s1 tab (vpn v (Z.of_nat (S l'))) (Z.lor (Z.shiftr p 2) PB_VALID))
      as (s2 & E2 & W); [done | eapply Ho, tr_owned; eauto | apply vpn_range | done |].
    rewrite E2. cbn [res_bind]. right. eexists _, _. split; [done|].
    destruct (hang_table s s1 s2 root L tab l' _ p Ht El (vpn_range _ _) (ex_intro _ e (conj E Ve))
      Hs1 Hp Hp1 Ho Hsame Hzero _ Be Ep W) as [Ht2 Hw2].
    split; [by eexists|]. split; [lia|]. split.
    + replace (Z.to_nat (Z.of_nat (S l') - 1)) with l' by lia. rewrite <- Ep.
      eapply at_down; [| apply W | done].
      assert (forall k t, at_level (pa_mem s) root v k t -> (S l' <= k)%nat ->
        at_level (pa_mem s2) root v k t) as Hat.
      { induction 1 as [|k t e1 Ha1 IH E1 B1]; intros Hk; [constructor|].
        eapply at_down; [apply IH; lia | | done].
        pose proof (at_level_in _ _ _ _ _ _ Ht Ha1) as El1.
        rewrite (ew_same _ _ _ _ _ W).
        - rewrite <- E1. apply ld_le_ext. intros b Hb. change (Z.of_nat 8) with 8 in Hb.
          pose proof (vpn_range v (Z.of_nat (S k))).
          apply (Hsame t); [eapply tr_owned; eauto | lia].
        - eapply Ho, tr_owned; eauto.
        - apply vpn_range.
        - intros [= -> _]. assert (S k = S l') by congruence. lia. }
      by apply Hat.
    + split; [intros v'; rewrite <- Hw; apply Hw2, Ht|]. rewrite (ew_room _ _ _ _ _ W). lia.
Qed.

Lemma leaf_entry_flags p l bits : 0 <= l <= 2 -> 0 <= p -> 0 <= bits < 2 ^ 10 ->
  Z.land bits 0xE <> 0 ->
  0 <= leaf_entry p l bits < 2 ^ 64 /\ valid (leaf_entry p l bits) = true /\
  is_leaf (leaf_entry p l bits) = true.
Proof.
  intros Hl Hp Hb Hx. rewrite leaf_entry_eq by done.
  assert (0 <= Z.lor bits 1 < 2 ^ 10) as Hf by (apply lor_range; lia).
  set (X := p / 2 ^ (12 + 9 * l) * 2 ^ (9 * l) mod 2 ^ 44).
  assert (0 <= X < 2 ^ 44) by (apply Z.mod_pos_bound; lia).
  split; [lia|]. unfold valid, is_leaf, PB_VALID.
  rewrite (land_low _ 1 10), (land_low _ 0xE 10) by lia.
  replace ((X * 2 ^ 10 + Z.lor bits 1) mod 2 ^ 10) with (Z.lor bits 1) by dlia.
  rewrite !Z.land_lor_distr_l. change (Z.land 1 0xE) with 0. rewrite Z.lor_0_r.
  change (Z.land 1 1) with 1. split; [|lia].
  assert (Z.lor (Z.land bits 1) 1 <> 0) by (intros [_ ?]%Z.lor_eq_0_iff; done). lia.
Qed.

Lemma map_descend s0 root v lvl :
  (forall k e, walk 2 (pa_mem s0) root v = Ok (Some (k, e)) -> k <= lvl) ->
  0 <= lvl <= 2 -> (exists L, tree_ok s0 root L) ->
  exists r s, loop 4 (map_step v lvl) (MMU_LEVEL_1G, root, s0) = Ok (r, s) /\
    match r with
    | None => exists cl tab, descended s0 root v cl tab s /\ lvl < cl /\ pa_room s <= 0
    | Some tab => descended s0 root v lvl tab s
    end.
Proof.
  intros Hnl Hlvl Ht.
  edestruct (loop_total (fun '(cl, tab, s) => lvl <= cl /\ descended s0 root v cl tab s)
    (fun '(cl, _, _) => Z.to_nat cl) (fun '(r, s) => match r with
      | None => exists cl tab, descended s0 root v cl tab s /\ lvl < cl /\ pa_room s <= 0
      | Some tab => descended s0 root v lvl tab s end) (map_step v lvl)) as ([r s] & E & Hd);
    [| | |eauto].
  - intros [[cl tab] s] [Hle Hd]. pose proof (proj1 (proj2 Hd)).
    destruct (decide (lvl = cl)) as [<-|].
    + right. unfold map_step. replace (lvl >? lvl) with false by lia. eauto.
    + destruct (map_step_ok s0 root v lvl cl tab s Hnl ltac:(lia) Hd)
        as [(s1 & E & Hd1 & Hr1) | (tab' & s1 & E & Hd1)].
      * right. exists (None, s1). split; [done|]. exists cl, tab. split; [done|]. split; [lia | done].
      * left. eexists. split; [done|]. cbn beta iota. split; [|lia]. split; [lia | done].
  - cbn beta iota. change MMU_LEVEL_1G with 2. split; [lia|]. split; [done|].
    split; [lia|]. split; [constructor|]. split; [done | lia].
  - cbn beta iota. change MMU_LEVEL_1G with 2. lia.
Qed.

(** The whole of [mmu_map], by its effect on the walks. *)
Lemma mmu_map_walks s root v p lvl bits :
  (exists L, tree_ok s root L) -> 0 <= lvl <= 2 -> 0 <= p -> 0 <= bits < 2 ^ 10 ->
  Z.land bits 0xE <> 0 ->
  (forall k e, walk 2 (pa_mem s) root v = Ok (Some (k, e)) -> k <= lvl) ->
  exists r s', mmu_map s root v p lvl bits = Ok (r, s') /\ (exists L, tree_ok s' root L) /\
    pa_room s - (2 - lvl) <= pa_room s' /\
    if r then
      (forall v', same_page (Z.to_nat lvl) v v' ->
         walk 2 (pa_mem s') root v' = Ok (Some (lvl, leaf_entry p lvl bits))) /\
      (forall v', ~ same_page (Z.to_nat lvl) v v' ->
         walk 2 (pa_mem s') root v' = walk 2 (pa_mem s) root v')
    else (forall v', walk 2 (pa_mem s') root v' = walk 2 (pa_mem s) root v') /\
      pa_room s < 2 - lvl.
Proof.
  intros Ht Hl Hp Hb Hx Hnl. destruct (Ht) as [L0 Ht0].
  destruct (tr_page _ _ _ _ _ Ht0 (tr_root _ _ _ Ht0)) as (Hr & _).
  unfold mmu_map, MMU_LEVEL_1G.
  replace ((root =? 0) || (lvl >? 2) || (Z.land bits 0xE =? 0)) with false by lia.
  destruct (map_descend s root v lvl Hnl Hl Ht) as ([tab|] & s1 & E & H);
    change MMU_LEVEL_1G with 2 in E; rewrite E; cbn [res_bind].
  2: { destruct H as (cl & tab & (HL & Hcl & _ & Hw & Hrm) & Hlc & Hr0). eexists _, _. split; [done|].
       split; [done|]. split; [lia|]. split; [done | lia]. }
  destruct H as ((L & Ht1) & _ & Ha & Hw & Hrm).
  pose proof (at_level_in _ _ _ _ _ _ Ht1 Ha) as El.
  destruct (leaf_entry_flags p lvl bits Hl Hp Hb Hx) as (He & Ve & Le).
  destruct (st_entry_ok s1 tab (vpn v lvl) (leaf_entry p lvl bits)) as (s2 & E2 & W);
    [apply Ht1 | eapply tr_owned; eauto | apply vpn_range | done |].
  rewrite E2. cbn [res_bind]. eexists _, _. split; [done|].
  split; [exists L; by eapply write_leaf_tree|]. split; [rewrite (ew_room _ _ _ _ _ W); lia|].
  rewrite <- (Z2Nat.id lvl) in W at 1 by lia.
  split; intros v' Hv'.
  - rewrite (write_leaf_same s1 s2 root L v v' tab _ _ Ht1 Ha W Ve Le Hv').
    by rewrite Z2Nat.id by lia.
  - rewrite <- Hw. eapply write_leaf_other; [exact Ht1 | exact El | exact W | | constructor].
    intros [Ha' Hi]. apply Hv'. intros k Hk. destruct (decide (k = Z.to_nat lvl)) as [->|].
    + done.
    + eapply at_level_inj; [exact Ht1 | exact Ha | exact Ha' | lia].
Qed.

(** No walk for [v] ends in a leaf above level [lvl]. *)
Definition no_larger_leaf (s : St) (root v lvl : Z) : Prop :=
  forall k e, walk 2 (pa_mem s) root v = Ok (Some (k, e)) -> k <= lvl.

(** Size of a page of level [lvl], and what the readers say about [v']. *)
Definition page_size (lvl : Z) : Z := 2 ^ (12 + 9 * lvl).

Lemma tree_root_nonzero s root L : tree_ok s root L -> root <> 0.
Proof. intros Ht. destruct (tr_page _ _ _ _ _ Ht (tr_root _ _ _ Ht)) as (? & _). lia. Qed.

(** What the readers make of a leaf. *)
Lemma leaf_reads m root v p lvl bits : root <> 0 -> 0 <= lvl <= 2 -> 0 <= p -> 0 <= bits < 2 ^ 10 ->
  walk 2 m root v = Ok (Some (lvl, leaf_entry p lvl bits)) ->
  mmu_translate m root v = Ok (p / page_size lvl * page_size lvl mod 2 ^ 56 + v mod page_size lvl) /\
  forall perms, 0 <= perms < 2 ^ 10 -> mmu_access_ok m root v perms =
    Ok (Z.land (Z.lor bits PB_VALID) perms =? perms).
Proof.
  intros Hr Hl Hp Hb Hw. split.
  - rewrite translate_walk, Hw by done. cbn [res_bind pa_of_walk]. by rewrite leaf_pa_entry.
  - intros perms Hperms. rewrite access_walk, Hw by done. cbn [res_bind access_of_walk].
    rewrite leaf_entry_eq by done.
    assert (0 <= Z.lor bits 1 < 2 ^ 10) by (apply lor_range; lia).
    rewrite (land_low _ perms 10) by lia. rewrite Z.add_comm, Z.mod_add by lia.
    by rewrite Z.mod_small.
Qed.

(** (C1) mmu_map installs exactly the mapping it is asked for. On a well-formed
    tree, for a level-lvl page that no larger leaf covers, it returns; when it
    returns true every address of that page translates to the corresponding
    physical address and is accessible exactly with the given permission bits;
    every other address (and, when it returns false, every address) translates
    and is accessible as before; the tree stays well formed. *)
Theorem mmu_map_correct s root v p lvl bits :
  (exists L, tree_ok s root L) -> 0 <= lvl <= 2 -> 0 <= p -> 0 <= bits < 2 ^ 10 ->
  Z.land bits 0xE <> 0 -> no_larger_leaf s root v lvl ->
  exists r s', mmu_map s root v p lvl bits = Ok (r, s') /\ (exists L, tree_ok s' root L) /\
    (forall v', r = true -> same_page (Z.to_nat lvl) v v' ->
       mmu_translate (pa_mem s') root v' =
         Ok (p / page_size lvl * page_size lvl mod 2 ^ 56 + v' mod page_size lvl) /\
       forall perms, 0 <= perms < 2 ^ 10 -> mmu_access_ok (pa_mem s') root v' perms =
         Ok (Z.land (Z.lor bits PB_VALID) perms =? perms)) /\
    (forall v', r = false \/ ~ same_page (Z.to_nat lvl) v v' ->
       mmu_translate (pa_mem s') root v' = mmu_translate (pa_mem s) root v' /\
       forall perms, mmu_access_ok (pa_mem s') root v' perms =
                     mmu_access_ok (pa_mem s) root v' perms).
Proof.
  intros Ht Hl Hp Hb Hx Hnl.
  destruct (mmu_map_walks s root v p lvl bits Ht Hl Hp Hb Hx Hnl) as (r & s' & E & Ht' & _ & Hw).
  assert (root <> 0) as Hr by (destruct Ht as [L Ht]; by eapply tree_root_nonzero).
  exists r, s'. split; [done|]. split; [done|]. split; intros v'.
  - intros -> Hv. destruct Hw as [Hw _]. apply (leaf_reads _ _ _ p); auto.
  - intros Hv. assert (walk 2 (pa_mem s') root v' = walk 2 (pa_mem s) root v') as Hsame.
    { destruct r; [|apply Hw]. destruct Hv as [Hv|Hv]; [discriminate Hv|]. by apply Hw. }
    split; [|intros perms]; rewrite ?translate_walk, ?access_walk, Hsame by done; done.
Qed.

(** Below an existing larger leaf mmu_map takes the leaf for a table: it
    stores the new entry inside the physical page the leaf maps and returns true. *)
Theorem mmu_map_below_leaf s root v p bits e : root <> 0 ->
  Z.land bits 0xE <> 0 -> 0 <= e -> ld_entry (pa_mem s) root (vpn v 2) = Ok e ->
  valid e = true -> is_leaf e = true ->
  mmu_map s root v p 1 bits =
    let* s' := st_entry s (pte_table e) (vpn v 1) (leaf_entry p 1 bits) in Ok (true, s').
Proof.
  intros Hr Hx He E Ve _. unfold mmu_map, MMU_LEVEL_1G.
  replace ((root =? 0) || (1 >? 2) || (Z.land bits 0xE =? 0)) with false by lia.
  cbn [loop map_step]. change (2 >? 1) with true. cbv iota. rewrite E. cbn [res_bind].
  fold (valid e). rewrite Ve. cbn [res_bind]. change (2 - 1) with 1.
  change (1 >? 1) with false. cbv iota. cbn [res_bind]. by rewrite next_table_eq.
Qed.

(** ** [mmu_map_range] *)

Lemma div_pow_split v : v / 2 ^ 21 = v / 2 ^ 12 / 512 /\ v / 2 ^ 30 = v / 2 ^ 12 / 512 / 512.
Proof. rewrite !Z.div_div by lia. done. Qed.

Lemma digit_eq x x' : x / 512 = x' / 512 -> x mod 512 = x' mod 512 -> x = x'.
Proof. intros. pose proof (Z.div_mod x 512). pose proof (Z.div_mod x' 512). lia. Qed.

Lemma top_digit x : 0 <= x < 2 ^ 27 -> x / 512 / 512 mod 512 = x / 512 / 512.
Proof. intros. apply Z.mod_small. rewrite Z.div_div by lia. dlia. Qed.

Lemma same_page_div lvl v v' : 0 <= lvl <= 2 -> 0 <= v < 2 ^ 39 -> 0 <= v' < 2 ^ 39 ->
  same_page (Z.to_nat lvl) v v' <-> v / page_size lvl = v' / page_size lvl.
Proof.
  intros Hl Hv Hv'. unfold same_page, page_size.
  destruct (div_pow_split v) as [E1 E2], (div_pow_split v') as [E1' E2'].
  assert (0 <= v / 2 ^ 12 < 2 ^ 27 /\ 0 <= v' / 2 ^ 12 < 2 ^ 27) as [Hx Hx'] by dlia.
  split.
  - intros H. pose proof (H 0%nat) as H0. pose proof (H 1%nat) as H1. pose proof (H 2%nat) as H2.
    rewrite !vpn_eq in H0, H1, H2. cbn [Z.of_nat Z.eqb Pos.of_succ_nat Pos.eqb Pos.succ] in H0, H1, H2.
    rewrite E1, E1' in H1. rewrite E2, E2' in H2.
    assert (lvl = 0 \/ lvl = 1 \/ lvl = 2) as [-> | [-> | ->]] by lia;
      change (12 + 9 * 0) with 12; change (12 + 9 * 1) with 21; change (12 + 9 * 2) with 30;
      rewrite ?E1, ?E1', ?E2, ?E2';
      specialize (H2 ltac:(lia)); rewrite !top_digit in H2 by done.
    + auto using digit_eq with lia.
    + auto using digit_eq with lia.
    + done.
  - intros H k Hk. rewrite !vpn_eq.
    assert (lvl = 0 \/ lvl = 1 \/ lvl = 2) as [-> | [-> | ->]] by lia;
      change (12 + 9 * 0) with 12 in H; change (12 + 9 * 1) with 21 in H;
      change (12 + 9 * 2) with 30 in H; rewrite ?E1, ?E1', ?E2, ?E2' in *;
      assert (k = 0%nat \/ k = 1%nat \/ k = 2%nat) as [-> | [-> | ->]] by lia; try lia;
      cbn [Z.of_nat Z.eqb Pos.of_succ_nat Pos.eqb Pos.succ]; by rewrite H.
Qed.

Lemma page_size_at lvl : 0 <= lvl <= 2 -> PAGE_SIZE_AT_LVL lvl = page_size lvl.
Proof.
  intros. assert (lvl = 0 \/ lvl = 1 \/ lvl = 2) as [-> | [-> | ->]] by lia; done.
Qed.

(** Every address of the range is covered by no leaf larger than [lvl]. *)
Definition range_clear (s : St) (root lo hi lvl : Z) : Prop :=
  forall v, lo <= v < hi -> no_larger_leaf s root v lvl.

(** After [i] bytes of the range [lo, ...) are mapped to [phys, ...). *)
Definition mapped_upto (s0 : St) (root lo phys lvl bits i : Z) (s : St) : Prop :=
  (exists L, tree_ok s root L) /\
  (forall v, lo <= v < lo + i -> walk 2 (pa_mem s) root v =
     Ok (Some (lvl, leaf_entry (phys + (v - lo) / page_size lvl * page_size lvl) lvl bits))) /\
  (forall v, 0 <= v < 2 ^ 39 -> ~ (lo <= v < lo + i) ->
     walk 2 (pa_mem s) root v = walk 2 (pa_mem s0) root v).

Lemma same_page_range lvl lo v : 0 <= lvl <= 2 -> lo mod page_size lvl = 0 -> 0 <= lo < 2 ^ 39 ->
  0 <= v < 2 ^ 39 ->
  same_page (Z.to_nat lvl) lo v <-> lo <= v < lo + page_size lvl.
Proof.
  intros Hl Ha Hlo Hv. rewrite same_page_div by done.
  assert (0 < page_size lvl) by (unfold page_size; lia).
  pose proof (Z.div_mod lo (page_size lvl)). pose proof (Z.div_mod v (page_size lvl)).
  pose proof (Z.mod_pos_bound v (page_size lvl)). split; [intros E; rewrite E in *; lia|].
  intros Hr. nia.
Qed.

Lemma map_one_more s0 root lo phys lvl bits i s :
  0 <= lvl <= 2 -> 0 <= bits < 2 ^ 10 -> Z.land bits 0xE <> 0 ->
  lo mod page_size lvl = 0 -> i mod page_size lvl = 0 ->
  0 <= lo -> 0 <= phys -> 0 <= i -> lo + i + page_size lvl <= 2 ^ 39 ->
  no_larger_leaf s0 root (lo + i) lvl -> mapped_upto s0 root lo phys lvl bits i s ->
  exists r s', mmu_map s root (lo + i) (phys + i) lvl bits = Ok (r, s') /\
    mapped_upto s0 root lo phys lvl bits (if r then i + page_size lvl else i) s' /\
    pa_room s - (2 - lvl) <= pa_room s' /\ (r = false -> pa_room s < 2 - lvl).
Proof.
  intros Hl Hb Hx A1 A3 Hlo Hph Hi Hv Hnl (Ht & Hin & Hout).
  assert (0 < page_size lvl) as Hpos by (unfold page_size; lia).
  assert ((lo + i) mod page_size lvl = 0) as A4.
  { rewrite Z.add_mod, A1, A3 by lia. by rewrite Z.mod_0_l by lia. }
  destruct (mmu_map_walks s root (lo + i) (phys + i) lvl bits) as (r & s' & E & Ht' & Hrm & Hw);
    [done | done | lia | done | done | |].
  { intros k e. rewrite Hout by lia. apply Hnl. }
  assert (forall v, 0 <= v < 2 ^ 39 -> (r = true -> ~ (lo + i <= v < lo + i + page_size lvl)) ->
    walk 2 (pa_mem s') root v = walk 2 (pa_mem s) root v) as Hsame.
  { intros v Hv' Hne. destruct r; [|apply Hw]. apply Hw.
    rewrite same_page_range by lia. by apply Hne. }
  exists r, s'. split; [done|]. split; [|split; [done | intros ->; apply Hw]].
  split; [done|]. split.
  - intros v Hv'. destruct (decide (r = true /\ lo + i <= v)) as [[-> Hge]|Hne].
    + destruct Hw as [Hw _]. rewrite Hw by (rewrite same_page_range by lia; lia).
      replace ((v - lo) / page_size lvl * page_size lvl) with i; [done|].
      pose proof (Z.div_mod i (page_size lvl)).
      replace (v - lo) with (v - lo - i + i / page_size lvl * page_size lvl) by lia.
      rewrite Z.div_add by lia. rewrite (Z.div_small (v - lo - i)) by lia. lia.
    + assert (lo <= v < lo + i) as Hv2 by (destruct r; [|lia]; destruct (decide (lo + i <= v)); [|lia];
        by destruct Hne).
      rewrite Hsame by (lia || (intros _; lia)). by apply Hin.
  - intros v Hv' Hne. rewrite Hsame; [apply Hout; [done | destruct r; lia] | done |].
    intros ->. lia.
Qed.

Lemma range_bounds sv ev lvl : 0 <= lvl <= 2 -> 0 <= sv <= ev -> ev <= 2 ^ 38 ->
  ALIGN_DOWN_POT sv (PAGE_SIZE_AT_LVL lvl) mod page_size lvl = 0 /\
  ALIGN_UP_POT ev (PAGE_SIZE_AT_LVL lvl) mod page_size lvl = 0 /\
  0 <= ALIGN_DOWN_POT sv (PAGE_SIZE_AT_LVL lvl) <= sv /\
  ev <= ALIGN_UP_POT ev (PAGE_SIZE_AT_LVL lvl) <= 2 ^ 39.
Proof.
  intros Hl Hse He. rewrite page_size_at by done. unfold page_size.
  assert (0 < 2 ^ (12 + 9 * lvl) <= 2 ^ 30) as Hsz.
  { split; [lia|]. apply Z.pow_le_mono_r; lia. }
  rewrite align_down_pot by lia. rewrite Z.mod_mul by lia. split; [done|].
  destruct (align_up_bounds ev (12 + 9 * lvl)) as [? ?]; [lia | lia | lia |].
  split; [done|]. split; [|lia].
  pose proof (Z.div_mod sv (2 ^ (12 + 9 * lvl)) ltac:(lia)).
  pose proof (Z.mod_pos_bound sv (2 ^ (12 + 9 * lvl)) ltac:(lia)).
  pose proof (Z.div_pos sv (2 ^ (12 + 9 * lvl)) ltac:(lia) ltac:(lia)). lia.
Qed.

(** The whole of [mmu_map_range], by its effect on the walks. *)
Lemma mmu_map_range_walks s root start_virt end_virt phys lvl bits :
  (exists L, tree_ok s root L) -> 0 <= lvl <= 2 -> 0 <= bits < 2 ^ 10 -> Z.land bits 0xE <> 0 ->
  0 <= phys ->
  let lo := ALIGN_DOWN_POT start_virt (PAGE_SIZE_AT_LVL lvl) in
  let hi := ALIGN_UP_POT end_virt (PAGE_SIZE_AT_LVL lvl) in
  0 <= start_virt <= end_virt -> end_virt <= 2 ^ 38 -> phys + (hi - lo) <= 2 ^ 56 ->
  range_clear s root lo hi lvl ->
  exists n s', mmu_map_range s root start_virt end_virt phys lvl bits = Ok (n, s') /\
    0 <= n <= (hi - lo) / page_size lvl /\
    mapped_upto s root lo phys lvl bits (n * page_size lvl) s' /\
    pa_room s - n * (2 - lvl) - (2 - lvl) <= pa_room s' /\
    ((hi - lo) / page_size lvl * (2 - lvl) <= pa_room s -> n * page_size lvl = hi - lo).
Proof.
  intros Ht Hl Hb Hx Hp lo hi Hse He Hpe Hclear.
  destruct (range_bounds start_virt end_virt lvl Hl Hse He) as (Alo & Ahi & Hlo & Hhi).
  fold lo in Alo, Hlo. fold hi in Ahi, Hhi. set (sz := page_size lvl) in *.
  assert (0 < sz) as Hpos by (unfold sz, page_size; lia).
  set (N := (hi - lo) / sz). assert (hi - lo = N * sz) as EN.
  { pose proof (Z.div_mod (hi - lo) sz). rewrite Zminus_mod, Alo, Ahi, Z.mod_0_l in H by lia.
    unfold N. lia. }
  unfold mmu_map_range. fold lo hi. rewrite u64_id by lia. rewrite page_size_at by done. fold sz.
  edestruct (loop_total (fun '(i, pm, s') => i = pm * sz /\ 0 <= pm <= N /\
      mapped_upto s root lo phys lvl bits i s' /\ pa_room s - pm * (2 - lvl) <= pa_room s')
    (fun '(_, pm, _) => Z.to_nat (N - pm))
    (fun '(n, s') => 0 <= n <= N /\ mapped_upto s root lo phys lvl bits (n * sz) s' /\
      pa_room s - n * (2 - lvl) - (2 - lvl) <= pa_room s' /\ (n < N -> pa_room s < (n + 1) * (2 - lvl))))
    as ([n s'] & E & Hn & Hm & Hrm & Hfull); [| | | rewrite E].
  - intros [[i pm] s1] (-> & Hpm & Hm & Hrm). destruct (Z.ltb_spec (pm * sz) (hi - lo)) as [Hlt|].
    2: { right. exists (pm, s1). split; [done|]. split; [done|]. split; [done|]. nia. }
    assert (pm < N) by nia. assert (0 <= pm * sz) by nia.
    assert (pm * sz + sz <= hi - lo) by nia.
    pose proof (Z.mod_mul pm sz ltac:(lia)) as Ai.
    pose proof (Hclear (lo + pm * sz) ltac:(lia)) as Hnl.
    rewrite !u64_id by lia.
    destruct (map_one_more s root lo phys lvl bits (pm * sz) s1 Hl Hb Hx Alo Ai)
      as (r & s2 & -> & Hm2 & Hrm2 & Hf); [fold sz; lia.. | exact Hnl | exact Hm |].
    cbn [res_bind]. fold sz in Hm2. destruct r.
    + left. exists (pm * sz + sz, pm + 1, s2). split; [done|]. cbn beta iota.
      split; [|lia]. split; [lia|]. split; [lia|]. split; [exact Hm2 | lia].
    + right. exists (pm, s2). split; [done|]. split; [lia|]. split; [exact Hm2|].
      specialize (Hf eq_refl). lia.
  - split; [lia|]. split; [nia|]. split; [split; [done|]; split; [lia | done] | lia].
  - cbn beta iota. fold N. lia.
  - exists n, s'. split; [done|]. split; [done|]. split; [exact Hm|]. split; [done|].
    intros Hroom. fold N in Hroom. rewrite EN. destruct (decide (n < N)) as [Hlt|]; [|nia].
    specialize (Hfull Hlt). exfalso.
    assert ((n + 1) * (2 - lvl) <= N * (2 - lvl)) by (apply Z.mul_le_mono_nonneg_r; lia). lia.
Qed.

(** The leaf [v] has in a range that starts at [lo] and is mapped to [phys]. *)
Definition span_leaf (lo phys lvl bits v : Z) : Z * Z :=
  (lvl, leaf_entry (phys + (v - lo) / page_size lvl * page_size lvl) lvl bits).

(** What the readers say about it. *)
Lemma span_reads m root lo phys lvl bits i v : root <> 0 -> 0 <= lvl <= 2 -> 0 <= bits < 2 ^ 10 ->
  0 <= phys -> lo mod page_size lvl = 0 ->
  walk 2 m root v = Ok (Some (span_leaf lo phys lvl bits v)) ->
  lo <= v < lo + i -> phys + i <= 2 ^ 56 ->
  mmu_translate m root v = Ok (phys / page_size lvl * page_size lvl + (v - lo)) /\
  forall perms, 0 <= perms < 2 ^ 10 -> mmu_access_ok m root v perms =
    Ok (Z.land (Z.lor bits PB_VALID) perms =? perms).
Proof.
  intros Hr Hl Hb Hp A Hin Hv Hpe. unfold span_leaf in Hin. set (sz := page_size lvl) in *.
  assert (0 < sz) as Hpos by (unfold sz, page_size; lia).
  set (k := (v - lo) / sz). pose proof (Z.div_mod (v - lo) sz ltac:(lia)) as Ek. fold k in Ek.
  pose proof (Z.mod_pos_bound (v - lo) sz Hpos) as Hk. assert (0 <= k) by (apply Z.div_pos; lia).
  destruct (leaf_reads m root v (phys + k * sz) lvl bits) as [Et Ea]; [done | done | nia | done | done |].
  split; [|exact Ea]. rewrite Et. fold sz. f_equal. rewrite Z.div_add by lia.
  assert (v mod sz = (v - lo) mod sz) as ->.
  { rewrite Zminus_mod, A, Z.sub_0_r, Z.mod_mod by lia. done. }
  pose proof (Z.mul_div_le phys sz Hpos). pose proof (Z.div_pos phys sz Hp Hpos).
  assert ((phys / sz + k) * sz = phys / sz * sz + k * sz) as -> by ring.
  assert (0 <= phys / sz * sz) by (apply Z.mul_nonneg_nonneg; lia).
  assert (0 <= k * sz) by (apply Z.mul_nonneg_nonneg; lia).
  rewrite Z.mod_small by lia. lia.
Qed.

(** (C15) mmu_map_range maps page by page: it returns a count n of pages such
    that exactly the first n pages of the aligned range translate, each byte to
    the corresponding byte of the physical pages, and can be accessed with the bits
    given; no other address changes; and it stops short of the whole range only when
    fewer pages are free than tables may be missing. *)
Theorem mmu_map_range_correct s root start_virt end_virt phys lvl bits :
  (exists L, tree_ok s root L) -> 0 <= lvl <= 2 -> 0 <= bits < 2 ^ 10 -> Z.land bits 0xE <> 0 ->
  0 <= phys ->
  let lo := ALIGN_DOWN_POT start_virt (PAGE_SIZE_AT_LVL lvl) in
  let hi := ALIGN_UP_POT end_virt (PAGE_SIZE_AT_LVL lvl) in
  0 <= start_virt <= end_virt -> end_virt <= 2 ^ 38 -> phys + (hi - lo) <= 2 ^ 56 ->
  range_clear s root lo hi lvl ->
  exists n s', mmu_map_range s root start_virt end_virt phys lvl bits = Ok (n, s') /\
    0 <= n <= (hi - lo) / page_size lvl /\
    ((hi - lo) / page_size lvl * (2 - lvl) <= pa_room s -> n * page_size lvl = hi - lo) /\
    (forall v, lo <= v < lo + n * page_size lvl ->
       mmu_translate (pa_mem s') root v = Ok (phys / page_size lvl * page_size lvl + (v - lo)) /\
       forall perms, 0 <= perms < 2 ^ 10 -> mmu_access_ok (pa_mem s') root v perms =
         Ok (Z.land (Z.lor bits PB_VALID) perms =? perms)) /\
    (forall v, 0 <= v < 2 ^ 39 -> ~ (lo <= v < lo + n * page_size lvl) ->
       mmu_translate (pa_mem s') root v = mmu_translate (pa_mem s) root v).
Proof.
  intros Ht Hl Hb Hx Hp lo hi Hse He Hpe Hclear.
  destruct (mmu_map_range_walks s root start_virt end_virt phys lvl bits Ht Hl Hb Hx Hp Hse He Hpe Hclear)
    as (n & s' & E & Hn & Hm & _ & Hfull). fold lo hi in Hn, Hm, Hfull.
  assert (root <> 0) as Hr by (destruct Ht as [L Ht]; by eapply tree_root_nonzero).
  destruct (range_bounds start_virt end_virt lvl Hl Hse He) as (Alo & _ & Hlo & Hhi).
  fold lo in Alo, Hlo. fold hi in Hhi. assert (0 < page_size lvl) as Hpos by (unfold page_size; lia).
  exists n, s'. split; [done|]. split; [done|]. split; [done|]. split.
  - intros v Hv. apply (span_reads _ _ _ _ _ _ (n * page_size lvl)); try done.
    { by apply Hm. }
    assert (n * page_size lvl <= (hi - lo) / page_size lvl * page_size lvl)
      by (apply Z.mul_le_mono_nonneg_r; lia).
    pose proof (Z.mul_div_le (hi - lo) (page_size lvl) Hpos). lia.
  - intros v Hv Hne. rewrite !translate_walk by done. by rewrite (proj2 (proj2 Hm)).
Qed.

End tree.

(** ** The page allocator of [Page] keeps the promise *)

Section instance.
Context (heap_start heap_end : Z).

Definition page_allocator : PageAllocator page_state := {|
  pa_mem := pmem;
  pa_set s m := mkPages m (page_lock s);
  pa_zalloc s := page_znalloc heap_start heap_end s 1;
  pa_free s p := page_free heap_start heap_end s p
|}.
#[local] Existing Instance page_allocator.

Context (Hheap : heap_ok heap_start heap_end) (Hend : heap_end <= 2 ^ 56).

(** A page that is a chunk of its own. *)
Definition page_owned (s : page_state) (p : Z) : Prop :=
  exists i, p = heap_start + i * PAGE_SIZE /\
    num_pages_bk heap_start heap_end <= i < num_pages heap_start heap_end /\
    bits heap_start (pmem s) i = 3 /\ bits heap_start (pmem s) (i - 1) <> 2.

Definition heap_inv (s : page_state) : Prop :=
  page_inv heap_start heap_end s /\ mapped (pmem s) heap_start (heap_end - heap_start).

Lemma owned_range s p : page_owned s p ->
  heap_start + bk_size heap_start heap_end <= p /\ p + 4096 <= heap_end /\ p mod 4096 = 0.
Proof.
  intros (i & -> & Hi & _). pose proof (bk_size_eq _ _ Hheap). pose proof (num_pages_bytes _ _ Hheap).
  pose proof (hs_aligned _ _ Hheap). unfold PAGE_SIZE in *. split; [lia|]. split; [lia|].
  by rewrite Z.mod_add by lia.
Qed.

Lemma owned_outside s m' p a n : stored (pmem s) m' a n ->
  heap_start + bk_size heap_start heap_end <= a ->
  page_owned s p -> page_owned (mkPages m' (page_lock s)) p.
Proof.
  intros S Ha (i & -> & Hi & E1 & E2). exists i. pose proof (bk_pages_le _ _ Hheap).
  cbn [pmem]. rewrite !(bits_outside _ _ Hheap _ _ _ _ _ S Ha) by lia. done.
Qed.

Lemma heap_write s p m' a n : heap_inv s -> page_owned s p -> stored (pmem s) m' a n ->
  p <= a -> a + n <= p + 4096 -> heap_inv (mkPages m' (page_lock s)).
Proof.
  intros [Hs Hm] Hp S Ha Hn. destruct (owned_range _ _ Hp) as (Hlo & _). split.
  - eapply page_inv_outside; [exact Hheap | done | exact S | lia].
  - by eapply stored_mapped.
Qed.

(** One page less is free. *)
Lemma nfree_ext m m' k : (forall j, 0 <= j < Z.of_nat k -> bits heap_start m' j = bits heap_start m j) ->
  nfree heap_start m' k = nfree heap_start m k.
Proof. induction k as [|k IH]; intros H; cbn [nfree]; [done|]. rewrite IH, H by (intros; apply H; lia) || lia. done. Qed.

Lemma nfree_taken m m' st k : bits heap_start m st < 2 -> 0 <= st ->
  (forall j, 0 <= j < Z.of_nat k -> bits heap_start m' j = if j =? st then 3 else bits heap_start m j) ->
  nfree heap_start m' k = nfree heap_start m k - (if st <? Z.of_nat k then 1 else 0).
Proof.
  intros Hst H0. induction k as [|k IH]; intros H; cbn [nfree]; [by rewrite (proj2 (Z.ltb_ge _ _)) by lia|].
  rewrite IH by (intros; apply H; lia). rewrite H by lia.
  destruct (Z.eqb_spec (Z.of_nat k) st) as [E|E].
  - subst. replace (3 <? 2) with false by done. rewrite (proj2 (Z.ltb_lt (bits _ _ _) 2)) by done.
    rewrite (proj2 (Z.ltb_ge _ _)), (proj2 (Z.ltb_lt _ _)) by lia. lia.
  - replace (st <? Z.of_nat (S k)) with (st <? Z.of_nat k) by (apply eq_bool_prop_intro; rewrite !Is_true_true; lia). lia.
Qed.

Definition heap_room (s : page_state) : Z :=
  nfree heap_start (pmem s) (Z.to_nat (num_pages heap_start heap_end)).

(** The page [st] is the one taken. *)
Definition one_taken (s s' : page_state) (st : Z) : Prop :=
  found heap_start heap_end (pmem s) 1 st st /\
  forall j, 0 <= j < num_pages heap_start heap_end ->
    bits heap_start (pmem s') j = if j =? st then 3 else bits heap_start (pmem s) j.

Lemma one_taken_room s s' st : one_taken s s' st -> heap_room s' = heap_room s - 1.
Proof.
  intros [F B]. pose proof (fd_range _ _ _ _ _ _ F). unfold heap_room.
  rewrite (nfree_taken (pmem s) (pmem s') st).
  - by rewrite (proj2 (Z.ltb_lt _ _)) by lia.
  - apply (fd_free _ _ _ _ _ _ F). lia.
  - lia.
  - intros j Hj. apply B. lia.
Qed.

Lemma heap_zalloc s : heap_inv s -> exists r s',
  page_znalloc heap_start heap_end s 1 = Ok (r, s') /\ heap_inv s' /\
  match r with
  | None => s' = s /\ heap_room s <= 0
  | Some p => ~ page_owned s p /\ page_owned s' p /\
      (forall q, page_owned s q -> page_owned s' q) /\
      (forall a, heap_start + bk_size heap_start heap_end <= a -> ~ (p <= a < p + 4096) ->
         pmem s' !! a = pmem s !! a) /\
      (forall a, p <= a < p + 4096 -> pmem s' !! a = Some 0) /\
      exists st, p = heap_start + st * PAGE_SIZE /\ one_taken s s' st
  end.
Proof.
  intros [Hs Hm]. unfold page_znalloc. change (1 <=? 0) with false. cbv iota.
  destruct (page_nalloc_spec _ _ Hheap s 1 Hs) as [[E Hno] | (st & en & m1 & E & F & A & I)];
    [lia | rewrite E; cbn [res_bind]; eexists _, _; split; [done|]; split; [done|]; split;
      [done | unfold heap_room; lia] |].
  rewrite E. cbn [res_bind pmem page_lock]. pose proof (found_short _ _ _ _ _ _ F).
  pose proof (fd_range _ _ _ _ _ _ F). assert (en = st) as -> by lia.
  destruct (nalloc_chunk _ _ Hheap _ _ _ _ _ Hs F A) as (Hst & (_ & _ & Hc & _) & Hprev).
  pose proof (fd_free _ _ _ _ _ _ F st ltac:(lia)) as Hfree. destruct A as [S1 B1].
  set (p := heap_start + st * PAGE_SIZE) in *.
  assert (page_owned (mkPages m1 MUTEX_UNLOCKED) p) as Hp by (exists st; split; [done|]; split; [lia|done]).
  destruct (owned_range _ _ Hp) as (P1 & P2 & P3).
  destruct (memset_spec m1 p 0 (s32 (1 * PAGE_SIZE))) as (m2 & E2 & S2 & Z2).
  { done. }
  { change (s32 (1 * PAGE_SIZE)) with 4096. eapply stored_mapped; [exact S1|].
    destruct Hheap. eapply mapped_mono; [exact Hm | unfold PAGE_SIZE in *; lia..]. }
  rewrite E2. change (s32 (1 * PAGE_SIZE)) with 4096 in *.
  cbn [res_bind]. eexists _, _. split; [done|].
  assert (~ page_owned s p) as Hnew.
  { intros (i & Ei & Hi & E3 & _). assert (i = st) as -> by (unfold p, PAGE_SIZE in Ei; lia). lia. }
  split; [|split; [done|split; [|split; [|split; [|split]]]]].
  - eapply (heap_write (mkPages m1 MUTEX_UNLOCKED)); [| exact Hp | exact S2 | lia | lia].
    split; [done|]. by eapply stored_mapped.
  - by eapply (owned_outside (mkPages m1 MUTEX_UNLOCKED)).
  - intros q Hq. eapply (owned_outside (mkPages m1 MUTEX_UNLOCKED)); [exact S2 | done |].
    destruct Hq as (i & -> & Hi & E3 & E4). exists i. pose proof (bk_pages_le _ _ Hheap).
    split; [done|]. split; [done|]. cbn [pmem]. rewrite !B1 by lia. split.
    + repeat case_match; lia.
    + repeat case_match; lia.
  - intros a Ha Hout. cbn [pmem].
    rewrite (stored_out _ _ _ _ S2), (stored_out _ _ _ _ S1) by lia. done.
  - intros a Ha. cbn [pmem]. rewrite Z2 by lia. done.
  - exists st. split; [done|]. split; [done|]. intros j Hj. cbn [pmem].
    rewrite (bits_outside _ _ Hheap _ _ _ _ _ S2) by lia. rewrite B1 by lia.
    destruct (j =? st) eqn:Ej; [done|]. by replace ((st <=? j) && (j <? st)) with false by lia.
Qed.

(** A page taken after [q] leaves [q] alone. *)
Lemma owned_untouched s s' p : ~ page_owned s p -> page_owned s' p ->
  (forall a, heap_start + bk_size heap_start heap_end <= a -> ~ (p <= a < p + 4096) ->
     pmem s' !! a = pmem s !! a) ->
  forall q a, page_owned s q -> q <= a < q + 4096 -> pmem s' !! a = pmem s !! a.
Proof.
  intros Hp Hp' Hs q a Hq Ha. assert (p <> q) by congruence.
  destruct (owned_range _ _ Hq) as (Q1 & Q2 & Q3), (owned_range _ _ Hp') as (P1 & P2 & P3).
  apply Hs; [lia | dlia].
Qed.

Definition page_allocator_laws : PageAllocatorLaws page_state.
Proof.
  refine {| pa_inv := heap_inv; pa_owned := page_owned; pa_room := heap_room |}.
  - intros s [Hs _]. apply Hs.
  - intros s p [_ Hm] Hp. destruct (owned_range _ _ Hp) as (P1 & P2 & P3).
    pose proof (bk_size_bounds _ _ Hheap). pose proof (num_pages_pos _ _ Hheap). destruct Hheap.
    split; [dlia|]. split; [done|]. split; [lia|].
    eapply mapped_mono; [exact Hm | dlia | lia].
  - intros s Hs. destruct (heap_zalloc s Hs) as (r & s' & E & Hi & H). exists r, s'.
    split; [done|]. split; [done|]. destruct r as [p|]; [|done].
    destruct H as (H1 & H2 & H3 & H4 & H5 & st & _ & H6). do 3 (split; [done|]).
    split; [by eapply owned_untouched|]. split; [done|]. by apply one_taken_room in H6.
  - intros s p m' a n Hs Hp S Ha Hn. split; [by eapply heap_write|]. split; [done|].
    destruct (owned_range _ _ Hp). split; [intros q Hq; eapply owned_outside; [exact S | lia | done]|].
    unfold heap_room. pose proof (bk_pages_le _ _ Hheap). apply nfree_ext. intros j Hj. cbn [pmem].
    apply (bits_outside _ _ Hheap _ _ _ _ _ S); lia.
Defined.

End instance.

(** ** A concrete kernel: the five-page heap with an empty root table in page 1 *)

Definition demo_mem : mem := <[4096 := 15]> (mem_const 4096 20480 0).
Definition demo_tree : page_state := mkPages demo_mem MUTEX_UNLOCKED.

Lemma demo_lookup i : 4096 < i < 24576 -> demo_mem !! i = Some 0.
Proof.
  intros Hi. unfold demo_mem. rewrite lookup_insert_ne by lia.
  rewrite mem_const_lookup. by rewrite decide_True by lia.
Qed.

Lemma demo_bits i : 0 <= i < 5 -> bits 4096 demo_mem i = if i <=? 1 then 3 else 0.
Proof.
  intros Hi. unfold bits.
  assert (i = 4 \/ i / 4 = 0) as [-> | E] by dlia.
  - by rewrite demo_lookup by dlia.
  - rewrite E. replace (4096 + 0) with 4096 by lia. unfold demo_mem. rewrite lookup_insert_eq.
    assert (i = 0 \/ i = 1 \/ i = 2 \/ i = 3) as [-> | [-> | [-> | ->]]] by dlia; done.
Qed.

Lemma demo_mapped : mapped demo_mem 4096 (24576 - 4096).
Proof.
  intros i Hi. unfold demo_mem. apply lookup_insert_is_Some'. right. by apply mem_const_mapped.
Qed.

Lemma demo_tree_inv : page_inv 4096 24576 demo_tree.
Proof.
  change (num_pages 4096 24576) with 5.
  split; cbn [pmem page_lock demo_tree]; change (num_pages 4096 24576) with 5;
    change (num_pages_bk 4096 24576) with 1.
  - split; [apply mem_ok_insert; [by apply mem_const_ok | done]|].
    eapply mapped_mono; [apply demo_mapped | done | done].
  - intros i Hi. rewrite demo_bits by done. case_match; auto.
  - intros i Hi. rewrite demo_bits by lia. by replace (i <=? 1) with true by lia.
  - intros i Hi. rewrite demo_bits by done. by case_match.
  - done.
Qed.

Definition demo_alloc : PageAllocator page_state := page_allocator 4096 24576.
Definition demo_laws : @PageAllocatorLaws page_state demo_alloc :=
  page_allocator_laws 4096 24576 demo_heap_ok ltac:(done).
#[local] Existing Instances demo_alloc demo_laws.

Lemma demo_entry i : 0 <= i < 512 -> ld_entry (pa_mem demo_tree) 8192 i = Ok 0.
Proof.
  intros Hi. apply ld_le_zero. intros b Hb. change (Z.of_nat 8) with 8 in Hb.
  apply demo_lookup. lia.
Qed.

Lemma demo_tree_ok : exists L, tree_ok demo_tree 8192 L.
Proof.
  exists {[ 8192 := 2%nat ]}.
  assert (forall t l i e, ({[ 8192 := 2%nat ]} : gmap Z nat) !! t = Some l -> 0 <= i < 512 ->
    ld_entry (pa_mem demo_tree) t i = Ok e -> ~ branch e) as Hno.
  { intros t l i e [<- _]%lookup_singleton_Some Hi E. rewrite demo_entry in E by done.
    injection E as <-. by intros [? _]. }
  split.
  - split; [apply demo_tree_inv | apply demo_mapped].
  - apply lookup_singleton_eq.
  - intros t l [<- _]%lookup_singleton_Some. exists 1. split; [done|].
    change (num_pages 4096 24576) with 5. change (num_pages_bk 4096 24576) with 1.
    split; [lia|]. cbn [pmem demo_tree]. rewrite !demo_bits by lia. done.
  - intros t l i e E Hi Ee Hb. by destruct (Hno _ _ _ _ E Hi Ee).
  - intros t1 t2 l1 l2 i1 i2 e1 e2 E1 _ H1 _ D1 _ Hb. by destruct (Hno _ _ _ _ E1 H1 D1).
Qed.

Lemma demo_clear v lvl : no_larger_leaf demo_tree 8192 v lvl.
Proof. intros k e. cbn [walk]. by rewrite demo_entry by apply vpn_range. Qed.

Lemma mmu_map_correct_witness :
  exists r s', mmu_map demo_tree 8192 0x40000000 0x80000000 0 2 = Ok (r, s') /\
    (exists L, tree_ok s' 8192 L) /\
    (forall v', r = true -> same_page (Z.to_nat 0) 0x40000000 v' ->
       mmu_translate (pa_mem s') 8192 v' =
         Ok (0x80000000 / page_size 0 * page_size 0 mod 2 ^ 56 + v' mod page_size 0) /\
       forall perms, 0 <= perms < 2 ^ 10 -> mmu_access_ok (pa_mem s') 8192 v' perms =
         Ok (Z.land (Z.lor 2 PB_VALID) perms =? perms)) /\
    (forall v', r = false \/ ~ same_page (Z.to_nat 0) 0x40000000 v' ->
       mmu_translate (pa_mem s') 8192 v' = mmu_translate (pa_mem demo_tree) 8192 v' /\
       forall perms, mmu_access_ok (pa_mem s') 8192 v' perms =
                     mmu_access_ok (pa_mem demo_tree) 8192 v' perms).
Proof.
  assert (Z.land 2 0xE <> 0) as Hx by (vm_compute; discriminate).
  exact (mmu_map_correct demo_tree 8192 0x40000000 0x80000000 0 2 demo_tree_ok
    ltac:(lia) ltac:(lia) ltac:(lia) Hx (demo_clear _ _)).
Defined.

Lemma mmu_map_range_correct_witness :
  let lo := ALIGN_DOWN_POT 0x1000 (PAGE_SIZE_AT_LVL 0) in
  let hi := ALIGN_UP_POT 0x2800 (PAGE_SIZE_AT_LVL 0) in
  exists n s', mmu_map_range demo_tree 8192 0x1000 0x2800 0x80000000 0 6 = Ok (n, s') /\
    0 <= n <= (hi - lo) / page_size 0 /\
    ((hi - lo) / page_size 0 * (2 - 0) <= pa_room demo_tree -> n * page_size 0 = hi - lo) /\
    (forall v, lo <= v < lo + n * page_size 0 ->
       mmu_translate (pa_mem s') 8192 v = Ok (0x80000000 / page_size 0 * page_size 0 + (v - lo)) /\
       forall perms, 0 <= perms < 2 ^ 10 -> mmu_access_ok (pa_mem s') 8192 v perms =
         Ok (Z.land (Z.lor 6 PB_VALID) perms =? perms)) /\
    (forall v, 0 <= v < 2 ^ 39 -> ~ (lo <= v < lo + n * page_size 0) ->
       mmu_translate (pa_mem s') 8192 v = mmu_translate (pa_mem demo_tree) 8192 v).
Proof.
  intros lo hi. assert (Z.land 6 0xE <> 0) as Hx by (vm_compute; discriminate).
  assert (range_clear demo_tree 8192 lo hi 0) as Hc by (intros v _; apply demo_clear).
  exact (mmu_map_range_correct demo_tree 8192 0x1000 0x2800 0x80000000 0 6 demo_tree_ok
    ltac:(lia) ltac:(lia) Hx ltac:(lia) ltac:(lia) ltac:(lia) ltac:(vm_compute; discriminate) Hc).
Defined.

(** The root table of the next witness: its entry 1 is a readable 1 GiB leaf. *)
Definition leaf_tree : page_state :=
  mkPages (mem_list 8200 [3; 0; 0; 16; 0; 0; 0; 0]) MUTEX_UNLOCKED.

Lemma mmu_map_below_leaf_witness :
  mmu_map leaf_tree 8192 0x40000000 0x80000000 1 2 =
    let* s' := st_entry leaf_tree (pte_table 0x10000003) (vpn 0x40000000 1)
                 (leaf_entry 0x80000000 1 2) in Ok (true, s').
Proof. by apply mmu_map_below_leaf. Defined.
