(* ===== verification/Kmalloc.v ===== *)
(** The kernel heap of src/src/kmalloc.c.

    Block descriptors live in a fixed pool and are moved between three singly
    linked lists: free (sorted by address), used and fresh. A list is modelled
    as a Rocq list of its blocks in order; the fresh list by its length, since
    its blocks carry no data. *)
From Stdlib Require Import Sorted.
From S2P Require Import Prelude Mem Util.

Record Block := mkBlock { addr : Z; bsize : Z }.

Record Heap := mkHeap {
  hfree : list Block;
  hused : list Block;
  hfresh : nat;
  htop : Z
}.

Definition sizeof_Heap : Z := 32.
Definition sizeof_Block : Z := 24.

(** End of a block, as the code computes it. *)
Definition block_end (b : Block) : Z := u64 (addr b + bsize b).

(** The walk of [insert_block] stops at the first block not below the new one. *)
Fixpoint insert_block (block : Block) (ptr : list Block) : list Block :=
  match ptr with
  | [] => [block]
  | p :: next => if addr block <=? addr p then block :: ptr else p :: insert_block block next
  end.

(** The inner loop of [compact]: the last block of the contiguous run that starts
    at [prev], what follows the run, and how many blocks [release_blocks] gives
    back to the fresh list. *)
Fixpoint scan_run (prev : Block) (scan : list Block) (n : nat) : Block * list Block * nat :=
  match scan with
  | [] => (prev, [], n)
  | s :: next => if block_end prev =? addr s then scan_run s next (S n) else (prev, scan, n)
  end.

(** The outer loop of [compact] on the list from [ptr]; [fuel] is its length. *)
Fixpoint compact_from (fuel : nat) (ptr : list Block) (fresh : nat) : list Block * nat :=
  match fuel, ptr with
  | S fuel', p :: next =>
      let '(prev, rest, n) := scan_run p next 0 in
      let p' := match n with
                | O => p
                | S _ => mkBlock (addr p) (u64 (addr prev - addr p + bsize prev))
                end in
      let '(l, fresh') := compact_from fuel' rest (fresh + n) in (p' :: l, fresh')
  | _, _ => (ptr, fresh)
  end.

Definition compact (h : Heap) : Heap :=
  let '(l, fresh) := compact_from (length (hfree h)) (hfree h) (hfresh h) in
  mkHeap l (hused h) fresh (htop h).

Definition init (base heap_blocks : Z) : Heap :=
  mkHeap [] [] (Z.to_nat heap_blocks) (base + sizeof_Heap + sizeof_Block * heap_blocks).

(** The search of [free]: the first used block at the address, and the others. *)
Fixpoint unlink_used (a : Z) (block : list Block) : option (Block * list Block) :=
  match block with
  | [] => None
  | b :: next =>
      if a =? addr b then Some (b, next)
      else '(x, l) ← unlink_used a next; Some (x, b :: l)
  end.

Definition free (h : Heap) (a : Z) : bool * Heap :=
  match unlink_used a (hused h) with
  | None => (false, h)
  | Some (block, used) =>
      (true, compact (mkHeap (insert_block block (hfree h)) used (hfresh h) (htop h)))
  end.

Section heap.
Context (heap_limit heap_split_thresh heap_alignment heap_max_blocks : Z).

Definition round_up (num : Z) : Z :=
  Z.land (u64 (num + heap_alignment - 1)) (u64 (- heap_alignment)).

Definition is_top (top num : Z) (p : Block) : bool :=
  (block_end p >=? top) && (u64 (addr p + num) <=? heap_limit).

(** The search of [alloc_block]: the first free block that will do, unlinked. *)
Fixpoint unlink_fit (top num : Z) (ptr : list Block) : option (Block * list Block) :=
  match ptr with
  | [] => None
  | p :: next =>
      if is_top top num p || (bsize p >=? num) then Some (p, next)
      else '(x, l) ← unlink_fit top num next; Some (x, p :: l)
  end.

Definition alloc_block (h : Heap) (num : Z) : option Block * Heap :=
  let top := htop h in
  let num := round_up num in
  match unlink_fit top num (hfree h) with
  | Some (ptr, fr) =>
      if is_top top num ptr then
        let ptr' := mkBlock (addr ptr) num in
        (Some ptr', mkHeap fr (ptr' :: hused h) (hfresh h) (u64 (addr ptr + num)))
      else
        match hfresh h with
        | O => (Some ptr, mkHeap fr (ptr :: hused h) O top)
        | S fresh' =>
            let excess := u64 (bsize ptr - num) in
            if excess >=? heap_split_thresh then
              let ptr' := mkBlock (addr ptr) num in
              let split := mkBlock (u64 (addr ptr + num)) excess in
              (Some ptr', compact (mkHeap (insert_block split fr) (ptr' :: hused h) fresh' top))
            else (Some ptr, mkHeap fr (ptr :: hused h) (hfresh h) top)
        end
  | None =>
      let new_top := u64 (top + num) in
      match hfresh h with
      | S fresh' =>
          if new_top <=? heap_limit then
            let ptr := mkBlock top num in
            (Some ptr, mkHeap (hfree h) (ptr :: hused h) fresh' new_top)
          else (None, h)
      | O => (None, h)
      end
  end.

(** [0] is [NULL]. *)
Definition alloc (h : Heap) (num : Z) : Z * Heap :=
  match alloc_block h num with
  | (Some block, h') => (addr block, h')
  | (None, h') => (0, h')
  end.

Definition calloc (h : Heap) (m : mem) (num size : Z) : res (Z * Heap * mem) :=
  let num := u64 (num * size) in
  match alloc_block h num with
  | (Some block, h') => let* m' := memset m (addr block) 0 (s32 num) in Ok (addr block, h', m')
  | (None, h') => Ok (0, h', m)
  end.

Definition heap_num_free (h : Heap) : Z := Z.of_nat (length (hfree h)).
Definition heap_num_used (h : Heap) : Z := Z.of_nat (length (hused h)).
Definition heap_num_fresh (h : Heap) : Z := Z.of_nat (hfresh h).

Definition heap_check (h : Heap) : bool :=
  heap_max_blocks =? heap_num_free h + heap_num_used h + heap_num_fresh h.

Definition kmalloc (h : Heap) (sz : Z) : Z * Heap := alloc h sz.
Definition kcalloc (h : Heap) (m : mem) (n sz : Z) : res (Z * Heap * mem) := calloc h m n sz.
Definition kfree (h : Heap) (m : Z) : Heap := if m =? 0 then h else snd (free h m).

(** ** Tilings

    The blocks in use and the free ones tile the memory between the start of the
    heap and [htop]: put in address order, each begins where the last ended. *)

Context (base : Z).

Definition bend (b : Block) : Z := addr b + bsize b.

Fixpoint chain (a : Z) (s : list Block) (top : Z) : Prop :=
  match s with
  | [] => a = top
  | b :: s' => addr b = a /\ 0 < bsize b /\ bsize b mod heap_alignment = 0 /\ chain (bend b) s' top
  end.

Definition tiled (l : list Block) (top : Z) : Prop :=
  exists s, s ≡ₚ l /\ chain base s top.

(** Two blocks share no byte. *)
Definition apart (b c : Block) : Prop := bend b <= addr c \/ bend c <= addr b.

#[global] Instance tiled_proper : Proper ((≡ₚ) ==> eq ==> iff) tiled.
Proof.
  intros l l' Hl top _ <-. split; intros (s & Hs & Hc); exists s; split; try done;
    by rewrite Hs.
Qed.

Lemma chain_le s : forall a top, chain a s top -> a <= top.
Proof.
  induction s as [|b s IH]; intros a top; cbn [chain]; [lia|].
  intros (<- & Hb & _ & H). apply IH in H. unfold bend in H. lia.
Qed.

Lemma chain_app s1 s2 : forall a top,
  chain a (s1 ++ s2) top <-> exists m, chain a s1 m /\ chain m s2 top.
Proof.
  induction s1 as [|b s1 IH]; intros a top; cbn [chain app].
  - split; [intros H; by exists a | by intros (m & -> & ?)].
  - setoid_rewrite IH. naive_solver.
Qed.

Lemma chain_in s b : forall a top, chain a s top -> b ∈ s ->
  a <= addr b /\ bend b <= top /\ 0 < bsize b /\ bsize b mod heap_alignment = 0.
Proof.
  induction s as [|c s IH]; intros a top; cbn [chain]; [by intros _ ?%not_elem_of_nil|].
  intros (<- & Hc & Ha & H). pose proof (chain_le _ _ _ H). unfold bend in *.
  intros [->|Hb]%elem_of_cons; [lia|].
  destruct (IH _ _ H Hb) as (? & ? & ?). unfold bend in *. lia.
Qed.

(** A block of a tiling, with what precedes and what follows it. *)
Lemma tiled_cons b l top : tiled (b :: l) top ->
  exists s1 s2, l ≡ₚ s1 ++ s2 /\ chain base s1 (addr b) /\ 0 < bsize b /\
    bsize b mod heap_alignment = 0 /\ chain (bend b) s2 top.
Proof.
  intros (s & Hs & Hc). assert (b ∈ s) as Hb by (rewrite Hs; left).
  apply list_elem_of_split in Hb as (s1 & s2 & ->). exists s1, s2.
  apply chain_app in Hc as (m & H1 & <- & H2 & H3 & H4). split; [|done].
  apply (Permutation_cons_inv (a := b)). rewrite <- Hs. symmetry. apply Permutation_middle.
Qed.

Lemma tiled_apart b c l top : tiled (b :: l) top -> c ∈ l -> apart b c.
Proof.
  intros (s1 & s2 & Hl & H1 & _ & _ & H2)%tiled_cons Hc. rewrite Hl in Hc.
  unfold apart. apply elem_of_app in Hc as [Hc|Hc].
  - destruct (chain_in _ _ _ _ H1 Hc). lia.
  - destruct (chain_in _ _ _ _ H2 Hc). lia.
Qed.

Lemma tiled_in b l top : tiled l top -> b ∈ l ->
  base <= addr b /\ bend b <= top /\ 0 < bsize b /\ bsize b mod heap_alignment = 0.
Proof. intros (s & Hs & Hc) Hb. rewrite <- Hs in Hb. by eapply chain_in. Qed.

(** Joining two touching blocks. *)
Lemma tiled_merge p q l top : tiled (p :: q :: l) top -> bend p = addr q ->
  tiled (mkBlock (addr p) (bsize p + bsize q) :: l) top.
Proof.
  intros Ht E. destruct (tiled_cons _ _ _ Ht) as (s1 & s2 & Hl & H1 & Hp & Ap & H2).
  assert (q ∈ s1 ++ s2) as Hq by (rewrite <- Hl; left).
  destruct s2 as [|c s2].
  { rewrite app_nil_r in Hq. destruct (chain_in _ _ _ _ H1 Hq) as (? & ? & ? & _).
    unfold bend in *. lia. }
  destruct H2 as (Ec & Hc & Ac & H2).
  assert (q = c) as ->.
  { apply elem_of_app in Hq as [Hq|[Hq|Hq]%elem_of_cons]; [| done |].
    - destruct (chain_in _ _ _ _ H1 Hq) as (? & ? & ? & _). unfold bend in *. lia.
    - destruct (chain_in _ _ _ _ H2 Hq) as (? & ? & ? & _). unfold bend in *. lia. }
  exists (s1 ++ mkBlock (addr p) (bsize p + bsize c) :: s2). split.
  - rewrite <- Permutation_middle. apply Permutation_skip.
    apply (Permutation_cons_inv (a := c)). rewrite Hl. apply Permutation_middle.
  - apply chain_app. exists (addr p). split; [done|]. cbn [chain addr bsize].
    split; [done|]. split; [lia|]. split; [by apply mod0_add|].
    unfold bend in *. cbn [addr bsize]. by rewrite Z.add_assoc, E.
Qed.

(** Cutting a block in two. *)
Lemma tiled_split p n l top : tiled (p :: l) top -> 0 < n < bsize p ->
  n mod heap_alignment = 0 ->
  tiled (mkBlock (addr p) n :: mkBlock (addr p + n) (bsize p - n) :: l) top.
Proof.
  intros (s1 & s2 & Hl & H1 & Hp & Ap & H2)%tiled_cons Hn An.
  exists (s1 ++ mkBlock (addr p) n :: mkBlock (addr p + n) (bsize p - n) :: s2). split.
  - rewrite Hl. by rewrite <- !Permutation_middle.
  - apply chain_app. exists (addr p). split; [done|]. cbn. unfold bend in *. cbn.
    do 2 (split; [lia|]). split; [done|]. split; [lia|]. split; [lia|].
    split; [by apply mod0_sub|].
    by replace (addr p + n + (bsize p - n)) with (addr p + bsize p) by lia.
Qed.

(** The last block resized, and a new last block. *)
Lemma tiled_resize p n l top : tiled (p :: l) top -> top <= bend p -> 0 < n ->
  n mod heap_alignment = 0 -> tiled (mkBlock (addr p) n :: l) (addr p + n).
Proof.
  intros (s1 & s2 & Hl & H1 & Hp & Ap & H2)%tiled_cons Ht Hn An.
  assert (s2 = []) as ->.
  { destruct s2 as [|c s2]; [done|]. destruct H2 as (Ec & Hc & _ & H2).
    apply chain_le in H2. unfold bend in *. lia. }
  exists (s1 ++ [mkBlock (addr p) n]). split.
  - rewrite Hl, app_nil_r. by rewrite <- Permutation_cons_append.
  - apply chain_app. exists (addr p). split; [done|]. cbn. done.
Qed.

Lemma tiled_extend n l top : tiled l top -> 0 < n -> n mod heap_alignment = 0 ->
  tiled (mkBlock top n :: l) (top + n).
Proof.
  intros (s & Hs & Hc) Hn An. exists (s ++ [mkBlock top n]). split.
  - rewrite <- Hs. by rewrite <- Permutation_cons_append.
  - apply chain_app. exists top. split; [done|]. cbn. done.
Qed.

(** ** Sorting and coalescing the free list *)

Definition before (b c : Block) : Prop := bend b <= addr c.
Definition gap (b c : Block) : Prop := bend b < addr c.

Lemma insert_block_perm b l : insert_block b l ≡ₚ b :: l.
Proof.
  induction l as [|p l IH]; cbn [insert_block]; [done|]. case_match; [done|].
  rewrite IH. constructor.
Qed.

Lemma insert_block_sorted b l : StronglySorted before l -> 0 < bsize b ->
  (forall c, c ∈ l -> apart b c /\ 0 < bsize c) -> StronglySorted before (insert_block b l).
Proof.
  intros Hs Hb. induction Hs as [|p l Hs IH Hp]; intros Hc; cbn [insert_block].
  { repeat constructor. }
  rewrite Forall_forall in Hp.
  destruct (Hc p ltac:(left)) as [Hap Hszp]. unfold apart, before, bend in *.
  destruct (Z.leb_spec (addr b) (addr p)).
  - constructor; [by constructor; [|by rewrite Forall_forall]|]. rewrite Forall_forall.
    intros c [->|Hcl]%elem_of_cons; [lia|]. specialize (Hp c Hcl). lia.
  - constructor.
    + apply IH. intros c Hcl. apply Hc. by right.
    + rewrite Forall_forall. intros c Hcl. rewrite insert_block_perm in Hcl.
      apply elem_of_cons in Hcl as [->|Hcl]; [lia | by apply Hp].
Qed.

Lemma block_end_eq b l top : 0 <= base -> top < 2 ^ 64 -> tiled l top -> b ∈ l ->
  block_end b = bend b.
Proof.
  intros H0 Ht Hl Hb. destruct (tiled_in _ _ _ Hl Hb). unfold block_end, bend in *.
  by rewrite u64_id by lia.
Qed.

(** The block that spans from [a] to the end of [b]. *)
Definition span_to (a : Z) (b : Block) : Block := mkBlock a (bend b - a).

Lemma span_to_self b : span_to (addr b) b = b.
Proof. destruct b as [a n]. unfold span_to, bend. cbn. f_equal. lia. Qed.

Lemma scan_run_spec a l top : 0 <= base -> top < 2 ^ 64 ->
  forall scan prev n prev' rest n',
  tiled (span_to a prev :: scan ++ l) top -> StronglySorted before (prev :: scan) ->
  scan_run prev scan n = (prev', rest, n') ->
  tiled (span_to a prev' :: rest ++ l) top /\ (n' + length rest = n + length scan)%nat /\
  StronglySorted before rest /\ Forall (gap prev') rest /\ (n' = n -> prev' = prev) /\
  (length rest <= length scan)%nat /\ rest ⊆ scan.
Proof.
  intros H0 Htop. induction scan as [|s scan IH]; intros prev n prev' rest n' Ht Hs E;
    cbn [scan_run] in E.
  { injection E as <- <- <-. split; [done|]. split; [done|]. split; [constructor|].
    split; [constructor|]. done. }
  apply StronglySorted_inv in Hs as [Hs Hp]. pose proof Hp as Hp'.
  rewrite Forall_forall in Hp. pose proof (Hp s ltac:(left)) as Hps.
  pose proof (tiled_in _ _ _ Ht ltac:(left)) as Hin. unfold span_to, bend in Hin. cbn in Hin.
  unfold block_end, before, bend in *. rewrite u64_id in E by lia.
  destruct (Z.eqb_spec (addr prev + bsize prev) (addr s)) as [Es|Hne].
  - assert (tiled (span_to a s :: scan ++ l) top) as Ht'.
    { apply tiled_merge in Ht; [|unfold span_to, bend; cbn; lia].
      unfold span_to, bend in *. cbn in Ht.
      replace (addr s + bsize s - a) with (addr prev + bsize prev - a + bsize s) by lia. done. }
    destruct (IH _ _ _ _ _ Ht' Hs E) as (R1 & R2 & R3 & R4 & R5 & R6 & R7).
    split; [done|]. split; [cbn; lia|]. split; [done|]. split; [done|].
    split; [intros ->; cbn in *; lia|]. split; [cbn; lia | intros c Hc; right; by apply R7].
  - injection E as <- <- <-. split; [done|]. split; [done|]. split; [done|].
    split; [|done]. apply StronglySorted_inv in Hs as [_ Hss]. rewrite Forall_forall in Hss.
    pose proof (tiled_in s _ _ Ht ltac:(right; left)) as (_ & _ & Hsz & _).
    rewrite Forall_forall. unfold gap, bend in *. intros c [->|Hc]%elem_of_cons; [lia|].
    specialize (Hss c Hc). lia.
Qed.

Lemma compact_from_spec top : 0 <= base -> top < 2 ^ 64 ->
  forall fuel l ptr fresh l' fresh', (length ptr <= fuel)%nat ->
  tiled (ptr ++ l) top -> StronglySorted before ptr ->
  compact_from fuel ptr fresh = (l', fresh') ->
  tiled (l' ++ l) top /\ StronglySorted gap l' /\
  (length l' + fresh' = length ptr + fresh)%nat /\
  forall x, Forall (fun c => x < addr c) ptr -> Forall (fun c => x < addr c) l'.
Proof.
  intros H0 Htop. induction fuel as [|fuel IH]; intros l ptr fresh l' fresh' Hf Ht Hs E.
  { destruct ptr; [|cbn in Hf; lia]. injection E as <- <-. split; [done|].
    split; [constructor | done]. }
  destruct ptr as [|p next]; cbn [compact_from] in E.
  { injection E as <- <-. split; [done|]. split; [constructor | done]. }
  destruct (scan_run p next 0) as [[prev rest] n] eqn:Er.
  destruct (compact_from fuel rest (fresh + n)) as [l1 fresh1] eqn:Ec. injection E as <- <-.
  rewrite <- (span_to_self p) in Ht. cbn [app] in Ht.
  destruct (scan_run_spec _ _ _ H0 Htop _ _ _ _ _ _ Ht Hs Er) as (R1 & R2 & R3 & R4 & R5 & R6 & R7).
  pose proof (tiled_in _ _ _ R1 ltac:(left)) as Hin. unfold span_to, bend in Hin. cbn in Hin.
  assert ((match n with O => p | S _ => mkBlock (addr p) (u64 (addr prev - addr p + bsize prev)) end)
    = span_to (addr p) prev) as ->.
  { destruct n; [rewrite R5 by done; by rewrite span_to_self|].
    unfold span_to, bend. rewrite u64_id by lia. f_equal. lia. }
  assert (tiled (rest ++ span_to (addr p) prev :: l) top) as Ht2.
  { by rewrite <- Permutation_middle. }
  cbn [length] in *.
  destruct (IH _ rest _ _ _ ltac:(lia) Ht2 R3 Ec) as (Q1 & Q2 & Q3 & Q4).
  split; [by rewrite <- app_comm_cons, Permutation_middle|].
  split.
  { constructor; [done|]. eapply Forall_impl; [exact (Q4 (bend prev) R4)|].
    intros c Hc. unfold gap, span_to, bend in *. cbn [addr bsize]. lia. }
  split; [lia|]. intros x Hx. apply Forall_cons in Hx as [Hxp Hxn].
  constructor; [done|]. apply Q4. rewrite Forall_forall in Hxn |- *. auto.
Qed.

(** ** The heap invariant *)

Record heap_ok (h : Heap) : Prop := mkHeapOk {
  ho_tiled : tiled (hfree h ++ hused h) (htop h);
  ho_gap : StronglySorted gap (hfree h);
  ho_count : heap_check h = true;
  ho_top : htop h <= heap_limit;
  ho_top_aligned : htop h mod heap_alignment = 0
}.

Lemma gap_before l : StronglySorted gap l -> StronglySorted before l.
Proof.
  induction 1 as [|b l _ IH Hb]; constructor; [done|].
  eapply Forall_impl; [exact Hb|]. unfold gap, before. lia.
Qed.

Lemma compact_ok h : 0 <= base -> htop h < 2 ^ 64 ->
  tiled (hfree h ++ hused h) (htop h) -> StronglySorted before (hfree h) ->
  heap_check h = true -> htop h <= heap_limit -> htop h mod heap_alignment = 0 ->
  heap_ok (compact h) /\ hused (compact h) = hused h.
Proof.
  intros H0 Htop Ht Hs Hc Hl Ha. unfold compact.
  destruct (compact_from _ (hfree h) (hfresh h)) as [l fresh] eqn:E.
  destruct (compact_from_spec _ H0 Htop _ _ _ _ _ _ (le_n _) Ht Hs E) as (Q1 & Q2 & Q3 & _).
  split; [split; cbn [hfree hused hfresh htop]; try done | done].
  unfold heap_check, heap_num_free, heap_num_used, heap_num_fresh in *.
  cbn [hfree hused hfresh]. lia.
Qed.

(** Putting a block back: insertion, then compaction. *)
Lemma release_ok b fr used fresh top : 0 <= base -> top < 2 ^ 64 ->
  tiled (b :: fr ++ used) top -> StronglySorted before fr ->
  heap_max_blocks = Z.of_nat (S (length fr) + length used + fresh) ->
  top <= heap_limit -> top mod heap_alignment = 0 ->
  heap_ok (compact (mkHeap (insert_block b fr) used fresh top)) /\
  hused (compact (mkHeap (insert_block b fr) used fresh top)) = used.
Proof.
  intros H0 Htop Ht Hs Hc Hl Ha. apply compact_ok; cbn [hfree hused htop]; try done.
  - by rewrite insert_block_perm.
  - apply insert_block_sorted; [done | |].
    + by destruct (tiled_in b _ _ Ht ltac:(left)) as (_ & _ & ? & _).
    + intros c Hcl. assert (c ∈ fr ++ used) as Hin by (apply elem_of_app; by left). split.
      * by eapply tiled_apart.
      * by destruct (tiled_in c _ _ Ht ltac:(by right)) as (_ & _ & ? & _).
  - unfold heap_check, heap_num_free, heap_num_used, heap_num_fresh. cbn [hfree hused hfresh].
    rewrite (Permutation_length (insert_block_perm b fr)). cbn [length]. lia.
Qed.

(** ** [free] *)

Lemma unlink_used_spec a l b l' : unlink_used a l = Some (b, l') ->
  exists l1 l2, l = l1 ++ b :: l2 /\ l' = l1 ++ l2 /\ addr b = a /\
    Forall (fun c => addr c <> a) l1.
Proof.
  revert b l'. induction l as [|c l IH]; intros b l' E; cbn [unlink_used] in E; [done|].
  destruct (Z.eqb_spec a (addr c)) as [->|Hne].
  - injection E as -> ->. exists [], l'. done.
  - destruct (unlink_used a l) as [[x r]|] eqn:Eu; cbn [mbind option_bind] in E; [|done].
    injection E as -> <-. destruct (IH _ _ eq_refl) as (l1 & l2 & -> & -> & Ha & Hl).
    exists (c :: l1), l2. do 3 (split; [done|]). by constructor.
Qed.

Lemma unlink_used_none a l : unlink_used a l = None <-> forall b, b ∈ l -> addr b <> a.
Proof.
  induction l as [|c l IH]; cbn [unlink_used].
  - split; [intros _ b []%elem_of_nil | done].
  - destruct (Z.eqb_spec a (addr c)) as [->|Hne].
    + split; [done|]. intros H. by destruct (H c ltac:(left)).
    + destruct (unlink_used a l) as [[x r]|]; cbn [mbind option_bind].
      * split; [done|]. intros H. destruct IH as [_ IH]. discriminate IH.
        intros b Hb. apply H. by right.
      * split; [|done]. intros _ b [->|Hb]%elem_of_cons; [congruence|]. by apply IH.
Qed.

Context (Hbase : 0 <= base) (Hlimit : heap_limit < 2 ^ 62) (Hthresh : 0 < heap_split_thresh).

(** kfree gives back exactly the block that starts at the address: the other
    blocks in use stay as they are, the heap stays consistent (its blocks tile
    it, no two free neighbours are left unmerged, no descriptor is lost), and an
    address no block in use starts at changes nothing. *)
Theorem free_correct h a : heap_ok h ->
  (forall b, b ∈ hused h -> addr b <> a) /\ free h a = (false, h) \/
  exists b l1 l2 h', hused h = l1 ++ b :: l2 /\ addr b = a /\ free h a = (true, h') /\
    heap_ok h' /\ hused h' = l1 ++ l2 /\ htop h' = htop h.
Proof.
  intros [Ht Hg Hc Hl Ha]. unfold free. destruct (unlink_used a (hused h)) as [[b used]|] eqn:E.
  - right. destruct (unlink_used_spec _ _ _ _ E) as (l1 & l2 & Eu & -> & Eb & _).
    destruct (release_ok b (hfree h) (l1 ++ l2) (hfresh h) (htop h)) as [Hok Hu]; try done.
    + lia.
    + rewrite Eu in Ht. by rewrite <- !Permutation_middle in Ht.
    + by apply gap_before.
    + unfold heap_check, heap_num_free, heap_num_used, heap_num_fresh in Hc.
      rewrite Eu in Hc. rewrite !length_app in *. cbn [length] in Hc. lia.
    + exists b, l1, l2. eexists. do 3 (split; [done|]). split; [exact Hok|]. split; [done|].
      unfold compact. by destruct (compact_from _ _ _).
  - left. split; [|done]. by apply unlink_used_none.
Qed.

(** ** [alloc_block] *)

Lemma unlink_fit_spec top num l : match unlink_fit top num l with
  | Some (p, l') => exists l1 l2, l = l1 ++ p :: l2 /\ l' = l1 ++ l2 /\
      (is_top top num p = true \/ num <= bsize p)
  | None => forall p, p ∈ l -> is_top top num p = false /\ bsize p < num
  end.
Proof.
  induction l as [|p l IH]; cbn [unlink_fit]; [by intros p []%elem_of_nil|].
  destruct (is_top top num p) eqn:Et; cbn [orb].
  { exists [], l. auto. }
  destruct (bsize p >=? num) eqn:Es.
  { exists [], l. split; [done|]. split; [done|]. right. lia. }
  destruct (unlink_fit top num l) as [[x r]|]; cbn [mbind option_bind].
  - destruct IH as (l1 & l2 & -> & -> & H). by exists (p :: l1), l2.
  - intros c [->|Hc]%elem_of_cons; [split; [done | lia] | by apply IH].
Qed.

Lemma sorted_remove (R : Block -> Block -> Prop) l1 b l2 :
  StronglySorted R (l1 ++ b :: l2) -> StronglySorted R (l1 ++ l2).
Proof.
  induction l1 as [|c l1 IH]; cbn [app]; intros H; apply StronglySorted_inv in H as [H Hf]; [done|].
  constructor; [by apply IH|]. apply Forall_app in Hf as [? Hf]. apply Forall_app.
  split; [done|]. by inversion Hf.
Qed.

(** A request as [round_up] sees it: positive, a multiple of the alignment. *)
Definition request_ok (num : Z) : Prop :=
  0 < num <= round_up num /\ round_up num < 2 ^ 62 /\ round_up num mod heap_alignment = 0.

(** What [alloc_block] promises about the block it returns. *)
Definition allocated_ok (h : Heap) (num : Z) (b : Block) (h' : Heap) : Prop :=
  heap_ok h' /\ hused h' = b :: hused h /\ num <= bsize b /\
  base <= addr b /\ bend b <= heap_limit /\ forall c, c ∈ hused h -> apart b c.

Lemma allocated_from b h num h' : heap_ok h' -> hused h' = b :: hused h -> num <= bsize b ->
  allocated_ok h num b h'.
Proof.
  intros Hok Hu Hn. assert (tiled (b :: hfree h' ++ hused h) (htop h')) as Ht.
  { rewrite Permutation_middle, <- Hu. apply Hok. }
  destruct (tiled_in b _ _ Ht ltac:(left)) as (? & ? & _). pose proof (ho_top _ Hok).
  do 3 (split; [done|]). split; [done|]. split; [lia|].
  intros c Hc. eapply tiled_apart; [exact Ht|]. apply elem_of_app. by right.
Qed.

Lemma alloc_top_ok h num p l1 l2 : heap_ok h -> request_ok num ->
  hfree h = l1 ++ p :: l2 -> is_top (htop h) (round_up num) p = true ->
  let ptr := mkBlock (addr p) (round_up num) in
  allocated_ok h num ptr
    (mkHeap (l1 ++ l2) (ptr :: hused h) (hfresh h) (u64 (addr p + round_up num))).
Proof.
  intros [Ht Hg Hc Hl Ha] (Hn & Hr & An) Ef Et ptr. rewrite Ef in *.
  assert (tiled (p :: (l1 ++ l2) ++ hused h) (htop h)) as Ht'.
  { rewrite <- Permutation_middle in Ht. done. }
  destruct (tiled_in p _ _ Ht' ltac:(left)) as (Hp1 & Hp2 & Hp3 & _).
  unfold is_top, block_end, bend in *. rewrite !u64_id in * by lia.
  pose proof (tiled_resize _ (round_up num) _ _ Ht' ltac:(unfold bend; lia) ltac:(lia) An) as Ht2.
  assert (addr p = htop h - bsize p) as Eap by lia.
  apply allocated_from; cbn [hused bsize ptr]; [| done | lia]. split; cbn [hfree hused htop].
  - unfold ptr. by rewrite <- Permutation_middle.
  - by eapply sorted_remove.
  - unfold heap_check, heap_num_free, heap_num_used, heap_num_fresh in *.
    cbn [hfree hused hfresh]. rewrite Ef, !length_app in *. cbn [length] in *. lia.
  - lia.
  - apply mod0_add; [|done]. rewrite Eap. apply mod0_sub; [done|].
    by destruct (tiled_in p _ _ Ht' ltac:(left)) as (_ & _ & _ & ?).
Qed.

Lemma alloc_fit_ok h num p l1 l2 : heap_ok h -> request_ok num ->
  hfree h = l1 ++ p :: l2 -> round_up num <= bsize p ->
  allocated_ok h num p (mkHeap (l1 ++ l2) (p :: hused h) (hfresh h) (htop h)).
Proof.
  intros [Ht Hg Hc Hl Ha] (Hn & Hr & An) Ef Es. rewrite Ef in *.
  apply allocated_from; cbn [hused]; [| done | lia]. split; cbn [hfree hused htop]; try done.
  - rewrite <- Permutation_middle in Ht. by rewrite <- Permutation_middle.
  - by eapply sorted_remove.
  - unfold heap_check, heap_num_free, heap_num_used, heap_num_fresh in *.
    cbn [hfree hused hfresh]. rewrite Ef, !length_app in *. cbn [length] in *. lia.
Qed.

Lemma alloc_split_ok h num p l1 l2 fresh : heap_ok h -> request_ok num ->
  hfree h = l1 ++ p :: l2 -> round_up num < bsize p -> hfresh h = S fresh ->
  let ptr := mkBlock (addr p) (round_up num) in
  let split := mkBlock (u64 (addr p + round_up num)) (bsize p - round_up num) in
  allocated_ok h num ptr
    (compact (mkHeap (insert_block split (l1 ++ l2)) (ptr :: hused h) fresh (htop h))).
Proof.
  intros [Ht Hg Hc Hl Ha] (Hn & Hr & An) Ef Es Efr ptr split. rewrite Ef in *.
  assert (tiled (p :: (l1 ++ l2) ++ hused h) (htop h)) as Ht'.
  { rewrite <- Permutation_middle in Ht. done. }
  destruct (tiled_in p _ _ Ht' ltac:(left)) as (Hp1 & Hp2 & Hp3 & _). unfold bend in *.
  pose proof (tiled_split _ (round_up num) _ _ Ht' ltac:(lia) An) as Ht2.
  unfold split. rewrite u64_id by lia.
  destruct (release_ok (mkBlock (addr p + round_up num) (bsize p - round_up num)) (l1 ++ l2)
    (ptr :: hused h) fresh (htop h)) as [Hok Hu]; try done.
  - lia.
  - rewrite <- Permutation_middle. by rewrite (Permutation_swap ptr).
  - eapply gap_before, sorted_remove. exact Hg.
  - unfold heap_check, heap_num_free, heap_num_used, heap_num_fresh in Hc.
    rewrite Efr in Hc. rewrite Ef, !length_app in *. cbn [length] in *. lia.
  - apply allocated_from; [done | done |]. cbn. lia.
Qed.

(** (C23) alloc_block on a consistent heap returns a block of at least the
    requested size that lies inside the heap and overlaps no block in use; the
    other blocks in use are untouched and the heap stays consistent. It returns
    NULL, changing nothing, only when no free block fits and the heap cannot
    grow: no descriptor left, or the limit reached. *)
Theorem alloc_block_correct h num : heap_ok h -> request_ok num ->
  match alloc_block h num with
  | (Some b, h') => allocated_ok h num b h'
  | (None, h') => h' = h /\ (forall p, p ∈ hfree h -> bsize p < round_up num) /\
      (hfresh h = O \/ heap_limit < htop h + round_up num)
  end.
Proof.
  intros Hok Hreq. destruct (Hok) as [Ht Hg Hc Hl Ha]. destruct (Hreq) as (Hn & Hr & An).
  assert (base <= htop h) as Hbt by (destruct Ht as (s & _ & Hs); by eapply chain_le).
  unfold alloc_block. pose proof (unlink_fit_spec (htop h) (round_up num) (hfree h)) as Hfit.
  destruct (unlink_fit _ _ _) as [[p fr]|].
  - destruct Hfit as (l1 & l2 & Ef & -> & Hp).
    destruct (is_top (htop h) (round_up num) p) eqn:Et; [by apply alloc_top_ok|].
    destruct Hp as [|Hp]; [done|].
    pose proof (alloc_fit_ok h num p l1 l2 Hok Hreq Ef Hp) as Hfit.
    destruct (hfresh h) as [|fresh] eqn:Efr; [done|].
    assert (p ∈ hfree h ++ hused h) as Hin by (rewrite Ef; apply elem_of_app; left;
      apply elem_of_app; right; left).
    destruct (tiled_in p _ _ Ht Hin) as (? & ? & _). unfold bend in *. rewrite u64_id by lia.
    destruct (bsize p - round_up num >=? heap_split_thresh) eqn:Ex; [|done].
    destruct (decide (round_up num = bsize p)) as [En|Hne].
    + lia.
    + apply alloc_split_ok; try done. lia.
  - assert (forall p, p ∈ hfree h -> bsize p < round_up num) as Hnone by (intros p Hp; by apply Hfit).
    destruct (hfresh h) as [|fresh] eqn:Efr; [by auto|]. rewrite u64_id by lia.
    destruct (Z.leb_spec (htop h + round_up num) heap_limit); [|split; [done|]; split; [done | by right]].
    apply allocated_from; cbn [hused bsize]; [| done | lia]. split; cbn [hfree hused htop]; try done.
    + rewrite <- Permutation_middle. apply tiled_extend; [done | lia | done].
    + unfold heap_check, heap_num_free, heap_num_used, heap_num_fresh in *.
      cbn [hfree hused hfresh]. rewrite Efr in Hc. cbn [length]. lia.
    + by apply mod0_add.
Qed.

End heap.

(** ** The kernel's heap: the constants of [heap_init] *)

Definition KERNEL_HEAP_START_VADDR : Z := 0x1c0ffee000.
Definition KERNEL_HEAP_PAGES : Z := 8192.
Definition KERNEL_HEAP_END_VADDR : Z := KERNEL_HEAP_START_VADDR + KERNEL_HEAP_PAGES * 4096.

Definition kernel_heap : Heap := init KERNEL_HEAP_START_VADDR (KERNEL_HEAP_PAGES / 4).
Definition kernel_base : Z := htop kernel_heap.

Definition kernel_alloc (h : Heap) (num : Z) : option Block * Heap :=
  alloc_block KERNEL_HEAP_END_VADDR 16 8 h num.

Definition kernel_heap_ok : Heap -> Prop :=
  heap_ok KERNEL_HEAP_END_VADDR 8 (KERNEL_HEAP_PAGES / 4) kernel_base.

Lemma kernel_heap_init : kernel_heap_ok kernel_heap.
Proof.
  split; cbn [hfree hused kernel_heap init].
  - by exists [].
  - constructor.
  - by vm_compute.
  - by vm_compute.
  - by vm_compute.
Qed.

Lemma round_up_8 num : 0 < num < 2 ^ 61 -> request_ok 8 num.
Proof.
  intros Hn. unfold request_ok, round_up. change 8 with (2 ^ 3) at 1 2 3 4 5 6 7.
  rewrite u64_id by lia. rewrite !land_neg_pow2 by lia. rewrite Z.mod_mul by lia. dlia.
Qed.

Inductive heap_op := Malloc (sz : Z) | Free (a : Z).

Definition heap_run1 (h : Heap) (o : heap_op) : Heap :=
  match o with
  | Malloc sz => snd (kmalloc KERNEL_HEAP_END_VADDR 16 8 h sz)
  | Free a => kfree h a
  end.

Definition op_ok (o : heap_op) : Prop :=
  match o with Malloc sz => 0 < sz < 2 ^ 61 | Free _ => True end.

Lemma heap_run1_ok h o : kernel_heap_ok h -> op_ok o -> kernel_heap_ok (heap_run1 h o).
Proof.
  intros Hok Ho. destruct o as [sz|a]; cbn [heap_run1].
  - unfold kmalloc, alloc.
    pose proof (alloc_block_correct KERNEL_HEAP_END_VADDR 16 8 (KERNEL_HEAP_PAGES / 4) kernel_base
      ltac:(done) ltac:(done) ltac:(done) h sz Hok (round_up_8 sz Ho)) as H.
    destruct (alloc_block _ _ _ h sz) as [[b|] h']; cbn [snd]; [apply H | by destruct H as [-> _]].
  - unfold kfree. case_match; [done|].
    destruct (free_correct KERNEL_HEAP_END_VADDR 8 (KERNEL_HEAP_PAGES / 4) kernel_base
      ltac:(done) ltac:(done) h a Hok) as [[_ ->] | (b & l1 & l2 & h' & _ & _ & -> & Hh & _)];
      done.
Qed.

(** (C2) Whatever the kernel does with its heap, kmalloc of positive sizes and
    kfree of any pointer in any order, heap_check answers good and the blocks in
    use never overlap. *)
Theorem kernel_heap_safe os : Forall op_ok os ->
  let h := fold_left heap_run1 os kernel_heap in
  heap_check (KERNEL_HEAP_PAGES / 4) h = true /\
  forall l1 b l2 c, hused h = l1 ++ b :: l2 -> c ∈ l1 ++ l2 -> apart b c.
Proof.
  intros Hos h. assert (kernel_heap_ok h) as Hok.
  { unfold h. generalize kernel_heap_init. generalize kernel_heap. induction Hos as [|o os Ho _ IH];
      intros h0 H0; [done|]. cbn [fold_left]. apply IH. by apply heap_run1_ok. }
  split; [apply Hok|]. intros l1 b l2 c Eu Hc. destruct Hok as [Ht _ _ _ _].
  rewrite Eu in Ht. rewrite <- !Permutation_middle in Ht.
  eapply tiled_apart; [exact Ht|]. apply elem_of_app. by right.
Qed.

Lemma kernel_heap_safe_witness :
  heap_check (KERNEL_HEAP_PAGES / 4)
    (fold_left heap_run1 [Malloc 24; Malloc 100; Free kernel_base] kernel_heap) = true /\
  forall l1 b l2 c,
    hused (fold_left heap_run1 [Malloc 24; Malloc 100; Free kernel_base] kernel_heap) =
      l1 ++ b :: l2 -> c ∈ l1 ++ l2 -> apart b c.
Proof.
  apply (kernel_heap_safe [Malloc 24; Malloc 100; Free kernel_base]).
  repeat constructor.
Defined.

Lemma free_correct_witness :
  let h := snd (kernel_alloc kernel_heap 24) in
  (forall b, b ∈ hused h -> addr b <> kernel_base) /\ free h kernel_base = (false, h) \/
  exists b l1 l2 h', hused h = l1 ++ b :: l2 /\ addr b = kernel_base /\
    free h kernel_base = (true, h') /\ kernel_heap_ok h' /\ hused h' = l1 ++ l2 /\ htop h' = htop h.
Proof.
  apply (free_correct KERNEL_HEAP_END_VADDR 8 (KERNEL_HEAP_PAGES / 4) kernel_base
    ltac:(done) ltac:(done) _ kernel_base).
  apply (heap_run1_ok kernel_heap (Malloc 24) kernel_heap_init). done.
Defined.

Lemma alloc_block_correct_witness :
  match alloc_block KERNEL_HEAP_END_VADDR 16 8 kernel_heap 100 with
  | (Some b, h') => allocated_ok KERNEL_HEAP_END_VADDR 8 (KERNEL_HEAP_PAGES / 4) kernel_base
                      kernel_heap 100 b h'
  | (None, h') => h' = kernel_heap /\ (forall p, p ∈ hfree kernel_heap -> bsize p < round_up 8 100) /\
      (hfresh kernel_heap = O \/ KERNEL_HEAP_END_VADDR < htop kernel_heap + round_up 8 100)
  end.
Proof.
  apply (alloc_block_correct KERNEL_HEAP_END_VADDR 16 8 (KERNEL_HEAP_PAGES / 4) kernel_base
    ltac:(done) ltac:(done) ltac:(done) kernel_heap 100 kernel_heap_init).
  by apply round_up_8.
Defined.

(** kmalloc(0) hands out the address the next kmalloc hands out again; freeing
    the empty block then frees the live one, and the next kmalloc gives the live
    memory away a second time. *)
Theorem kmalloc_zero_aliases :
  let '(p, h1) := kmalloc KERNEL_HEAP_END_VADDR 16 8 kernel_heap 0 in
  let '(q, h2) := kmalloc KERNEL_HEAP_END_VADDR 16 8 h1 8 in
  let h3 := kfree h2 p in
  let '(r, _) := kmalloc KERNEL_HEAP_END_VADDR 16 8 h3 8 in
  p = kernel_base /\ q = p /\ r = q.
Proof. by vm_compute. Qed.
