(* ===== verification/Boot.v ===== *)
(** The start of the kernel: what [main] of src/src/main.c does before and
    while it turns the MMU on, and [heap_init] of src/src/kmalloc.c.

    The pages come from [Page], the tables from [Mmu], the heap from [Kmalloc].
    The section [ranges] keeps track of a table that several calls of
    [mmu_map_range] fill; [boot_laws] is the page allocator during start-up,
    when nothing has been given back yet and the taken pages are those below
    one page index; [kernel_boots] is the composition. *)
From S2P Require Import Prelude Mem Lock Util Page Mmu Kmalloc.

(** ** [main] up to the heap

    The linker symbols are the parameters. [NULL] is 0, and [mmu_map_range]
    maps nothing in a null table. *)
Section start.
Context (heap_start heap_end text_start : Z).
#[local] Instance kernel_pages : PageAllocator page_state := page_allocator heap_start heap_end.

Definition map_kernel (s : page_state) : res (Z * page_state) :=
  let* s := page_init heap_start heap_end s in
  let* r := mmu_table_create s in
  let pt := default 0 (fst r) in
  let* r := mmu_map_range (snd r) pt text_start heap_end text_start MMU_LEVEL_1G
              (Z.lor (Z.lor PB_READ PB_WRITE) PB_EXECUTE) in
  let* r := mmu_map_range (snd r) pt 0x0C000000 0x0C2FFFFF 0x0C000000 MMU_LEVEL_2M
              (Z.lor PB_READ PB_WRITE) in
  let* r := mmu_map_range (snd r) pt 0x30000000 0x30FFFFFF 0x30000000 MMU_LEVEL_2M
              (Z.lor PB_READ PB_WRITE) in
  let* r := mmu_map_range (snd r) pt 0x40000000 0x4FFFFFFF 0x40000000 MMU_LEVEL_2M
              (Z.lor PB_READ PB_WRITE) in
  Ok (pt, snd r).

(** A store of the kernel once the MMU is on: to a virtual address. *)
Definition vst64 (pt : Z) (m : mem) (vaddr v : Z) : res mem :=
  let* w := mmu_access_ok m pt vaddr PB_WRITE in
  if w then let* paddr := mmu_translate m pt vaddr in st64 m paddr v else Ub.

(** The stores of [init]: the fields free, used, fresh and top of the header, and
    the next pointers that chain the blank blocks. *)
Definition init_memory (pt base heap_blocks : Z) (m : mem) : res mem :=
  let heap := base in
  let fresh := heap + sizeof_Heap in
  let* m := vst64 pt m heap 0 in
  let* m := vst64 pt m (heap + 8) 0 in
  let* m := vst64 pt m (heap + 16) fresh in
  let* m := vst64 pt m (heap + 24) (fresh + sizeof_Block * heap_blocks) in
  let* r := for_up (Z.to_nat (u64 (heap_blocks - 1))) 0
    (fun _ '(block, m) =>
       let* m := vst64 pt m (block + 8) (block + sizeof_Block) in
       Ok (block + sizeof_Block, m)) (fresh, m) in
  vst64 pt (snd r) (fst r + 8) 0.

Definition heap_init (kernel_mmu_table : Z) (s : page_state) : res (Heap * page_state) :=
  let* r := page_znalloc heap_start heap_end s KERNEL_HEAP_PAGES in
  let start := default 0 (fst r) in
  let* r := mmu_map_range (snd r) kernel_mmu_table KERNEL_HEAP_START_VADDR KERNEL_HEAP_END_VADDR
              start MMU_LEVEL_4K (Z.lor PB_READ PB_WRITE) in
  let s := snd r in
  let* m := init_memory kernel_mmu_table KERNEL_HEAP_START_VADDR (KERNEL_HEAP_PAGES / 4) (pmem s) in
  Ok (init KERNEL_HEAP_START_VADDR (KERNEL_HEAP_PAGES / 4), mkPages m (page_lock s)).

(** [main] until [heap_init] returns: the kernel's table, its heap, and the
    memory. *)
Definition start_kernel (s : page_state) : res (Z * Heap * page_state) :=
  let* r := map_kernel s in
  let '(kernel_mmu_table, s) := r in
  let* r := heap_init kernel_mmu_table s in
  Ok (kernel_mmu_table, fst r, snd r).

End start.

(** What the table of [main] is to cover. *)
Definition is_ram (v : Z) : bool := (0x80000000 <=? v) && (v <? 0xC0000000).
Definition is_device (v : Z) : bool :=
  ((0x0C000000 <=? v) && (v <? 0x0C400000)) || ((0x30000000 <=? v) && (v <? 0x31000000)) ||
  ((0x40000000 <=? v) && (v <? 0x50000000)).
Definition is_heap (v : Z) : bool :=
  (KERNEL_HEAP_START_VADDR <=? v) && (v <? KERNEL_HEAP_END_VADDR).

(** ** A table filled by ranges *)

(** [rlo..rhi) is mapped to [rphys] on, by leaves of level [rlvl]. *)
Record range := mkRange { rlo : Z; rhi : Z; rphys : Z; rlvl : Z; rbits : Z }.

Definition in_range (v : Z) (r : range) : bool := (rlo r <=? v) && (v <? rhi r).

Definition range_leaf (r : range) (v : Z) : Z * Z :=
  span_leaf (rlo r) (rphys r) (rlvl r) (rbits r) v.

Definition covering (rs : list range) (v : Z) : option range := List.find (in_range v) rs.

Section ranges.
Context {St : Type} `{!PageAllocator St} `{!PageAllocatorLaws St}.

(** The table maps the ranges and nothing else below 2^39. *)
Definition ranges_mapped (s : St) (root : Z) (rs : list range) : Prop :=
  (exists L, tree_ok s root L) /\
  forall v, 0 <= v < 2 ^ 39 ->
    walk 2 (pa_mem s) root v = Ok ((fun r => range_leaf r v) <$> covering rs v).

(** A page of zeros is a table that maps nothing. *)
Lemma new_table s : pa_inv s -> 0 < pa_room s -> exists p s',
  mmu_table_create s = Ok (Some p, s') /\ ranges_mapped s' p [] /\ pa_room s' = pa_room s - 1.
Proof.
  intros Hs Hr. destruct (pa_zalloc_law s Hs) as ([p|] & s' & E & Hs' & H); [|lia].
  destruct H as (_ & Hp & _ & _ & Hz & Hroom). exists p, s'. split; [done|]. split; [|done].
  assert (forall i, 0 <= i < 512 -> ld_entry (pa_mem s') p i = Ok 0) as H0.
  { intros i Hi. apply ld_le_zero. intros b Hb. apply Hz. change (Z.of_nat 8) with 8 in Hb. lia. }
  assert (forall t l i e, ({[ p := 2%nat ]} : gmap Z nat) !! t = Some l -> 0 <= i < 512 ->
    ld_entry (pa_mem s') t i = Ok e -> ~ branch e) as Hno.
  { intros t l i e [<- _]%lookup_singleton_Some Hi Ee. rewrite H0 in Ee by done.
    injection Ee as <-. by intros [? _]. }
  split.
  - exists {[ p := 2%nat ]}. split.
    + done.
    + apply lookup_singleton_eq.
    + by intros t l [<- _]%lookup_singleton_Some.
    + intros t l i e Et Hi Ee Hb. by destruct (Hno _ _ _ _ Et Hi Ee).
    + intros t1 t2 l1 l2 i1 i2 e1 e2 E1 _ H1 _ D1 _ Hb. by destruct (Hno _ _ _ _ E1 H1 D1).
  - intros v Hv. cbn [walk covering List.find fmap option_fmap option_map].
    by rewrite H0 by apply vpn_range.
Qed.

(** One more range. *)
Definition map_call (start_virt end_virt phys lvl bits : Z) : range :=
  mkRange (ALIGN_DOWN_POT start_virt (PAGE_SIZE_AT_LVL lvl))
    (ALIGN_UP_POT end_virt (PAGE_SIZE_AT_LVL lvl)) phys lvl bits.

(** The pages of a range, and how many tables they may need. *)
Definition range_pages (r : range) : Z := (rhi r - rlo r) / page_size (rlvl r).
Definition range_tables (r : range) : Z := range_pages r * (2 - rlvl r).

Record range_ok (r : range) : Prop := mkRangeOk {
  rg_lvl : 0 <= rlvl r <= 2;
  rg_bits : 0 <= rbits r < 2 ^ 10;
  rg_perms : Z.land (rbits r) 0xE <> 0;
  rg_phys : 0 <= rphys r;
  rg_aligned : rlo r mod page_size (rlvl r) = 0;
  rg_end : rphys r + (rhi r - rlo r) <= 2 ^ 56
}.

Lemma map_range_more s root rs sv ev phys lvl bits :
  let r := map_call sv ev phys lvl bits in
  ranges_mapped s root rs -> 0 <= sv <= ev -> ev <= 2 ^ 38 -> range_ok r ->
  (forall v, in_range v r = true -> covering rs v = None) ->
  range_tables r <= pa_room s ->
  exists s', mmu_map_range s root sv ev phys lvl bits = Ok (range_pages r, s') /\
    ranges_mapped s' root (r :: rs) /\
    pa_room s - range_tables r - (2 - lvl) <= pa_room s'.
Proof.
  intros r [Ht Hw] Hse He [Hl Hb Hx Hp Ha Hpe] Hdis Hroom. unfold range_tables, range_pages in *.
  subst r. cbn [map_call rlo rhi rphys rlvl rbits] in *.
  destruct (range_bounds sv ev lvl Hl Hse He) as (_ & _ & Hlo & Hhi).
  destruct (mmu_map_range_walks s root sv ev phys lvl bits Ht Hl Hb Hx Hp Hse He Hpe)
    as (n & s' & E & Hn & (Ht' & Hin & Hout) & Hrm & Hfull).
  { intros v Hv k e. rewrite Hw by lia. unfold in_range in Hdis. cbn [rlo rhi] in Hdis.
    rewrite Hdis; [discriminate|]. rewrite andb_true_iff, Z.leb_le, Z.ltb_lt. exact Hv. }
  specialize (Hfull Hroom). assert (0 < page_size lvl) as Hpos by (unfold page_size; lia).
  rewrite <- Hfull, Z.div_mul in * by lia. exists s'. split; [done|]. split; [|lia].
  split; [done|]. intros v Hv. unfold covering. cbn [List.find].
  unfold in_range at 1. cbn [map_call rlo rhi].
  destruct (decide (ALIGN_DOWN_POT sv (PAGE_SIZE_AT_LVL lvl) <= v <
    ALIGN_DOWN_POT sv (PAGE_SIZE_AT_LVL lvl) + n * page_size lvl)) as [Hi|Ho].
  - rewrite Hin by done. replace (_ && _) with true by lia. done.
  - rewrite Hout, Hw by done. replace (_ && _) with false by lia. done.
Qed.

(** What the readers make of the table. *)
Definition range_pa (r : range) (v : Z) : Z :=
  rphys r / page_size (rlvl r) * page_size (rlvl r) + (v - rlo r).

Lemma ranges_read s root rs v : ranges_mapped s root rs -> Forall range_ok rs -> 0 <= v < 2 ^ 39 ->
  match covering rs v with
  | None => mmu_translate (pa_mem s) root v = Ok MMU_TRANSLATE_PAGE_FAULT /\
      forall perms, mmu_access_ok (pa_mem s) root v perms = Ok false
  | Some r => mmu_translate (pa_mem s) root v = Ok (range_pa r v) /\
      forall perms, 0 <= perms < 2 ^ 10 -> mmu_access_ok (pa_mem s) root v perms =
        Ok (Z.land (Z.lor (rbits r) PB_VALID) perms =? perms)
  end.
Proof.
  intros [[L Ht] Hw] Hok Hv. pose proof (tree_root_nonzero _ _ _ Ht) as Hr. specialize (Hw v Hv).
  destruct (covering rs v) as [r|] eqn:E; cbn [fmap option_fmap option_map] in Hw.
  - apply List.find_some in E as [Hin Hv']. rewrite <- list_elem_of_In in Hin.
    rewrite Forall_forall in Hok. destruct (Hok r Hin) as [H1 H2 H3 H4 H5 H6].
    unfold in_range in Hv'.
    exact (span_reads _ _ _ _ _ _ (rhi r - rlo r) _ Hr H1 H2 H4 H5 Hw ltac:(lia) H6).
  - split; [by rewrite translate_walk, Hw | intros perms; by rewrite access_walk, Hw].
Qed.

End ranges.

(** ** The page allocator during start-up *)

Section boot.
Context (heap_start heap_end : Z).
Context (Hheap : Page.heap_ok heap_start heap_end) (Hend : heap_end <= 2 ^ 56).

(** The pages below [k] are taken, the others free. *)
Record packed (m : mem) (k : Z) : Prop := mkPacked {
  pk_range : num_pages_bk heap_start heap_end <= k <= num_pages heap_start heap_end;
  pk_taken : forall j, 0 <= j < k -> 2 <= bits heap_start m j;
  pk_free : forall j, k <= j < num_pages heap_start heap_end -> bits heap_start m j = 0
}.

Lemma packed_nfree m k n : packed m k -> (n <= Z.to_nat (num_pages heap_start heap_end))%nat ->
  nfree heap_start m n = Z.max 0 (Z.of_nat n - k).
Proof.
  intros [Hk Ht Hf]. pose proof (bk_pages_le _ _ Hheap).
  induction n as [|n IH]; intros Hn; cbn [nfree]; [lia|]. rewrite IH by lia.
  destruct (Z.lt_ge_cases (Z.of_nat n) k) as [Hlt|Hge].
  - specialize (Ht (Z.of_nat n) ltac:(lia)). rewrite (proj2 (Z.ltb_ge _ _)) by done. lia.
  - rewrite Hf by lia. change (0 <? 2) with true. lia.
Qed.

Lemma packed_room m k : packed m k ->
  nfree heap_start m (Z.to_nat (num_pages heap_start heap_end)) = num_pages heap_start heap_end - k.
Proof.
  intros Hp. pose proof (bk_pages_le _ _ Hheap). pose proof (pk_range _ _ Hp).
  rewrite (packed_nfree _ _ _ Hp) by lia. lia.
Qed.

(** A search that finds one free page, or [n] of them, starts at [k]. *)
Lemma packed_found m k n st en : packed m k -> found heap_start heap_end m n st en ->
  st = k /\ en = k + n - 1.
Proof.
  intros Hp F. pose proof (bk_pages_le _ _ Hheap). destruct (Hp) as [Hk Ht Hf], (F) as [Hr Hfree Hleft Hcnt].
  assert (st = k) as ->.
  { destruct (Z.lt_trichotomy st k) as [|[|]]; [|done|].
    - specialize (Ht st). specialize (Hfree st). lia.
    - specialize (Hf (st - 1)). lia. }
  split; [done|].
  rewrite (packed_nfree _ _ _ Hp) in Hcnt by lia. lia.
Qed.

(** The heap allocator's promise while start-up runs: besides [heap_inv], the
    pages are packed and the bytes [zlo..zlo+zn) are zero; a page is owned when
    it is outside them. *)
Section reserved.
Context (zlo zn : Z).

Definition zeroed (m : mem) : Prop := forall a, zlo <= a < zlo + zn -> m !! a = Some 0.

Definition reserved_below (k : Z) : Prop :=
  zn = 0 \/ heap_start + bk_size heap_start heap_end <= zlo /\ zlo + zn <= heap_start + k * PAGE_SIZE.

Definition boot_inv (s : page_state) : Prop :=
  heap_inv heap_start heap_end s /\ zeroed (pmem s) /\
  exists k, packed (pmem s) k /\ reserved_below k.

Definition boot_owned (s : page_state) (p : Z) : Prop :=
  page_owned heap_start heap_end s p /\ (zn = 0 \/ p + 4096 <= zlo \/ zlo + zn <= p).

Lemma packed_bits m m' k : (forall j, 0 <= j < num_pages heap_start heap_end ->
    bits heap_start m' j = bits heap_start m j) -> packed m k -> packed m' k.
Proof.
  intros E [Hk Ht Hf]. pose proof (bk_pages_le _ _ Hheap).
  split; [done | |]; intros j Hj; rewrite E by lia; auto.
Qed.

Lemma packed_one m m' k : packed m k -> k < num_pages heap_start heap_end ->
  (forall j, 0 <= j < num_pages heap_start heap_end ->
    bits heap_start m' j = if j =? k then 3 else bits heap_start m j) -> packed m' (k + 1).
Proof.
  intros [Hk Ht Hf] Hlt E. pose proof (bk_pages_le _ _ Hheap).
  split; [lia | |]; intros j Hj; rewrite E by lia.
  - destruct (Z.eqb_spec j k); [done|]. apply Ht. lia.
  - rewrite (proj2 (Z.eqb_neq _ _)) by lia. apply Hf. lia.
Qed.

Definition boot_laws : @PageAllocatorLaws page_state (page_allocator heap_start heap_end).
Proof.
  refine (@Build_PageAllocatorLaws page_state (page_allocator heap_start heap_end)
    boot_inv boot_owned (heap_room heap_start heap_end) _ _ _ _).
  - intros s [[Hs _] _]. apply Hs.
  - intros s p [Hs _] [Hp _]. exact (@pa_owned_page _ _ (page_allocator_laws _ _ Hheap Hend) s p Hs Hp).
  - intros s (Hs & Hz & k & Hk & Hres).
    destruct (heap_zalloc _ _ Hheap s Hs) as (r & s' & E & Hi & H). exists r, s'. split; [exact E|].
    destruct r as [p|]; [|split; [|exact H]; destruct H as [-> _]; split; [done|]; split; [done|]; by exists k].
    destruct H as (H1 & H2 & H3 & H4 & H5 & st & Ep & H6).
    destruct (packed_found _ _ _ _ _ Hk (proj1 H6)) as [-> _].
    pose proof (fd_range _ _ _ _ _ _ (proj1 H6)) as Hlt.
    assert (zn = 0 \/ zlo + zn <= p) as Hp.
    { destruct Hres as [|[_ Hres]]; [by left | right]. rewrite Ep. exact Hres. }
    split; [|split; [|split; [|split; [|split; [|split]]]]].
    + split; [done|]. split.
      * intros a Ha. destruct Hp as [->|Hp]; [lia|]. destruct Hres as [->|[Hres _]]; [lia|].
        change pmem with (@pa_mem _ (page_allocator heap_start heap_end)). rewrite H4 by lia. by apply Hz.
      * exists (k + 1). split; [eapply packed_one; [done | lia | apply H6]|].
        destruct Hres as [->|[? ?]]; [by left | right]. split; [done | unfold PAGE_SIZE in *; lia].
    + intros [Hq _]. contradiction.
    + split; [done | tauto].
    + intros q [Hq ?]. split; [by apply H3 | done].
    + intros q a [Hq _]. by eapply owned_untouched.
    + exact H5.
    + by eapply one_taken_room.
  - intros s p m' a n (Hs & Hz & k & Hk & Hres) [Hp Hout] S Ha Hn.
    destruct (owned_range _ _ Hheap _ _ Hp) as (Hlo & _).
    pose proof (fun j => bits_outside _ _ Hheap _ _ _ _ j S ltac:(lia)) as Hb.
    split; [|split; [done|split]].
    + split; [by eapply heap_write|]. split.
      * intros b Hb'. cbn [pa_set page_allocator pmem]. rewrite (stored_out _ _ _ _ S) by lia. by apply Hz.
      * exists k. split; [eapply packed_bits; [exact Hb | done] | done].
    + intros q [Hq ?]. split; [|done]. eapply owned_outside; [done | exact S | lia | done].
    + unfold heap_room. apply nfree_ext. intros j Hj. cbn [pa_set page_allocator pmem]. apply Hb. lia.
Defined.

End reserved.

(** Several pages at once: they are consecutive, and become the reserved area. *)
Lemma boot_reserve s n : boot_inv 0 0 s -> 0 < n < 2 ^ 19 -> n <= heap_room heap_start heap_end s ->
  exists p s', page_znalloc heap_start heap_end s n = Ok (Some p, s') /\
    heap_start + bk_size heap_start heap_end <= p /\ p + n * PAGE_SIZE <= heap_end /\
    p mod PAGE_SIZE = 0 /\
    boot_inv p (n * PAGE_SIZE) s' /\
    (forall q, boot_owned 0 0 s q -> boot_owned p (n * PAGE_SIZE) s' q /\
       forall a, q <= a < q + 4096 -> pmem s' !! a = pmem s !! a) /\
    heap_room heap_start heap_end s' = heap_room heap_start heap_end s - n.
Proof.
  intros ([Hs Hm] & _ & k & Hk & _) Hn Hroom. unfold heap_room in Hroom.
  rewrite (packed_room _ _ Hk) in Hroom. pose proof (pk_range _ _ Hk) as Hkr.
  pose proof (bk_pages_le _ _ Hheap). pose proof (bk_size_eq _ _ Hheap).
  pose proof (num_pages_bytes _ _ Hheap). pose proof (hs_aligned _ _ Hheap).
  unfold page_znalloc. replace (n <=? 0) with false by lia.
  destruct (page_nalloc_spec _ _ Hheap s n Hs) as [[_ Hno] | (st & en & m1 & E & F & A & I)]; [lia | |].
  { rewrite (packed_room _ _ Hk) in Hno. lia. }
  destruct (packed_found _ _ _ _ _ Hk F) as [-> ->]. rewrite E. cbn [res_bind pmem page_lock].
  destruct A as [S1 B1]. rewrite s32_id by (unfold PAGE_SIZE; lia).
  set (p := heap_start + k * PAGE_SIZE) in *.
  assert (heap_start + bk_size heap_start heap_end <= p /\ p + n * PAGE_SIZE <= heap_end) as [P1 P2].
  { unfold p, PAGE_SIZE in *. lia. }
  assert (mapped m1 heap_start (heap_end - heap_start)) as Hm1 by (by eapply stored_mapped).
  destruct (memset_spec m1 p 0 (n * PAGE_SIZE)) as (m2 & -> & S2 & Z2); [unfold PAGE_SIZE; lia | |].
  { eapply mapped_mono; [exact Hm1 | unfold p, PAGE_SIZE in *; lia | lia]. }
  cbn [res_bind]. exists p, (mkPages m2 MUTEX_UNLOCKED). split; [done|]. split; [done|]. split; [done|].
  assert (forall j, 0 <= j < num_pages heap_start heap_end -> bits heap_start m2 j =
    if j =? k + n - 1 then 3 else if (k <=? j) && (j <? k + n - 1) then 2 else bits heap_start (pmem s) j)
    as B2 by (intros j Hj; rewrite (bits_outside _ _ Hheap _ _ _ _ _ S2) by lia; by apply B1).
  assert (packed m2 (k + n)) as Hk2.
  { split; [lia | |]; intros j Hj; rewrite B2 by lia.
    - pose proof (pk_taken _ _ Hk j). repeat case_match; lia.
    - rewrite (proj2 (Z.eqb_neq _ _)) by lia. rewrite (proj2 (Z.ltb_ge _ _)), andb_false_r by lia.
      apply (pk_free _ _ Hk). lia. }
  split; [unfold p; rewrite Z.add_mod, Z_mod_mult, Z.add_0_r, Z.mod_mod by done; done|].
  split; [|split].
  - split; [|split].
    + split; [eapply (page_inv_outside _ _ Hheap (mkPages m1 MUTEX_UNLOCKED)); [done | exact S2 | done] |].
      by eapply stored_mapped.
    + intros a Ha. cbn [pmem]. by rewrite Z2.
    + exists (k + n). split; [done|]. right. split; [done|]. unfold p. lia.
  - intros q [(i & -> & Hi & E3 & E4) _]. pose proof (pk_free _ _ Hk i) as Hfree.
    assert (i < k) as Hik by lia. split; [split|].
    + exists i. split; [done|]. split; [done|]. cbn [pmem]. rewrite !B2 by lia.
      rewrite !(proj2 (Z.eqb_neq _ _)), !(proj2 (Z.leb_gt _ _)) by lia. done.
    + right. left. unfold p, PAGE_SIZE. lia.
    + intros a Ha. cbn [pmem].
      rewrite (stored_out _ _ _ _ S2), (stored_out _ _ _ _ S1); [done | |]; unfold p, PAGE_SIZE in *; lia.
  - unfold heap_room. cbn [pmem]. rewrite (packed_room _ _ Hk), (packed_room _ _ Hk2). lia.
Qed.

(** A tree stays what it was when its pages are still owned and their bytes the
    same, whatever else is promised of the memory. *)
Lemma tree_moves (W W' : @PageAllocatorLaws page_state (page_allocator heap_start heap_end)) s s' root rs :
  @pa_inv _ _ W' s' ->
  (forall q, @pa_owned _ _ W s q -> @pa_owned _ _ W' s' q /\
     forall a, q <= a < q + 4096 -> pmem s' !! a = pmem s !! a) ->
  @ranges_mapped _ _ W s root rs -> @ranges_mapped _ _ W' s' root rs.
Proof.
  intros Hs' Hown [[L [Hi Hr Ho Hc Hj]] Hw].
  assert (forall t l i, L !! t = Some l -> 0 <= i < 512 ->
    ld_entry (pmem s') t i = ld_entry (pmem s) t i) as Hsame.
  { intros t l i Et Hi'. apply ld_le_ext. intros b Hb. change (Z.of_nat 8) with 8 in Hb.
    apply (Hown t (Ho _ _ Et)). lia. }
  assert (forall v k t, L !! t = Some k -> walk k (pmem s') t v = walk k (pmem s) t v) as Hwalk.
  { intros v. induction k as [|k IH]; intros t Et; cbn [walk]; rewrite (Hsame _ _ _ Et) by apply vpn_range;
      [done|]. destruct (ld_entry (pmem s) t _) as [e| | |] eqn:E; cbn [res_bind]; try done.
    destruct (valid e) eqn:Ve, (is_leaf e) eqn:Le; cbn [negb]; try done. apply IH.
    destruct (Hc _ _ _ _ Et (vpn_range _ _) E) as (l' & [= <-] & ?); [done | done]. }
  split.
  - exists L. split; [exact Hs' | exact Hr | intros; by eapply Hown, Ho | |].
    + intros t l i e Et Hi' E. cbn [pa_mem page_allocator] in E. rewrite (Hsame _ _ _ Et Hi') in E.
      by eapply Hc.
    + intros t1 t2 l1 l2 i1 i2 e1 e2 T1 T2 H1 H2 E1 E2. cbn [pa_mem page_allocator] in E1, E2.
      rewrite (Hsame _ _ _ T1 H1) in E1. rewrite (Hsame _ _ _ T2 H2) in E2. by eapply Hj.
  - intros v Hv. cbn [pa_mem page_allocator]. rewrite (Hwalk _ _ _ Hr). by apply Hw.
Qed.

(** Stores to the reserved area leave the tree alone. *)
Lemma area_keeps_tree s m' root rs z n : 0 <= n ->
  heap_start + bk_size heap_start heap_end <= z -> stored (pmem s) m' z n ->
  @ranges_mapped _ _ (boot_laws z n) s root rs ->
  @ranges_mapped _ _ (page_allocator_laws _ _ Hheap Hend) (mkPages m' (page_lock s)) root rs.
Proof.
  intros H0 H1 S T. destruct (proj1 T) as [L [(Hi & _) _ _ _ _]].
  refine (tree_moves (boot_laws z n) _ _ _ _ _ _ _ T).
  - destruct Hi as [Hi Hm]. split; [|by eapply stored_mapped].
    eapply (page_inv_outside _ _ Hheap s); [exact Hi | exact S | exact H1].
  - intros q [Hq Ha]. split; [by eapply owned_outside|]. intros a Hin.
    destruct (decide (n = 0)) as [->|]; cbn [pmem]; apply (stored_out _ _ _ _ S); lia.
Qed.

(** ** What [init] leaves in the memory of the heap *)

(** The 64-bit word at offset [o], [k] of the blocks being chained: the header, and
    in each of these blocks the address of the next. *)
Definition heap_word (base blocks k o : Z) : Z :=
  if o =? 16 then base + sizeof_Heap
  else if o =? 24 then base + sizeof_Heap + sizeof_Block * blocks
  else if (sizeof_Heap <=? o) && (o <? sizeof_Heap + sizeof_Block * k) &&
          ((o - sizeof_Heap) mod sizeof_Block =? 8)
  then base + sizeof_Heap + sizeof_Block * ((o - sizeof_Heap) / sizeof_Block + 1)
  else 0.

(** [n] bytes from [a] as words. *)
Definition words (m : mem) (a n : Z) (f : Z -> Z) : Prop :=
  forall o, 0 <= o < n -> o mod 8 = 0 -> ld64 m (a + o) = Ok (f o).

Lemma words_store m a n f o v : mapped m a n -> n mod 8 = 0 -> words m a n f ->
  0 <= o < n -> o mod 8 = 0 -> 0 <= v < 2 ^ 64 ->
  exists m', st64 m (a + o) v = Ok m' /\ stored m m' a n /\
    words m' a n (fun q => if q =? o then v else f q).
Proof.
  intros Hm Hn W Ho H8 Hv. assert (o + 8 <= n) as Hon by dlia.
  destruct (ld64_st64 m (a + o) v) as (m' & E & S & L).
  { eapply mapped_mono; [exact Hm | lia | lia]. }
  exists m'. split; [done|]. split; [eapply stored_mono; [exact S | lia | lia]|].
  intros q Hq H8'. destruct (Z.eqb_spec q o) as [->|Hne]; [by rewrite L, u64_id|].
  rewrite <- (W q Hq H8'). eapply ld_le_outside; [exact (stored_out _ _ _ _ S)|].
  change (Z.of_nat 8) with 8. dlia.
Qed.

Lemma words_ext m a n f g : words m a n f ->
  (forall o, 0 <= o < n -> o mod 8 = 0 -> f o = g o) -> words m a n g.
Proof. intros W E o Ho H8. rewrite <- E by done. by apply W. Qed.

(** Where the virtual addresses [base..base+n) are writable and at [a..a+n), and stay
    so while these bytes change. *)
Section heap_memory.
Context (pt base a n blocks : Z) (m0 : mem).
Context (Hblocks : 1 <= blocks < 2 ^ 32) (Hfits : sizeof_Heap + sizeof_Block * blocks <= n).
Context (Hn8 : n mod 8 = 0) (Hbase : 0 <= base) (Hmax : base + n < 2 ^ 64) (Hm0 : mapped m0 a n).
Context (Htable : forall m o, stored m0 m a n -> 0 <= o < n ->
  mmu_access_ok m pt (base + o) PB_WRITE = Ok true /\ mmu_translate m pt (base + o) = Ok (a + o)).

Definition heap_words (k : Z) (m : mem) : Prop :=
  stored m0 m a n /\ words m a n (heap_word base blocks k).

Lemma vst64_ok m o v f : stored m0 m a n -> words m a n f -> 0 <= o < n -> o mod 8 = 0 -> 0 <= v < 2 ^ 64 ->
  exists m', vst64 pt m (base + o) v = Ok m' /\ stored m0 m' a n /\
    words m' a n (fun q => if q =? o then v else f q).
Proof.
  intros S W Ho H8 Hv. destruct (Htable m o S Ho) as [H1 H2].
  destruct (words_store m a n f o v) as (m' & E & S' & W'); try done; [by eapply stored_mapped|].
  exists m'. unfold vst64. rewrite H1. cbn [res_bind]. rewrite H2. cbn [res_bind].
  split; [done|]. split; [by eapply stored_trans | done].
Qed.

Lemma init_memory_ok : words m0 a n (fun _ => 0) ->
  exists m', init_memory pt base blocks m0 = Ok m' /\ heap_words (blocks - 1) m'.
Proof.
  intros W0. unfold init_memory, sizeof_Heap, sizeof_Block in *.
  destruct (vst64_ok m0 0 0 (fun _ => 0)) as (m1 & E1 & S1 & W1);
    first [done | lia | apply stored_refl | idtac].
  rewrite Z.add_0_r in E1. rewrite E1. cbn [res_bind].
  destruct (vst64_ok m1 8 0 _ S1 W1) as (m2 & -> & S2 & W2); first [done | lia | idtac]. cbn [res_bind].
  destruct (vst64_ok m2 16 (base + 32) _ S2 W2) as (m3 & -> & S3 & W3);
    first [done | lia | idtac]. cbn [res_bind].
  destruct (vst64_ok m3 24 (base + 32 + 24 * blocks) _ S3 W3) as (m4 & -> & S4 & W4);
    first [done | lia | idtac].
  cbn [res_bind]. rewrite u64_id by lia.
  destruct (for_up_total (fun i '(block, m) => block = base + 32 + 24 * i /\ heap_words i m)
    (fun _ '(block, m) => let* m := vst64 pt m (block + 8) (block + 24) in Ok (block + 24, m))
    (Z.to_nat (blocks - 1)) 0 (base + 32, m4)) as ([block m5] & -> & -> & S5 & W5).
  - split; [lia|]. split; [done|]. eapply words_ext; [exact W4|]. intros o Ho H8. cbn beta.
    unfold heap_word, sizeof_Heap, sizeof_Block. repeat case_match; lia.
  - intros i [block m] Hi [-> [S W]].
    destruct (vst64_ok m (32 + 24 * i + 8) (base + 32 + 24 * i + 24) _ S W) as (m' & E & S' & W');
      first [lia | dlia | idtac].
    rewrite !Z.add_assoc in E. rewrite E. cbn [res_bind]. eexists. split; [done|]. split; [lia|].
    split; [done|]. eapply words_ext; [exact W'|]. intros o Ho H8. cbn beta.
    unfold heap_word, sizeof_Heap, sizeof_Block. repeat case_match; dlia.
  - cbn [res_bind fst snd]. rewrite Z.add_0_l, Z2Nat.id in * by lia.
    destruct (vst64_ok m5 (32 + 24 * (blocks - 1) + 8) 0 _ S5 W5) as (m' & E & S' & W');
      first [lia | dlia | idtac].
    rewrite !Z.add_assoc in E. rewrite E. exists m'. split; [done|]. split; [done|].
    eapply words_ext; [exact W'|]. intros o Ho H8. cbn beta.
    unfold heap_word, sizeof_Heap, sizeof_Block. repeat case_match; dlia.
Qed.

End heap_memory.

(** The calls of [main] as ranges. *)
Section calls.
Context (text_start : Z) (Htext : 0x80000000 <= text_start <= heap_start) (Hram : heap_end <= 0xC0000000).

Definition ram : range := mkRange 0x80000000 0xC0000000 text_start 2 14.
Definition plic : range := mkRange 0x0C000000 0x0C400000 0x0C000000 1 6.
Definition ecam : range := mkRange 0x30000000 0x31000000 0x30000000 1 6.
Definition mmio : range := mkRange 0x40000000 0x50000000 0x40000000 1 6.
Definition kheap (start : Z) : range :=
  mkRange KERNEL_HEAP_START_VADDR KERNEL_HEAP_END_VADDR start 0 6.

Lemma ram_call : map_call text_start heap_end text_start MMU_LEVEL_1G 14 = ram.
Proof.
  pose proof (hs_lt _ _ Hheap). unfold map_call, ram. change (PAGE_SIZE_AT_LVL MMU_LEVEL_1G) with (2 ^ 30).
  rewrite align_down_pot, align_up_pot by lia. f_equal; dlia.
Qed.

Lemma ram_ok : range_ok ram.
Proof. pose proof (hs_lt _ _ Hheap). split; cbn [ram rlo rhi rphys rlvl rbits]; try done; lia. Qed.
(** The five ranges share no address. *)
Lemma kernel_covering start v : 0 <= v ->
  covering [kheap start; mmio; ecam; plic; ram] v =
    if in_range v ram then Some ram else if in_range v plic then Some plic
    else if in_range v ecam then Some ecam else if in_range v mmio then Some mmio
    else if in_range v (kheap start) then Some (kheap start) else None.
Proof.
  intros Hv. unfold covering. cbn [List.find].
  unfold in_range. cbn [rlo rhi kheap mmio ecam plic ram].
  change KERNEL_HEAP_START_VADDR with 0x1c0ffee000. change KERNEL_HEAP_END_VADDR with 0x1c11fee000.
  repeat case_match; (done || lia).
Qed.

(** The pages of each range, and the tables they may need. *)
Lemma kernel_tables start :
  range_tables ram = 0 /\ range_tables plic = 2 /\ range_tables ecam = 8 /\
  range_tables mmio = 128 /\ range_tables (kheap start) = 16384.
Proof. done. Qed.

Lemma boot_room z n s : @pa_room _ _ (boot_laws z n) s = heap_room heap_start heap_end s.
Proof. done. Qed.

(** Disjointness of one range from the ranges before it. *)
Ltac apart :=
  let v := fresh "v" in let Hv := fresh "Hv" in
  intros v Hv; unfold covering; cbn [List.find]; unfold in_range in *;
  cbn [rlo rhi kheap mmio ecam plic ram] in *;
  change KERNEL_HEAP_START_VADDR with 0x1c0ffee000 in *;
  change KERNEL_HEAP_END_VADDR with 0x1c11fee000 in *;
  repeat case_match; (done || lia).

#[local] Existing Instance kernel_pages.

Ltac levels := unfold MMU_LEVEL_1G, MMU_LEVEL_2M in *; lia.

Lemma map_kernel_ok s : mem_ok (pmem s) -> mapped (pmem s) heap_start (heap_end - heap_start) ->
  page_lock s = MUTEX_UNLOCKED ->
  let free := num_pages heap_start heap_end - num_pages_bk heap_start heap_end in
  142 <= free ->
  exists pt s', map_kernel heap_start heap_end text_start s = Ok (pt, s') /\
    @ranges_mapped _ _ (boot_laws 0 0) s' pt [mmio; ecam; plic; ram] /\
    free - 142 <= heap_room heap_start heap_end s'.
Proof.
  intros Hok Hm Hl free Hfree. pose proof (bk_pages_le _ _ Hheap) as Hbk.
  pose proof (num_pages_bytes _ _ Hheap) as Hnb. pose proof (bk_size_eq _ _ Hheap) as Hbs.
  unfold map_kernel, kernel_pages.
  destruct (page_init_correct _ _ Hheap s Hok) as (s1 & -> & I1 & F1 & U1); [| done |].
  { eapply mapped_mono; [exact Hm | lia | unfold PAGE_SIZE in *; lia]. }
  cbn [res_bind].
  assert (packed (pmem s1) (num_pages_bk heap_start heap_end)) as Hk1.
  { split; [lia | | exact F1]. intros j Hj. rewrite (pi_bk _ _ _ I1) by lia. done. }
  assert (boot_inv 0 0 s1) as I.
  { split; [split; [done | by eapply stored_mapped]|]. split; [intros a Ha; lia|].
    exists (num_pages_bk heap_start heap_end). split; [done | by left]. }
  assert (heap_room heap_start heap_end s1 = free) as R1 by (by apply packed_room).
  destruct (@new_table _ _ (boot_laws 0 0) s1 I) as (pt & s2 & -> & T2 & R2); [cbn; lia|].
  cbn [res_bind fst snd default from_option id]. change (Z.lor (Z.lor PB_READ PB_WRITE) PB_EXECUTE) with 14.
  change (Z.lor PB_READ PB_WRITE) with 6.
  pose proof ram_call as Eram. pose proof (hs_lt _ _ Hheap).
  destruct (kernel_tables 0) as (E1 & E2 & E3 & E4 & _). rewrite !boot_room, R1 in R2.
  destruct (@map_range_more _ _ (boot_laws 0 0) s2 pt [] text_start heap_end text_start MMU_LEVEL_1G 14)
    as (s3 & -> & T3 & R3); rewrite ?boot_room in *; rewrite ?Eram in *; [done | lia | lia | apply ram_ok | done | lia |].
  cbn [res_bind snd].
  destruct (@map_range_more _ _ (boot_laws 0 0) s3 pt [ram] 0x0C000000 0x0C2FFFFF 0x0C000000 MMU_LEVEL_2M 6)
    as (s4 & -> & T4 & R4); rewrite ?boot_room in *; change (map_call 0x0C000000 0x0C2FFFFF 0x0C000000 MMU_LEVEL_2M 6) with plic in *;
    [done | lia | lia | split; done | apart | levels |].
  cbn [res_bind snd].
  destruct (@map_range_more _ _ (boot_laws 0 0) s4 pt [plic; ram] 0x30000000 0x30FFFFFF 0x30000000 MMU_LEVEL_2M 6)
    as (s5 & -> & T5 & R5); rewrite ?boot_room in *; change (map_call 0x30000000 0x30FFFFFF 0x30000000 MMU_LEVEL_2M 6) with ecam in *;
    [done | lia | lia | split; done | apart | levels |].
  cbn [res_bind snd].
  destruct (@map_range_more _ _ (boot_laws 0 0) s5 pt [ecam; plic; ram] 0x40000000 0x4FFFFFFF 0x40000000 MMU_LEVEL_2M 6)
    as (s6 & -> & T6 & R6); rewrite ?boot_room in *; change (map_call 0x40000000 0x4FFFFFFF 0x40000000 MMU_LEVEL_2M 6) with mmio in *;
    [done | lia | lia | split; done | apart | levels |].
  cbn [res_bind snd]. exists pt, s6. split; [done|]. split; [done|].
  levels.
Qed.

Lemma kernel_ranges_ok start : 0 <= start -> start + KERNEL_HEAP_PAGES * PAGE_SIZE <= heap_end ->
  start mod PAGE_SIZE = 0 -> Forall range_ok [kheap start; mmio; ecam; plic; ram].
Proof.
  intros H0 H1 H2. pose proof (hs_lt _ _ Hheap). apply Forall_cons. split.
  { split; try done. cbn [kheap rphys rlo rhi].
    change (start + KERNEL_HEAP_PAGES * PAGE_SIZE <= 2 ^ 56). lia. }
  do 3 (apply Forall_cons; split; [split; done|]). apply Forall_cons. split; [apply ram_ok | by apply Forall_nil].
Qed.

Lemma ram_pa v : range_pa ram v = v.
Proof.
  pose proof (hs_lt _ _ Hheap). unfold range_pa. cbn [ram rphys rlo rlvl].
  change (page_size 2) with (2 ^ 30). dlia.
Qed.

Lemma device_pa r v : r = plic \/ r = ecam \/ r = mmio -> range_pa r v = v.
Proof. 
  intros [-> | [-> | ->]]; unfold range_pa.
  - change (0x0C000000 + (v - 0x0C000000) = v). lia.
  - change (0x30000000 + (v - 0x30000000) = v). lia.
  - change (0x40000000 + (v - 0x40000000) = v). lia.
Qed.

Lemma kheap_pa start v : start mod PAGE_SIZE = 0 ->
  range_pa (kheap start) v = start + (v - KERNEL_HEAP_START_VADDR).
Proof.
  intros H. unfold range_pa. cbn [kheap rphys rlo rlvl]. change (page_size 0) with PAGE_SIZE.
  pose proof (Z.div_mod start PAGE_SIZE ltac:(done)). lia.
Qed.

(** The table of [main], read back. *)
Lemma kernel_table_reads (W : @PageAllocatorLaws page_state (page_allocator heap_start heap_end)) s pt start :
  heap_start <= start -> start + KERNEL_HEAP_PAGES * PAGE_SIZE <= heap_end -> start mod PAGE_SIZE = 0 ->
  @ranges_mapped _ _ W s pt [kheap start; mmio; ecam; plic; ram] ->
  forall v, 0 <= v < 2 ^ 39 ->
  mmu_translate (pmem s) pt v = Ok (if is_ram v || is_device v then v
    else if is_heap v then start + (v - KERNEL_HEAP_START_VADDR) else MMU_TRANSLATE_PAGE_FAULT) /\
  forall perms, 0 <= perms < 2 ^ 10 -> mmu_access_ok (pmem s) pt v perms = Ok (
    if is_ram v then Z.land 15 perms =? perms
    else if is_device v || is_heap v then Z.land 7 perms =? perms else false).
Proof.
  intros H0 H1 H2 T v Hv.
  pose proof (ranges_read _ _ _ v T (kernel_ranges_ok start ltac:(lia) H1 H2) Hv) as H.
  rewrite kernel_covering in H by lia.
  change (is_ram v) with (in_range v ram). change (is_heap v) with (in_range v (kheap start)).
  change (is_device v) with (in_range v plic || in_range v ecam || in_range v mmio).
  destruct (in_range v ram); [by rewrite ram_pa in H|]. cbn [orb].
  destruct (in_range v plic); [by rewrite (device_pa plic) in H by auto|].
  destruct (in_range v ecam); [by rewrite (device_pa ecam) in H by auto|].
  destruct (in_range v mmio); [by rewrite (device_pa mmio) in H by auto|]. cbn [orb].
  destruct (in_range v (kheap start)); [by rewrite kheap_pa in H|].
  split; [apply H | intros; apply H].
Qed.

Lemma heap_addresses o : 0 <= o < KERNEL_HEAP_PAGES * PAGE_SIZE ->
  is_ram (KERNEL_HEAP_START_VADDR + o) = false /\ is_device (KERNEL_HEAP_START_VADDR + o) = false /\
  is_heap (KERNEL_HEAP_START_VADDR + o) = true.
Proof.
  unfold is_ram, is_device, is_heap. change (KERNEL_HEAP_PAGES * PAGE_SIZE) with 33554432.
  change KERNEL_HEAP_START_VADDR with 0x1c0ffee000. change KERNEL_HEAP_END_VADDR with 0x1c11fee000. lia.
Qed.

Lemma heap_init_ok s pt : @ranges_mapped _ _ (boot_laws 0 0) s pt [mmio; ecam; plic; ram] ->
  24576 <= heap_room heap_start heap_end s ->
  exists start s', heap_init heap_start heap_end pt s = Ok (kernel_heap, s') /\
    heap_start + bk_size heap_start heap_end <= start /\
    start + KERNEL_HEAP_PAGES * PAGE_SIZE <= heap_end /\ start mod PAGE_SIZE = 0 /\
    words (pmem s') start (KERNEL_HEAP_PAGES * PAGE_SIZE)
      (heap_word KERNEL_HEAP_START_VADDR (KERNEL_HEAP_PAGES / 4) (KERNEL_HEAP_PAGES / 4 - 1)) /\
    @ranges_mapped _ _ (page_allocator_laws _ _ Hheap Hend) s' pt
      [kheap start; mmio; ecam; plic; ram].
Proof.
  intros T Hroom. pose proof (hs_lt _ _ Hheap) as Hlt.
  assert (boot_inv 0 0 s) as I by (destruct T as [[L [I _ _ _ _]] _]; exact I).
  unfold heap_init, kernel_pages.
  destruct (boot_reserve s KERNEL_HEAP_PAGES I) as (start & s1 & -> & H1 & H2 & H3 & I1 & O1 & R1);
    [done | unfold KERNEL_HEAP_PAGES; lia |].
  apply (tree_moves (boot_laws 0 0) (boot_laws start (KERNEL_HEAP_PAGES * PAGE_SIZE)) s s1 _ _ I1 O1) in T.
  cbn [res_bind fst snd default from_option id]. change (Z.lor PB_READ PB_WRITE) with 6.
  set (n := KERNEL_HEAP_PAGES * PAGE_SIZE) in *.
  destruct (kernel_tables start) as (_ & _ & _ & _ & E5).
  assert (0 <= bk_size heap_start heap_end).
  { pose proof (bk_size_bounds _ _ Hheap). pose proof (num_pages_pos _ _ Hheap). dlia. }
  assert (n = 33554432) as En by done.
  destruct (@map_range_more _ _ (boot_laws start n) s1 pt [mmio; ecam; plic; ram]
      KERNEL_HEAP_START_VADDR KERNEL_HEAP_END_VADDR start MMU_LEVEL_4K 6) as (s2 & -> & T2 & _);
    change (map_call KERNEL_HEAP_START_VADDR KERNEL_HEAP_END_VADDR start MMU_LEVEL_4K 6) with (kheap start) in *.
  - done.
  - done.
  - done.
  - split; try done; cbn [kheap rphys rlo rhi]; [lia|].
    change (start + (0x1c11fee000 - 0x1c0ffee000) <= 2 ^ 56). lia.
  - apart.
  - rewrite boot_room, R1, E5. unfold KERNEL_HEAP_PAGES. lia.
  - cbn [res_bind snd fst]. destruct (proj1 T2) as [L [((_ & M2) & Z2 & _) _ _ _ _]].
    assert (forall m, stored (pmem s2) m start n -> @ranges_mapped _ _ (page_allocator_laws _ _ Hheap Hend)
      (mkPages m (page_lock s2)) pt [kheap start; mmio; ecam; plic; ram]) as T3.
    { intros m S. apply (area_keeps_tree s2 m pt _ start n); [lia | done..]. }
    destruct (init_memory_ok pt KERNEL_HEAP_START_VADDR start n (KERNEL_HEAP_PAGES / 4) (pmem s2))
      as (m & -> & S & W); try done.
    + eapply mapped_mono; [exact M2 | lia | lia].
    + intros m o S Ho.
      destruct (kernel_table_reads _ _ pt start ltac:(lia) H2 H3 (T3 m S) (KERNEL_HEAP_START_VADDR + o)) as [E1 E2].
      { change KERNEL_HEAP_START_VADDR with 0x1c0ffee000. lia. }
      destruct (heap_addresses o) as (R1' & R2' & R3'); [lia|]. cbn [pmem] in E1, E2.
      rewrite (E2 PB_WRITE), E1, R1', R2', R3' by done. split; [done|]. cbn [orb]. f_equal. lia.
    + intros o Ho H8. apply ld_le_zero. intros b Hb. apply Z2. change (Z.of_nat 8) with 8 in Hb. dlia.
    + cbn [res_bind]. exists start, (mkPages m (page_lock s2)). split; [done|]. do 3 (split; [done|]).
      split; [exact W | by apply T3].
Qed.

End calls.

(** (C6) The kernel starts. From any memory that holds the heap, and with 24718
    pages to give, the start of main succeeds: the kernel's heap manager is ready;
    RAM, the interrupt controller, the ECAM and the MMIO windows are mapped to
    themselves, RAM with all permissions and the windows for reading and writing;
    the 32 MiB of heap addresses are mapped, readable and writable, to consecutive
    physical bytes inside the page heap, although page_nalloc can return short
    chunks; every 64-bit word there is what init has stored through that mapping, the
    header and the chain of the 2048 blank blocks, and zero everywhere else; every
    other address faults; and the table is well formed for what is mapped next. *)
Theorem kernel_boots text_start s :
  0x80000000 <= text_start <= heap_start -> heap_end <= 0xC0000000 ->
  mem_ok (pmem s) -> mapped (pmem s) heap_start (heap_end - heap_start) ->
  page_lock s = MUTEX_UNLOCKED ->
  24718 <= num_pages heap_start heap_end - num_pages_bk heap_start heap_end ->
  exists pt start s',
    start_kernel heap_start heap_end text_start s = Ok (pt, kernel_heap, s') /\
    kernel_heap_ok kernel_heap /\
    (exists L, @tree_ok _ _ (page_allocator_laws _ _ Hheap Hend) s' pt L) /\
    heap_start + bk_size heap_start heap_end <= start /\
    start + KERNEL_HEAP_PAGES * PAGE_SIZE <= heap_end /\
    (forall o, 0 <= o < KERNEL_HEAP_PAGES * PAGE_SIZE -> o mod 8 = 0 ->
       ld64 (pmem s') (start + o) = Ok (heap_word KERNEL_HEAP_START_VADDR 2048 2047 o)) /\
    forall v, 0 <= v < 2 ^ 39 ->
      mmu_translate (pmem s') pt v = Ok (if is_ram v || is_device v then v
        else if is_heap v then start + (v - KERNEL_HEAP_START_VADDR) else MMU_TRANSLATE_PAGE_FAULT) /\
      forall perms, 0 <= perms < 2 ^ 10 -> mmu_access_ok (pmem s') pt v perms = Ok (
        if is_ram v then Z.land (PB_VALID + PB_READ + PB_WRITE + PB_EXECUTE) perms =? perms
        else if is_device v || is_heap v then Z.land (PB_VALID + PB_READ + PB_WRITE) perms =? perms
        else false).
Proof.
  intros Htext Hram Hok Hm Hl Hfree.
  destruct (map_kernel_ok text_start Htext Hram s Hok Hm Hl) as (pt & s1 & E1 & T1 & R1); [lia|].
  destruct (heap_init_ok text_start Htext Hram s1 pt T1) as (start & s2 & E2 & H1 & H2 & H3 & W2 & T2); [lia|].
  exists pt, start, s2. unfold start_kernel. rewrite E1. cbn [res_bind]. rewrite E2. cbn [res_bind fst snd].
  split; [done|]. split; [apply kernel_heap_init|].
  split; [exact (proj1 T2)|].
  split; [done|]. split; [done|]. split; [exact W2|].
  pose proof (bk_size_bounds _ _ Hheap). pose proof (num_pages_pos _ _ Hheap).
  apply (kernel_table_reads text_start Htext Hram (page_allocator_laws _ _ Hheap Hend)); [dlia | done..].
Qed.

End boot.

(** ** The machine the kernel is linked for

    RAM of 128 MiB from 0x80010000 on, of which the image takes the first 960 KiB;
    the heap is filled with garbage. *)
Module Demo.

Definition heap_start : Z := 0x80100000.
Definition heap_end : Z := 0x88010000.
Definition text_start : Z := 0x80010000.
Definition memory : page_state :=
  mkPages (mem_const heap_start (heap_end - heap_start) 0xa5) MUTEX_UNLOCKED.

Lemma heap_fits : Page.heap_ok heap_start heap_end.
Proof. by split; vm_compute. Qed.

Lemma memory_ok : mem_ok (pmem memory).
Proof. by apply mem_const_ok. Qed.

Lemma memory_mapped : mapped (pmem memory) heap_start (heap_end - heap_start).
Proof. apply mem_const_mapped. Qed.

Lemma heap_bound : heap_end <= 2 ^ 56.
Proof. done. Qed.

Lemma kernel_boots_witness :
  exists pt start s',
    start_kernel heap_start heap_end text_start memory = Ok (pt, kernel_heap, s') /\
    kernel_heap_ok kernel_heap /\
    (exists L, @tree_ok _ _ (page_allocator_laws _ _ heap_fits heap_bound) s' pt L) /\
    heap_start + bk_size heap_start heap_end <= start /\
    start + KERNEL_HEAP_PAGES * PAGE_SIZE <= heap_end /\
    (forall o, 0 <= o < KERNEL_HEAP_PAGES * PAGE_SIZE -> o mod 8 = 0 ->
       ld64 (pmem s') (start + o) = Ok (heap_word KERNEL_HEAP_START_VADDR 2048 2047 o)) /\
    forall v, 0 <= v < 2 ^ 39 ->
      mmu_translate (pmem s') pt v = Ok (if is_ram v || is_device v then v
        else if is_heap v then start + (v - KERNEL_HEAP_START_VADDR) else MMU_TRANSLATE_PAGE_FAULT) /\
      forall perms, 0 <= perms < 2 ^ 10 -> mmu_access_ok (pmem s') pt v perms = Ok (
        if is_ram v then Z.land (PB_VALID + PB_READ + PB_WRITE + PB_EXECUTE) perms =? perms
        else if is_device v || is_heap v then Z.land (PB_VALID + PB_READ + PB_WRITE) perms =? perms
        else false).
Proof.
  assert (0x80000000 <= text_start <= heap_start) as Ht by (split; vm_compute; discriminate).
  assert (heap_end <= 0xC0000000) as Hr by (vm_compute; discriminate).
  assert (24718 <= num_pages heap_start heap_end - num_pages_bk heap_start heap_end) as Hn
    by (vm_compute; discriminate).
  exact (kernel_boots heap_start heap_end heap_fits heap_bound text_start memory Ht Hr
    memory_ok memory_mapped eq_refl Hn).
Defined.

End Demo.
