(* ===== verification/MmuFree.v ===== *)
(** [mmu_free] of src/src/mmu.c: it gives back every table of the tree below
    the one it is called on, each once, and nothing else.

    What [mmu_free] needs of the page allocator beyond [PageAllocatorLaws] is the
    class [PageFreeLaws]; [page_free_laws] proves that [Page] provides it. *)
From S2P Require Import Prelude Mem Lock Util Page Mmu.

(** The entry as the walk sees it. *)
Definition entry_of (m : mem) (t i : Z) : Z :=
  match ld_entry m t i with Ok e => e | _ => 0 end.

Definition is_branch (e : Z) : bool := valid e && negb (is_leaf e).

Lemma is_branch_spec e : is_branch e = true <-> branch e.
Proof. unfold is_branch, branch. by rewrite andb_true_iff, negb_true_iff. Qed.

(** The entries of a table, by their index. *)
Definition indices : list Z := seqZ 0 512.

Lemma elem_of_indices i : i ∈ indices <-> 0 <= i < 512.
Proof. unfold indices. rewrite elem_of_seqZ. lia. Qed.

Lemma indices_NoDup : NoDup indices.
Proof. apply NoDup_seqZ. Qed.

Lemma indices_split i : 0 <= i < 512 -> indices = seqZ 0 i ++ i :: seqZ (i + 1) (511 - i).
Proof.
  intros Hi. unfold indices. replace 512 with (i + (512 - i)) by lia. rewrite seqZ_app by lia.
  rewrite (seqZ_cons (0 + i)) by lia. do 3 f_equal; lia.
Qed.

#[local] Opaque indices.

(** The tables of the tree below table [t] of level [l], in the order in which
    [mmu_free] gives them back. *)
Fixpoint tables (l : nat) (m : mem) (t : Z) : list Z :=
  match l with
  | O => [t]
  | S l' =>
      (indices ≫= (fun i => let e := entry_of m t i in
         if is_branch e then tables l' m (pte_table e) else [])) ++ [t]
  end.

Definition below (l : nat) (m : mem) (t i : Z) : list Z :=
  match l with
  | O => []
  | S l' => let e := entry_of m t i in if is_branch e then tables l' m (pte_table e) else []
  end.

Lemma tables_eq l m t : tables l m t = (indices ≫= below l m t) ++ [t].
Proof.
  destruct l as [|l]; [|done]. cbn [tables].
  assert (indices ≫= below 0 m t = []) as -> by (by induction indices). done.
Qed.

(** What the allocator promises about freeing. *)
Class PageFreeLaws (St : Type) `{!PageAllocator St} `{!PageAllocatorLaws St} := {
  pa_free_law s p : pa_inv s -> pa_owned s p -> exists s', pa_free s p = Ok s' /\ pa_inv s' /\
    (forall q, pa_owned s' q <-> pa_owned s q /\ q <> p) /\
    (forall q a, pa_owned s q -> q <> p -> q <= a < q + 4096 -> pa_mem s' !! a = pa_mem s !! a) /\
    pa_room s' = pa_room s + 1;
  pa_write_owned s p m' a n : pa_inv s -> pa_owned s p -> stored (pa_mem s) m' a n ->
    p <= a -> a + n <= p + 4096 -> forall q, pa_owned (pa_set s m') q -> pa_owned s q
}.

Section free.
Context {St : Type} `{!PageAllocator St} `{!PageAllocatorLaws St} `{!PageFreeLaws St}.

(** A table that is owned, with everything below it. *)
Fixpoint subtree (l : nat) (s : St) (t : Z) : Prop :=
  pa_owned s t /\
  forall i e, 0 <= i < 512 -> ld_entry (pa_mem s) t i = Ok e -> branch e ->
    match l with O => False | S l' => subtree l' s (pte_table e) end.

Definition page_same (s s' : St) (q : Z) : Prop :=
  forall a, q <= a < q + 4096 -> pa_mem s' !! a = pa_mem s !! a.

(** The pages [ts] have been given back; the other owned pages, but for the
    contents of those in [touched], are as they were. *)
Record given_back (s s' : St) (ts touched : list Z) : Prop := mkGiven {
  gb_inv : pa_inv s';
  gb_owned : forall q, pa_owned s' q <-> pa_owned s q /\ q ∉ ts;
  gb_same : forall q, pa_owned s q -> q ∉ ts -> q ∉ touched -> page_same s s' q;
  gb_room : pa_room s' = pa_room s + Z.of_nat (length ts)
}.

Lemma given_refl s ts : pa_inv s -> given_back s s [] ts.
Proof.
  intros Hs. split; [done | | done |].
  - intros q. split; [intros ?; split; [done | apply not_elem_of_nil] | by intros [? _]].
  - cbn [length]. lia.
Qed.

Lemma given_trans s s1 s2 ts1 ts2 touched : given_back s s1 ts1 touched -> given_back s1 s2 ts2 touched ->
  given_back s s2 (ts1 ++ ts2) touched.
Proof.
  intros [_ O1 S1 R1] [I2 O2 S2 R2]. split; [done | | |].
  - intros q. rewrite O2, O1, not_elem_of_app. tauto.
  - intros q Hq [N1 N2]%not_elem_of_app Ht a Ha.
    rewrite (S2 q) by (done || by rewrite O1). by apply (S1 q).
  - rewrite length_app, R2, R1. lia.
Qed.

Lemma given_weaken s s' ts touched touched' : given_back s s' ts touched ->
  (forall q, q ∈ touched -> q ∈ touched' ++ ts) -> given_back s s' ts touched'.
Proof.
  intros [I O S R] H. split; [done | done | | done]. intros q Hq N1 N2. apply S; [done | done |].
  intros Hin. apply H, elem_of_app in Hin as [?|?]; contradiction.
Qed.

Lemma same_entry s s' t i : page_same s s' t -> 0 <= i < 512 ->
  ld_entry (pa_mem s') t i = ld_entry (pa_mem s) t i.
Proof. intros H Hi. apply ld_le_ext. intros b Hb. change (Z.of_nat 8) with 8 in Hb. apply H. lia. Qed.

(** A subtree depends on its own pages only. *)
Lemma below_in l m t i x : 0 <= i < 512 -> x ∈ below l m t i -> x ∈ tables l m t.
Proof.
  intros Hi Hx. rewrite tables_eq. apply elem_of_app. left. apply list_elem_of_bind.
  exists i. split; [done | by apply elem_of_indices].
Qed.

Lemma root_in l m t : t ∈ tables l m t.
Proof. rewrite tables_eq. apply elem_of_app. right. apply list_elem_of_singleton. done. Qed.

Lemma subtree_frame l s s' : forall t, subtree l s t ->
  (forall q, q ∈ tables l (pa_mem s) t -> pa_owned s' q /\ page_same s s' q) ->
  subtree l s' t /\ tables l (pa_mem s') t = tables l (pa_mem s) t.
Proof.
  induction l as [|l IH]; intros t Hst H; destruct (H t (root_in _ _ _)) as [Ho Hp];
    pose proof (fun i => same_entry s s' t i Hp) as Hent; cbn [subtree] in *; destruct Hst as [_ Hst].
  - split; [|done]. split; [done|]. intros i e Hi E. rewrite Hent in E by done. by apply (Hst i).
  - assert (forall i e, 0 <= i < 512 -> ld_entry (pa_mem s) t i = Ok e -> branch e ->
      subtree l s' (pte_table e) /\ tables l (pa_mem s') (pte_table e) = tables l (pa_mem s) (pte_table e))
      as Hch.
    { intros i e Hi E B. apply IH; [by apply (Hst i)|]. intros q Hq. apply H.
      apply (below_in _ _ _ i); [done|]. cbn [below]. unfold entry_of. rewrite E.
      by rewrite (proj2 (is_branch_spec e) B). }
    split.
    + split; [done|]. intros i e Hi E. rewrite Hent in E by done. by apply (Hch i).
    + cbn [tables]. apply (f_equal (fun x => x ++ [t])). apply Forall_bind_ext, Forall_forall.
      intros i Hi%elem_of_indices. unfold entry_of. rewrite Hent by done.
      destruct (ld_entry (pa_mem s) t i) as [e| | |] eqn:E; [|done..].
      destruct (is_branch e) eqn:B; [|done]. apply is_branch_spec in B. apply (Hch i); done.
Qed.

Lemma subtree_root l s t : subtree l s t -> pa_owned s t.
Proof. destruct l; by intros [? _]. Qed.

(** A branch of a subtree leads to a subtree one level down. *)
Lemma subtree_child l s t i e : subtree l s t -> 0 <= i < 512 ->
  ld_entry (pa_mem s) t i = Ok e -> branch e ->
  exists l', l = S l' /\ subtree l' s (pte_table e) /\
    below l (pa_mem s) t i = tables l' (pa_mem s) (pte_table e).
Proof.
  intros Hst Hi E B. destruct l as [|l]; cbn [subtree] in Hst; destruct Hst as [_ Hst].
  { by destruct (Hst i e). }
  exists l. split; [done|]. split; [by apply (Hst i)|]. cbn [below]. unfold entry_of. rewrite E.
  by rewrite (proj2 (is_branch_spec e) B).
Qed.

Lemma below_none l m t i e : ld_entry m t i = Ok e -> ~ branch e -> below l m t i = [].
Proof.
  intros E B. destruct l as [|l]; [done|]. cbn [below]. unfold entry_of. rewrite E.
  destruct (is_branch e) eqn:Eb; [|done]. by apply is_branch_spec in Eb.
Qed.

Lemma subtree_owned l s x : forall t, pa_inv s -> subtree l s t -> x ∈ tables l (pa_mem s) t ->
  pa_owned s x.
Proof.
  induction l as [|l IH]; intros t Hs Hst Hx; pose proof (subtree_root _ _ _ Hst) as Ho;
    rewrite tables_eq in Hx;
    apply elem_of_app in Hx as [(i & Hx & Hi%elem_of_indices)%list_elem_of_bind|
      ->%list_elem_of_singleton]; try done.
  - by apply not_elem_of_nil in Hx.
  - cbn [below] in Hx. unfold entry_of in Hx.
    destruct (ld_entry (pa_mem s) t i) as [e| | |] eqn:E;
      [|by apply not_elem_of_nil in Hx..].
    destruct (is_branch e) eqn:B; [|by apply not_elem_of_nil in Hx].
    apply is_branch_spec in B. apply (IH (pte_table e)); [done | by apply Hst with i | done].
Qed.

(** [tab->entries[i] = 0] *)
Lemma clear_entry s t i : pa_inv s -> pa_owned s t -> 0 <= i < 512 ->
  exists s', st_entry s t i 0 = Ok s' /\ given_back s s' [] [t] /\
    forall j, 0 <= j < 512 -> j <> i -> ld_entry (pa_mem s') t j = ld_entry (pa_mem s) t j.
Proof.
  intros Hs Ht Hi. destruct (pa_owned_page _ _ Hs Ht) as (_ & _ & _ & Hm).
  destruct (ld64_st64 (pa_mem s) (t + 8 * i) 0) as (m' & E & S & _).
  { eapply mapped_mono; [exact Hm | lia | lia]. }
  destruct (pa_write_law _ _ _ _ _ Hs Ht S) as (Hs' & Em & Ho & Hrm); [lia | lia |].
  pose proof (pa_write_owned _ _ _ _ _ Hs Ht S ltac:(lia) ltac:(lia)) as Ho'.
  exists (pa_set s m'). unfold st_entry. rewrite E. split; [done|]. split.
  - split; [done | | |].
    + intros q. split; [intros Hq; split; [by apply Ho' | apply not_elem_of_nil] | intros [? _]; by apply Ho].
    + intros q Hq _ Hne a Ha. rewrite Em. rewrite not_elem_of_cons in Hne. apply (stored_out _ _ _ _ S).
      destruct (owned_apart s t q); [done | done | done | naive_solver | lia | lia].
    + cbn [length]. lia.
  - intros j Hj Hne. rewrite Em. unfold ld_entry, ld64. eapply ld_le_outside; [apply S|].
    change (Z.of_nat 8) with 8. lia.
Qed.

(** What the loop of [mmu_free] has done before entry [i]. *)
Definition cleared (l : nat) (s : St) (t i : Z) (s' : St) : Prop :=
  given_back s s' (seqZ 0 i ≫= below l (pa_mem s) t) [t] /\
  forall j, i <= j < 512 -> ld_entry (pa_mem s') t j = ld_entry (pa_mem s) t j.

(** The pages of the entries before [i], of entry [i], and the table are apart. *)
Lemma tables_apart l m t i : 0 <= i < 512 -> NoDup (tables l m t) ->
  NoDup (below l m t i) /\ t ∉ below l m t i /\ t ∉ seqZ 0 i ≫= below l m t /\
  forall x, x ∈ below l m t i -> x ∉ seqZ 0 i ≫= below l m t.
Proof.
  rewrite tables_eq. intros Hi. rewrite (indices_split i Hi), bind_app, bind_cons, <- app_assoc, <- app_assoc.
  intros (_ & H1 & (H2 & H3 & _)%NoDup_app)%NoDup_app.
  split; [done|]. split; [|split].
  - intros Hx. apply (H3 _ Hx). apply elem_of_app. right. by apply list_elem_of_singleton.
  - intros Hx. apply (H1 _ Hx). rewrite !elem_of_app. right. right. by apply list_elem_of_singleton.
  - intros x Hx Hd. apply (H1 _ Hd). apply elem_of_app. by left.
Qed.

Lemma cleared_next l s t i s1 s2 ts : 0 <= i -> cleared l s t i s1 ->
  ts = below l (pa_mem s) t i -> given_back s1 s2 ts [t] ->
  (forall j, i + 1 <= j < 512 -> ld_entry (pa_mem s2) t j = ld_entry (pa_mem s1) t j) ->
  cleared l s t (i + 1) s2.
Proof.
  intros Hi [F1 E1] -> F2 E2. split.
  - rewrite seqZ_app, bind_app by lia. change (seqZ (0 + i) 1) with [0 + i]. rewrite bind_singleton.
    replace (0 + i) with i by lia. by eapply given_trans.
  - intros j Hj. rewrite E2, E1 by lia. done.
Qed.

(** The subtree of an entry that has not been reached is still there. *)
Lemma unreached_subtree l s t i s1 e l' : pa_inv s -> subtree l s t -> NoDup (tables l (pa_mem s) t) ->
  0 <= i < 512 -> cleared l s t i s1 -> below l (pa_mem s) t i = tables l' (pa_mem s) (pte_table e) ->
  subtree l' s (pte_table e) ->
  subtree l' s1 (pte_table e) /\ tables l' (pa_mem s1) (pte_table e) = below l (pa_mem s) t i.
Proof.
  intros Hs Hst Hnd Hi [[_ O1 S1 _] _] Eb Hc.
  destruct (tables_apart _ _ _ _ Hi Hnd) as (_ & A2 & _ & A3). rewrite Eb in *.
  apply subtree_frame; [done|]. intros q Hq. pose proof (subtree_owned _ _ _ _ Hs Hc Hq) as Hqo.
  split; [apply O1; auto|]. apply S1; [done | by apply A3 |].
  intros ->%list_elem_of_singleton. contradiction.
Qed.

(** ** [mmu_free] *)

Lemma free_tree l : forall s t, pa_inv s -> subtree l s t -> NoDup (tables l (pa_mem s) t) ->
  exists s', mmu_free (S l) s t = Ok s' /\ given_back s s' (tables l (pa_mem s) t) [].
Proof.
  induction l as [l IH] using lt_wf_ind. intros s t Hs Hst Hnd.
  pose proof (subtree_root _ _ _ Hst) as Ht. destruct (pa_owned_page _ _ Hs Ht) as (Hpos & _ & _ & Hm).
  cbn [mmu_free]. rewrite (proj2 (Z.eqb_neq t 0)) by lia.
  edestruct (for_up_total (cleared l s t)) as (s1 & E1 & [F1 _]); [| |rewrite E1; clear E1].
  - split; [apply given_refl | done]. done.
  - intros i s1 Hi Hc. change (0 + Z.of_nat (Z.to_nat (PAGE_SIZE ÷ 8))) with 512 in Hi.
    destruct (Hc) as [F1 E1]. rewrite E1 by lia.
    destruct (tables_apart _ _ _ _ Hi Hnd) as (A1 & A2 & A3 & A4).
    assert (pa_owned s1 t) as Ht1 by (apply (gb_owned _ _ _ _ F1); done).
    destruct (ld_le_ok 8 (pa_mem s) (t + 8 * i)) as (e & E & He).
    { by apply pa_inv_ok. } { eapply mapped_mono; [exact Hm | lia | lia]. }
    change (ld_le 8 (pa_mem s) (t + 8 * i)) with (ld_entry (pa_mem s) t i) in E.
    rewrite E. cbn [res_bind]. fold (valid e). destruct (valid e) eqn:Ve.
    2: { exists s1. split; [done|]. eapply cleared_next; [lia | done | | | done].
         - symmetry. apply (below_none _ _ _ _ _ E). intros [? _]. congruence.
         - apply given_refl, F1. }
    rewrite <- (negb_involutive (Z.land e 0xE =? 0)). fold (is_leaf e). destruct (is_leaf e) eqn:Le; cbn [negb].
    + destruct (clear_entry s1 t i (gb_inv _ _ _ _ F1) Ht1 Hi) as (s2 & E2 & F2 & S2).
      cbn [res_bind]. rewrite E2. exists s2. split; [done|].
      eapply cleared_next; [lia | done | | exact F2 | intros; apply S2; lia].
      symmetry. apply (below_none _ _ _ _ _ E). intros [_ ?]. congruence.
    + destruct (subtree_child _ _ _ _ _ Hst Hi E (conj Ve Le)) as (l' & -> & Hst' & Eb).
      destruct (unreached_subtree _ _ _ _ _ _ _ Hs Hst Hnd Hi Hc Eb Hst') as [Hst1 Et1].
      destruct (IH l' ltac:(lia) s1 (pte_table e)) as (s2 & E2 & F2);
        [apply F1 | done | by rewrite Et1 |]. rewrite E2. cbn [res_bind]. rewrite Et1 in F2.
      assert (pa_owned s2 t) as Ht2 by (apply (gb_owned _ _ _ _ F2); done).
      destruct (clear_entry s2 t i (gb_inv _ _ _ _ F2) Ht2 Hi) as (s3 & E3 & F3 & S3).
      rewrite E3. exists s3. split; [done|].
      apply (cleared_next _ _ _ _ s1 _ (below (S l') (pa_mem s) t i)); [lia | done | done | |].
      * rewrite <- (app_nil_r (below (S l') (pa_mem s) t i)). eapply given_trans; [|exact F3].
        eapply given_weaken; [exact F2|]. by intros q ?%not_elem_of_nil.
      * intros j Hj. rewrite S3 by lia. apply same_entry; [|lia].
        apply (gb_same _ _ _ _ F2); [done | done | apply not_elem_of_nil].
  - change (0 + Z.of_nat (Z.to_nat (PAGE_SIZE ÷ 8))) with 512 in *. cbn [res_bind].
    change (seqZ 0 512) with indices in F1.
    rewrite tables_eq in Hnd. apply NoDup_app in Hnd as (_ & Hnd & _).
    assert (pa_owned s1 t) as Ht1.
    { apply (gb_owned _ _ _ _ F1). split; [done|]. intros Hx. apply (Hnd _ Hx). by apply list_elem_of_singleton. }
    destruct (pa_free_law s1 t (gb_inv _ _ _ _ F1) Ht1) as (s2 & E2 & I2 & O2 & S2 & R2).
    rewrite E2. exists s2. split; [done|]. rewrite tables_eq.
    eapply given_weaken; [eapply given_trans; [exact F1|]|].
    + split; [done | | |].
      * intros q. rewrite O2, not_elem_of_cons. pose proof (not_elem_of_nil q). tauto.
      * intros q Hq Hne _ a Ha. rewrite not_elem_of_cons in Hne. apply (S2 q); [done | tauto | done].
      * cbn [length]. lia.
    + intros q ->%list_elem_of_singleton. rewrite !elem_of_app. right. right. by apply list_elem_of_singleton.
Qed.

(** ** A well-formed tree is a subtree without sharing *)

Section tree.
Context (s : St) (root : Z) (L : gmap Z nat) (Htree : tree_ok s root L).

Lemma tree_subtree l : forall t, L !! t = Some l -> subtree l s t.
Proof.
  induction l as [|l IH]; intros t Et; (split; [by eapply tr_owned|]); intros i e Hi E B;
    destruct (tr_child _ _ _ Htree _ _ _ _ Et Hi E B) as (l' & [= <-] & Hc).
  by apply IH.
Qed.

(** A page below entry [i] of [t] is below the table that entry leads to. *)
Lemma below_child l t i x : L !! t = Some l -> 0 <= i < 512 -> x ∈ below l (pa_mem s) t i ->
  exists l' e, l = S l' /\ ld_entry (pa_mem s) t i = Ok e /\ branch e /\
    L !! pte_table e = Some l' /\ x ∈ tables l' (pa_mem s) (pte_table e).
Proof.
  intros Et Hi Hx. destruct (entry_ok _ _ _ _ _ i Htree Et Hi) as (e & E & _).
  destruct (decide (is_branch e = true)) as [B%is_branch_spec|B].
  - destruct (subtree_child _ _ _ _ _ (tree_subtree _ _ Et) Hi E B) as (l' & -> & _ & Eb).
    destruct (tr_child _ _ _ Htree _ _ _ _ Et Hi E B) as (l2 & [= <-] & Hc).
    exists l', e. rewrite <- Eb. done.
  - rewrite (below_none _ _ _ _ _ E) in Hx by (by rewrite <- is_branch_spec).
    by apply not_elem_of_nil in Hx.
Qed.

Lemma tables_levels l x : forall t, L !! t = Some l -> x ∈ tables l (pa_mem s) t ->
  x = t \/ exists k, (k < l)%nat /\ L !! x = Some k.
Proof.
  induction l as [|l IH]; intros t Et Hx; rewrite tables_eq in Hx;
    apply elem_of_app in Hx as [(i & Hx & Hi%elem_of_indices)%list_elem_of_bind|
      Hx%list_elem_of_singleton]; auto;
    destruct (below_child _ _ _ _ Et Hi Hx) as (l' & e & [= <-] & E & B & Ec & Hc).
  right. destruct (IH _ Ec Hc) as [-> | (k & Hk & ?)]; eauto with lia.
Qed.

(** Tables of one level have nothing in common. *)
Lemma tables_meet l x : forall t1 t2, L !! t1 = Some l -> L !! t2 = Some l ->
  x ∈ tables l (pa_mem s) t1 -> x ∈ tables l (pa_mem s) t2 -> t1 = t2.
Proof.
  induction l as [|l IH]; intros t1 t2 E1 E2 H1 H2;
    destruct (tables_levels _ _ _ E1 H1) as [->|(k1 & Hk1 & El1)];
    destruct (tables_levels _ _ _ E2 H2) as [->|(k2 & Hk2 & El2)]; try done;
    try lia; try (assert (S l = k1 \/ S l = k2) by (naive_solver congruence); lia).
  { rewrite E1 in El2. injection El2 as <-. lia. }
  { rewrite E2 in El1. injection El1 as <-. lia. }
  rewrite tables_eq in H1, H2.
  apply elem_of_app in H1 as [(i1 & H1 & Hi1%elem_of_indices)%list_elem_of_bind|H1%list_elem_of_singleton];
    [|subst x; rewrite E1 in El1; injection El1 as <-; lia].
  apply elem_of_app in H2 as [(i2 & H2 & Hi2%elem_of_indices)%list_elem_of_bind|H2%list_elem_of_singleton];
    [|subst x; rewrite E2 in El2; injection El2 as <-; lia].
  destruct (below_child _ _ _ _ E1 Hi1 H1) as (l1 & e1 & [= <-] & F1 & B1 & C1 & D1).
  destruct (below_child _ _ _ _ E2 Hi2 H2) as (l2 & e2 & [= <-] & F2 & B2 & C2 & D2).
  by destruct (tr_inj _ _ _ Htree _ _ _ _ _ _ _ _ E1 E2 Hi1 Hi2 F1 F2 B1 B2 (IH _ _ C1 C2 D1 D2)).
Qed.

Lemma tables_NoDup l : forall t, L !! t = Some l -> NoDup (tables l (pa_mem s) t).
Proof.
  induction l as [|l IH]; intros t Et; rewrite tables_eq; apply NoDup_app; split_and!;
    try apply NoDup_singleton.
  1,3: apply NoDup_bind; [| |apply indices_NoDup].
  - intros i1 i2 x _ _ Hx. by apply not_elem_of_nil in Hx.
  - intros i _. constructor.
  - intros i1 i2 x Hi1%elem_of_indices Hi2%elem_of_indices H1 H2.
    destruct (below_child _ _ _ _ Et Hi1 H1) as (l1 & e1 & [= <-] & F1 & B1 & C1 & D1).
    destruct (below_child _ _ _ _ Et Hi2 H2) as (l2 & e2 & [= <-] & F2 & B2 & C2 & D2).
    by destruct (tr_inj _ _ _ Htree _ _ _ _ _ _ _ _ Et Et Hi1 Hi2 F1 F2 B1 B2 (tables_meet _ _ _ _ C1 C2 D1 D2)).
  - intros i Hi%elem_of_indices. destruct (decide (below (S l) (pa_mem s) t i = [])) as [->|Hne];
      [constructor|].
    destruct (below (S l) (pa_mem s) t i) as [|x l0] eqn:Eb; [done|].
    destruct (below_child (S l) t i x Et Hi) as (l1 & e1 & [= <-] & F1 & B1 & C1 & D1).
    { rewrite Eb. left. }
    rewrite <- Eb. destruct (subtree_child _ _ _ _ _ (tree_subtree _ _ Et) Hi F1 B1) as (l' & [= <-] & _ & ->).
    by apply IH.
  - intros x (i & Hx & _)%list_elem_of_bind. by apply not_elem_of_nil in Hx.
  - intros x (i & Hx & Hi%elem_of_indices)%list_elem_of_bind ->%list_elem_of_singleton.
    destruct (below_child _ _ _ _ Et Hi Hx) as (l' & e & [= <-] & E & B & Ec & Hc).
    destruct (tables_levels _ _ _ Ec Hc) as [E2 | (k & Hk & E2)]; [rewrite <- E2 in Ec|]; simplify_eq; lia.
Qed.

End tree.

(** (C5) mmu_free gives a table tree back, whole and once. On a well-formed tree
    it returns; the pages it gives back are exactly the root and the tables below
    it, no page twice; every other owned page keeps its owner and its contents;
    and the allocator has as many pages more as there were tables. *)
Theorem mmu_free_correct s root L : tree_ok s root L ->
  let ts := tables 2 (pa_mem s) root in
  NoDup ts /\ (forall t, t ∈ ts -> pa_owned s t) /\
  exists s', mmu_free 3 s root = Ok s' /\ pa_inv s' /\
    (forall q, pa_owned s' q <-> pa_owned s q /\ q ∉ ts) /\
    (forall q a, pa_owned s q -> q ∉ ts -> q <= a < q + 4096 -> pa_mem s' !! a = pa_mem s !! a) /\
    pa_room s' = pa_room s + Z.of_nat (length ts).
Proof.
  intros Ht ts. pose proof (tr_root _ _ _ Ht) as Hr. pose proof (tables_NoDup _ _ _ Ht _ _ Hr) as Hnd.
  pose proof (tree_subtree _ _ _ Ht _ _ Hr) as Hst. pose proof (tr_inv _ _ _ Ht) as Hs.
  split; [done|]. split; [intros t; by apply subtree_owned|].
  destruct (free_tree 2 s root Hs Hst Hnd) as (s' & E & [I O S R]). exists s'.
  do 3 (split; [done|]). split; [|done]. intros q a Hq Hne. apply S; [done | done | apply not_elem_of_nil].
Qed.

End free.

(** ** The page allocator of [Page] *)

Section instance.
Context (heap_start heap_end : Z).
Context (Hheap : heap_ok heap_start heap_end) (Hend : heap_end <= 2 ^ 56).

Lemma page_free_owned s p : heap_inv heap_start heap_end s -> page_owned heap_start heap_end s p ->
  exists s', page_free heap_start heap_end s p = Ok s' /\ heap_inv heap_start heap_end s' /\
    (forall q, page_owned heap_start heap_end s' q <-> page_owned heap_start heap_end s q /\ q <> p) /\
    (forall q a, page_owned heap_start heap_end s q -> q <> p -> q <= a < q + 4096 ->
       pmem s' !! a = pmem s !! a) /\
    heap_room heap_start heap_end s' = heap_room heap_start heap_end s + 1.
Proof.
  intros [Hs Hm] (i & -> & Hi & E3 & E2). pose proof (bk_pages_le _ _ Hheap).
  destruct s as [m l]. cbn [pmem] in *. pose proof (pi_lock _ _ _ Hs) as Hl. cbn [page_lock] in Hl. subst l.
  assert (chunk heap_start heap_end m i i) as Hc by (split; [lia|]; split; [lia|]; split; [done | lia]).
  destruct (page_free_spec _ _ Hheap m i i (pi_mem _ _ _ Hs) Hc ltac:(lia) E2) as (m' & E & S & B).
  assert (forall j, 0 <= j < num_pages heap_start heap_end ->
    bits heap_start m' j = if j =? i then 0 else bits heap_start m j) as B'.
  { intros j Hj. rewrite B by done. replace ((i <=? j) && (j <=? i)) with (j =? i) by lia. done. }
  exists (mkPages m' MUTEX_UNLOCKED). split; [done|]. split; [|split; [|split]].
  - split; [|by eapply stored_mapped].
    by apply (page_free_inv _ _ Hheap (mkPages m MUTEX_UNLOCKED) m' i i Hs ltac:(lia) Hc E2 S B).
  - intros q. cbn [pmem]. split.
    + intros (j & -> & Hj & F3 & F2). rewrite B' in F3, F2 by lia.
      destruct (Z.eqb_spec j i) as [|Hne]; [done|]. split; [|unfold PAGE_SIZE; lia].
      exists j. split; [done|]. split; [done|]. split; [done|]. destruct (Z.eqb_spec (j - 1) i) as [Ej|]; [by cbn [pmem]; rewrite Ej, E3 | done].
    + intros [(j & -> & Hj & F3 & F2) Hne]. exists j. split; [done|]. split; [done|]. cbn [pmem].
      rewrite !B' by lia. rewrite (proj2 (Z.eqb_neq j i)) by (intros ->; done). split; [done|].
      destruct (j - 1 =? i); [done | exact F2].
  - intros q a Hq _ Ha. destruct (owned_range _ _ Hheap _ _ Hq). cbn [pmem]. apply (stored_out _ _ _ _ S). lia.
  - unfold heap_room. cbn [pmem]. rewrite (nfree_taken heap_start m' m i).
    + rewrite (proj2 (Z.ltb_lt _ _)) by lia. lia.
    + rewrite B', Z.eqb_refl by lia. done.
    + lia.
    + intros j Hj. rewrite B' by lia. destruct (Z.eqb_spec j i) as [->|]; done.
Qed.

Definition page_free_laws : @PageFreeLaws page_state (page_allocator heap_start heap_end)
    (page_allocator_laws heap_start heap_end Hheap Hend).
Proof.
  refine (@Build_PageFreeLaws page_state (page_allocator heap_start heap_end)
    (page_allocator_laws heap_start heap_end Hheap Hend) page_free_owned _).
  intros s p m' a n Hs Hp S Ha Hn q (i & -> & Hi & E3 & E2).
  destruct (owned_range _ _ Hheap _ _ Hp) as (Hlo & _). pose proof (bk_pages_le _ _ Hheap).
  exists i. split; [done|]. split; [done|]. cbn [pa_set page_allocator pmem] in E3, E2.
  rewrite (bits_outside _ _ Hheap _ _ _ _ _ S) in E3 by lia.
  by rewrite (bits_outside _ _ Hheap _ _ _ _ _ S) in E2 by lia.
Defined.

End instance.

(** ** A page mapped and the tree given back

    [mmu_map] hangs two tables below the root of [demo_tree] in the five-page heap;
    [mmu_free] gives back all three. *)
Definition demo_free : @PageFreeLaws page_state demo_alloc demo_laws :=
  page_free_laws 4096 24576 demo_heap_ok _.

Definition mapped_tree : res (bool * page_state) :=
  @mmu_map _ demo_alloc demo_tree 8192 0x40000000 0x80000000 0 2.

#[local] Existing Instances demo_alloc demo_laws demo_free.

Lemma mapped_tree_ok : exists s L, mapped_tree = Ok (true, s) /\ tree_ok s 8192 L /\
  tables 2 (pa_mem s) 8192 = [16384; 12288; 8192].
Proof.
  unfold mapped_tree. assert (Z.land 2 0xE <> 0) as Hx by (vm_compute; discriminate).
  destruct (mmu_map_walks demo_tree 8192 0x40000000 0x80000000 0 2 demo_tree_ok
    ltac:(lia) ltac:(lia) ltac:(lia) Hx (demo_clear _ _)) as (r & s & E & [L HL] & _).
  assert (match mmu_map demo_tree 8192 0x40000000 0x80000000 0 2 with
    | Ok (r, s) => r = true /\ tables 2 (pa_mem s) 8192 = [16384; 12288; 8192]
    | _ => False end) as H by (vm_compute; split; reflexivity).
  rewrite E in H. destruct H as [-> H]. exists s, L. split; [exact E | split; [exact HL | exact H]].
Qed.

Lemma mmu_free_correct_witness : exists s, mapped_tree = Ok (true, s) /\
  let ts := [16384; 12288; 8192] in
  NoDup ts /\ (forall t, t ∈ ts -> pa_owned s t) /\
  exists s', mmu_free 3 s 8192 = Ok s' /\ pa_inv s' /\
    (forall q, pa_owned s' q <-> pa_owned s q /\ q ∉ ts) /\
    (forall q a, pa_owned s q -> q ∉ ts -> q <= a < q + 4096 -> pa_mem s' !! a = pa_mem s !! a) /\
    pa_room s' = pa_room s + 3.
Proof.
  destruct mapped_tree_ok as (s & L & E & HL & Et). exists s. split; [exact E|]. rewrite <- Et.
  pose proof (mmu_free_correct s 8192 L HL) as H. cbv zeta in H.
  replace 3 with (Z.of_nat (length (tables 2 (pa_mem s) 8192))) by (rewrite Et; reflexivity). exact H.
Defined.
