(* ===== verification/Ring.v ===== *)
(** The ring buffer of src/util/src/ring.c and the UART's own ring of
    src/sbi/src/uart.c, and their refinement of a bounded queue.

    [ring_free] and the allocation in [ring_new_with_policy] belong to the heap
    ([Kmalloc]); here a new ring comes with its zeroed buffer. *)
From S2P Require Import Prelude Lock.

Inductive RingPolicy := RP_OVERWRITE | RP_DISCARD | RP_ERROR.

Record Ring := mkRing {
  size : Z;
  at_ : Z;
  capacity : Z;
  policy : RingPolicy;
  buffer : list Z
}.

Definition ring_new_with_policy (cap : Z) (policy : RingPolicy) : Ring :=
  mkRing 0 0 cap policy (replicate (Z.to_nat cap) 0).

Definition ring_new (cap : Z) : Ring := ring_new_with_policy cap RP_ERROR.

Definition ring_capacity (rb : Ring) : Z := capacity rb.
Definition ring_size (rb : Ring) : Z := size rb.

Definition ring_peek (rb : Ring) : res Z :=
  if size rb >? 0 then deref (buffer rb !! Z.to_nat (at_ rb)) else Ok 0.

(** The store at the end of [ring_push]; [% capacity] faults on a zero capacity. *)
Definition ring_store (rb : Ring) (data : Z) : res Ring :=
  if capacity rb =? 0 then Ub
  else
    let i := Z.to_nat (u64 (at_ rb + size rb) mod capacity rb) in
    let* _ := deref (buffer rb !! i) in
    Ok (mkRing (u64 (size rb + 1)) (at_ rb) (capacity rb) (policy rb) (<[i := data]> (buffer rb))).

Definition ring_push (rb : Ring) (data : Z) : res (bool * Ring) :=
  if size rb >=? capacity rb then
    match policy rb with
    | RP_ERROR => Ok (false, rb)
    | RP_DISCARD => Ok (true, rb)
    | RP_OVERWRITE =>
        if capacity rb =? 0 then Ub
        else
          let* rb' := ring_store (mkRing (u64 (capacity rb - 1)) (u64 (at_ rb + 1) mod capacity rb)
                                    (capacity rb) (policy rb) (buffer rb)) data in
          Ok (true, rb')
    end
  else let* rb' := ring_store rb data in Ok (true, rb').

Definition ring_pop (rb : Ring) : res (Z * Ring) :=
  if size rb =? 0 then Ok (0, rb)
  else
    let* ret := deref (buffer rb !! Z.to_nat (at_ rb)) in
    if capacity rb =? 0 then Ub
    else Ok (ret, mkRing (u64 (size rb - 1)) (u64 (at_ rb + 1) mod capacity rb)
                    (capacity rb) (policy rb) (buffer rb)).

(** ** The bounded queue a ring stands for *)

Record queue := mkQueue { q_cap : nat; q_policy : RingPolicy; q_items : list Z }.

Definition q_set (q : queue) (l : list Z) : queue := mkQueue (q_cap q) (q_policy q) l.

Definition queue_push (q : queue) (d : Z) : bool * queue :=
  if decide (q_cap q <= length (q_items q))%nat then
    match q_policy q with
    | RP_ERROR => (false, q)
    | RP_DISCARD => (true, q)
    | RP_OVERWRITE => (true, q_set q (tail (q_items q) ++ [d]))
    end
  else (true, q_set q (q_items q ++ [d])).

Definition queue_pop (q : queue) : Z * queue :=
  match q_items q with
  | [] => (0, q)
  | x :: l => (x, q_set q l)
  end.

(** ** Refinement *)

Record ring_ok (rb : Ring) : Prop := mkRingOk {
  ro_cap : 0 < capacity rb < 2 ^ 32;
  ro_len : Z.of_nat (length (buffer rb)) = capacity rb;
  ro_size : 0 <= size rb <= capacity rb;
  ro_at : 0 <= at_ rb < capacity rb
}.

(** The [k]-th oldest element. *)
Definition ring_nth (rb : Ring) (k : Z) : Z :=
  default 0 (buffer rb !! Z.to_nat ((at_ rb + k) mod capacity rb)).

Definition contents (rb : Ring) : list Z := ring_nth rb <$> seqZ 0 (size rb).

Definition ring_abs (rb : Ring) : queue :=
  mkQueue (Z.to_nat (capacity rb)) (policy rb) (contents rb).

Lemma length_contents rb : length (contents rb) = Z.to_nat (size rb).
Proof. unfold contents. by rewrite length_fmap, length_seqZ. Qed.

Lemma ring_index_ok rb i : ring_ok rb -> is_Some (buffer rb !! Z.to_nat (i mod capacity rb)).
Proof.
  intros [Hc Hl _ _]. apply lookup_lt_is_Some. pose proof (Z.mod_pos_bound i (capacity rb)). lia.
Qed.

(** Indices stay below twice the capacity: the remainder is one subtraction. *)
Lemma mod_wrap a c : 0 <= a < 2 * c -> a mod c = if a <? c then a else a - c.
Proof.
  intros H. destruct (Z.ltb_spec a c).
  - apply Z.mod_small. lia.
  - rewrite <- (Z.mod_add _ (-1)) by lia. rewrite Z.mod_small; lia.
Qed.

Lemma ring_store_ok rb d : ring_ok rb -> size rb < capacity rb ->
  exists rb', ring_store rb d = Ok rb' /\ ring_ok rb' /\
    ring_abs rb' = q_set (ring_abs rb) (contents rb ++ [d]).
Proof.
  intros Hok Hlt. destruct (Hok) as [Hc Hl Hs Ha]. unfold ring_store.
  replace (capacity rb =? 0) with false by lia. rewrite !u64_id by lia.
  destruct (ring_index_ok rb (at_ rb + size rb) Hok) as [x Ex]. rewrite Ex. cbn [deref res_bind].
  eexists. split; [done|]. split; [split; cbn; rewrite ?length_insert; lia|].
  unfold ring_abs, q_set. cbn [q_cap q_policy capacity policy]. f_equal.
  unfold contents, ring_nth. cbn [size at_ capacity buffer].
  rewrite (seqZ_app 0 (size rb) 1) by lia. rewrite fmap_app. f_equal.
  - apply list_fmap_ext. intros i k Hk%list_elem_of_lookup_2%elem_of_seqZ.
    rewrite list_lookup_insert_ne; [done|]. rewrite !mod_wrap by lia. repeat case_match; lia.
  - rewrite Z.add_0_l. change (seqZ (size rb) 1) with [size rb]. cbn [fmap list_fmap].
    rewrite list_lookup_insert_eq; [done|]. by eapply lookup_lt_Some.
Qed.

(** Dropping the oldest element is advancing [at]. *)
Lemma contents_advance rb : ring_ok rb -> 0 < size rb ->
  contents (mkRing (size rb - 1) ((at_ rb + 1) mod capacity rb) (capacity rb) (policy rb) (buffer rb))
  = tail (contents rb) /\ head (contents rb) = buffer rb !! Z.to_nat (at_ rb).
Proof.
  intros Hok Hs. pose proof (ring_index_ok rb (at_ rb) Hok) as [x Ex].
  destruct Hok as [Hc Hl Hsz Ha]. rewrite Z.mod_small in Ex by lia.
  unfold contents, ring_nth. cbn [size at_ capacity buffer].
  rewrite (seqZ_cons 0 (size rb)) by lia. cbn [fmap list_fmap tail head]. split.
  - rewrite <- Z.sub_1_r. change (Z.succ 0) with (1 + 0). rewrite <- (fmap_add_seqZ 1 0).
    rewrite <- list_fmap_compose. apply list_fmap_ext.
    intros i k Hk%list_elem_of_lookup_2%elem_of_seqZ. cbn [compose]. do 3 f_equal.
    rewrite Z.add_mod_idemp_l by lia. f_equal. lia.
  - rewrite Z.add_0_r, Z.mod_small, Ex by lia. done.
Qed.

Lemma ring_advance_ok rb : ring_ok rb -> 0 < size rb ->
  ring_ok (mkRing (size rb - 1) ((at_ rb + 1) mod capacity rb) (capacity rb) (policy rb) (buffer rb)).
Proof.
  intros [Hc Hl Hs Ha] H. split; cbn; try lia. apply Z.mod_pos_bound. lia.
Qed.

Lemma ring_push_spec rb d : ring_ok rb ->
  exists ok rb', ring_push rb d = Ok (ok, rb') /\ ring_ok rb' /\
    (ok, ring_abs rb') = queue_push (ring_abs rb) d.
Proof.
  intros Hok. destruct (Hok) as [Hc Hl Hs Ha].
  unfold ring_push, queue_push. cbn [ring_abs q_cap q_items q_policy].
  rewrite length_contents. destruct (Z.geb_spec (size rb) (capacity rb)).
  - rewrite decide_True by lia. destruct (policy rb) eqn:Ep; [| by eexists _, _..].
    replace (capacity rb =? 0) with false by lia. rewrite !u64_id by lia.
    replace (capacity rb - 1) with (size rb - 1) by lia.
    destruct (contents_advance rb) as [Ct _]; [done | lia |].
    rewrite Ep in Ct. pose proof (ring_advance_ok rb Hok) as Hok'. rewrite Ep in Hok'.
    destruct (ring_store_ok _ d (Hok' ltac:(lia))) as (rb' & E & Hr & Ab); [cbn; lia|].
    rewrite E. cbn [res_bind]. eexists _, _. split; [done|]. split; [done|].
    rewrite Ab, Ct. unfold ring_abs, q_set. cbn [q_cap q_policy capacity policy]. by rewrite Ep.
  - rewrite decide_False by lia. destruct (ring_store_ok rb d Hok) as (rb' & -> & Hr & Ab); [lia|].
    cbn [res_bind]. eexists _, _. split; [done|]. split; [done|]. by rewrite Ab.
Qed.

Lemma ring_pop_spec rb : ring_ok rb ->
  exists v rb', ring_pop rb = Ok (v, rb') /\ ring_ok rb' /\
    (v, ring_abs rb') = queue_pop (ring_abs rb).
Proof.
  intros Hok. destruct (Hok) as [Hc Hl Hs Ha]. unfold ring_pop, queue_pop.
  cbn [ring_abs q_items]. destruct (Z.eqb_spec (size rb) 0) as [E0|].
  - pose proof (length_contents rb) as Hlen. rewrite E0 in Hlen.
    destruct (contents rb) eqn:Ec; [|done]. eexists _, _. split; [done|]. by split.
  - destruct (contents_advance rb) as [Ct Hd]; [done | lia |].
    pose proof (length_contents rb) as Hlen.
    destruct (contents rb) as [|x l] eqn:Ec; [cbn in Hlen; lia|]. cbn [head] in Hd.
    rewrite <- Hd. cbn [deref res_bind]. replace (capacity rb =? 0) with false by lia.
    rewrite !u64_id by lia. eexists _, _. split; [done|].
    split; [apply ring_advance_ok; [done | lia]|].
    unfold ring_abs, q_set. cbn [q_cap q_policy capacity policy]. by rewrite Ct.
Qed.

Lemma ring_new_ok cap p : 0 < cap < 2 ^ 32 -> ring_ok (ring_new_with_policy cap p) /\
  ring_abs (ring_new_with_policy cap p) = mkQueue (Z.to_nat cap) p [].
Proof. intros H. split; [split; cbn; rewrite ?length_replicate; lia | done]. Qed.

(** ** Any sequence of operations *)

Inductive ring_op := OpPush (d : Z) | OpPop | OpPeek | OpSize.

Definition ring_run1 (rb : Ring) (o : ring_op) : res (Z * Ring) :=
  match o with
  | OpPush d => let* r := ring_push rb d in Ok (if fst r then 1 else 0, snd r)
  | OpPop => ring_pop rb
  | OpPeek => let* v := ring_peek rb in Ok (v, rb)
  | OpSize => Ok (ring_size rb, rb)
  end.

Definition queue_run1 (q : queue) (o : ring_op) : Z * queue :=
  match o with
  | OpPush d => let '(ok, q') := queue_push q d in (if ok then 1 else 0, q')
  | OpPop => queue_pop q
  | OpPeek => (default 0 (head (q_items q)), q)
  | OpSize => (Z.of_nat (length (q_items q)), q)
  end.

Fixpoint ring_run (rb : Ring) (os : list ring_op) : res (list Z * Ring) :=
  match os with
  | [] => Ok ([], rb)
  | o :: os' =>
      let* r := ring_run1 rb o in
      let* rs := ring_run (snd r) os' in
      Ok (fst r :: fst rs, snd rs)
  end.

Fixpoint queue_run (q : queue) (os : list ring_op) : list Z * queue :=
  match os with
  | [] => ([], q)
  | o :: os' =>
      let '(v, q1) := queue_run1 q o in
      let '(vs, q2) := queue_run q1 os' in (v :: vs, q2)
  end.

Lemma ring_run1_spec rb o : ring_ok rb ->
  exists v rb', ring_run1 rb o = Ok (v, rb') /\ ring_ok rb' /\
    (v, ring_abs rb') = queue_run1 (ring_abs rb) o.
Proof.
  intros Hok. destruct o as [d| | |]; cbn [ring_run1 queue_run1].
  - destruct (ring_push_spec rb d Hok) as (ok & rb' & -> & Hr & Ab). rewrite <- Ab.
    cbn. eexists _, _. done.
  - by apply ring_pop_spec.
  - cbn [ring_abs q_items]. unfold ring_peek. pose proof (length_contents rb) as Hlen.
    destruct (size rb >? 0) eqn:E.
    + destruct (contents_advance rb) as [_ Hd]; [done | lia |]. rewrite <- Hd.
      destruct (contents rb) as [|x l]; [cbn in Hlen; lia|]. cbn. by eexists _, _.
    + destruct (contents rb) as [|x l]; [|cbn in Hlen; lia]. cbn. by eexists _, _.
  - cbn [ring_abs q_items]. rewrite length_contents. unfold ring_size.
    destruct Hok. rewrite Z2Nat.id by lia. by eexists _, _.
Qed.

(** (C20) A ring is its bounded queue: from a new ring of any capacity and policy,
    every sequence of pushes, pops, peeks and size queries runs without a fault
    and gives the results of the abstract queue. *)
Theorem ring_refines_queue cap p os : 0 < cap < 2 ^ 32 ->
  exists vs rb, ring_run (ring_new_with_policy cap p) os = Ok (vs, rb) /\ ring_ok rb /\
    (vs, ring_abs rb) = queue_run (mkQueue (Z.to_nat cap) p []) os.
Proof.
  intros Hc. destruct (ring_new_ok cap p Hc) as [Hok <-]. clear Hc.
  generalize dependent (ring_new_with_policy cap p).
  induction os as [|o os IH]; intros rb Hok; cbn [ring_run queue_run].
  - by eexists _, _.
  - destruct (ring_run1_spec rb o Hok) as (v & rb1 & -> & Hok1 & Ab1). rewrite <- Ab1.
    cbn [res_bind fst snd]. destruct (IH rb1 Hok1) as (vs & rb2 & -> & Hok2 & Ab2).
    rewrite <- Ab2. cbn. by eexists _, _.
Qed.

Lemma ring_refines_queue_witness :
  exists vs rb, ring_run (ring_new_with_policy 2 RP_OVERWRITE)
      [OpPush 1; OpPush 2; OpPush 3; OpPop; OpSize] = Ok (vs, rb) /\ ring_ok rb /\
    (vs, ring_abs rb) =
      queue_run (mkQueue (Z.to_nat 2) RP_OVERWRITE []) [OpPush 1; OpPush 2; OpPush 3; OpPop; OpSize].
Proof. apply (ring_refines_queue 2 RP_OVERWRITE). lia. Defined.

(** ** The UART ring of the SBI *)

Definition UART_MAX_BUFFER_SIZE : Z := 128.

Record uart := mkUart {
  uart_buffer : list Z;
  uart_buffer_size : Z;
  uart_buffer_start : Z;
  uart_mutex : Mutex
}.

Definition uart_ring_pop (u : uart) : res (Z * uart) :=
  let* l := mutex_spinlock (uart_mutex u) in
  if uart_buffer_size u >? 0 then
    let* ret := deref (uart_buffer u !! Z.to_nat (uart_buffer_start u)) in
    Ok (ret, mkUart (uart_buffer u) (uart_buffer_size u - 1)
               (Z.rem (uart_buffer_start u + 1) UART_MAX_BUFFER_SIZE) (mutex_unlock l))
  else Ok (0xff, mkUart (uart_buffer u) (uart_buffer_size u) (uart_buffer_start u) (mutex_unlock l)).

Definition uart_ring_push (u : uart) (c : Z) : res uart :=
  let* l := mutex_spinlock (uart_mutex u) in
  if uart_buffer_size u <? UART_MAX_BUFFER_SIZE then
    let i := Z.to_nat (Z.rem (uart_buffer_start u + uart_buffer_size u) UART_MAX_BUFFER_SIZE) in
    let* _ := deref (uart_buffer u !! i) in
    Ok (mkUart (<[i := c]> (uart_buffer u)) (uart_buffer_size u + 1) (uart_buffer_start u)
          (mutex_unlock l))
  else Ok (mkUart (uart_buffer u) (uart_buffer_size u) (uart_buffer_start u) (mutex_unlock l)).

(** The receiver: the bytes waiting in the hardware FIFO, oldest first. With
    nothing waiting [uart_get] answers 255. *)
Definition uart_get (fifo : list Z) : Z * list Z :=
  match fifo with
  | [] => (255, [])
  | c :: rest => (c, rest)
  end.

Definition uart_handle_irq (u : uart) (fifo : list Z) : res (uart * list Z) :=
  loop (S (length fifo))
    (fun '(u, fifo) =>
       let '(c, rest) := uart_get fifo in
       if c =? 0xff then Ok (Done (u, rest))
       else let* u' := uart_ring_push u c in Ok (Next (u', rest))) (u, fifo).

(** The UART's ring is a [Ring] of capacity 128 that discards. *)
Definition uart_as_ring (u : uart) : Ring :=
  mkRing (uart_buffer_size u) (uart_buffer_start u) UART_MAX_BUFFER_SIZE RP_DISCARD (uart_buffer u).

Record uart_ok (u : uart) : Prop := mkUartOk {
  uo_ring : ring_ok (uart_as_ring u);
  uo_lock : uart_mutex u = MUTEX_UNLOCKED
}.

Lemma uart_push_spec u c : uart_ok u -> exists u', uart_ring_push u c = Ok u' /\ uart_ok u' /\
  ring_abs (uart_as_ring u') = snd (queue_push (ring_abs (uart_as_ring u)) c).
Proof.
  intros [Hok Hl]. destruct (ring_push_spec _ c Hok) as (ok & rb & E & Hr & Ab).
  destruct Hok as [Hc Hlen Hs Ha]. cbn in Hc, Hlen, Hs, Ha.
  rewrite <- Ab. cbn [snd]. unfold uart_ring_push. rewrite Hl.
  change (mutex_spinlock MUTEX_UNLOCKED) with (Ok MUTEX_LOCKED). cbn [res_bind].
  unfold ring_push in E. cbn [size capacity policy uart_as_ring] in E.
  unfold UART_MAX_BUFFER_SIZE in *.
  destruct (Z.ltb_spec (uart_buffer_size u) 128).
  - replace (uart_buffer_size u >=? 128) with false in E by lia.
    unfold ring_store in E. cbn [size at_ capacity policy buffer uart_as_ring] in E.
    change (128 =? 0) with false in E. cbv iota in E.
    rewrite u64_id, (u64_id (uart_buffer_size u + 1)) in E by lia.
    rewrite Z.rem_mod_nonneg by lia. unfold UART_MAX_BUFFER_SIZE in E. 
    destruct (uart_buffer u !! _) eqn:El; cbn [deref res_bind] in *; [|done].
    injection E as <- <-. eexists. split; [done|]. split; [split; [exact Hr | done] | done].
  - replace (uart_buffer_size u >=? 128) with true in E by lia. injection E as <- <-.
    eexists. split; [done|]. split; [split; [exact Hr | done] | done].
Qed.

(** uart_ring_pop returns the oldest byte the ring holds, or 0xff when it
    holds none, and unlocks. *)
Lemma uart_pop_spec u : uart_ok u -> exists v u', uart_ring_pop u = Ok (v, u') /\ uart_ok u' /\
  v = default 0xff (head (contents (uart_as_ring u))) /\
  contents (uart_as_ring u') = tail (contents (uart_as_ring u)).
Proof.
  intros [Hok Hl]. destruct (Hok) as [Hc Hlen Hs Ha]. cbn in Hc, Hlen, Hs, Ha.
  unfold uart_ring_pop. rewrite Hl.
  change (mutex_spinlock MUTEX_UNLOCKED) with (Ok MUTEX_LOCKED). cbn [res_bind].
  destruct (uart_buffer_size u >? 0) eqn:E.
  - destruct (contents_advance _ Hok) as [Ct Hd]; [cbn; lia|]. rewrite Hd.
    pose proof (ring_advance_ok _ Hok ltac:(cbn; lia)) as Hok'.
    destruct (ring_index_ok _ (uart_buffer_start u) Hok) as [x Ex]. cbn in Ex.
    rewrite Z.mod_small in Ex by (unfold UART_MAX_BUFFER_SIZE in *; lia).
    cbn [uart_as_ring buffer at_]. rewrite Ex. cbn [deref res_bind default].
    eexists _, _. split; [done|]. rewrite Z.rem_mod_nonneg by (unfold UART_MAX_BUFFER_SIZE; lia).
    split; [split; [exact Hok' | done]|]. split; [done | exact Ct].
  - assert (contents (uart_as_ring u) = []) as En.
    { pose proof (length_contents (uart_as_ring u)) as Hn. cbn in Hn.
      destruct (contents (uart_as_ring u)); [done | cbn in Hn; lia]. }
    rewrite En. eexists _, _. split; [done|]. split; [split; [exact Hok | done]|].
    split; [done | exact En].
Qed.

(** Splitting the FIFO at the first 255. *)
Fixpoint before_255 (l : list Z) : list Z * list Z :=
  match l with
  | [] => ([], [])
  | c :: r => if c =? 255 then ([], r) else let '(a, b) := before_255 r in (c :: a, b)
  end.

(** The UART interrupt drains the receiver: every byte up to the first 255
    is queued in order behind what the ring already holds, bytes beyond its
    capacity of 128 being discarded; a received 255 ends the drain early. *)
Theorem uart_irq_drains u fifo : uart_ok u ->
  exists u' rest, uart_handle_irq u fifo = Ok (u', rest) /\ uart_ok u' /\
    contents (uart_as_ring u') = take 128 (contents (uart_as_ring u) ++ fst (before_255 fifo)) /\
    rest = snd (before_255 fifo).
Proof.
  unfold uart_handle_irq. assert (length fifo < S (length fifo))%nat as Hf by lia.
  revert u Hf. generalize (S (length fifo)). intros n u Hf Hu.
  revert fifo u Hf Hu. induction n as [|n IH]; intros fifo u Hf Hu; [lia|]. cbn [loop].
  assert (length (contents (uart_as_ring u)) <= 128)%nat as Hlen.
  { rewrite length_contents. destruct Hu as [[_ _ Hs _] _]. cbn in *.
    unfold UART_MAX_BUFFER_SIZE in Hs. lia. }
  destruct fifo as [|c r]; cbn [uart_get before_255].
  - change (255 =? 255) with true. cbn [res_bind fst snd]. rewrite app_nil_r, take_ge by done.
    eexists _, _. done.
  - destruct (c =? 255) eqn:Ec; cbn [res_bind].
    + cbn [fst snd]. rewrite app_nil_r, take_ge by done. eexists _, _. done.
    + destruct (uart_push_spec u c Hu) as (u1 & -> & Hu1 & Ab). cbn [res_bind].
      destruct (IH r u1) as (u2 & rest & -> & Hu2 & Hc2 & ->); [cbn in Hf; lia | done |].
      destruct (before_255 r) as [a b]. cbn [fst snd] in *. eexists _, _. split; [done|].
      split; [done|]. split; [|done]. rewrite Hc2.
      apply (f_equal q_items) in Ab. cbn [ring_abs q_items] in Ab. rewrite Ab.
      unfold queue_push. cbn [q_cap q_policy q_items ring_abs].
      change (capacity (uart_as_ring u)) with 128. change (policy (uart_as_ring u)) with RP_DISCARD.
      case_decide as Hd; cbn [snd q_items q_set].
      * change (q_items (ring_abs (uart_as_ring u))) with (contents (uart_as_ring u)).
        rewrite (take_app_le _ a), (take_app_le _ (c :: a)) by lia. done.
      * by rewrite <- app_assoc.
Qed.

Definition demo_uart : uart := mkUart (replicate 128 0) 0 0 MUTEX_UNLOCKED.

Lemma demo_uart_ok : uart_ok demo_uart.
Proof. split; [split; vm_compute; repeat split; discriminate | done]. Qed.

Lemma uart_irq_drains_witness :
  exists u' rest, uart_handle_irq demo_uart [104; 105; 255; 7] = Ok (u', rest) /\ uart_ok u' /\
    contents (uart_as_ring u') =
      take 128 (contents (uart_as_ring demo_uart) ++ fst (before_255 [104; 105; 255; 7])) /\
    rest = snd (before_255 [104; 105; 255; 7]).
Proof. apply uart_irq_drains, demo_uart_ok. Defined.
