(* ===== verification/Input.v ===== *)
(** The input driver of src/src/input.c: events drained from the device's used
    ring into a byte ring, and the keyboard and tablet readers.

    The virtqueue is the part of it the driver reads: the used ring entries, and
    for each descriptor the eight bytes of the event buffer it points to, as the
    little-endian word [pack_event] loads. *)
From S2P Require Import Prelude Lock Ring.

Definition INPUT_RING_BUFFER_CAPACITY : Z := 4096.
Definition INPUT_RING_BUFFER_BEHAVIOR : RingPolicy := RP_DISCARD.
Definition EV_SYN : Z := 0.
Definition ABS_X : Z := 0.
Definition ABS_Y : Z := 1.
Definition sizeof_InputEvent : Z := 8.

Record InputEvent := mkEvent { ev_type : Z; ev_code : Z; ev_value : Z }.

(** The fields of the packed event, as [get_cursor] extracts them. *)
Definition unpack_event (raw : Z) : InputEvent :=
  mkEvent (Z.land raw 0xFFFF) (Z.land (Z.shiftr raw 16) 0xFFFF)
    (Z.land (Z.shiftr raw 32) 0xFFFFFFFF).

Record VirtioDevice := mkVirtio {
  vlock : Mutex;
  queue_size : Z;            (* common_cfg->queue_size *)
  device_idx : Z;            (* how far the driver has read, uint16_t *)
  device_ring_idx : Z;       (* device->idx, written by the device *)
  device_ring : list (Z * Z);  (* device->ring[]: (id, len) *)
  event_words : list Z;      (* the event behind each descriptor *)
  driver_ring_idx : Z        (* driver->idx *)
}.

Record InputDevice := mkInput { viodev : VirtioDevice; ring_buffer : Ring }.

Definition input_ring_buffer_push (rb : Ring) (event : Z) : res Ring :=
  for_up 8 0
    (fun i rb =>
       let* r := ring_push rb (u8 (Z.land (Z.shiftr event (8 * (7 - i))) 0xFF)) in Ok (snd r)) rb.

Definition input_ring_buffer_pop (rb : Ring) : res (Z * Ring) :=
  if ring_size rb =? 0 then Ok (0, rb)
  else
    for_up 8 0
      (fun i '(value, rb) =>
         let* r := ring_pop rb in
         Ok (Z.lor value (u64 (Z.shiftl (fst r) (8 * (7 - i)))), snd r)) (0, rb).

Definition set_lock (d : VirtioDevice) (l : Mutex) : VirtioDevice :=
  mkVirtio l (queue_size d) (device_idx d) (device_ring_idx d) (device_ring d) (event_words d)
    (driver_ring_idx d).

(** One used-ring entry consumed, and the buffer handed back unless it was bad. *)
Definition consume (d : VirtioDevice) (reuse : bool) : VirtioDevice :=
  mkVirtio (vlock d) (queue_size d) (u16 (device_idx d + 1)) (device_ring_idx d) (device_ring d)
    (event_words d) (if reuse then u16 (driver_ring_idx d + 1) else driver_ring_idx d).

(** The body of the loop of [input_handle]. *)
Definition handle_body : Z * VirtioDevice * Ring -> res (ctl (Z * VirtioDevice * Ring) (Z * InputDevice)) :=
  fun '(handled, dev, rb) =>
       if device_idx dev =? device_ring_idx dev then
         Ok (Done (handled, mkInput (set_lock dev (mutex_unlock (vlock dev))) rb))
       else if queue_size dev =? 0 then Ub
       else
         let* e := deref (device_ring dev !! Z.to_nat (device_idx dev mod queue_size dev)) in
         let '(id, len) := e in
         let handled := u32 (handled + 1) in
         if negb (len =? sizeof_InputEvent) then
           Ok (Done (u32 (-1), mkInput (consume dev false) rb))
         else
           let* before_push := deref (event_words dev !! Z.to_nat id) in
           if negb (ev_type (unpack_event before_push) =? EV_SYN) then
             let* rb := input_ring_buffer_push rb before_push in
             Ok (Next (handled, consume dev true, rb))
           else Ok (Next (u32 (handled - 1), consume dev true, rb)).

(** The loop ends when the 16-bit [device_idx] has caught up: at most 2^16 turns. *)
Definition input_handle (idev : InputDevice) : res (Z * InputDevice) :=
  let* l := mutex_spinlock (vlock (viodev idev)) in
  loop (S (Z.to_nat (2 ^ 16))) handle_body (0, set_lock (viodev idev) l, ring_buffer idev).

(** [keys[]]: 58 entries, the last one [KEY_SPACE]; unnamed ones are 0. *)
Definition keys : list Z :=
  [0; 0; 49; 50; 51; 52; 53; 54; 55; 56; 57; 48; 0; 0; 8; 0;
   113; 119; 101; 114; 116; 121; 117; 105; 111; 112; 0; 0; 10; 0;
   97; 115; 100; 102; 103; 104; 106; 107; 108; 0; 0; 0; 0; 0;
   122; 120; 99; 118; 98; 110; 109; 0; 0; 0; 0; 0; 0; 32].

(** [signed char] of a byte. *)
Definition s8 (z : Z) : Z := (z + 128) mod 256 - 128.

Definition get_keyboard (g_keydev : InputDevice) : res (Z * InputDevice) :=
  let* r := input_handle g_keydev in
  let dev := snd r in
  if ring_size (ring_buffer dev) >? 0 then
    let* p := input_ring_buffer_pop (ring_buffer dev) in
    let '(inputValue, rb) := p in
    let dev := mkInput (viodev dev) rb in
    if inputValue =? 0 then Ok (0, dev)
    else
      let code := ev_code (unpack_event inputValue) in
      let value := ev_value (unpack_event inputValue) in
      let* returnValue := deref (keys !! Z.to_nat code) in
      let returnValue := if value <? 1 then u8 (returnValue * -1) else returnValue in
      Ok (s8 returnValue, dev)
  else Ok (0, dev).

(** [width] and [height] are those of the display. *)
Definition get_cursor (width height : Z) (g_tabdev : InputDevice) : res (Z * Z * InputDevice) :=
  let none := u32 (-1) in
  let* r := input_handle g_tabdev in
  let dev := snd r in
  if ring_size (ring_buffer dev) >=? 2 then
    loop (S (Z.to_nat (ring_size (ring_buffer dev))))
      (fun '(x, y, rb) =>
         if (ring_size rb >? 0) && ((x =? none) || (y =? none)) then
           let* p := input_ring_buffer_pop rb in
           let '(raw_event, rb) := p in
           let ev := unpack_event raw_event in
           if ev_code ev =? ABS_X then Ok (Next (u32 (ev_value ev * width) / 32767, y, rb))
           else if ev_code ev =? ABS_Y then Ok (Next (x, u32 (ev_value ev * height) / 32767, rb))
           else Ok (Next (x, y, rb))
         else Ok (Done (x, y, mkInput (viodev dev) rb))) (none, none, ring_buffer dev)
  else Ok (none, none, dev).

(** ** The byte ring as a queue of events *)

(** The eight bytes of an event, most significant first. *)
Definition be8 (e : Z) : list Z := (fun i => e / 2 ^ (8 * (7 - i)) mod 256) <$> seqZ 0 8.

Definition flat (evs : list Z) : list Z := mjoin (be8 <$> evs).

(** The ring holds exactly the events [evs], oldest first. *)
Record holds (rb : Ring) (evs : list Z) : Prop := mkHolds {
  h_ok : ring_ok rb;
  h_cap : capacity rb = INPUT_RING_BUFFER_CAPACITY;
  h_pol : policy rb = INPUT_RING_BUFFER_BEHAVIOR;
  h_items : contents rb = flat evs
}.

Lemma length_be8 e : length (be8 e) = 8%nat.
Proof. done. Qed.

Lemma flat_cons e evs : flat (e :: evs) = be8 e ++ flat evs.
Proof. done. Qed.

Lemma length_flat evs : length (flat evs) = (8 * length evs)%nat.
Proof.
  induction evs as [|e evs IH]; [done|]. rewrite flat_cons.
  rewrite length_app, IH, length_be8. cbn [length]. lia.
Qed.

Lemma flat_app a b : flat (a ++ b) = flat a ++ flat b.
Proof. unfold flat. rewrite fmap_app. apply join_app. Qed.

Lemma holds_bound rb evs : holds rb evs -> (length evs <= 512)%nat.
Proof.
  intros [[_ _ Hs _] Hc _ Hi]. pose proof (length_contents rb) as H. rewrite Hi, length_flat in H.
  rewrite Hc in Hs. unfold INPUT_RING_BUFFER_CAPACITY in Hs. lia.
Qed.

(** Pushing a list on a discarding ring keeps what fits. *)
Lemma push_many (f : Z -> Z) n : forall lo rb, ring_ok rb -> policy rb = RP_DISCARD ->
  exists rb', for_up n lo (fun i rb => let* r := ring_push rb (f i) in Ok (snd r)) rb = Ok rb' /\
    ring_ok rb' /\ capacity rb' = capacity rb /\ policy rb' = RP_DISCARD /\
    contents rb' = take (Z.to_nat (capacity rb)) (contents rb ++ (f <$> seqZ lo (Z.of_nat n))).
Proof.
  induction n as [|n IH]; intros lo rb Hok Hp; cbn [for_up].
  - exists rb. split; [done|]. do 3 (split; [done|]). cbn. rewrite app_nil_r, take_ge; [done|].
    rewrite length_contents. destruct Hok. lia.
  - destruct (ring_push_spec rb (f lo) Hok) as (ok & rb1 & -> & Hok1 & Ab). cbn [res_bind snd].
    unfold queue_push in Ab. cbn [ring_abs q_cap q_items q_policy] in Ab. rewrite Hp in Ab.
    assert (contents rb1 = take (Z.to_nat (capacity rb)) (contents rb ++ [f lo]) /\
      capacity rb1 = capacity rb /\ policy rb1 = RP_DISCARD) as (C1 & Hc1 & Hp1).
    { pose proof (ro_cap _ Hok). pose proof (ro_cap _ Hok1).
      pose proof (length_contents rb). pose proof (ro_size _ Hok).
      case_decide as Hd; unfold ring_abs, q_set in Ab; injection Ab as -> Hcap Hpol Hcont;
        cbn [q_cap q_policy] in *.
      - rewrite Hcont, take_app_le, take_ge by lia. split; [done|]. split; [lia | congruence].
      - rewrite Hcont, take_ge by (rewrite length_app; cbn; lia).
        split; [done|]. split; [lia | congruence]. }
    destruct (IH (lo + 1) rb1 Hok1 Hp1) as (rb' & -> & Hok' & Hc' & Hp' & C').
    exists rb'. split; [done|]. split; [done|]. split; [lia|]. split; [done|].
    rewrite C', C1, Hc1. rewrite (seqZ_cons lo) by lia. cbn [fmap list_fmap].
    replace (Z.pred (Z.of_nat (S n))) with (Z.of_nat n) by lia.
    replace (Z.succ lo) with (lo + 1) by lia.
    destruct (decide (length (contents rb ++ [f lo]) <= Z.to_nat (capacity rb))%nat).
    + rewrite (take_ge (contents rb ++ _)) by done. by rewrite <- app_assoc.
    + rewrite length_app in *. cbn [length] in *.
      rewrite !(take_app_le (contents rb)) by lia.
      rewrite take_app_le by (rewrite length_take; lia). by rewrite take_take, Nat.min_id.
Qed.

Lemma event_push rb evs e : holds rb evs ->
  exists rb', input_ring_buffer_push rb e = Ok rb' /\
    holds rb' (if (length evs <? 512)%nat then evs ++ [e] else evs).
Proof.
  intros Hh. pose proof (holds_bound _ _ Hh). destruct Hh as [Hok Hc Hp Hi].
  destruct (push_many (fun i => u8 (Z.land (Z.shiftr e (8 * (7 - i))) 0xFF)) 8 0 rb Hok Hp)
    as (rb' & E & Hok' & Hc' & Hp' & C).
  exists rb'. split; [exact E|].
  assert (((fun i => u8 (Z.land (Z.shiftr e (8 * (7 - i))) 0xFF)) <$> seqZ 0 (Z.of_nat 8)) = be8 e)
    as Eb.
  { apply list_fmap_ext. intros k i Hk%list_elem_of_lookup_2%elem_of_seqZ.
    change 0xFF with (Z.ones 8). rewrite land_ones_field by lia. unfold u8.
    by rewrite Z.mod_mod by lia. }
  rewrite Eb, Hi, Hc in C. change (Z.to_nat INPUT_RING_BUFFER_CAPACITY) with 4096%nat in C.
  split; [done | congruence | done |]. rewrite C.
  destruct (Nat.ltb_spec (length evs) 512).
  - rewrite take_ge by (rewrite length_app, length_flat, length_be8; lia).
    rewrite flat_app. unfold flat at 3. cbn. by rewrite app_nil_r.
  - rewrite take_app_le, take_ge by (rewrite length_flat; lia). done.
Qed.

Lemma contents_nil rb : ring_ok rb -> contents rb = [] <-> size rb = 0.
Proof.
  intros [_ _ Hs _]. pose proof (length_contents rb) as H. split; intros E.
  - rewrite E in H. cbn in H. lia.
  - rewrite E in H. by destruct (contents rb).
Qed.

Lemma pop_next rb x l : ring_ok rb -> contents rb = x :: l ->
  exists rb', ring_pop rb = Ok (x, rb') /\ ring_ok rb' /\ capacity rb' = capacity rb /\
    policy rb' = policy rb /\ contents rb' = l.
Proof.
  intros Hok Hc. destruct (ring_pop_spec rb Hok) as (v & rb' & E & Hok' & Ab).
  unfold queue_pop in Ab. cbn [ring_abs q_items] in Ab. rewrite Hc in Ab.
  unfold ring_abs, q_set in Ab. cbn [q_cap q_policy] in Ab. injection Ab as -> Hcap Hp Hl.
  exists rb'. pose proof (ro_cap _ Hok). pose proof (ro_cap _ Hok'). split; [done|].
  split; [done|]. split; [lia | done].
Qed.

Lemma holds_size rb evs : holds rb evs -> ring_size rb = 8 * Z.of_nat (length evs).
Proof.
  intros [[_ _ Hs _] _ _ Hi]. pose proof (length_contents rb) as H. rewrite Hi, length_flat in H.
  unfold ring_size. lia.
Qed.

(** The top [i] bytes of [e], in place. *)
Definition top_bytes (e i : Z) : Z := Z.shiftl (e / 2 ^ (8 * (8 - i))) (8 * (8 - i)).

Lemma top_bytes_step e i : 0 <= e < 2 ^ 64 -> 0 <= i < 8 ->
  Z.lor (top_bytes e i) (u64 (Z.shiftl (e / 2 ^ (8 * (7 - i)) mod 256) (8 * (7 - i)))) =
  top_bytes e (i + 1).
Proof.
  intros He Hi. unfold top_bytes. replace (8 - (i + 1)) with (7 - i) by lia.
  set (k := 8 * (7 - i)). replace (8 * (8 - i)) with (k + 8) by lia.
  set (q := e / 2 ^ k). assert (0 < 2 ^ k) by lia.
  assert (e / 2 ^ (k + 8) = q / 256) as ->.
  { unfold q. rewrite Z.pow_add_r by lia. by rewrite Z.div_div by lia. }
  rewrite u64_id.
  2: { rewrite Z.shiftl_mul_pow2 by lia. assert (2 ^ k * 256 <= 2 ^ 64).
       { change 256 with (2 ^ 8). rewrite <- Z.pow_add_r by lia. apply Z.pow_le_mono_r; lia. }
       pose proof (Z.mod_pos_bound q 256). nia. }
  replace (Z.shiftl (q / 256) (k + 8)) with (Z.shiftl (Z.shiftl (q / 256) 8) k)
    by (rewrite Z.shiftl_shiftl by lia; f_equal; lia).
  rewrite <- Z.shiftl_lor. f_equal. rewrite lor_shiftl_add by (try apply Z.mod_pos_bound; lia).
  change (2 ^ 8) with 256. dlia.
Qed.

Lemma event_pop rb e evs : 0 <= e < 2 ^ 64 -> holds rb (e :: evs) ->
  exists rb', input_ring_buffer_pop rb = Ok (e, rb') /\ holds rb' evs.
Proof.
  intros He [Hok Hc Hp Hi]. unfold input_ring_buffer_pop, ring_size.
  assert (size rb <> 0) as Hne.
  { intros E%contents_nil; [|done]. rewrite Hi in E. done. }
  replace (size rb =? 0) with false by lia.
  destruct (for_up_total (fun i '(value, rb) => value = top_bytes e i /\ ring_ok rb /\
      capacity rb = INPUT_RING_BUFFER_CAPACITY /\ policy rb = INPUT_RING_BUFFER_BEHAVIOR /\
      contents rb = ((fun j => e / 2 ^ (8 * (7 - j)) mod 256) <$> seqZ i (8 - i)) ++ flat evs)
    (fun i '(value, rb) =>
       let* r := ring_pop rb in
       Ok (Z.lor value (u64 (Z.shiftl (fst r) (8 * (7 - i)))), snd r)) 8 0 (0, rb))
    as ([v rb'] & E & -> & Hok' & Hc' & Hp' & C').
  - split; [|by rewrite Hi, flat_cons].
    unfold top_bytes. change (8 * (8 - 0)) with 64. rewrite Z.div_small by lia. done.
  - intros i [value rb1] Hi1 (-> & Hok1 & Hc1 & Hp1 & C1).
    rewrite (seqZ_cons i) in C1 by lia. cbn [fmap list_fmap app] in C1.
    destruct (pop_next _ _ _ Hok1 C1) as (rb2 & -> & Hok2 & Hc2 & Hp2 & C2).
    cbn [res_bind fst snd]. eexists. split; [done|].
    rewrite top_bytes_step by (done || lia). split; [done|]. split; [done|].
    split; [congruence|]. split; [congruence|]. rewrite C2.
    replace (Z.pred (8 - i)) with (8 - (i + 1)) by lia. replace (Z.succ i) with (i + 1) by lia. done.
  - exists rb'. rewrite E. change (0 + Z.of_nat 8) with 8 in *. split.
    + unfold top_bytes. change (8 * (8 - 8)) with 0. rewrite Z.div_1_r, Z.shiftl_0_r. done.
    + split; [done..|]. by rewrite C'.
Qed.

(** An empty ring gives zero, which reads as a synchronisation event. *)
Lemma event_pop_empty rb : holds rb [] -> input_ring_buffer_pop rb = Ok (0, rb).
Proof. intros Hh. unfold input_ring_buffer_pop. by rewrite (holds_size _ _ Hh). Qed.

(** The eight-byte encoding makes the byte ring an event queue: a pushed
    event is queued whole behind the others, or dropped whole when 512 are
    waiting, and popping returns the oldest event bit for bit. *)
Theorem input_event_fifo rb evs e : holds rb evs -> Forall (fun x => 0 <= x < 2 ^ 64) evs ->
  (exists rb', input_ring_buffer_push rb e = Ok rb' /\
     holds rb' (if (length evs <? 512)%nat then evs ++ [e] else evs)) /\
  (exists rb', input_ring_buffer_pop rb = Ok (default 0 (head evs), rb') /\ holds rb' (tail evs)).
Proof.
  intros Hh Hev. split; [by apply event_push|]. destruct evs as [|x evs]; cbn [head tail default].
  - exists rb. by rewrite event_pop_empty.
  - inversion Hev. by apply event_pop.
Qed.

Definition empty_events : Ring :=
  ring_new_with_policy INPUT_RING_BUFFER_CAPACITY INPUT_RING_BUFFER_BEHAVIOR.

Lemma empty_holds : holds empty_events [].
Proof. split; [apply ring_new_ok; unfold INPUT_RING_BUFFER_CAPACITY; lia | done..]. Qed.

Lemma input_event_fifo_witness :
  (exists rb', input_ring_buffer_push empty_events 0x1001E0001 = Ok rb' /\
     holds rb' (if (length (@nil Z) <? 512)%nat then [] ++ [0x1001E0001] else [])) /\
  (exists rb', input_ring_buffer_pop empty_events = Ok (default 0 (head []), rb') /\
     holds rb' (tail [])).
Proof. apply (input_event_fifo empty_events [] _ empty_holds). constructor. Defined.

(** ** Draining the device *)

(** The entries the device has published and the driver has not read. *)
Definition pending (d : VirtioDevice) : nat :=
  Z.to_nat (u16 (device_ring_idx d - device_idx d)).

Record virtio_ok (d : VirtioDevice) : Prop := mkVirtioOk {
  vo_qsize : 0 < queue_size d;
  vo_idx : 0 <= device_idx d < 2 ^ 16 /\ 0 <= device_ring_idx d < 2 ^ 16;
  vo_ring : queue_size d <= Z.of_nat (length (device_ring d))
}.

(** The event of the [k]-th pending entry, when the entry is well formed. *)
Definition pending_event (d : VirtioDevice) (k : nat) : option Z :=
  '(id, len) ← device_ring d !! Z.to_nat (u16 (device_idx d + Z.of_nat k) mod queue_size d);
  if len =? sizeof_InputEvent then event_words d !! Z.to_nat id else None.

(** What draining does to the queue of events. *)
Definition enqueue (evs : list Z) (e : Z) : list Z :=
  if (ev_type (unpack_event e) =? EV_SYN) || negb (length evs <? 512)%nat then evs
  else evs ++ [e].

Definition not_syn (e : Z) : bool := negb (ev_type (unpack_event e) =? EV_SYN).

Lemma pending_consume d : virtio_ok d -> device_idx d <> device_ring_idx d ->
  pending d = S (pending (consume d true)) /\ virtio_ok (consume d true).
Proof.
  intros [Hq [Hi Hr] Hl] Hne. unfold pending. cbn [consume device_ring_idx device_idx]. split.
  - unfold u16. dlia.
  - split; cbn; [done | | done]. split; [apply u16_range | done].
Qed.

Lemma pending_event_consume d k : pending_event (consume d true) k = pending_event d (S k).
Proof.
  unfold pending_event. cbn [consume device_ring queue_size device_idx event_words].
  replace (u16 (u16 (device_idx d + 1) + Z.of_nat k)) with (u16 (device_idx d + Z.of_nat (S k)));
    [done|]. unfold u16. rewrite Z.add_mod_idemp_l by lia. f_equal. lia.
Qed.

Definition count_events (es : list Z) : Z :=
  Z.of_nat (length (filter (fun e => not_syn e = true) es)).

Lemma handle_one h d rb evs e : virtio_ok d -> device_idx d <> device_ring_idx d ->
  holds rb evs -> pending_event d 0 = Some e -> 0 <= h < 2 ^ 32 - 1 ->
  exists rb', handle_body (h, d, rb) =
      Ok (Next (h + (if not_syn e then 1 else 0), consume d true, rb')) /\
    holds rb' (enqueue evs e).
Proof.
  intros Hd Hne Hh Hp Hr. destruct (Hd) as [Hq [Hi _] _]. unfold handle_body.
  replace (device_idx d =? device_ring_idx d) with false by lia.
  replace (queue_size d =? 0) with false by lia.
  unfold pending_event in Hp. change (Z.of_nat 0) with 0 in Hp.
  rewrite Z.add_0_r, u16_id in Hp by lia.
  destruct (device_ring d !! _) as [[id len]|]; cbn [mbind option_bind] in Hp; [|done].
  cbn [deref res_bind]. destruct (len =? sizeof_InputEvent); [|done]. cbn [negb].
  rewrite Hp. cbn [deref res_bind]. unfold enqueue, not_syn. rewrite u32_id by lia.
  destruct (ev_type (unpack_event e) =? EV_SYN); cbn [negb orb].
  - exists rb. replace (h + 1 - 1) with (h + 0) by lia. rewrite u32_id by lia. done.
  - destruct (event_push rb evs e Hh) as (rb' & -> & Hh'). exists rb'. split; [done|].
    by destruct (length evs <? 512)%nat.
Qed.

Lemma drain_loop : forall es fuel h d rb evs, virtio_ok d -> holds rb evs ->
  length es = pending d -> (forall k e, es !! k = Some e -> pending_event d k = Some e) ->
  (length es < fuel)%nat -> 0 <= h -> h + Z.of_nat (length es) < 2 ^ 32 ->
  exists d' rb', loop fuel handle_body (h, d, rb) = Ok (h + count_events es, mkInput d' rb') /\
    holds rb' (fold_left enqueue es evs) /\ vlock d' = MUTEX_UNLOCKED /\
    device_idx d' = device_ring_idx d /\ pending d' = 0%nat.
Proof.
  induction es as [|e es IH]; intros fuel h d rb evs Hd Hh Hlen Hes Hf Hh0 Hb;
    (destruct fuel as [|fuel]; [lia|]); cbn [loop].
  - assert (device_idx d = device_ring_idx d) as E.
    { destruct Hd as [_ [? ?] _]. unfold pending, u16 in Hlen. cbn [length] in Hlen. dlia. }
    unfold handle_body. rewrite E, Z.eqb_refl. cbn [res_bind]. eexists _, _.
    rewrite Z.add_0_r. split; [done|]. split; [done|]. split; [done|].
    cbn [set_lock device_idx]. split; [done|]. unfold pending. cbn. by rewrite E, Z.sub_diag.
  - assert (device_idx d <> device_ring_idx d) as Hne.
    { intros E. unfold pending in Hlen. by rewrite E, Z.sub_diag in Hlen. }
    destruct (pending_consume d Hd Hne) as [Hpend Hd'].
    pose proof (Hes 0%nat e eq_refl) as H0. cbn [length] in *.
    destruct (handle_one h d rb evs e Hd Hne Hh H0) as (rb1 & -> & Hh1); [lia|]. cbn [res_bind].
    destruct (IH fuel (h + (if not_syn e then 1 else 0)) (consume d true) rb1 (enqueue evs e))
      as (d' & rb' & -> & H1 & H2 & H3 & H4);
      [done | done | lia | | lia | destruct (not_syn e); lia | destruct (not_syn e); lia |].
    { intros k x Ex. rewrite pending_event_consume. by apply Hes. }
    exists d', rb'. split; [|done]. do 2 f_equal. unfold count_events. rewrite filter_cons.
    destruct (not_syn e); cbn [length]; [rewrite decide_True by done; cbn [length]; lia|].
    rewrite decide_False by done. lia.
Qed.

(** input_handle drains the device: when every pending entry carries a
    well-formed event, it queues exactly the non-synchronisation events in order
    (as far as the ring has room), counts them, catches up with the device's
    index and releases the lock. *)
Theorem input_handle_drains d rb evs es : virtio_ok d -> vlock d = MUTEX_UNLOCKED ->
  holds rb evs -> length es = pending d ->
  (forall k e, es !! k = Some e -> pending_event d k = Some e) ->
  exists d' rb', input_handle (mkInput d rb) = Ok (count_events es, mkInput d' rb') /\
    holds rb' (fold_left enqueue es evs) /\
    vlock d' = MUTEX_UNLOCKED /\ device_idx d' = device_ring_idx d /\ pending d' = 0%nat.
Proof.
  intros Hd Hl Hh Hlen Hes. unfold input_handle. cbn [viodev]. rewrite Hl.
  change (mutex_spinlock MUTEX_UNLOCKED) with (Ok MUTEX_LOCKED). cbn [res_bind].
  assert (pending d <= Z.to_nat (2 ^ 16))%nat.
  { unfold pending. pose proof (u16_range (device_ring_idx d - device_idx d)). lia. }
  assert (virtio_ok (set_lock d MUTEX_LOCKED)) as Hd' by (destruct Hd; by split).
  exact (drain_loop es (S (Z.to_nat (2 ^ 16))) 0 (set_lock d MUTEX_LOCKED) rb evs Hd' Hh Hlen Hes
    ltac:(lia) ltac:(lia) ltac:(lia)).
Qed.

(** A malformed entry makes input_handle return (uint32_t)-1 with the
    device lock still held; the next call on that device spins forever. *)
Theorem input_handle_bad_len_keeps_lock d rb id len : vlock d = MUTEX_UNLOCKED ->
  device_idx d <> device_ring_idx d -> queue_size d <> 0 ->
  device_ring d !! Z.to_nat (device_idx d mod queue_size d) = Some (id, len) ->
  len <> sizeof_InputEvent ->
  exists dev', input_handle (mkInput d rb) = Ok (u32 (-1), dev') /\
    input_handle dev' = Hang.
Proof.
  intros Hl Hne Hq He Hlen. unfold input_handle at 1. cbn [viodev]. rewrite Hl.
  change (mutex_spinlock MUTEX_UNLOCKED) with (Ok MUTEX_LOCKED). cbn [res_bind].
  rewrite loop_S. generalize (Z.to_nat (2 ^ 16)). intros n. unfold handle_body at 1.
  cbn [set_lock device_idx device_ring_idx queue_size device_ring ring_buffer].
  replace (device_idx d =? device_ring_idx d) with false by lia.
  replace (queue_size d =? 0) with false by lia. rewrite He. cbn [deref res_bind].
  replace (len =? sizeof_InputEvent) with false by lia. cbn [negb res_bind].
  eexists. split; [done|]. unfold input_handle. cbn [viodev consume set_lock vlock]. done.
Qed.

(** A queue of four entries with two events pending: key A pressed, then a SYN. *)
Definition demo_virtio : VirtioDevice :=
  mkVirtio MUTEX_UNLOCKED 4 65535 1 [(1, 8); (0, 8); (2, 8); (0, 8)]
    [0x1001E0001; 0; 0x1001E0001] 0.

Lemma input_handle_drains_witness :
  exists d' rb', input_handle (mkInput demo_virtio empty_events) =
      Ok (count_events [0x1001E0001; 0], mkInput d' rb') /\
    holds rb' (fold_left enqueue [0x1001E0001; 0] []) /\
    vlock d' = MUTEX_UNLOCKED /\ device_idx d' = device_ring_idx demo_virtio /\
    pending d' = 0%nat.
Proof.
  apply input_handle_drains; [split; vm_compute; done | done | apply empty_holds | done |].
  intros [|[|k]] e E; vm_compute in E; [| | done]; injection E as <-; by vm_compute.
Defined.

Lemma input_handle_bad_len_keeps_lock_witness :
  exists dev', input_handle (mkInput (mkVirtio MUTEX_UNLOCKED 1 0 1 [(0, 4)] [7] 0) empty_events) =
      Ok (u32 (-1), dev') /\ input_handle dev' = Hang.
Proof. by eapply (input_handle_bad_len_keeps_lock _ _ 0 4). Defined.

(** get_keyboard indexes keys[] with the device's 16-bit code unchecked: the
    Up-arrow event (code 103) reads past the 58 entries. *)
Theorem get_keyboard_out_of_bounds :
  exists rb1, input_ring_buffer_push empty_events 0x100670001 = Ok rb1 /\
    get_keyboard (mkInput (mkVirtio MUTEX_UNLOCKED 1 0 0 [] [] 0) rb1) = Ub.
Proof.
  destruct (event_push empty_events [] 0x100670001 empty_holds) as (rb1 & E & Hh1).
  exists rb1. split; [done|]. cbn [length app] in Hh1.
  destruct (event_pop rb1 0x100670001 [] ltac:(lia) Hh1) as (rb2 & E2 & _).
  unfold get_keyboard.
  assert (input_handle (mkInput (mkVirtio MUTEX_UNLOCKED 1 0 0 [] [] 0) rb1) =
    Ok (0, mkInput (mkVirtio MUTEX_UNLOCKED 1 0 0 [] [] 0) rb1)) as -> by done.
  cbn [res_bind snd ring_buffer]. pose proof (length_contents rb1) as Hl.
  rewrite (h_items _ _ Hh1), length_flat in Hl. cbn [length] in Hl.
  unfold ring_size. replace (size rb1 >? 0) with true by lia. rewrite E2. done.
Qed.
