(* ===== verification/DList.v ===== *)
(** The doubly linked circular list of src/util/src/list.c, at pointer level.

    The heap maps the address of a [ListElem] to its fields; the head of a list
    is an element too, at the address of the [List]. Reading or writing through
    an address the heap does not hold (null, or freed) is [Ub]. The address
    [g_kzalloc] returns is an argument of the operations that allocate. "Ascending"
    follows [prev] from the head, as [list_for_each] does: oldest element first. *)
From Stdlib Require Import Sorted.
From S2P Require Import Prelude.

Record ListElem := mkElem { value : Z; next : Z; prev : Z }.

Abbreviation lheap := (gmap Z ListElem).

Definition elem (h : lheap) (p : Z) : res ListElem := deref (h !! p).

Definition set_value (h : lheap) (p v : Z) : res lheap :=
  let* e := elem h p in Ok (<[p := mkElem v (next e) (prev e)]> h).
Definition set_next (h : lheap) (p n : Z) : res lheap :=
  let* e := elem h p in Ok (<[p := mkElem (value e) n (prev e)]> h).
Definition set_prev (h : lheap) (p q : Z) : res lheap :=
  let* e := elem h p in Ok (<[p := mkElem (value e) (next e) q]> h).

Definition g_kfree (h : lheap) (p : Z) : lheap := delete p h.

(** ** Operations *)

Definition list_init (h : lheap) (lst : Z) : res lheap :=
  let* h := set_next h lst lst in set_prev h lst lst.

(** [lst] is what [g_kmalloc] returned. *)
Definition list_new (h : lheap) (lst : Z) : res (Z * lheap) :=
  if lst =? 0 then Ok (0, h)
  else let* h := list_init (<[lst := mkElem 0 0 0]> h) lst in Ok (lst, h).

(** [l] is what [g_kzalloc] returned; a null is not checked for. *)
Definition list_add (h : lheap) (lst l v : Z) : res lheap :=
  if l =? 0 then Ub
  else
    let h := <[l := mkElem 0 0 0]> h in
    let* hd := elem h lst in
    let* h := set_next h l (next hd) in
    let* h := set_prev h l lst in
    let* e := elem h l in
    let* h := set_prev h (next e) l in
    let* e := elem h l in
    let* h := set_next h (prev e) l in
    set_value h l v.

Definition list_remove_elem (h : lheap) (p : Z) : res lheap :=
  let* e := elem h p in
  let* h := set_prev h (next e) (prev e) in
  let* e := elem h p in
  let* h := set_next h (prev e) (next e) in
  Ok (g_kfree h p).

Definition list_fuel (h : lheap) : nat := S (size h).

Definition list_elem_valid (lst e : Z) : bool := negb (e =? 0) && negb (e =? lst).

(** [list_for_each] up to the first element [f] accepts. *)
Definition list_search (h : lheap) (lst : Z) (f : ListElem -> bool) : res Z :=
  let* hd := elem h lst in
  loop (list_fuel h)
    (fun e => if list_elem_valid lst e then
                let* x := elem h e in if f x then Ok (Done e) else Ok (Next (prev x))
              else Ok (Done 0)) (prev hd).

Definition list_find_elem (h : lheap) (lst v : Z) : res Z :=
  list_search h lst (fun x => value x =? v).

Definition list_contains (h : lheap) (lst v : Z) : res bool :=
  let* e := list_find_elem h lst v in Ok (negb (e =? 0)).

Definition list_remove (h : lheap) (lst v : Z) : res (bool * lheap) :=
  let* e := list_find_elem h lst v in
  if e =? 0 then Ok (false, h) else let* h := list_remove_elem h e in Ok (true, h).

Definition list_pop (h : lheap) (lst : Z) : res (Z * lheap) :=
  let* hd := elem h lst in
  if lst =? prev hd then Ok (0, h)
  else let* h' := list_remove_elem h (prev hd) in Ok (prev hd, h').

Definition list_pop_back (h : lheap) (lst : Z) : res (Z * lheap) :=
  let* hd := elem h lst in
  if lst =? next hd then Ok (0, h)
  else let* h' := list_remove_elem h (next hd) in Ok (next hd, h').

Definition list_size (h : lheap) (lst : Z) : res Z :=
  let* hd := elem h lst in
  loop (list_fuel h)
    (fun '(e, s) => if list_elem_valid lst e then
                      let* x := elem h e in Ok (Next (prev x, u64 (s + 1)))
                    else Ok (Done s)) (prev hd, 0).

Definition list_clear (h : lheap) (lst : Z) : res lheap :=
  let* hd := elem h lst in
  loop (list_fuel h)
    (fun '(e, h) => if e =? lst then Ok (Done h)
                    else let* x := elem h e in
                         let* h' := list_remove_elem h e in Ok (Next (next x, h'))) (next hd, h).

Definition list_free (h : lheap) (lst : Z) : res lheap :=
  if lst =? 0 then Ok h
  else
    let* hd := elem h lst in
    let* h := loop (list_fuel h)
      (fun '(e, h) => if e =? lst then Ok (Done h)
                      else let* x := elem h e in Ok (Next (next x, g_kfree h e))) (next hd, h) in
    Ok (g_kfree h lst).

(** One pass of [list_sort]: [(heap, swapped)]. *)
Definition sort_pass (comp : Z -> Z -> bool) (h : lheap) (lst : Z) : res (lheap * bool) :=
  let* hd := elem h lst in
  loop (list_fuel h)
    (fun '(e, h, swapped) =>
       let* x := elem h e in
       if prev x =? lst then Ok (Done (h, swapped))
       else
         let* y := elem h (prev x) in
         if comp (value x) (value y) then Ok (Next (prev x, h, swapped))
         else
           let* h := set_value h e (value y) in
           let* h := set_value h (prev x) (value x) in
           Ok (Next (prev x, h, true))) (prev hd, h, false).

(** The [do .. while (swapped)]; [n] bounds the passes. *)
Definition list_sort (n : nat) (comp : Z -> Z -> bool) (h : lheap) (lst : Z) : res lheap :=
  loop n (fun h => let* r := sort_pass comp h lst in
                   if snd r then Ok (Next (fst r)) else Ok (Done (fst r))) h.

Definition list_sort_signed_long_comparator_ascending (left right : Z) : bool :=
  s64 left <=? s64 right.
Definition list_sort_signed_long_comparator_descending (left right : Z) : bool :=
  s64 left >=? s64 right.
Definition list_sort_unsigned_long_comparator_ascending (left right : Z) : bool :=
  left <=? right.
Definition list_sort_unsigned_long_comparator_descending (left right : Z) : bool :=
  left >=? right.

(** ** Circular paths *)

Definition prevf (h : lheap) (p : Z) : option Z := prev <$> h !! p.
Definition nextf (h : lheap) (p : Z) : option Z := next <$> h !! p.

Definition link (h : lheap) (p q : Z) : Prop := prevf h p = Some q /\ nextf h q = Some p.

(** From [p], the [prev] links visit [ps] and arrive at [q]; the [next] links back. *)
Fixpoint path (h : lheap) (p : Z) (ps : list Z) (q : Z) : Prop :=
  match ps with
  | [] => link h p q
  | x :: ps' => link h p x /\ path h x ps' q
  end.

Lemma path_frame h h' : forall ps p q,
  (forall a, a ∈ p :: ps -> prevf h' a = prevf h a) ->
  (forall b, b ∈ ps ++ [q] -> nextf h' b = nextf h b) -> path h p ps q -> path h' p ps q.
Proof.
  induction ps as [|x ps IH]; intros p q Hp Hn H; cbn [path] in *; unfold link in *.
  - rewrite Hp, Hn; [done | by left..].
  - destruct H as [[H1 H2] H]. split.
    + rewrite Hp, Hn; [done | by left..].
    + apply IH; [| | done].
      * intros a Ha. apply Hp. by right.
      * intros b Hb. apply Hn. cbn. by right.
Qed.

Lemma path_app h p ps1 e ps2 q :
  path h p (ps1 ++ e :: ps2) q <-> path h p ps1 e /\ path h e ps2 q.
Proof.
  revert p. induction ps1 as [|x ps1 IH]; intros p; cbn [path app]; [done|].
  rewrite IH. tauto.
Qed.

(** The pointers of the list at [lst], oldest first, and its values. *)
Record dlist (h : lheap) (lst : Z) (ps : list Z) : Prop := mkDlist {
  dl_nodup : NoDup (lst :: ps);
  dl_nonnull : 0 ∉ lst :: ps;
  dl_path : path h lst ps lst
}.

Definition val_at (h : lheap) (p : Z) : Z := default 0 (value <$> h !! p).
Definition vals (h : lheap) (ps : list Z) : list Z := val_at h <$> ps.

(** The list at [lst] holds the values [l], oldest first. *)
Definition holds_list (h : lheap) (lst : Z) (l : list Z) : Prop :=
  exists ps, dlist h lst ps /\ vals h ps = l.

Lemma path_elems h : forall ps p q a, path h p ps q -> a ∈ p :: ps -> is_Some (h !! a).
Proof.
  induction ps as [|x ps IH]; intros p q a H Ha; cbn [path] in H.
  - apply elem_of_cons in Ha as [->|[]%elem_of_nil]. destruct H as [H _].
    unfold prevf in H. destruct (h !! p); [eauto | done].
  - destruct H as [[H _] Hp]. apply elem_of_cons in Ha as [->|Ha]; [|by eapply IH].
    unfold prevf in H. destruct (h !! p); [eauto | done].
Qed.

Lemma dlist_elem h lst ps a : dlist h lst ps -> a ∈ lst :: ps -> is_Some (h !! a).
Proof. intros [_ _ H] Ha. by eapply path_elems. Qed.

Lemma dlist_size h lst ps : dlist h lst ps -> (S (length ps) <= size h)%nat.
Proof.
  intros Hd. change (S (length ps)) with (length (lst :: ps)).
  rewrite <- (size_list_to_set (C := gset Z)) by apply Hd. rewrite <- size_dom.
  apply subseteq_size. intros a Ha%elem_of_list_to_set. apply elem_of_dom.
  by eapply dlist_elem.
Qed.

(** ** Field updates *)

Lemma prevf_elem h p : is_Some (h !! p) -> exists e, elem h p = Ok e /\
  h !! p = Some e /\ prevf h p = Some (prev e) /\ nextf h p = Some (next e) /\ val_at h p = value e.
Proof.
  intros [e E]. exists e. unfold elem, prevf, nextf, val_at. by rewrite E.
Qed.

(** Each setter changes one field of one element. *)
Lemma set_prev_ok h p q : is_Some (h !! p) -> exists h', set_prev h p q = Ok h' /\
  dom h' = dom h /\
  (forall a, prevf h' a = if decide (a = p) then Some q else prevf h a) /\
  (forall a, nextf h' a = nextf h a) /\ (forall a, val_at h' a = val_at h a).
Proof.
  intros [e E]. unfold set_prev, elem. rewrite E. eexists. split; [done|].
  split; [apply dom_insert_lookup_L; eauto|]. unfold prevf, nextf, val_at.
  split; [|split]; intros a; destruct (decide (a = p)) as [->|];
    rewrite ?lookup_insert_eq, ?lookup_insert_ne, ?E by done; done.
Qed.

Lemma set_next_ok h p q : is_Some (h !! p) -> exists h', set_next h p q = Ok h' /\
  dom h' = dom h /\
  (forall a, nextf h' a = if decide (a = p) then Some q else nextf h a) /\
  (forall a, prevf h' a = prevf h a) /\ (forall a, val_at h' a = val_at h a).
Proof.
  intros [e E]. unfold set_next, elem. rewrite E. eexists. split; [done|].
  split; [apply dom_insert_lookup_L; eauto|]. unfold prevf, nextf, val_at.
  split; [|split]; intros a; destruct (decide (a = p)) as [->|];
    rewrite ?lookup_insert_eq, ?lookup_insert_ne, ?E by done; done.
Qed.

Lemma set_value_ok h p v : is_Some (h !! p) -> exists h', set_value h p v = Ok h' /\
  dom h' = dom h /\
  (forall a, val_at h' a = if decide (a = p) then v else val_at h a) /\
  (forall a, prevf h' a = prevf h a) /\ (forall a, nextf h' a = nextf h a).
Proof.
  intros [e E]. unfold set_value, elem. rewrite E. eexists. split; [done|].
  split; [apply dom_insert_lookup_L; eauto|]. unfold prevf, nextf, val_at.
  split; [|split]; intros a; destruct (decide (a = p)) as [->|];
    rewrite ?lookup_insert_eq, ?lookup_insert_ne, ?E by done; done.
Qed.

Lemma dom_is_Some (h h' : lheap) p : dom h' = dom h -> is_Some (h !! p) -> is_Some (h' !! p).
Proof. intros Hd H. apply elem_of_dom. rewrite Hd. by apply elem_of_dom. Qed.

Lemma delete_fields h p a : a <> p -> prevf (g_kfree h p) a = prevf h a /\
  nextf (g_kfree h p) a = nextf h a /\ val_at (g_kfree h p) a = val_at h a.
Proof.
  intros Ha. unfold prevf, nextf, val_at, g_kfree. by rewrite !lookup_delete_ne by done.
Qed.

(** ** Removal *)

(** The neighbours of the element after [ps1]. *)
Definition before_of (p : Z) (ps1 : list Z) : Z := default p (last ps1).
Definition after_of (ps2 : list Z) (q : Z) : Z := default q (head ps2).

Lemma path_last h p ps q : path h p ps q -> nextf h q = Some (before_of p ps) .
Proof.
  revert p. induction ps as [|x ps IH]; intros p; cbn [path]; [by intros [_ H]|].
  intros [_ H]. rewrite (IH _ H). unfold before_of. rewrite last_cons. by destruct (last ps).
Qed.

Lemma path_first h p ps q : path h p ps q -> prevf h p = Some (after_of ps q).
Proof. destruct ps as [|x ps]; cbn [path]; [by intros [H _] | by intros [[H _] _]]. Qed.

(** Joining the two sides of a removed element. *)
Lemma path_join h h' e q : forall ps1 ps2 p,
  path h p (ps1 ++ e :: ps2) q -> NoDup (p :: ps1 ++ ps2) -> NoDup (ps1 ++ ps2 ++ [q]) ->
  (forall a, a ∈ p :: ps1 ++ ps2 ->
     prevf h' a = if decide (a = before_of p ps1) then Some (after_of ps2 q) else prevf h a) ->
  (forall a, a ∈ ps1 ++ ps2 ++ [q] ->
     nextf h' a = if decide (a = after_of ps2 q) then Some (before_of p ps1) else nextf h a) ->
  path h' p (ps1 ++ ps2) q.
Proof.
  induction ps1 as [|x ps1 IH]; intros ps2 p H N1 N2 Hp Hn; cbn [app path] in *.
  - change (before_of p []) with p in *. destruct H as [_ H].
    destruct ps2 as [|y ps2]; cbn [path app] in *.
    + change (after_of [] q) with q in *. unfold link.
      rewrite Hp, Hn by left. by rewrite !decide_True by done.
    + change (after_of (y :: ps2) q) with y in *. destruct H as [_ H].
      apply NoDup_cons in N1 as [Np N1], N2 as [Ny N2]. split.
      { unfold link. rewrite Hp, Hn by left. by rewrite !decide_True by done. }
      eapply path_frame; [| | exact H].
      * intros a Ha. rewrite Hp by (by right). rewrite decide_False; [done|]. naive_solver.
      * intros b Hb. rewrite Hn by (by right). rewrite decide_False; [done|]. naive_solver.
  - destruct H as [[L1 L2] H].
    assert (before_of p (x :: ps1) = before_of x ps1) as Eb.
    { unfold before_of. rewrite last_cons. by destruct (last ps1). }
    rewrite Eb in *. apply NoDup_cons in N1 as [Np N1], N2 as [Nx N2].
    assert (before_of x ps1 ∈ x :: ps1) as Hb.
    { unfold before_of. destruct (last ps1) eqn:El; cbn; [|left].
      right. by apply last_Some_elem_of. }
    assert (after_of ps2 q ∈ ps2 ++ [q]) as Ha by (destruct ps2; cbn; left).
    split.
    + unfold link. rewrite Hp, Hn by left. rewrite !decide_False; [done | |].
      * intros ->. apply Nx. apply elem_of_app. by right.
      * intros E. apply Np. rewrite E. by rewrite app_comm_cons, elem_of_app; left.
    + apply IH; [done | done | done | |].
      * intros a Hin. apply Hp. by right.
      * intros a Hin. apply Hn. by right.
Qed.

Lemma before_of_in p ps : before_of p ps ∈ p :: ps.
Proof.
  unfold before_of. destruct (last ps) eqn:E; cbn; [|left]. right. by apply last_Some_elem_of.
Qed.

Lemma after_of_in ps q : after_of ps q ∈ ps ++ [q].
Proof. destruct ps; cbn; left. Qed.

Lemma vals_ext h h' ps : (forall a, a ∈ ps -> val_at h' a = val_at h a) -> vals h' ps = vals h ps.
Proof.
  intros H. unfold vals. apply list_fmap_ext. intros i a Ha. apply H. by eapply list_elem_of_lookup_2.
Qed.

Lemma remove_elem_ok h lst ps1 e ps2 : dlist h lst (ps1 ++ e :: ps2) ->
  exists h', list_remove_elem h e = Ok h' /\ dlist h' lst (ps1 ++ ps2) /\ h' !! e = None /\
    vals h' (ps1 ++ ps2) = vals h (ps1 ++ ps2).
Proof.
  intros Hd. destruct (Hd) as [Hnd Hnn Hpath].
  assert (lst :: ps1 ++ e :: ps2 ≡ₚ e :: lst :: ps1 ++ ps2) as Eperm
    by (rewrite <- Permutation_middle; constructor).
  pose proof Hnd as Hnd'. rewrite Eperm in Hnd'. apply NoDup_cons in Hnd' as [He Hrest].
  pose proof (proj1 (path_app _ _ _ _ _ _) Hpath) as [P1 P2].
  pose proof (path_last _ _ _ _ P1) as En. pose proof (path_first _ _ _ _ P2) as Ep.
  set (b := before_of lst ps1) in *. set (c := after_of ps2 lst) in *.
  assert (b ∈ lst :: ps1 ++ ps2) as Hb.
  { pose proof (before_of_in lst ps1) as H. fold b in H. rewrite app_comm_cons. apply elem_of_app. by left. }
  assert (c ∈ lst :: ps1 ++ ps2) as Hc.
  { pose proof (after_of_in ps2 lst) as H. fold c in H. apply elem_of_app in H.
    rewrite elem_of_cons, elem_of_app, <- (list_elem_of_singleton c lst). tauto. }
  assert (b <> e) as Hbe by congruence. assert (c <> e) as Hce by congruence.
  assert (forall a, a ∈ lst :: ps1 ++ ps2 -> is_Some (h !! a)) as Hin.
  { intros a Ha. eapply dlist_elem; [exact Hd|]. rewrite Eperm. by right. }
  destruct (prevf_elem h e) as (x & Ex & Lx & Epx & Enx & _).
  { eapply dlist_elem; [exact Hd|]. rewrite Eperm. left. }
  assert (next x = b) as Eb by congruence. assert (prev x = c) as Ec by congruence.
  unfold list_remove_elem. rewrite Ex. cbn [res_bind]. rewrite Eb, Ec.
  destruct (set_prev_ok h b c (Hin b Hb)) as (h1 & -> & D1 & Q1 & Q2 & Q3). cbn [res_bind].
  destruct (prevf_elem h1 e) as (x1 & -> & _ & Epx1 & Enx1 & _).
  { eapply dom_is_Some; [exact D1 | eauto]. }
  rewrite Q1, decide_False in Epx1 by done. rewrite Q2 in Enx1. cbn [res_bind].
  assert (next x1 = b) as -> by congruence. assert (prev x1 = c) as -> by congruence.
  destruct (set_next_ok h1 c b) as (h2 & -> & D2 & R1 & R2 & R3).
  { eapply dom_is_Some; [exact D1 | auto]. }
  cbn [res_bind]. exists (g_kfree h2 e). split; [done|].
  split; [split|split; [apply lookup_delete_eq|]].
  - done.
  - intros H0. apply Hnn. rewrite Eperm. by right.
  - eapply (path_join h (g_kfree h2 e) e lst ps1 ps2 lst Hpath); [done | | |].
    + rewrite app_assoc. apply NoDup_cons in Hrest as [? ?]. apply NoDup_app.
      split; [done|]. split; [|apply NoDup_singleton]. intros a Ha ->%list_elem_of_singleton. done.
    + intros a Ha. assert (a <> e) by congruence.
      destruct (delete_fields h2 e a) as (-> & _ & _); [done|]. by rewrite R2, Q1.
    + intros a Ha. assert (a ∈ lst :: ps1 ++ ps2) as Ha'.
      { rewrite app_assoc, elem_of_app, list_elem_of_singleton in Ha. rewrite elem_of_cons. tauto. }
      assert (a <> e) by congruence.
      destruct (delete_fields h2 e a) as (_ & -> & _); [done|]. by rewrite R1, Q2.
  - apply vals_ext. intros a Ha. assert (a <> e) by (intros ->; apply He; by right).
    destruct (delete_fields h2 e a) as (_ & _ & ->); [done|]. by rewrite R3, Q3.
Qed.

(** ** Searching, in list order *)

Lemma search_loop h lst (f : ListElem -> bool) : forall ps2 ps1 n, dlist h lst (ps1 ++ ps2) -> (length ps2 < n)%nat ->
  loop n (fun e => if list_elem_valid lst e then
                let* x := elem h e in if f x then Ok (Done e) else Ok (Next (prev x))
              else Ok (Done 0)) (after_of ps2 lst) =
  Ok (default 0 (head (filter (fun a => from_option f false (h !! a) = true) ps2))).
Proof.
  induction ps2 as [|a ps2 IH]; intros ps1 n Hd Hn; (destruct n as [|n]; [cbn in Hn; lia|]);
    rewrite loop_S.
  - change (after_of [] lst) with lst. unfold list_elem_valid. rewrite Z.eqb_refl, andb_false_r. done.
  - change (after_of (a :: ps2) lst) with a. destruct (Hd) as [Hnd Hnn Hpath].
    assert (a ∈ ps1 ++ a :: ps2) as Ha by (apply elem_of_app; right; left).
    assert (a <> 0) by (intros ->; apply Hnn; by right).
    assert (a <> lst) by (intros ->; by apply NoDup_cons in Hnd as [? _]).
    unfold list_elem_valid at 1. replace (a =? 0) with false by lia.
    replace (a =? lst) with false by lia. cbn [negb andb].
    destruct (prevf_elem h a) as (x & -> & Lx & Ep & _); [eapply dlist_elem; [done | by right]|].
    cbn [res_bind]. rewrite filter_cons, Lx. cbn [from_option].
    apply path_app in Hpath as [_ P2]. rewrite (path_first _ _ _ _ P2) in Ep. injection Ep as <-.
    destruct (f x) eqn:Ef; cbn [res_bind]; [by rewrite decide_True by done|].
    rewrite decide_False by done. apply (IH (ps1 ++ [a])); [by rewrite <- app_assoc|].
    cbn in Hn. lia.
Qed.

Lemma search_ok h lst (f : ListElem -> bool) ps : dlist h lst ps -> list_search h lst f =
  Ok (default 0 (head (filter (fun a => from_option f false (h !! a) = true) ps))).
Proof.
  intros Hd. unfold list_search.
  destruct (prevf_elem h lst) as (x & -> & _ & Ep & _); [eapply dlist_elem; [done | left]|].
  cbn [res_bind]. rewrite (path_first _ _ _ _ (dl_path _ _ _ Hd)) in Ep. injection Ep as <-.
  apply (search_loop h lst f ps []); [done|]. pose proof (dlist_size _ _ _ Hd).
  unfold list_fuel. lia.
Qed.

(** The first element that holds [v], when there is one. *)
Lemma find_elem_ok h lst v ps : dlist h lst ps ->
  (list_find_elem h lst v = Ok 0 /\ v ∉ vals h ps) \/
  exists ps1 e ps2, ps = ps1 ++ e :: ps2 /\ list_find_elem h lst v = Ok e /\ e <> 0 /\
    val_at h e = v /\ v ∉ vals h ps1.
Proof.
  intros Hd. unfold list_find_elem. rewrite (search_ok _ _ _ _ Hd).
  assert (forall a, a ∈ ps -> from_option (fun x => value x =? v) false (h !! a) = true <->
    val_at h a = v) as Hv.
  { intros a Ha. destruct (dlist_elem _ _ _ a Hd) as [x Ex]; [by right|].
    unfold val_at. rewrite Ex. cbn. apply Z.eqb_eq. }
  pose proof (dl_nonnull _ _ _ Hd) as Hnn. clear Hd.
  induction ps as [|a ps IH]; [left; split; [done | apply not_elem_of_nil]|].
  rewrite filter_cons. destruct (decide (from_option (fun x => value x =? v) false (h !! a) = true)) as [Ht|Hf].
  - right. exists [], a, ps. split; [done|]. split; [done|].
    split; [intros ->; apply Hnn; right; left|]. split; [by apply Hv; [left|] | apply not_elem_of_nil].
  - assert (val_at h a <> v) by (rewrite <- Hv; [done | left]).
    destruct IH as [[E Hno] | (ps1 & e & ps2 & -> & E & He & Ev & Hno)].
    + intros b Hb. apply Hv. by right.
    + intros H0. apply Hnn. apply elem_of_cons in H0 as [->|]; [left | by do 2 right].
    + left. split; [done|]. unfold vals in *. cbn. rewrite not_elem_of_cons. auto.
    + right. exists (a :: ps1), e, ps2. do 4 (split; [done|]).
      unfold vals in *. cbn. rewrite not_elem_of_cons. auto.
Qed.

(** ** Freeing a whole list *)

(** The heap without the elements [ps]. *)
Definition without (h : lheap) (ps : list Z) : lheap := foldr (fun a h => g_kfree h a) h ps.

Lemma without_lookup h ps a : without h ps !! a = if decide (a ∈ ps) then None else h !! a.
Proof.
  induction ps as [|x ps IH]; cbn [without foldr]; [by rewrite decide_False by apply not_elem_of_nil|].
  unfold g_kfree at 1. destruct (decide (a = x)) as [->|Hne].
  - rewrite lookup_delete_eq, decide_True by left. done.
  - rewrite lookup_delete_ne by done. fold (without h ps). rewrite IH.
    apply decide_ext. rewrite elem_of_cons. tauto.
Qed.

(** The walk of [list_free]: the elements after [ps1] are gone, the last of [ps1]
    is next. *)
Lemma free_loop h lst : forall n ps1 ps2, dlist h lst (ps1 ++ ps2) -> (length ps1 < n)%nat ->
  loop n (fun '(e, h) => if e =? lst then Ok (Done h)
            else let* x := elem h e in Ok (Next (next x, g_kfree h e)))
    (before_of lst ps1, without h ps2) = Ok (without h (ps1 ++ ps2)).
Proof.
  induction n as [|n IH]; intros ps1 ps2 Hd Hn; [lia|]. rewrite loop_S.
  pose proof (dl_nodup _ _ _ Hd) as Hnd. destruct ps1 as [|e ps1 _] using rev_ind.
  { change (before_of lst []) with lst. by rewrite Z.eqb_refl. }
  rewrite length_app in Hn. cbn [length] in Hn. rewrite <- app_assoc in *. cbn [app] in *.
  assert (before_of lst (ps1 ++ [e]) = e) as -> by (unfold before_of; by rewrite last_snoc).
  apply NoDup_cons in Hnd as [Hl Hnd]. apply NoDup_app in Hnd as (_ & _ & [He _]%NoDup_cons).
  assert (e <> lst) as Hel by (intros ->; apply Hl, elem_of_app; right; left).
  rewrite (proj2 (Z.eqb_neq _ _)) by done.
  destruct (prevf_elem h e) as (x & Ex & Lx & _ & Nx & _).
  { eapply dlist_elem; [done|]. right. apply elem_of_app. right. left. }
  unfold elem. rewrite without_lookup, decide_False, Lx by done. cbn [deref res_bind].
  pose proof (dl_path _ _ _ Hd) as Hp. apply path_app in Hp as [Hp _].
  apply path_last in Hp. rewrite Nx in Hp. injection Hp as ->.
  change (g_kfree (without h ps2) e) with (without h (e :: ps2)). apply IH; [done | lia].
Qed.

(** [list_free] takes the elements and the head off the heap, and nothing else. *)
Lemma list_free_ok h lst ps : dlist h lst ps -> list_free h lst = Ok (without h (lst :: ps)).
Proof.
  intros Hd. assert (lst <> 0) as Hl by (intros ->; apply (dl_nonnull _ _ _ Hd); left).
  unfold list_free. rewrite (proj2 (Z.eqb_neq _ _)) by done.
  destruct (prevf_elem h lst) as (x & -> & _ & _ & Nx & _); [eapply dlist_elem; [done | left]|].
  cbn [res_bind]. rewrite (path_last _ _ _ _ (dl_path _ _ _ Hd)) in Nx. injection Nx as <-.
  pose proof (dlist_size _ _ _ Hd).
  pose proof (free_loop h lst (list_fuel h) ps []) as H1. rewrite app_nil_r in H1.
  change (without h []) with h in H1. rewrite H1; [done | done | unfold list_fuel; lia].
Qed.

(** ** Insertion *)

Lemma path_retarget h h' q q' : forall ps p, path h p ps q -> NoDup (p :: ps) ->
  (forall a, a ∈ p :: ps ->
     prevf h' a = if decide (a = before_of p ps) then Some q' else prevf h a) ->
  (forall b, b ∈ ps -> nextf h' b = nextf h b) -> nextf h' q' = Some (before_of p ps) ->
  path h' p ps q'.
Proof.
  induction ps as [|x ps IH]; intros p H N Hp Hn Hq; cbn [path] in *.
  - change (before_of p []) with p in *. split; [|done]. rewrite Hp by left.
    by rewrite decide_True.
  - assert (before_of p (x :: ps) = before_of x ps) as Eb.
    { unfold before_of. rewrite last_cons. by destruct (last ps). }
    rewrite Eb in *. destruct H as [[L1 L2] H]. apply NoDup_cons in N as [Np N]. split.
    + unfold link. rewrite Hp, Hn by left. rewrite decide_False; [done|].
      intros ->. apply Np, before_of_in.
    + apply IH; [done | done | | | done].
      * intros a Ha. apply Hp. by right.
      * intros b Hb. apply Hn. by right.
Qed.

Lemma path_snoc h p ps x q : path h p (ps ++ [x]) q <-> path h p ps x /\ link h x q.
Proof. by rewrite path_app. Qed.

Lemma list_add_ok h lst ps l v : dlist h lst ps -> l <> 0 -> h !! l = None ->
  exists h', list_add h lst l v = Ok h' /\ dlist h' lst (ps ++ [l]) /\
    vals h' (ps ++ [l]) = vals h ps ++ [v].
Proof.
  intros Hd Hl Hfresh. destruct (Hd) as [Hnd Hnn Hpath].
  assert (forall a, a ∈ lst :: ps -> a <> l) as Hne.
  { intros a Ha ->. destruct (dlist_elem _ _ _ _ Hd Ha) as [x E]. congruence. }
  unfold list_add. replace (l =? 0) with false by lia.
  set (h0 := <[l := mkElem 0 0 0]> h).
  assert (forall a, a <> l -> h0 !! a = h !! a) as E0 by (intros; by apply lookup_insert_ne).
  assert (forall a, a ∈ lst :: ps -> is_Some (h0 !! a)) as Hin.
  { intros a Ha. rewrite E0 by auto. by eapply dlist_elem. }
  assert (is_Some (h0 !! l)) as Hinl by (unfold h0; rewrite lookup_insert_eq; eauto).
  set (b := before_of lst ps). pose proof (before_of_in lst ps) as Hb. fold b in Hb.
  destruct (prevf_elem h0 lst (Hin lst ltac:(left))) as (hd & -> & _ & _ & En & _). cbn [res_bind].
  assert (next hd = b) as ->.
  { pose proof (path_last _ _ _ _ Hpath) as E. fold b in E.
    unfold nextf in *. rewrite E0 in En by (apply Hne; left). congruence. }
  destruct (set_next_ok h0 l b Hinl) as (h1 & -> & D1 & A1 & A2 & A3). cbn [res_bind].
  destruct (set_prev_ok h1 l lst (dom_is_Some _ _ _ D1 Hinl)) as (h2 & -> & D2 & B1 & B2 & B3).
  cbn [res_bind]. assert (dom h2 = dom h0) as D2' by congruence.
  destruct (prevf_elem h2 l (dom_is_Some _ _ _ D2' Hinl)) as (e & -> & _ & Ep & En' & _).
  rewrite B1, decide_True in Ep by done. rewrite B2, A1, decide_True in En' by done.
  injection Ep as Ep. injection En' as En'. cbn [res_bind]. rewrite <- En'.
  destruct (set_prev_ok h2 b l (dom_is_Some _ _ _ D2' (Hin b Hb))) as (h3 & -> & D3 & C1 & C2 & C3).
  cbn [res_bind]. assert (dom h3 = dom h0) as D3' by congruence.
  destruct (prevf_elem h3 l (dom_is_Some _ _ _ D3' Hinl)) as (e' & -> & _ & Ep' & _ & _).
  rewrite C1, decide_False in Ep' by (intros E; by apply (Hne b Hb)).
  rewrite B1, decide_True in Ep' by done. cbn [res_bind]. injection Ep' as <-.
  destruct (set_next_ok h3 lst l) as (h4 & -> & D4 & F1 & F2 & F3).
  { eapply dom_is_Some; [exact D3' | apply Hin; left]. }
  cbn [res_bind]. assert (dom h4 = dom h0) as D4' by congruence.
  destruct (set_value_ok h4 l v (dom_is_Some _ _ _ D4' Hinl)) as (h5 & -> & D5 & G1 & G2 & G3).
  exists h5. split; [done|].
  assert (forall a, a ∈ lst :: ps -> prevf h0 a = prevf h a /\ nextf h0 a = nextf h a /\
    val_at h0 a = val_at h a) as Eold.
  { intros a Ha. unfold prevf, nextf, val_at. by rewrite E0 by auto. }
  apply NoDup_cons in Hnd as [Hlst Hnd']. split; [split|].
  - rewrite app_comm_cons. apply NoDup_app. split; [by constructor|].
    split; [|apply NoDup_singleton]. intros a Ha ->%list_elem_of_singleton. by apply (Hne l).
  - rewrite app_comm_cons, elem_of_app, list_elem_of_singleton. intros [?|?]; [done | congruence].
  - apply path_snoc. split.
    + eapply path_retarget; [exact Hpath | by constructor | | |].
      * intros a Ha. fold b. rewrite G2, F2, C1. case_decide; [done|].
        rewrite B1, decide_False, A2 by auto. apply Eold, Ha.
      * intros a Ha. assert (a <> lst) by congruence. assert (a ∈ lst :: ps) by (by right).
        rewrite G3, F1, decide_False, C2, B2, A1, decide_False by auto. by apply Eold.
      * fold b. rewrite G3, F1, decide_False by (intros E; symmetry in E; apply (Hne lst); [left|done]).
        rewrite C2, B2, A1. by rewrite decide_True.
    + split.
      * rewrite G2, F2, C1, decide_False by (intros E; by apply (Hne b Hb)).
        rewrite B1. by rewrite decide_True.
      * rewrite G3, F1. by rewrite decide_True.
  - unfold vals. rewrite fmap_app. cbn. f_equal.
    + apply vals_ext. intros a Ha. assert (a ∈ lst :: ps) by (by right).
      rewrite G1, decide_False, F3, C3, B3, A3 by auto. by apply Eold.
    + rewrite G1. by rewrite decide_True.
Qed.

(** ** Traversal *)

Lemma size_loop h lst : forall ps2 ps1 n s, dlist h lst (ps1 ++ ps2) -> (length ps2 < n)%nat ->
  0 <= s -> s + Z.of_nat (length ps2) < 2 ^ 64 ->
  loop n (fun '(e, s) => if list_elem_valid lst e then
                      let* x := elem h e in Ok (Next (prev x, u64 (s + 1)))
                    else Ok (Done s)) (after_of ps2 lst, s) = Ok (s + Z.of_nat (length ps2)).
Proof.
  induction ps2 as [|a ps2 IH]; intros ps1 n s Hd Hn Hs Hb; (destruct n as [|n]; [cbn in Hn; lia|]);
    rewrite loop_S.
  - change (after_of [] lst) with lst. unfold list_elem_valid. rewrite Z.eqb_refl, andb_false_r.
    cbn. f_equal. lia.
  - change (after_of (a :: ps2) lst) with a. destruct (Hd) as [Hnd Hnn Hpath].
    assert (a ∈ ps1 ++ a :: ps2) as Ha by (apply elem_of_app; right; left).
    assert (a <> 0) by (intros ->; apply Hnn; by right).
    assert (a <> lst) by (intros ->; by apply NoDup_cons in Hnd as [? _]).
    unfold list_elem_valid at 1. replace (a =? 0) with false by lia.
    replace (a =? lst) with false by lia. cbn [negb andb].
    destruct (prevf_elem h a) as (x & -> & Lx & Ep & _); [eapply dlist_elem; [done | by right]|].
    cbn [res_bind]. apply path_app in Hpath as [_ P2].
    rewrite (path_first _ _ _ _ P2) in Ep. injection Ep as <-. cbn [length] in *.
    rewrite u64_id by lia. rewrite (IH (ps1 ++ [a])); [f_equal; lia | | lia | lia | lia].
    by rewrite <- app_assoc.
Qed.

Lemma list_size_ok h lst ps : dlist h lst ps -> Z.of_nat (length ps) < 2 ^ 64 ->
  list_size h lst = Ok (Z.of_nat (length ps)).
Proof.
  intros Hd Hb. unfold list_size.
  destruct (prevf_elem h lst) as (x & -> & _ & Ep & _); [eapply dlist_elem; [done | left]|].
  cbn [res_bind]. rewrite (path_first _ _ _ _ (dl_path _ _ _ Hd)) in Ep. injection Ep as <-.
  apply (size_loop h lst ps []); [done | | lia | lia]. pose proof (dlist_size _ _ _ Hd).
  unfold list_fuel. lia.
Qed.

(** The value list without its first [v]. *)
Fixpoint remove_first (v : Z) (l : list Z) : list Z :=
  match l with
  | [] => []
  | x :: l' => if decide (x = v) then l' else x :: remove_first v l'
  end.

Lemma remove_first_split v l1 l2 : v ∉ l1 -> remove_first v (l1 ++ v :: l2) = l1 ++ l2.
Proof.
  induction l1 as [|x l1 IH]; cbn; intros H; [by rewrite decide_True|].
  apply not_elem_of_cons in H as [? H]. rewrite decide_False by congruence. by rewrite IH.
Qed.

Lemma remove_first_none v l : v ∉ l -> remove_first v l = l.
Proof.
  induction l as [|x l IH]; cbn; intros H; [done|].
  apply not_elem_of_cons in H as [? H]. rewrite decide_False by congruence. by rewrite IH.
Qed.

Lemma list_pop_ok h lst ps : dlist h lst ps ->
  exists p h', list_pop h lst = Ok (p, h') /\ holds_list h' lst (tail (vals h ps)) /\
    (vals h ps <> [] -> h' !! p = None).
Proof.
  intros Hd.
  unfold list_pop. destruct (prevf_elem h lst) as (x & -> & _ & Ep & _);
    [eapply dlist_elem; [done | left]|]. cbn [res_bind].
  rewrite (path_first _ _ _ _ (dl_path _ _ _ Hd)) in Ep. injection Ep as <-.
  destruct ps as [|a ps].
  - change (after_of [] lst) with lst. rewrite Z.eqb_refl. eexists _, _. split; [done|].
    split; [by exists [] | done].
  - change (after_of (a :: ps) lst) with a.
    assert (lst <> a) by (intros ->; apply (proj1 (proj1 (NoDup_cons _ _) (dl_nodup _ _ _ Hd))); left).
    replace (lst =? a) with false by lia.
    destruct (remove_elem_ok h lst [] a ps Hd) as (h' & -> & Hd' & Hfree & Hv). cbn [res_bind].
    eexists _, _. split; [done|]. split; [by exists ps | done].
Qed.

Lemma list_pop_back_ok h lst ps : dlist h lst ps ->
  exists p h', list_pop_back h lst = Ok (p, h') /\ holds_list h' lst (removelast (vals h ps)) /\
    (vals h ps <> [] -> h' !! p = None).
Proof.
  intros Hd.
  unfold list_pop_back. destruct (prevf_elem h lst) as (x & -> & _ & _ & En & _);
    [eapply dlist_elem; [done | left]|]. cbn [res_bind].
  rewrite (path_last _ _ _ _ (dl_path _ _ _ Hd)) in En. injection En as <-.
  destruct ps as [|a ps _] using rev_ind.
  - change (before_of lst []) with lst. rewrite Z.eqb_refl. eexists _, _. split; [done|].
    split; [by exists [] | done].
  - assert (before_of lst (ps ++ [a]) = a) as -> by (unfold before_of; by rewrite last_snoc).
    assert (lst <> a) by (intros ->; apply (proj1 (proj1 (NoDup_cons _ _) (dl_nodup _ _ _ Hd)));
      apply elem_of_app; right; left).
    replace (lst =? a) with false by lia.
    destruct (remove_elem_ok h lst ps a [] Hd) as (h' & -> & Hd' & Hfree & Hv). cbn [res_bind].
    rewrite app_nil_r in *. eexists _, _. split; [done|]. split; [|done].
    exists ps. split; [done|]. rewrite Hv. unfold vals. rewrite fmap_app. cbn.
    by rewrite removelast_last.
Qed.

(** (C19) The pointer operations implement a sequence of values, oldest first:
    list_add appends, list_remove deletes the first occurrence and says whether
    there was one, list_contains is membership, list_size the length, list_pop
    removes the oldest element and list_pop_back the newest; the element either
    pop returns has already been freed. *)
Theorem list_ops_refine h lst l : holds_list h lst l -> Z.of_nat (length l) < 2 ^ 64 ->
  (forall p v, p <> 0 -> h !! p = None ->
     exists h', list_add h lst p v = Ok h' /\ holds_list h' lst (l ++ [v])) /\
  (forall v, exists h', list_remove h lst v = Ok (bool_decide (v ∈ l), h') /\
     holds_list h' lst (remove_first v l)) /\
  (forall v, list_contains h lst v = Ok (bool_decide (v ∈ l))) /\
  list_size h lst = Ok (Z.of_nat (length l)) /\
  (exists p h', list_pop h lst = Ok (p, h') /\ holds_list h' lst (tail l) /\
     (l <> [] -> h' !! p = None)) /\
  (exists p h', list_pop_back h lst = Ok (p, h') /\ holds_list h' lst (removelast l) /\
     (l <> [] -> h' !! p = None)).
Proof.
  intros (ps & Hd & <-) Hlen. unfold vals in Hlen. rewrite length_fmap in Hlen.
  split; [|split; [|split; [|split; [|split]]]].
  - intros p v Hp Hf. destruct (list_add_ok h lst ps p v Hd Hp Hf) as (h' & E & Hd' & Hv).
    exists h'. split; [done|]. by exists (ps ++ [p]).
  - intros v. unfold list_remove. destruct (find_elem_ok h lst v ps Hd)
      as [[-> Hno] | (ps1 & e & ps2 & -> & -> & He & Ev & Hno)]; cbn [res_bind].
    + exists h. rewrite bool_decide_eq_false_2 by done. split; [done|].
      rewrite remove_first_none by done. by exists ps.
    + replace (e =? 0) with false by lia.
      destruct (remove_elem_ok h lst ps1 e ps2 Hd) as (h' & -> & Hd' & _ & Hv). cbn [res_bind].
      exists h'. unfold vals in *. rewrite fmap_app, fmap_cons, Ev.
      rewrite bool_decide_eq_true_2 by (apply elem_of_app; right; left). split; [done|].
      exists (ps1 ++ ps2). split; [done|]. unfold vals. rewrite Hv, remove_first_split by done.
      by rewrite fmap_app.
  - intros v. unfold list_contains. destruct (find_elem_ok h lst v ps Hd)
      as [[-> Hno] | (ps1 & e & ps2 & -> & -> & He & Ev & Hno)]; cbn [res_bind].
    + by rewrite bool_decide_eq_false_2.
    + replace (e =? 0) with false by lia. rewrite bool_decide_eq_true_2; [done|].
      unfold vals. rewrite fmap_app, fmap_cons, Ev. apply elem_of_app. right. left.
  - unfold vals. rewrite length_fmap. by apply list_size_ok.
  - by apply list_pop_ok.
  - by apply list_pop_back_ok.
Qed.

(** ** [list_sort] *)

Section sort.
Context (comp : Z -> Z -> bool).

(** One pass over the values: [x] is carried along until it meets a value it may
    precede; the flag says whether anything was swapped. *)
Fixpoint bubble (x : Z) (r : list Z) : list Z * bool :=
  match r with
  | [] => ([x], false)
  | y :: r' =>
      if comp x y then let '(l, s) := bubble y r' in (x :: l, s)
      else let '(l, _) := bubble x r' in (y :: l, true)
  end.

(** The number of pairs in the wrong order. *)
Fixpoint inversions (l : list Z) : nat :=
  match l with
  | [] => 0
  | x :: r => length (filter (fun y => comp x y = false) r) + inversions r
  end.

Lemma inversions_le l : (inversions l <= length l * length l)%nat.
Proof.
  induction l as [|x l IH]; cbn [inversions length]; [done|].
  pose proof (length_filter (fun y => comp x y = false) l). lia.
Qed.

Lemma bubble_perm r : forall x, fst (bubble x r) ≡ₚ x :: r.
Proof.
  induction r as [|y r IH]; intros x; cbn [bubble]; [done|]. destruct (comp x y).
  - specialize (IH y). destruct (bubble y r). cbn in *. by rewrite IH.
  - specialize (IH x). destruct (bubble x r). cbn in *. rewrite IH. constructor.
Qed.

Lemma filter_length_perm (P : Z -> Prop) `{!forall x, Decision (P x)} l l' :
  l ≡ₚ l' -> length (filter P l) = length (filter P l').
Proof. intros E. by rewrite E. Qed.

(** A pass that swaps leaves fewer inversions; one that does not has found the
    list in order. *)
Lemma bubble_inversions (Htot : forall a b, comp a b = false -> comp b a = true) r :
  forall x, if snd (bubble x r) then (inversions (fst (bubble x r)) < inversions (x :: r))%nat
            else fst (bubble x r) = x :: r /\ Sorted (fun a b => comp a b = true) (x :: r).
Proof.
  induction r as [|y r IH]; intros x; cbn [bubble].
  { cbn. split; [done|]. repeat constructor. }
  destruct (comp x y) eqn:E.
  - specialize (IH y). pose proof (bubble_perm r y) as Hp. destruct (bubble y r) as [l [|]].
    + cbn [fst snd] in *. cbn [inversions] in *.
      rewrite (filter_length_perm _ _ _ Hp). lia.
    + cbn [fst snd] in *. destruct IH as [-> Hs]. split; [done|]. constructor; [exact Hs | by constructor].
  - specialize (IH x). pose proof (bubble_perm r x) as Hp. destruct (bubble x r) as [l s].
    cbn [fst snd] in *.
    assert (inversions l <= inversions (x :: r))%nat as Hle.
    { destruct s; [lia|]. by destruct IH as [-> _]. }
    cbn [inversions] in *. rewrite (filter_length_perm _ _ _ Hp), !filter_cons.
    rewrite decide_False by (rewrite (Htot _ _ E); done). rewrite decide_True by done.
    cbn [length]. lia.
Qed.

(** The same structure, whatever the values. *)
Definition same_links (h h' : lheap) : Prop :=
  dom h' = dom h /\ (forall a, prevf h' a = prevf h a) /\ (forall a, nextf h' a = nextf h a).

Lemma same_links_dlist h h' lst ps : same_links h h' -> dlist h lst ps -> dlist h' lst ps.
Proof.
  intros (_ & Hp & Hn) [N0 N1 H]. split; [done | done|]. by eapply path_frame; [| | exact H].
Qed.

Lemma same_links_trans h1 h2 h3 : same_links h1 h2 -> same_links h2 h3 -> same_links h1 h3.
Proof.
  intros (D1 & P1 & N1) (D2 & P2 & N2). split; [congruence|].
  split; intros a; [by rewrite P2 | by rewrite N2].
Qed.

(** Exchanging the values of two elements. *)
Lemma swap_ok h p q v w : is_Some (h !! p) -> is_Some (h !! q) -> p <> q ->
  exists h1 h2, set_value h p v = Ok h1 /\ set_value h1 q w = Ok h2 /\ same_links h h2 /\
    val_at h2 p = v /\ val_at h2 q = w /\
    (forall a, a <> p -> a <> q -> val_at h2 a = val_at h a).
Proof.
  intros Hp Hq Hne. destruct (set_value_ok h p v Hp) as (h1 & E1 & D1 & A1 & A2 & A3).
  destruct (set_value_ok h1 q w) as (h2 & E2 & D2 & B1 & B2 & B3); [by eapply dom_is_Some|].
  exists h1, h2. split; [done|]. split; [done|]. split; [|split; [|split]].
  - split; [congruence|]. split; intros a; [by rewrite B2, A2 | by rewrite B3, A3].
  - by rewrite B1, A1, decide_False, decide_True.
  - by rewrite B1, decide_True.
  - intros a Ha Hb. by rewrite B1, A1, !decide_False.
Qed.

Definition pass_body (lst : Z) : Z * lheap * bool -> res (ctl (Z * lheap * bool) (lheap * bool)) :=
  fun '(e, h, swapped) =>
       let* x := elem h e in
       if prev x =? lst then Ok (Done (h, swapped))
       else
         let* y := elem h (prev x) in
         if comp (value x) (value y) then Ok (Next (prev x, h, swapped))
         else
           let* h := set_value h e (value y) in
           let* h := set_value h (prev x) (value x) in
           Ok (Next (prev x, h, true)).

Lemma pass_loop lst : forall ps2 ps1 e n h sw, dlist h lst (ps1 ++ e :: ps2) ->
  (length ps2 < n)%nat ->
  exists h', loop n (pass_body lst) (e, h, sw) =
      Ok (h', sw || snd (bubble (val_at h e) (vals h ps2))) /\ same_links h h' /\
    vals h' ps1 = vals h ps1 /\
    vals h' (e :: ps2) = fst (bubble (val_at h e) (vals h ps2)).
Proof.
  induction ps2 as [|a ps2 IH]; intros ps1 e n h sw Hd Hn; (destruct n as [|n]; [cbn in Hn; lia|]);
    rewrite loop_S; unfold pass_body at 1; destruct (Hd) as [Hnd Hnn Hpath];
    (match goal with H : dlist _ _ ?l |- _ =>
       assert (e ∈ lst :: l) as Hein by (right; apply elem_of_app; right; left) end);
    destruct (prevf_elem h e) as (x & -> & _ & Ep & _ & Ev);
      try (by eapply dlist_elem); cbn [res_bind]; apply path_app in Hpath as [_ P2];
    rewrite (path_first _ _ _ _ P2) in Ep; injection Ep as <-; rewrite <- Ev.
  - change (after_of [] lst) with lst. rewrite Z.eqb_refl. cbn. rewrite orb_false_r.
    exists h. split; [done|]. by split.
  - change (after_of (a :: ps2) lst) with a.
    assert (ps1 ++ e :: a :: ps2 = (ps1 ++ [e]) ++ a :: ps2) as Eapp by (by rewrite <- app_assoc).
    assert (a ∈ lst :: ps1 ++ e :: a :: ps2) as Hain.
    { right. rewrite Eapp. apply elem_of_app. right. left. }
    apply NoDup_cons in Hnd as [Hlst Hnd].
    assert (a <> lst) by (intros ->; apply Hlst; rewrite Eapp; apply elem_of_app; right; left).
    replace (a =? lst) with false by lia.
    destruct (prevf_elem h a (dlist_elem _ _ _ _ Hd Hain)) as (y & -> & _ & _ & _ & Evy).
    cbn [res_bind]. rewrite <- Evy. change (vals h (a :: ps2)) with (val_at h a :: vals h ps2).
    cbn [bubble]. apply NoDup_app in Hnd as (_ & Hn1 & Hn2).
    apply NoDup_cons in Hn2 as [Hea Hn2]. apply NoDup_cons in Hn2 as [Haps Hn2].
    apply not_elem_of_cons in Hea as [Hea Heps].
    destruct (comp (val_at h e) (val_at h a)); cbn [res_bind].
    + rewrite Eapp in Hd. destruct (IH (ps1 ++ [e]) a n h sw Hd) as (h' & E & Hl & V1 & V2);
        [cbn in Hn; lia|]. rewrite E. destruct (bubble (val_at h a) (vals h ps2)) as [l s].
      cbn [fst snd] in *. exists h'. split; [done|]. split; [done|].
      unfold vals in V1. rewrite !fmap_app in V1. apply app_inj_2 in V1 as [V1 V1']; [|done].
      split; [done|]. change (vals h' (e :: a :: ps2)) with (val_at h' e :: vals h' (a :: ps2)).
      rewrite V2. cbn in V1'. by injection V1' as ->.
    + destruct (swap_ok h e a (val_at h a) (val_at h e)) as (h1 & h2 & -> & E2 & Hl2 & W1 & W2 & W3);
        [by eapply dlist_elem.. | done |]. cbn [res_bind]. rewrite E2. cbn [res_bind].
      pose proof (same_links_dlist _ _ _ _ Hl2 Hd) as Hd2. rewrite Eapp in Hd2.
      destruct (IH (ps1 ++ [e]) a n h2 true Hd2) as (h' & E & Hl & V1 & V2); [cbn in Hn; lia|].
      rewrite E. assert (vals h2 ps2 = vals h ps2) as Ev2.
      { apply vals_ext. intros b Hb. apply W3; congruence. }
      rewrite W2, Ev2 in *. destruct (bubble (val_at h e) (vals h ps2)) as [l s].
      cbn [fst snd orb] in *. exists h'. rewrite orb_true_r. split; [done|].
      split; [by eapply same_links_trans|].
      unfold vals in V1. rewrite !fmap_app in V1. apply app_inj_2 in V1 as [V1 V1']; [|done].
      split.
      * unfold vals. rewrite V1. apply vals_ext. intros b Hb. apply W3.
        -- intros ->. by apply (Hn1 e Hb); left.
        -- intros ->. apply (Hn1 a Hb). right. left.
      * change (vals h' (e :: a :: ps2)) with (val_at h' e :: vals h' (a :: ps2)).
        rewrite V2. cbn in V1'. injection V1' as ->. by rewrite W1.
Qed.

Lemma sort_pass_ok h lst ps : dlist h lst ps ->
  exists h', sort_pass comp h lst =
      Ok (h', match vals h ps with [] => false | x :: r => snd (bubble x r) end) /\
    dlist h' lst ps /\
    vals h' ps = match vals h ps with [] => [] | x :: r => fst (bubble x r) end.
Proof.
  intros Hd. unfold sort_pass. destruct (prevf_elem h lst) as (x & -> & Ex & Ep & _);
    [eapply dlist_elem; [done | left]|].
  cbn [res_bind]. rewrite (path_first _ _ _ _ (dl_path _ _ _ Hd)) in Ep. injection Ep as Ep.
  rewrite <- Ep. pose proof (dlist_size _ _ _ Hd) as Hsz. destruct ps as [|e ps2].
  - change (after_of [] lst) with lst in *. exists h. unfold list_fuel. rewrite loop_S.
    unfold elem at 1. rewrite Ex. cbn. rewrite <- Ep, Z.eqb_refl. done.
  - change (after_of (e :: ps2) lst) with e.
    destruct (pass_loop lst ps2 [] e (list_fuel h) h false Hd) as (h' & E & Hl & _ & V).
    { unfold list_fuel. cbn in Hsz. lia. }
    exists h'. split; [exact E|]. split; [by eapply same_links_dlist | done].
Qed.

(** (C40) list_sort terminates and sorts: with a comparator that accepts one of the
    two orders of any two values, at most n^2 + 1 passes leave the same values in
    an order the comparator accepts throughout. *)
Theorem list_sort_sorts h lst l n :
  (forall a b, comp a b = false -> comp b a = true) -> holds_list h lst l ->
  (length l * length l < n)%nat ->
  exists h' l', list_sort n comp h lst = Ok h' /\ holds_list h' lst l' /\ l' ≡ₚ l /\
    Sorted (fun a b => comp a b = true) l'.
Proof.
  intros Htot (ps & Hd & <-) Hn. unfold list_sort.
  destruct (loop_total (fun h1 => dlist h1 lst ps /\ vals h1 ps ≡ₚ vals h ps)
    (fun h1 => inversions (vals h1 ps))
    (fun h1 => dlist h1 lst ps /\ vals h1 ps ≡ₚ vals h ps /\
       Sorted (fun a b => comp a b = true) (vals h1 ps))
    (fun h => let* r := sort_pass comp h lst in
              if snd r then Ok (Next (fst r)) else Ok (Done (fst r)))) with (n := n) (s := h)
    as (h' & E & Hd' & Hp & Hs).
  - intros h1 [Hd1 Hp1]. destruct (sort_pass_ok h1 lst ps Hd1) as (h2 & -> & Hd2 & Hv2).
    cbn [res_bind fst snd]. destruct (vals h1 ps) as [|x r] eqn:Ev.
    + right. eexists. split; [done|]. rewrite Hv2. split; [done|]. split; [done | constructor].
    + pose proof (bubble_inversions Htot r x) as Hb. pose proof (bubble_perm r x) as Hbp.
      destruct (bubble x r) as [l' [|]]; cbn [fst snd] in *.
      * left. eexists. split; [done|]. rewrite Hv2. split; [|done]. split; [done|].
        by rewrite Hbp.
      * right. eexists. split; [done|]. destruct Hb as [-> Hs]. rewrite Hv2. by split.
  - done.
  - pose proof (inversions_le (vals h ps)). lia.
  - exists h', (vals h' ps). split; [done|]. split; [by exists ps | done].
Qed.

(** With a strict comparator list_sort never returns on equal values: it keeps
    swapping them. *)
Theorem list_sort_strict_diverges h lst v n : holds_list h lst [v; v] -> comp v v = false ->
  list_sort n comp h lst = NoFuel.
Proof.
  intros (ps & Hd & Hv) Hc. unfold list_sort. revert h Hd Hv.
  induction n as [|n IH]; intros h Hd Hv; [done|]. rewrite loop_S.
  destruct (sort_pass_ok h lst ps Hd) as (h2 & -> & Hd2 & Hv2). cbn [res_bind].
  rewrite Hv in *. cbn [bubble] in *. rewrite Hc in *. cbn [fst snd res_bind] in *. by apply IH.
Qed.

End sort.

(** ** A concrete list: head at 8, elements at 16 (value 5) and 24 (value 3) *)

Definition demo_list : lheap :=
  {[ 8 := mkElem 0 24 16; 16 := mkElem 5 8 24; 24 := mkElem 3 16 8 ]}.

Lemma demo_list_holds : holds_list demo_list 8 [5; 3].
Proof.
  exists [16; 24]. split; [|done]. split.
  - computed.
  - computed.
  - by repeat split.
Qed.

Lemma list_ops_refine_witness :
  (forall p v, p <> 0 -> demo_list !! p = None ->
     exists h', list_add demo_list 8 p v = Ok h' /\ holds_list h' 8 ([5; 3] ++ [v])) /\
  (forall v, exists h', list_remove demo_list 8 v = Ok (bool_decide (v ∈ [5; 3]), h') /\
     holds_list h' 8 (remove_first v [5; 3])) /\
  (forall v, list_contains demo_list 8 v = Ok (bool_decide (v ∈ [5; 3]))) /\
  list_size demo_list 8 = Ok (Z.of_nat (length [5; 3])) /\
  (exists p h', list_pop demo_list 8 = Ok (p, h') /\ holds_list h' 8 (tail [5; 3]) /\
     ([5; 3] <> [] -> h' !! p = None)) /\
  (exists p h', list_pop_back demo_list 8 = Ok (p, h') /\ holds_list h' 8 (removelast [5; 3]) /\
     ([5; 3] <> [] -> h' !! p = None)).
Proof. apply (list_ops_refine demo_list 8 [5; 3] demo_list_holds). done. Defined.

Lemma list_sort_sorts_witness :
  exists h' l',
    list_sort 5 list_sort_unsigned_long_comparator_ascending demo_list 8 = Ok h' /\
    holds_list h' 8 l' /\ l' ≡ₚ [5; 3] /\
    Sorted (fun a b => list_sort_unsigned_long_comparator_ascending a b = true) l'.
Proof.
  apply (list_sort_sorts _ demo_list 8 [5; 3] 5); [| apply demo_list_holds | cbn; lia].
  unfold list_sort_unsigned_long_comparator_ascending. lia.
Defined.

Definition demo_equal : lheap :=
  {[ 8 := mkElem 0 24 16; 16 := mkElem 5 8 24; 24 := mkElem 5 16 8 ]}.

Lemma list_sort_strict_diverges_witness : list_sort 1000 Z.ltb demo_equal 8 = NoFuel.
Proof.
  apply (list_sort_strict_diverges _ demo_equal 8 5 1000); [|done].
  exists [16; 24]. split; [|done]. split.
  - computed.
  - computed.
  - by repeat split.
Defined.
