(* ===== verification/Vector.v ===== *)
(** The growable array of src/util/src/vector.c.

    [values] is the allocated array, [capacity] words long; the buffer belongs to
    the vector alone, so a reallocation is a new list. An allocation is taken to
    succeed (the code does not check it). *)
From Stdlib Require Import Sorted.
From S2P Require Import Prelude.

Record Vector := mkVec { vsize : Z; vcapacity : Z; values : list Z }.

Definition vector_new : Vector := mkVec 0 0 [].

Definition vector_new_with_capacity (capacity : Z) : Vector :=
  mkVec 0 capacity (replicate (Z.to_nat capacity) 0).

Definition vector_size (vec : Vector) : Z := vsize vec.
Definition vector_capacity (vec : Vector) : Z := vcapacity vec.

(** [vec->values[i]], read and written; out of the buffer is a fault. *)
Definition ld_val (vec : Vector) (i : Z) : res Z := deref (values vec !! Z.to_nat i).
Definition st_val (vec : Vector) (i v : Z) : res Vector :=
  let* _ := ld_val vec i in
  Ok (mkVec (vsize vec) (vcapacity vec) (<[Z.to_nat i := v]> (values vec))).

Definition vector_set (vec : Vector) (idx v : Z) : res (bool * Vector) :=
  if idx >=? vsize vec then Ok (false, vec)
  else let* vec := st_val vec idx v in Ok (true, vec).

Definition vector_get (vec : Vector) (idx : Z) : res (option Z) :=
  if idx >=? vsize vec then Ok None else let* v := ld_val vec idx in Ok (Some v).

Definition vector_get_unchecked (vec : Vector) (idx : Z) : res Z :=
  if idx >=? vsize vec then Ok 0 else ld_val vec idx.

(** A new buffer of [n] zeroed words that receives the first [size] values. *)
Definition realloc_values (vec : Vector) (n size : Z) : res Vector :=
  for_up (Z.to_nat size) 0
    (fun i new => let* v := ld_val vec i in st_val new i v)
    (mkVec size n (replicate (Z.to_nat n) 0)).

Definition vector_resize (vec : Vector) (new_size : Z) : res Vector :=
  let* vec := if new_size >? vcapacity vec then realloc_values vec new_size (vsize vec)
              else Ok vec in
  Ok (mkVec new_size (vcapacity vec) (values vec)).

Definition vector_resize_with_default (vec : Vector) (new_size def : Z) : res Vector :=
  let old_size := vsize vec in
  let* vec := vector_resize vec new_size in
  if old_size <? new_size then
    for_up (Z.to_nat (new_size - old_size)) old_size
      (fun i vec => let* r := vector_set vec i def in Ok (snd r)) vec
  else Ok vec.

Definition vector_reserve (vec : Vector) (new_capacity : Z) : res Vector :=
  if new_capacity >? vcapacity vec then realloc_values vec new_capacity (vsize vec)
  else if (new_capacity >? 0) && (new_capacity <? vcapacity vec) then
    realloc_values vec new_capacity
      (if new_capacity <? vsize vec then new_capacity else vsize vec)
  else Ok vec.

Definition vector_insert (vec : Vector) (idx value : Z) : res Vector :=
  let* vec := vector_resize vec (u32 (vsize vec + 1)) in
  let* vec := loop (S (Z.to_nat (vsize vec)))
    (fun '(i, vec) =>
       if i >? idx then
         let* v := vector_get_unchecked vec (i - 1) in
         let* r := vector_set vec i v in Ok (Next (i - 1, snd r))
       else Ok (Done vec)) (u32 (vsize vec - 1), vec) in
  let* r := vector_set vec idx value in Ok (snd r).

Definition vector_push (vec : Vector) (value : Z) : res Vector :=
  vector_insert vec (vsize vec) value.

Definition vector_find (vec : Vector) (val : Z) : res Z :=
  loop (S (Z.to_nat (vsize vec)))
    (fun i => if i <? s32 (vsize vec) then
                let* v := ld_val vec i in
                if v =? val then Ok (Done i) else Ok (Next (i + 1))
              else Ok (Done (-1))) 0.

Definition vector_remove (vec : Vector) (idx : Z) : res (bool * Vector) :=
  if idx >=? vsize vec then Ok (false, vec)
  else
    let vec := mkVec (u32 (vsize vec - 1)) (vcapacity vec) (values vec) in
    let* vec := for_up (Z.to_nat (vsize vec - idx)) idx
      (fun i vec => let* v := ld_val vec (i + 1) in st_val vec i v) vec in
    Ok (true, vec).

Definition vector_remove_value (vec : Vector) (val : Z) : res (bool * Vector) :=
  loop (S (Z.to_nat (vsize vec)))
    (fun i => if i <? vsize vec then
                let* v := ld_val vec i in
                if v =? val then
                  let* r := vector_remove vec i in Ok (Done (true, snd r))
                else Ok (Next (i + 1))
              else Ok (Done (false, vec))) 0.

Definition vector_clear (vec : Vector) : res Vector := vector_resize vec 0.

Definition vector_binsearch_ascending (vec : Vector) (key : Z) : res Z :=
  loop (S (Z.to_nat (vsize vec)))
    (fun '(low, high) =>
       if low <? high then
         let mid := Z.quot (low + high) 2 in
         let* v := vector_get_unchecked vec (u32 mid) in
         if v >? key then Ok (Next (low, mid - 1))
         else if v <? key then Ok (Next (mid + 1, high))
         else Ok (Done mid)
       else Ok (Done (-1))) (0, s32 (vsize vec)).

Definition vector_binsearch_descending (vec : Vector) (key : Z) : res Z :=
  loop (S (Z.to_nat (vsize vec)))
    (fun '(low, high) =>
       if low <=? high then
         let mid := Z.quot (low + high) 2 in
         let* v := vector_get_unchecked vec (u32 mid) in
         if v <? key then Ok (Next (low, mid - 1))
         else if v >? key then Ok (Next (mid + 1, high))
         else Ok (Done mid)
       else Ok (Done (-1))) (0, s32 (u32 (vsize vec - 1))).

(** The inner [while] of the insertion sort, from position [j]. *)
Definition sift_body (comp : Z -> Z -> bool) : Z * Vector -> res (ctl (Z * Vector) Vector) :=
  fun '(j, vec) =>
    if j >? 0 then
      let* left_ := vector_get_unchecked vec (j - 1) in
      let* right_ := vector_get_unchecked vec j in
      if comp left_ right_ then Ok (Done vec)
      else
        let* r := vector_set vec j left_ in
        let* r := vector_set (snd r) (j - 1) right_ in
        Ok (Next (j - 1, snd r))
    else Ok (Done vec).

Definition vector_insertion_sort (comp : Z -> Z -> bool) (vec : Vector) : res Vector :=
  for_up (Z.to_nat (vsize vec - 1)) 1
    (fun i vec => loop (S (Z.to_nat i)) (sift_body comp) (i, vec)) vec.

Definition vector_sort : (Z -> Z -> bool) -> Vector -> res Vector := vector_insertion_sort.

Definition vector_selection_sort (comp : Z -> Z -> bool) (vec : Vector) : res Vector :=
  for_up (Z.to_nat (vsize vec)) 0
    (fun i vec =>
       let* min_idx := for_up (Z.to_nat (vsize vec - (i + 1))) (i + 1)
         (fun j min_idx =>
            let* a := vector_get_unchecked vec min_idx in
            let* b := vector_get_unchecked vec j in
            Ok (if comp a b then min_idx else j)) i in
       let* tmp := vector_get_unchecked vec i in
       let* m := vector_get_unchecked vec min_idx in
       let* r := vector_set vec i m in
       let* r := vector_set (snd r) min_idx tmp in
       Ok (snd r)) vec.

(** ** The sequence a vector holds *)

Record holds_vec (vec : Vector) (l : list Z) : Prop := mkHoldsVec {
  hv_size : vsize vec = Z.of_nat (length l);
  hv_cap : vcapacity vec = Z.of_nat (length (values vec));
  hv_bound : vsize vec <= vcapacity vec < 2 ^ 31;
  hv_vals : take (length l) (values vec) = l
}.

Lemma hv_lookup vec l i : holds_vec vec l -> (i < length l)%nat -> values vec !! i = l !! i.
Proof. intros [_ _ _ <-] Hi. rewrite length_take in Hi. by rewrite lookup_take_lt by lia. Qed.

Lemma ld_val_ok vec l i : holds_vec vec l -> 0 <= i < Z.of_nat (length l) ->
  ld_val vec i = deref (l !! Z.to_nat i).
Proof. intros Hv Hi. unfold ld_val. by rewrite (hv_lookup _ _ _ Hv) by lia. Qed.

Lemma get_unchecked_ok vec l i x : holds_vec vec l -> 0 <= i -> l !! Z.to_nat i = Some x ->
  vector_get_unchecked vec i = Ok x.
Proof.
  intros Hv Hi E. pose proof (lookup_lt_Some _ _ _ E). unfold vector_get_unchecked.
  rewrite (hv_size _ _ Hv). replace (i >=? _) with false by lia.
  by rewrite (ld_val_ok _ _ _ Hv), E by lia.
Qed.

Lemma st_val_ok vec l i v : holds_vec vec l -> 0 <= i < Z.of_nat (length l) ->
  exists vec', st_val vec i v = Ok vec' /\ holds_vec vec' (<[Z.to_nat i := v]> l).
Proof.
  intros Hv Hi. unfold st_val. rewrite (ld_val_ok _ _ _ Hv) by done.
  destruct (lookup_lt_is_Some_2 l (Z.to_nat i)) as [x ->]; [lia|]. cbn [deref res_bind].
  eexists. split; [done|]. destruct Hv as [H1 H2 H3 H4].
  split; cbn [vsize vcapacity values]; rewrite ?length_insert; try done.
  rewrite take_insert_lt by lia. by rewrite H4.
Qed.

Lemma vector_set_ok vec l i v : holds_vec vec l -> 0 <= i < Z.of_nat (length l) ->
  exists vec', vector_set vec i v = Ok (true, vec') /\ holds_vec vec' (<[Z.to_nat i := v]> l).
Proof.
  intros Hv Hi. unfold vector_set. rewrite (hv_size _ _ Hv).
  replace (i >=? _) with false by lia.
  destruct (st_val_ok vec l i v Hv Hi) as (vec' & -> & Hv'). by exists vec'.
Qed.

(** ** Resizing and insertion *)

Lemma holds_vec_ext vec l i : holds_vec vec l -> ld_val vec i = deref (values vec !! Z.to_nat i).
Proof. done. Qed.

(** A reallocation keeps the first [n] values and zeroes the rest. *)
Lemma realloc_ok vec l cap n : holds_vec vec l -> (n <= length l)%nat ->
  Z.of_nat n <= cap < 2 ^ 31 ->
  exists vec', realloc_values vec cap (Z.of_nat n) = Ok vec' /\
    vsize vec' = Z.of_nat n /\ vcapacity vec' = cap /\
    values vec' = take n l ++ replicate (Z.to_nat cap - n) 0.
Proof.
  intros Hv Hn Hc. unfold realloc_values. rewrite Nat2Z.id.
  destruct (for_up_total (fun i new => vsize new = Z.of_nat n /\ vcapacity new = cap /\
      values new = take (Z.to_nat i) l ++ replicate (Z.to_nat cap - Z.to_nat i) 0)
    (fun i new => let* v := ld_val vec i in st_val new i v) n 0
    (mkVec (Z.of_nat n) cap (replicate (Z.to_nat cap) 0))) as (new & -> & H1 & H2 & H3).
  - split; [done|]. split; [done|]. cbn. by rewrite Nat.sub_0_r.
  - intros i new Hi (S1 & S2 & S3). rewrite (ld_val_ok _ _ _ Hv) by lia.
    destruct (lookup_lt_is_Some_2 l (Z.to_nat i)) as [x Ex]; [lia|]. rewrite Ex.
    cbn [deref res_bind]. unfold st_val, ld_val.
    assert (length (take (Z.to_nat i) l) = Z.to_nat i) as Hlen by (rewrite length_take; lia).
    assert (values new !! Z.to_nat i = Some 0) as ->.
    { rewrite S3, lookup_app_r, Hlen, Nat.sub_diag by lia. apply lookup_replicate_2. lia. }
    cbn [deref res_bind]. eexists. split; [done|]. cbn [vsize vcapacity values].
    split; [done|]. split; [done|]. rewrite S3.
    rewrite insert_app_r_alt, Hlen, Nat.sub_diag by lia.
    replace (Z.to_nat cap - Z.to_nat i)%nat with (S (Z.to_nat cap - Z.to_nat (i + 1))) by lia.
    cbn [replicate list_insert insert]. replace (Z.to_nat (i + 1)) with (S (Z.to_nat i)) by lia.
    rewrite (take_S_r _ _ _ Ex), <- app_assoc. done.
  - exists new. split; [done|]. rewrite Z.add_0_l, Nat2Z.id in H3. done.
Qed.

(** Growing by one adds some last element. *)
Lemma resize_one vec l : holds_vec vec l -> vsize vec + 1 < 2 ^ 31 ->
  exists vec' y, vector_resize vec (vsize vec + 1) = Ok vec' /\ holds_vec vec' (l ++ [y]).
Proof.
  intros Hv Hb. destruct (Hv) as [H1 H2 H3 H4]. unfold vector_resize.
  destruct (vsize vec + 1 >? vcapacity vec) eqn:E.
  - rewrite H1. destruct (realloc_ok vec l (Z.of_nat (length l) + 1) (length l) Hv)
      as (new & -> & S1 & S2 & S3); [lia | lia |]. cbn [res_bind].
    eexists _, 0. split; [done|]. rewrite take_ge in S3 by lia.
    replace (Z.to_nat (Z.of_nat (length l) + 1) - length l)%nat with 1%nat in S3 by lia.
    split; cbn [vsize vcapacity values]; rewrite ?S2, ?S3, ?length_app; cbn [replicate length];
      try lia. by rewrite take_ge by (rewrite length_app; cbn; lia).
  - cbn [res_bind]. destruct (lookup_lt_is_Some_2 (values vec) (length l)) as [y Ey]; [lia|].
    eexists _, y. split; [done|].
    split; cbn [vsize vcapacity values]; rewrite ?length_app; cbn [length]; try lia.
    replace (length l + 1)%nat with (S (length l)) by lia. by rewrite (take_S_r _ _ _ Ey), H4.
Qed.

(** The shifting loop of [vector_insert]. *)
Definition shift_body (idx : Z) : Z * Vector -> res (ctl (Z * Vector) Vector) :=
  fun '(i, vec) =>
       if i >? idx then
         let* v := vector_get_unchecked vec (i - 1) in
         let* r := vector_set vec i v in Ok (Next (i - 1, snd r))
       else Ok (Done vec).

Lemma shift_loop idx : 0 <= idx -> forall n fuel vec a b y c,
  holds_vec vec (a ++ b ++ y :: c) -> Z.of_nat (length a) = idx -> length b = n -> (n < fuel)%nat ->
  exists vec' z, loop fuel (shift_body idx) (idx + Z.of_nat n, vec) = Ok vec' /\
    holds_vec vec' (a ++ z :: b ++ c).
Proof.
  intros Hidx. induction n as [|n IH]; intros fuel vec a b y c Hv Ha Hb Hf;
    (destruct fuel as [|fuel]; [lia|]); rewrite loop_S; unfold shift_body at 1.
  - replace (idx + Z.of_nat 0 >? idx) with false by lia. destruct b; [|done].
    by exists vec, y.
  - replace (idx + Z.of_nat (S n) >? idx) with true by lia.
    destruct b as [|x b _] using rev_ind; [done|]. rewrite length_app in Hb. cbn in Hb.
    rewrite <- (app_assoc b) in Hv. cbn [app] in Hv.
    assert (length (a ++ b) = (Z.to_nat idx + n)%nat) as Hlen by (rewrite length_app; lia).
    assert ((a ++ b ++ x :: y :: c) !! Z.to_nat (idx + Z.of_nat (S n) - 1) = Some x) as Ex.
    { rewrite app_assoc, lookup_app_r by lia. rewrite Hlen.
      by replace (Z.to_nat (idx + Z.of_nat (S n) - 1) - (Z.to_nat idx + n))%nat with 0%nat by lia. }
    rewrite (get_unchecked_ok _ _ (idx + Z.of_nat (S n) - 1) x Hv ltac:(lia) Ex). cbn [res_bind].
    destruct (vector_set_ok vec _ (idx + Z.of_nat (S n)) x Hv) as (vec1 & -> & Hv1).
    { rewrite app_assoc, length_app, Hlen. cbn [length]. lia. }
    cbn [res_bind snd]. replace (idx + Z.of_nat (S n) - 1) with (idx + Z.of_nat n) by lia.
    assert (<[Z.to_nat (idx + Z.of_nat (S n)) := x]> (a ++ b ++ x :: y :: c) =
      a ++ b ++ x :: x :: c) as E.
    { rewrite !app_assoc, insert_app_r_alt, Hlen by lia.
      by replace (Z.to_nat (idx + Z.of_nat (S n)) - (Z.to_nat idx + n))%nat with 1%nat by lia. }
    rewrite E in Hv1. destruct (IH fuel vec1 a b x (x :: c) Hv1 Ha) as (vec' & z & E' & Hv');
      [lia | lia |]. exists vec', z. split; [done|]. by rewrite <- app_assoc.
Qed.

(** vector_insert puts the value before the element at the index and keeps
    the rest in order; at the end it is vector_push. *)
Theorem vector_insert_correct vec a b v : holds_vec vec (a ++ b) -> vsize vec + 1 < 2 ^ 31 ->
  exists vec', vector_insert vec (Z.of_nat (length a)) v = Ok vec' /\ holds_vec vec' (a ++ v :: b).
Proof.
  intros Hv Hb. unfold vector_insert. pose proof (hv_size _ _ Hv) as Hs.
  rewrite u32_id by lia.
  destruct (resize_one vec _ Hv Hb) as (vec1 & y & -> & Hv1). cbn [res_bind].
  pose proof (hv_size _ _ Hv1) as Hs1. rewrite <- app_assoc in Hv1.
  rewrite !length_app in *. cbn [length] in *. rewrite u32_id by lia.
  destruct (shift_loop (Z.of_nat (length a)) ltac:(lia) (length b) (S (Z.to_nat (vsize vec1)))
    vec1 a b y [] Hv1) as (vec2 & z & E & Hv2); [done | done | lia |].
  replace (vsize vec1 - 1) with (Z.of_nat (length a) + Z.of_nat (length b)) by lia.
  unfold shift_body in E. rewrite E. cbn [res_bind]. rewrite app_nil_r in Hv2.
  destruct (vector_set_ok vec2 _ (Z.of_nat (length a)) v Hv2) as (vec3 & -> & Hv3).
  { rewrite length_app. cbn [length]. lia. }
  cbn [res_bind snd]. exists vec3. split; [done|]. rewrite Nat2Z.id in Hv3.
  by rewrite insert_app_r_alt, Nat.sub_diag in Hv3.
Qed.

(** ** Searching *)

(** The binary search over a descending vector is complete: it returns an
    index that holds the key, or -1 when no element does. *)
Theorem binsearch_descending_correct vec l key : holds_vec vec l ->
  StronglySorted (fun a b => b <= a) l ->
  exists r, vector_binsearch_descending vec key = Ok r /\
    ((r = -1 /\ key ∉ l) \/ (0 <= r /\ l !! Z.to_nat r = Some key)).
Proof.
  intros Hv Hs. pose proof (hv_size _ _ Hv) as Hsz. destruct (hv_bound _ _ Hv) as [Hb1 Hb2].
  assert (forall i j a b, (i <= j)%nat -> l !! i = Some a -> l !! j = Some b -> b <= a) as Hord.
  { clear -Hs. induction Hs as [|x l Hs IH Hf]; intros i j a b Hij Ei Ej; [done|].
    rewrite Forall_forall in Hf.
    destruct i as [|i], j as [|j]; cbn in *; [injection Ei as <-; injection Ej as <-; lia | | lia | by eapply (IH i j); [lia|..]].
    injection Ei as ->. apply Hf. by eapply list_elem_of_lookup_2. }
  unfold vector_binsearch_descending. rewrite s32_u32, Hsz, s32_id by lia.
  apply (loop_total (fun '(low, high) => 0 <= low /\ high < Z.of_nat (length l) /\
    low <= high + 1 /\
    (forall i x, l !! i = Some x -> Z.of_nat i < low -> key < x) /\
    (forall i x, l !! i = Some x -> high < Z.of_nat i -> x < key))
    (fun '(low, high) => Z.to_nat (high + 1 - low))).
  - intros [low high] (Hlo & Hhi & Hle & HL & HH). destruct (Z.leb_spec low high) as [Hlt|Hge].
    2: { right. eexists. split; [done|]. left. split; [done|].
         intros [i Ei]%list_elem_of_lookup. pose proof (lookup_lt_Some _ _ _ Ei).
         destruct (decide (Z.of_nat i < low)); [specialize (HL i _ Ei); lia|].
         specialize (HH i _ Ei). lia. }
    rewrite Z.quot_div_nonneg by lia. set (mid := (low + high) / 2).
    assert (low <= mid <= high) as Hmid by (unfold mid; dlia).
    destruct (lookup_lt_is_Some_2 l (Z.to_nat mid)) as [v Ev]; [lia|].
    rewrite u32_id by lia. rewrite (get_unchecked_ok vec l mid v Hv ltac:(lia) Ev). cbn [res_bind].
    destruct (Z.ltb_spec v key); [|destruct (v >? key) eqn:Eg].
    + left. eexists. split; [done|]. cbn beta iota. split; [|lia].
      do 3 (split; [lia|]). split; [done|]. intros i x Ei Hi.
      destruct (decide (high < Z.of_nat i)); [by eapply HH|].
      pose proof (Hord (Z.to_nat mid) i v x ltac:(lia) Ev Ei). lia.
    + left. eexists. split; [done|]. cbn beta iota. split; [|lia].
      do 3 (split; [lia|]). split; [|done]. intros i x Ei Hi.
      destruct (decide (Z.of_nat i < low)); [by eapply HL|].
      pose proof (Hord i (Z.to_nat mid) x v ltac:(lia) Ei Ev). lia.
    + right. eexists. split; [done|]. right. split; [lia|]. rewrite Ev. f_equal. lia.
  - do 3 (split; [lia|]). split; [lia|]. intros i x Ei%lookup_lt_Some. lia.
  - cbn beta iota. lia.
Qed.

(** The ascending search is not: it keeps an exclusive upper bound but moves
    it to mid - 1, so it misses the first element of a sorted three-element vector. *)
Theorem binsearch_ascending_misses :
  let vec := mkVec 3 3 [1; 2; 3] in
  holds_vec vec [1; 2; 3] /\ StronglySorted Z.le [1; 2; 3] /\
  vector_binsearch_ascending vec 1 = Ok (-1).
Proof.
  split; [by split|]. split; [|done]. repeat constructor; lia.
Qed.

(** What the ascending search does find is right. *)
Lemma binsearch_ascending_sound vec l key r : holds_vec vec l ->
  vector_binsearch_ascending vec key = Ok r -> r <> -1 -> l !! Z.to_nat r = Some key.
Proof.
  intros Hv. unfold vector_binsearch_ascending. rewrite (hv_size _ _ Hv).
  pose proof (hv_bound _ _ Hv) as Hb. rewrite (hv_size _ _ Hv) in Hb. rewrite s32_id by lia.
  intros E. revert E. apply (loop_partial (fun '(low, high) => 0 <= low /\ high <= Z.of_nat (length l))
    (fun r => r <> -1 -> l !! Z.to_nat r = Some key)); [|lia].
  intros [low high] c [Hlo Hhi] E. destruct (Z.ltb_spec low high); [|by injection E as <-].
  rewrite Z.quot_div_nonneg in E by lia. set (mid := (low + high) / 2) in *.
  assert (low <= mid < high) by (unfold mid; dlia). rewrite u32_id in E by lia.
  destruct (lookup_lt_is_Some_2 l (Z.to_nat mid)) as [v Ev]; [lia|].
  rewrite (get_unchecked_ok vec l mid v Hv ltac:(lia) Ev) in E. cbn [res_bind] in E.
  destruct (v >? key) eqn:E1; [injection E as <-; lia|].
  destruct (v <? key) eqn:E2; [injection E as <-; lia|]. injection E as <-.
  intros _. rewrite Ev. f_equal. lia.
Qed.

(** ** Insertion sort *)

Section sort.
Context (comp : Z -> Z -> bool) (Htot : forall a b, comp a b = false -> comp b a = true).

Definition ordered : list Z -> Prop := Sorted (fun a b => comp a b = true).

Lemma ordered_middle a x b : ordered (a ++ b) ->
  (forall y, last a = Some y -> comp y x = true) -> (forall y, head b = Some y -> comp x y = true) ->
  ordered (a ++ x :: b).
Proof.
  unfold ordered. induction a as [|c a IH]; cbn [app]; intros Hs Ha Hb.
  - constructor; [done|]. destruct b; constructor. by apply Hb.
  - apply Sorted_inv in Hs as [Hs Hd]. constructor.
    + apply IH; [done | | done]. intros y Hy. apply Ha. rewrite last_cons. by rewrite Hy.
    + destruct a as [|d a]; cbn [app] in *; constructor; [by apply Ha|]. by inversion Hd.
Qed.

(** One insertion: [x] moves left past the elements it may not follow. *)
Lemma sift_loop : forall n fuel a b x c vec, holds_vec vec (a ++ x :: b ++ c) -> length a = n ->
  (n < fuel)%nat -> ordered (a ++ b) -> (forall y, head b = Some y -> comp x y = true) ->
  exists vec' s, loop fuel (sift_body comp) (Z.of_nat n, vec) = Ok vec' /\
    holds_vec vec' (s ++ c) /\ ordered s /\ s ≡ₚ a ++ x :: b.
Proof.
  induction n as [|n IH]; intros fuel a b x c vec Hv Ha Hf Hs Hb;
    (destruct fuel as [|fuel]; [lia|]); rewrite loop_S; unfold sift_body at 1.
  - replace (Z.of_nat 0 >? 0) with false by lia. destruct a; [|done]. cbn [app] in *.
    exists vec, (x :: b). split; [done|]. split; [done|]. split; [|done].
    by apply (ordered_middle []).
  - replace (Z.of_nat (S n) >? 0) with true by lia.
    destruct a as [|y a _] using rev_ind; [done|]. rewrite length_app in Ha. cbn [length] in Ha.
    rewrite <- app_assoc in Hv, Hs. cbn [app] in Hv, Hs.
    replace (Z.of_nat (S n) - 1) with (Z.of_nat n) by lia. assert (length a = n) as Hn by lia.
    assert ((a ++ y :: x :: b ++ c) !! Z.to_nat (Z.of_nat n) = Some y) as Ey.
    { rewrite Nat2Z.id, <- Hn. by apply list_lookup_middle. }
    assert ((a ++ y :: x :: b ++ c) !! Z.to_nat (Z.of_nat (S n)) = Some x) as Ex.
    { rewrite Nat2Z.id, lookup_app_r by lia. by replace (S n - length a)%nat with 1%nat by lia. }
    rewrite (get_unchecked_ok _ _ (Z.of_nat n) y Hv ltac:(lia) Ey). cbn [res_bind].
    rewrite (get_unchecked_ok _ _ (Z.of_nat (S n)) x Hv ltac:(lia) Ex). cbn [res_bind].
    destruct (comp y x) eqn:Ec; cbn [res_bind].
    + exists vec, ((a ++ [y]) ++ x :: b). split; [done|].
      split; [by rewrite <- !app_assoc|]. split; [|done]. apply ordered_middle; [|by intros z; rewrite last_snoc; intros [= <-] | done].
      by rewrite <- app_assoc.
    + destruct (vector_set_ok vec _ (Z.of_nat (S n)) y Hv) as (vec1 & -> & Hv1).
      { rewrite length_app. cbn [length]. lia. }
      cbn [res_bind snd]. destruct (vector_set_ok vec1 _ (Z.of_nat n) x Hv1) as (vec2 & -> & Hv2).
      { rewrite length_insert, length_app. cbn [length]. lia. }
      cbn [res_bind snd]. rewrite !Nat2Z.id in Hv2.
      assert (<[n:=x]> (<[S n:=y]> (a ++ y :: x :: b ++ c)) = a ++ x :: (y :: b) ++ c) as E.
      { rewrite !insert_app_r_alt by lia. rewrite Hn, Nat.sub_diag.
        by replace (S n - n)%nat with 1%nat by lia. }
      rewrite E in Hv2. destruct (IH fuel a (y :: b) x c vec2 Hv2 Hn) as (vec' & s & E' & Hv' & Hs' & Hp);
        [lia | done | intros z [= <-]; by apply Htot |].
      exists vec', s. split; [done|]. split; [done|]. split; [done|].
      rewrite Hp, <- app_assoc. cbn [app]. by rewrite (Permutation_swap x y).
Qed.

(** vector_insertion_sort sorts: for a comparator that accepts one of the two
    orders of any two values it leaves the same values, in order. *)
Theorem insertion_sort_correct vec l : holds_vec vec l ->
  exists vec' l', vector_insertion_sort comp vec = Ok vec' /\ holds_vec vec' l' /\
    l' ≡ₚ l /\ ordered l'.
Proof.
  intros Hv. unfold vector_insertion_sort. pose proof (hv_size _ _ Hv) as Hsz.
  destruct l as [|x0 l0] eqn:El.
  { exists vec, []. rewrite Hsz. split; [done|]. split; [done|]. split; [done | constructor]. }
  rewrite <- El in *. assert (0 < length l)%nat by (rewrite El; cbn; lia). clear x0 l0 El.
  destruct (for_up_total (fun i vec => exists s c, holds_vec vec (s ++ c) /\ ordered s /\
      s ++ c ≡ₚ l /\ Z.of_nat (length s) = i)
    (fun i vec => loop (S (Z.to_nat i)) (sift_body comp) (i, vec)) (Z.to_nat (vsize vec - 1)) 1 vec)
    as (vec' & E & s & c & Hv' & Hs & Hp & Hl).
  - destruct l as [|x l]; [cbn in *; lia|]. exists [x], l. split; [done|].
    split; [repeat constructor | done].
  - intros i v Hi (s & c & Hv1 & Hs & Hp & Hl). pose proof (Permutation_length Hp) as Hlen.
    rewrite length_app in Hlen. destruct c as [|x c]; [cbn in Hlen; lia|].
    destruct (sift_loop (length s) (S (Z.to_nat i)) s [] x c v Hv1) as (v' & s' & E & Hv' & Hs' & Hp');
      [done | lia | by rewrite app_nil_r | done |].
    rewrite Hl in E. exists v'. split; [done|]. exists s', c. split; [done|]. split; [done|].
    rewrite Hp', length_app. cbn [length]. split; [by rewrite <- app_assoc | lia].
  - exists vec', (s ++ c). pose proof (Permutation_length Hp) as Hlen. rewrite length_app in Hlen.
    assert (c = []) as -> by (destruct c; [done | cbn in Hlen; lia]).
    rewrite app_nil_r in *. done.
Qed.

End sort.

Lemma vector_insert_correct_witness :
  exists vec', vector_insert (mkVec 2 4 [5; 7; 0; 0]) (Z.of_nat (length [5])) 6 = Ok vec' /\
    holds_vec vec' ([5] ++ 6 :: [7]).
Proof. apply (vector_insert_correct _ [5] [7]); [by split | done]. Defined.

Lemma binsearch_descending_correct_witness :
  exists r, vector_binsearch_descending (mkVec 3 3 [9; 5; 2]) 2 = Ok r /\
    ((r = -1 /\ 2 ∉ [9; 5; 2]) \/ (0 <= r /\ [9; 5; 2] !! Z.to_nat r = Some 2)).
Proof.
  apply binsearch_descending_correct; [by split|]. repeat constructor; lia.
Defined.

Lemma insertion_sort_correct_witness :
  exists vec' l', vector_insertion_sort Z.leb (mkVec 3 3 [9; 2; 5]) = Ok vec' /\
    holds_vec vec' l' /\ l' ≡ₚ [9; 2; 5] /\ ordered Z.leb l'.
Proof. apply (insertion_sort_correct Z.leb); [lia | by split]. Defined.
