(* ===== verification/RBTree.v ===== *)
(** The red-black tree of src/util/src/rbtree.c, at pointer level.

    Nodes live in a heap of records linked by left, right and parent pointers (0 is
    NULL); a null or freed node is [Ub] to touch. The address [create_node] gets
    from the allocator is an argument. The loops that walk down or up the tree
    carry as fuel one more than the number of nodes. *)
From S2P Require Import Prelude.

Inductive Color := RED | BLACK.

#[export] Instance Color_eq_dec : EqDecision Color.
Proof. solve_decision. Defined.

Record Node := mkNode {
  color : Color;
  key : Z;
  value : Z;
  left_ : Z;
  right_ : Z;
  parent : Z
}.

Record RBTree := mkTree { root : Z; nodes : gmap Z Node }.

Definition node (t : RBTree) (p : Z) : res Node := deref (nodes t !! p).

(** [p->field = ...]: the node at [p] replaced by [f] of it. *)
Definition upd (t : RBTree) (p : Z) (f : Node -> Node) : res RBTree :=
  let* n := node t p in Ok (mkTree (root t) (<[p := f n]> (nodes t))).

Definition set_color (t : RBTree) (p : Z) (c : Color) : res RBTree :=
  upd t p (fun n => mkNode c (key n) (value n) (left_ n) (right_ n) (parent n)).
Definition set_left (t : RBTree) (p l : Z) : res RBTree :=
  upd t p (fun n => mkNode (color n) (key n) (value n) l (right_ n) (parent n)).
Definition set_right (t : RBTree) (p r : Z) : res RBTree :=
  upd t p (fun n => mkNode (color n) (key n) (value n) (left_ n) r (parent n)).
Definition set_parent (t : RBTree) (p q : Z) : res RBTree :=
  upd t p (fun n => mkNode (color n) (key n) (value n) (left_ n) (right_ n) q).
Definition set_root (t : RBTree) (p : Z) : RBTree := mkTree p (nodes t).

Definition rb_fuel (t : RBTree) : nat := S (size (nodes t)).

(** [node] is what [g_kmalloc] returned. *)
Definition create_node (t : RBTree) (p k v : Z) : res RBTree :=
  if p =? 0 then Ub else Ok (mkTree (root t) (<[p := mkNode RED k v 0 0 0]> (nodes t))).

(** ** Lookups *)

Definition search (t : RBTree) (p k : Z) : res Z :=
  loop (rb_fuel t)
    (fun p => if p =? 0 then Ok (Done 0)
              else
                let* n := node t p in
                if k <? key n then Ok (Next (left_ n))
                else if k >? key n then Ok (Next (right_ n))
                else Ok (Done p)) p.

Definition csearch : RBTree -> Z -> Z -> res Z := search.

Definition minimum (t : RBTree) (p : Z) : res Z :=
  loop (rb_fuel t)
    (fun p => let* n := node t p in
              if negb (left_ n =? 0) then Ok (Next (left_ n)) else Ok (Done p)) p.

Definition cminimum : RBTree -> Z -> res Z := minimum.

Definition cmaximum (t : RBTree) (p : Z) : res Z :=
  loop (rb_fuel t)
    (fun p => let* n := node t p in
              if negb (right_ n =? 0) then Ok (Next (right_ n)) else Ok (Done p)) p.

(** The four extremum queries share their shape: [None] is [false]. *)
Definition rb_end (descend : RBTree -> Z -> res Z) (field : Node -> Z) (t : RBTree)
    : res (option Z) :=
  if root t =? 0 then Ok None
  else
    let* p := descend t (root t) in
    let* n := node t p in Ok (Some (field n)).

Definition rb_min : RBTree -> res (option Z) := rb_end cminimum key.
Definition rb_max : RBTree -> res (option Z) := rb_end cmaximum key.
Definition rb_min_val : RBTree -> res (option Z) := rb_end cminimum value.
Definition rb_max_val : RBTree -> res (option Z) := rb_end cmaximum value.

Definition rb_find (t : RBTree) (k : Z) : res (option Z) :=
  let* p := csearch t (root t) k in
  if p =? 0 then Ok None else let* n := node t p in Ok (Some (value n)).

(** ** Rotations *)

(** The end of a rotation: [y] takes the place of [x] below the parent of [x]. *)
Definition replace_child (t : RBTree) (x y : Z) : res RBTree :=
  let* nx := node t x in
  if parent nx =? 0 then Ok (set_root t y)
  else
    let* np := node t (parent nx) in
    if x =? left_ np then set_left t (parent nx) y else set_right t (parent nx) y.

Definition left_rotate (t : RBTree) (x : Z) : res RBTree :=
  let* nx := node t x in
  let y := right_ nx in
  let* ny := node t y in
  let* t := set_right t x (left_ ny) in
  let* t := if negb (left_ ny =? 0) then set_parent t (left_ ny) x else Ok t in
  let* nx := node t x in
  let* t := set_parent t y (parent nx) in
  let* t := replace_child t x y in
  let* t := set_left t y x in
  set_parent t x y.

Definition right_rotate (t : RBTree) (y : Z) : res RBTree :=
  let* ny := node t y in
  let x := left_ ny in
  let* nx := node t x in
  let* t := set_left t y (right_ nx) in
  let* t := if negb (right_ nx =? 0) then set_parent t (right_ nx) y else Ok t in
  let* ny := node t y in
  let* t := set_parent t x (parent ny) in
  let* t := replace_child t y x in
  let* t := set_right t x y in
  set_parent t y x.

(** ** Insertion *)

Definition parent_of (t : RBTree) (p : Z) : res Z := let* n := node t p in Ok (parent n).

(** [p != NULL && p->color == RED] *)
Definition is_red (t : RBTree) (p : Z) : res bool :=
  if p =? 0 then Ok false else let* n := node t p in Ok (bool_decide (color n = RED)).

(** One turn of [fix_insert]. [parent_is_left] says whether the first branch of
    the outer [if] runs; the other one is its mirror image. *)
Definition fix_insert_body : RBTree * Z -> res (ctl (RBTree * Z) RBTree) :=
  fun '(t, z) =>
    let* continue := if z =? root t then Ok false
                     else let* zp := parent_of t z in
                          let* np := node t zp in Ok (bool_decide (color np = RED)) in
    if negb continue then
      let* t := set_color t (root t) BLACK in Ok (Done t)
    else
      let* zp := parent_of t z in
      let* zpp := parent_of t zp in
      let* ng := node t zpp in
      let parent_is_left := zp =? left_ ng in
      let y := if parent_is_left then right_ ng else left_ ng in
      let* red := is_red t y in
      if red then
        let* t := set_color t zp BLACK in
        let* t := set_color t y BLACK in
        let* t := set_color t zpp RED in
        Ok (Next (t, zpp))
      else
        let* np := node t zp in
        let* tz := if z =? (if parent_is_left then right_ np else left_ np) then
                     let* t := if parent_is_left then left_rotate t zp else right_rotate t zp in
                     Ok (t, zp)
                   else Ok (t, z) in
        let '(t, z) := tz in
        let* zp := parent_of t z in
        let* t := set_color t zp BLACK in
        let* zpp := parent_of t zp in
        let* t := set_color t zpp RED in
        let* t := if parent_is_left then right_rotate t zpp else left_rotate t zpp in
        Ok (Next (t, z)).

Definition fix_insert (t : RBTree) (z : Z) : res RBTree :=
  loop (rb_fuel t) fix_insert_body (t, z).

(** [z] is the address of the new node. *)
Definition rb_insert (t : RBTree) (z k v : Z) : res RBTree :=
  let* t := create_node t z k v in
  let* y := loop (rb_fuel t)
    (fun '(x, y) => if x =? 0 then Ok (Done y)
                    else
                      let* n := node t x in
                      Ok (Next (if k <? key n then left_ n else right_ n, x))) (root t, 0) in
  let* t := set_parent t z y in
  let* t := if y =? 0 then Ok (set_root t z)
            else
              let* n := node t y in
              if k <? key n then set_left t y z else set_right t y z in
  fix_insert t z.

(** ** Deletion *)

Definition transplant (t : RBTree) (u v : Z) : res RBTree :=
  let* nu := node t u in
  let* t := if parent nu =? 0 then Ok (set_root t v)
            else
              let* np := node t (parent nu) in
              if u =? left_ np then set_left t (parent nu) v else set_right t (parent nu) v in
  if negb (v =? 0) then let* nu := node t u in set_parent t v (parent nu) else Ok t.

(** [p == NULL || p->color == BLACK] *)
Definition is_black (t : RBTree) (p : Z) : res bool :=
  let* r := is_red t p in Ok (negb r).

(** One side of [delete_fixup]: [near]/[far] are the children on the side of [x]
    and opposite to it, [rot]/[unrot] the rotations towards and away from [x]. *)
Definition fixup_side (near far : Node -> Z) (rot unrot : RBTree -> Z -> res RBTree)
    (t : RBTree) (x_parent : Z) : res (ctl (RBTree * Z * Z) (RBTree * Z)) :=
  let* np := node t x_parent in
  let w := far np in
  let* nw := node t w in
  let* tw := if decide (color nw = RED) then
               let* t := set_color t w BLACK in
               let* t := set_color t x_parent RED in
               let* t := rot t x_parent in
               let* np := node t x_parent in Ok (t, far np)
             else Ok (t, w) in
  let '(t, w) := tw in
  let* nw := node t w in
  let* bl := is_black t (left_ nw) in
  let* br := is_black t (right_ nw) in
  if bl && br then
    let* t := set_color t w RED in
    let* np := node t x_parent in
    Ok (Next (t, x_parent, parent np))
  else
    let* bfar := is_black t (far nw) in
    let* tw := if (bfar : bool) then
                 let* t := if negb (near nw =? 0) then set_color t (near nw) BLACK else Ok t in
                 let* t := set_color t w RED in
                 let* t := unrot t w in
                 let* np := node t x_parent in Ok (t, far np)
               else Ok (t, w) in
    let '(t, w) := tw in
    let* np := node t x_parent in
    let* t := set_color t w (color np) in
    let* t := set_color t x_parent BLACK in
    let* nw := node t w in
    let* t := if negb (far nw =? 0) then set_color t (far nw) BLACK else Ok t in
    let* t := rot t x_parent in
    Ok (Done (t, root t)).

Definition delete_fixup (t : RBTree) (x x_parent : Z) : res RBTree :=
  let* r := loop (rb_fuel t)
    (fun '(t, x, x_parent) =>
       let* black := if x =? root t then Ok false else is_black t x in
       if (black : bool) then
         let* np := node t x_parent in
         if x =? left_ np then fixup_side left_ right_ left_rotate right_rotate t x_parent
         else fixup_side right_ left_ right_rotate left_rotate t x_parent
       else Ok (Done (t, x))) (t, x, x_parent) in
  let '(t, x) := r in
  if negb (x =? 0) then set_color t x BLACK else Ok t.

Definition rb_delete (t : RBTree) (k : Z) : res RBTree :=
  let* z := search t (root t) k in
  if z =? 0 then Ok t
  else
    let* nz := node t z in
    let* r :=
      if left_ nz =? 0 then
        let* t := transplant t z (right_ nz) in Ok (t, right_ nz, z, color nz)
      else if right_ nz =? 0 then
        let* t := transplant t z (left_ nz) in Ok (t, left_ nz, z, color nz)
      else
        let* y := minimum t (right_ nz) in
        let* ny := node t y in
        let x := right_ ny in
        let* t := if parent ny =? z then
                    if negb (x =? 0) then set_parent t x y else Ok t
                  else
                    let* t := transplant t y (right_ ny) in
                    let* nz := node t z in
                    let* t := set_right t y (right_ nz) in
                    let* ny := node t y in
                    set_parent t (right_ ny) y in
        let* t := transplant t z y in
        let* nz := node t z in
        let* t := set_left t y (left_ nz) in
        let* ny' := node t y in
        let* t := set_parent t (left_ ny') y in
        let* t := set_color t y (color nz) in
        Ok (t, x, y, color ny) in
    let '(t, x, y, y_original_color) := r in
    let* t := if decide (y_original_color = BLACK) then
                let* ny := node t y in delete_fixup t x (parent ny)
              else Ok t in
    Ok (mkTree (root t) (delete z (nodes t))).

(** ** Clearing *)

(** Recursion depth is bounded by the number of nodes. *)
Fixpoint rbfree_node (depth : nat) (t : RBTree) (p : Z) : res RBTree :=
  match depth with
  | O => NoFuel
  | S d =>
      if p =? 0 then Ok t
      else
        let* n := node t p in
        let* t := rbfree_node d t (right_ n) in
        let* n := node t p in
        let* t := rbfree_node d t (left_ n) in
        Ok (mkTree (root t) (delete p (nodes t)))
  end.

Definition rb_clear (t : RBTree) : res RBTree :=
  let* t := rbfree_node (rb_fuel t) t (root t) in Ok (set_root t 0).

Definition rb_new : RBTree := mkTree 0 ∅.

(** ** What the structure represents *)

(** A tree together with the addresses its nodes live at. *)
Inductive tree :=
  | Leaf
  | Branch (c : Color) (l : tree) (a k v : Z) (r : tree).

Definition addr (T : tree) : Z :=
  match T with Leaf => 0 | Branch _ _ a _ _ _ => a end.

Fixpoint addrs (T : tree) : list Z :=
  match T with Leaf => [] | Branch _ l a _ _ r => addrs l ++ a :: addrs r end.

Fixpoint inorder (T : tree) : list (Z * Z) :=
  match T with Leaf => [] | Branch _ l _ k v r => inorder l ++ (k, v) :: inorder r end.

Fixpoint height (T : tree) : nat :=
  match T with Leaf => 0 | Branch _ l _ _ _ r => S (height l `max` height r) end.

(** The heap [h] holds [T], whose root has parent [par]. *)
Fixpoint tree_at (h : gmap Z Node) (par : Z) (T : tree) : Prop :=
  match T with
  | Leaf => True
  | Branch c l a k v r =>
      a <> 0 /\ h !! a = Some (mkNode c k v (addr l) (addr r) par) /\
      tree_at h a l /\ tree_at h a r
  end.

(** Keys to the left are at most, keys to the right at least, the key of a node. *)
Fixpoint bst (T : tree) : Prop :=
  match T with
  | Leaf => True
  | Branch _ l _ k _ r =>
      Forall (fun x => x.1 <= k) (inorder l) /\ Forall (fun x => k <= x.1) (inorder r) /\
      bst l /\ bst r
  end.

Record represents (t : RBTree) (T : tree) : Prop := mkRep {
  rep_root : root t = addr T;
  rep_heap : tree_at (nodes t) 0 T;
  rep_nodup : NoDup (addrs T);
  rep_bst : bst T
}.

(** The node a search for [k] ends at. *)
Fixpoint find_tree (T : tree) (k : Z) : tree :=
  match T with
  | Leaf => Leaf
  | Branch c l a k' v r =>
      if k <? k' then find_tree l k else if k >? k' then find_tree r k else T
  end.

Definition tree_value (T : tree) : option Z :=
  match T with Leaf => None | Branch _ _ _ _ v _ => Some v end.

Lemma addrs_length (T : tree) : length (addrs T) = length (inorder T).
Proof. induction T; simpl; rewrite ?length_app; simpl; lia. Qed.

Lemma height_addrs (T : tree) : (height T <= length (addrs T))%nat.
Proof. induction T; simpl; rewrite ?length_app; simpl; lia. Qed.

Lemma tree_at_lookup h par T a :
  tree_at h par T -> a ∈ addrs T -> a <> 0 /\ is_Some (h !! a).
Proof.
  revert par; induction T as [|c l IHl a' k v r IHr]; intros par; simpl.
  - intros _ H. by apply elem_of_nil in H.
  - intros (Ha & Hl & H1 & H2). rewrite elem_of_app, elem_of_cons.
    intros [H|[->|H]]; eauto.
Qed.

Lemma tree_at_addr h par T : tree_at h par T -> (addr T = 0 <-> T = Leaf).
Proof. destruct T; simpl; [done|]. intros [? _]. split; [lia|done]. Qed.

(** The fuel of the loops covers the height. *)
Lemma rb_fuel_height t T : represents t T -> (height T < rb_fuel t)%nat.
Proof.
  intros [_ Hh Hn _]. unfold rb_fuel.
  enough (length (addrs T) <= size (nodes t))%nat by (pose proof (height_addrs T); lia).
  rewrite <- size_dom, <- (size_list_to_set (C := gset Z)) by exact Hn.
  apply subseteq_size. intros a H%elem_of_list_to_set. apply elem_of_dom.
  by eapply tree_at_lookup.
Qed.

(** A walk that goes from the root of a subtree to the root of one of its children
    until it stops costs at most one turn per level. *)
Lemma search_tree h rt n T par k :
  tree_at h par T -> (height T < n)%nat ->
  loop n (fun p => if p =? 0 then Ok (Done 0)
                   else let* n := node (mkTree rt h) p in
                        if k <? key n then Ok (Next (left_ n))
                        else if k >? key n then Ok (Next (right_ n)) else Ok (Done p)) (addr T)
  = Ok (addr (find_tree T k)).
Proof.
  revert n par; induction T as [|c l IHl a k' v r IHr]; intros n par HT Hn;
    (destruct n as [|n]; [simpl in Hn; lia|]); rewrite loop_S; simpl; [done|].
  simpl in HT, Hn. destruct HT as (Ha & Hl & H1 & H2).
  rewrite (proj2 (Z.eqb_neq a 0) Ha). unfold node; simpl. rewrite Hl; simpl.
  destruct (k <? k') eqn:E1; simpl; [apply (IHl n a H1); lia|].
  destruct (k >? k') eqn:E2; simpl; [apply (IHr n a H2); lia|done].
Qed.

Lemma find_tree_at h par T k :
  tree_at h par T -> exists par', tree_at h par' (find_tree T k).
Proof.
  revert par; induction T as [|c l IHl a k' v r IHr]; intros par HT; simpl; [by eauto|].
  pose proof HT as (Ha & Hl & H1 & H2).
  destruct (k <? k'); [eauto|]. destruct (k >? k'); eauto.
Qed.

Lemma find_tree_inorder T k v :
  tree_value (find_tree T k) = Some v -> (k, v) ∈ inorder T.
Proof.
  induction T as [|c l IHl a k' v' r IHr]; simpl; [done|].
  rewrite elem_of_app, elem_of_cons.
  destruct (k <? k') eqn:E1; [eauto|]. destruct (k >? k') eqn:E2; [eauto|].
  simpl. intros [= ->]. right; left. f_equal. lia.
Qed.

Lemma find_tree_none T k :
  bst T -> tree_value (find_tree T k) = None -> k ∉ (inorder T).*1.
Proof.
  induction T as [|c l IHl a k' v' r IHr]; simpl; [intros _ _; apply not_elem_of_nil|].
  intros (B1 & B2 & Bl & Br). rewrite Forall_forall in B1, B2.
  rewrite fmap_app, fmap_cons; simpl. intros Hv.
  rewrite elem_of_app, elem_of_cons, !list_elem_of_fmap.
  destruct (k <? k') eqn:E1; [|destruct (k >? k') eqn:E2; [|done]].
  - specialize (IHl Bl Hv). rewrite list_elem_of_fmap in IHl.
    intros [H|[->|(x & -> & H)]]; [by apply IHl|lia|]. specialize (B2 x H). lia.
  - specialize (IHr Br Hv). rewrite list_elem_of_fmap in IHr.
    intros [(x & -> & H)|[->|H]]; [|lia|by apply IHr]. specialize (B1 x H). lia.
Qed.

(** rb_find is correct on every search tree: it finishes, a value it returns is
    stored under the key, and it returns none exactly when the key is absent. *)
Theorem rb_find_correct t T k :
  represents t T ->
  exists r, rb_find t k = Ok r /\
    (forall v, r = Some v -> (k, v) ∈ inorder T) /\
    (r = None -> k ∉ (inorder T).*1).
Proof.
  intros R. pose proof (rb_fuel_height t T R) as Hf. destruct R as [Hr Hh _ Hb].
  destruct t as [rt h]; simpl in *. subst rt.
  exists (tree_value (find_tree T k)).
  split; [|split; [intros v; apply find_tree_inorder|by apply find_tree_none]].
  pose proof (search_tree h (addr T) _ T 0 k Hh Hf) as Es.
  change (search (mkTree (addr T) h) (addr T) k = Ok (addr (find_tree T k))) in Es.
  unfold rb_find, csearch; simpl root. rewrite Es; simpl.
  destruct (find_tree_at h 0 T k Hh) as [par' Hq].
  destruct (find_tree T k) as [|c l a k' v r]; simpl in *; [done|].
  destruct Hq as (Ha & Hl & _). rewrite (proj2 (Z.eqb_neq a 0) Ha).
  unfold node; simpl. by rewrite Hl.
Qed.

Lemma inorder_nil T : inorder T = [] -> T = Leaf.
Proof. destruct T; simpl; [done|]. intros H. by destruct (inorder T1). Qed.

(** The leftmost node carries the first pair of the inorder listing, and the
    rightmost one the last. *)
Lemma cminimum_tree h rt n T par :
  tree_at h par T -> T <> Leaf -> (height T <= n)%nat ->
  exists p nd tl, loop n (fun p => let* n := node (mkTree rt h) p in
      if negb (left_ n =? 0) then Ok (Next (left_ n)) else Ok (Done p)) (addr T) = Ok p /\
    h !! p = Some nd /\ inorder T = (key nd, value nd) :: tl.
Proof.
  revert n par; induction T as [|c l IHl a k v r _]; intros n par HT Hne Hn; [done|].
  destruct n as [|n]; [simpl in Hn; lia|]. rewrite loop_S. simpl in HT, Hn |- *.
  destruct HT as (Ha & Hl & H1 & _).
  assert (Hnode : node (mkTree rt h) a = Ok (mkNode c k v (addr l) (addr r) par))
    by (unfold node; simpl; by rewrite Hl).
  rewrite Hnode; simpl. pose proof (tree_at_addr h a l H1) as Hz.
  destruct (Z.eqb_spec (addr l) 0) as [E|E]; simpl.
  - rewrite (proj1 Hz E). simpl. by eexists a, _, _.
  - destruct (IHl n a H1) as (p & nd & tl & Ep & El & Ei); [tauto|lia|].
    exists p, nd, (tl ++ (k, v) :: inorder r). by rewrite Ep, El, Ei.
Qed.

Lemma cmaximum_tree h rt n T par :
  tree_at h par T -> T <> Leaf -> (height T <= n)%nat ->
  exists p nd hd, loop n (fun p => let* n := node (mkTree rt h) p in
      if negb (right_ n =? 0) then Ok (Next (right_ n)) else Ok (Done p)) (addr T) = Ok p /\
    h !! p = Some nd /\ inorder T = hd ++ [(key nd, value nd)].
Proof.
  revert n par; induction T as [|c l _ a k v r IHr]; intros n par HT Hne Hn; [done|].
  destruct n as [|n]; [simpl in Hn; lia|]. rewrite loop_S. simpl in HT, Hn |- *.
  destruct HT as (Ha & Hl & _ & H2).
  assert (Hnode : node (mkTree rt h) a = Ok (mkNode c k v (addr l) (addr r) par))
    by (unfold node; simpl; by rewrite Hl).
  rewrite Hnode; simpl. pose proof (tree_at_addr h a r H2) as Hz.
  destruct (Z.eqb_spec (addr r) 0) as [E|E]; simpl.
  - rewrite (proj1 Hz E). simpl. by eexists a, _, _.
  - destruct (IHr n a H2) as (p & nd & hd & Ep & El & Ei); [tauto|lia|].
    exists p, nd, (inorder l ++ (k, v) :: hd). rewrite Ep, El, Ei. by rewrite <- app_assoc.
Qed.

(** rb_min_val and rb_max_val, the queries the scheduler picks the next process
    with, return the value of a least and of a greatest key, and none exactly on the
    empty tree. *)
Theorem rb_extrema_correct t T :
  represents t T ->
  match inorder T with
  | [] => rb_min_val t = Ok None /\ rb_max_val t = Ok None
  | (k0, v0) :: rest =>
      rb_min t = Ok (Some k0) /\ rb_min_val t = Ok (Some v0) /\
      exists k1 v1, rb_max t = Ok (Some k1) /\ rb_max_val t = Ok (Some v1) /\
        List.last (inorder T) (k0, v0) = (k1, v1)
  end.
Proof.
  intros R. pose proof (rb_fuel_height t T R) as Hf. destruct R as [Hr Hh _ _].
  destruct t as [rt h]; simpl in *. subst rt.
  unfold rb_min, rb_min_val, rb_max, rb_max_val, rb_end; simpl root.
  destruct (inorder T) as [|[k0 v0] rest] eqn:EI; [by rewrite (inorder_nil T EI)|].
  assert (HT : T <> Leaf) by (intros ->; discriminate).
  rewrite (proj2 (Z.eqb_neq (addr T) 0)) by (rewrite (tree_at_addr h 0 T Hh); exact HT).
  destruct (cminimum_tree h (addr T) _ T 0 Hh HT (Nat.lt_le_incl _ _ Hf))
    as (p & np & tl & Ep & Lp & Ip).
  destruct (cmaximum_tree h (addr T) _ T 0 Hh HT (Nat.lt_le_incl _ _ Hf))
    as (q & nq & hd & Eq & Lq & Iq).
  change (cminimum (mkTree (addr T) h) (addr T) = Ok p) in Ep.
  change (cmaximum (mkTree (addr T) h) (addr T) = Ok q) in Eq.
  rewrite Ep, Eq; unfold node; simpl. rewrite Lp, Lq; simpl.
  pose proof (eq_trans (eq_sym EI) Ip) as E0. injection E0 as -> -> _.
  do 2 (split; [done|]).
  exists (key nq), (value nq). do 2 (split; [done|]).
  change (List.last ((key np, value np) :: rest) (key np, value np) = (key nq, value nq)).
  rewrite <- EI, Iq. apply List.last_last.
Qed.

(** ** Sequences of operations *)

(** [Insert p k v]: [rb_insert] with the node allocated at [p]. *)
Inductive rb_op := Insert (p k v : Z) | Delete (k : Z).

Definition rb_step (t : RBTree) (o : rb_op) : res RBTree :=
  match o with Insert p k v => rb_insert t p k v | Delete k => rb_delete t k end.

Fixpoint rb_run (t : RBTree) (os : list rb_op) : res RBTree :=
  match os with [] => Ok t | o :: os' => let* t := rb_step t o in rb_run t os' end.

(** Every key is found with its value in a tree built by insertions that took all the
    cases of [fix_insert], and no key is left after the tree is cleared. *)
Example rb_insert_example :
  exists t, rb_run rb_new [Insert 64 2 20; Insert 128 1 10; Insert 192 3 30; Insert 256 4 40;
                           Insert 320 0 7; Insert 384 9 90; Insert 448 7 70] = Ok t /\
    rb_find t 7 = Ok (Some 70) /\ rb_find t 5 = Ok None /\ rb_min_val t = Ok (Some 7) /\
    rb_max t = Ok (Some 9) /\ rb_clear t = Ok rb_new.
Proof. eexists. vm_compute. repeat split. Qed.

(** rb_delete can follow a null pointer on a well-formed search tree. When the
    node has two children, the second transplant makes the parent of the node the
    parent of its successor y, and delete_fixup is then started at y->parent, above y,
    instead of at the parent of the hole; at the root that is NULL, which it
    dereferences. Four insertions and two deletions are enough. *)
Theorem rb_delete_null_deref :
  exists t T,
    rb_run rb_new [Insert 64 2 20; Insert 128 1 10; Insert 192 3 30; Insert 256 4 40; Delete 4]
      = Ok t /\
    represents t T /\ inorder T = [(1, 10); (2, 20); (3, 30)] /\ rb_delete t 2 = Ub.
Proof.
  eexists _, (Branch BLACK (Branch BLACK Leaf 128 1 10 Leaf) 64 2 20
                          (Branch BLACK Leaf 192 3 30 Leaf)).
  split; [vm_compute; reflexivity|]. split; [|split; vm_compute; reflexivity].
  split; [reflexivity| |by apply (bool_decide_unpack _); vm_compute|].
  - simpl. repeat split; discriminate.
  - simpl. repeat split; repeat constructor; simpl; lia.
Qed.

(** The tree of that theorem, for the concrete instances below. *)
Definition demo_rb : RBTree :=
  mkTree 64 (<[64 := mkNode BLACK 2 20 128 192 0]> (<[128 := mkNode RED 1 10 0 0 64]>
            (<[192 := mkNode RED 3 30 0 0 64]> ∅))).
Definition demo_rb_tree : tree :=
  Branch BLACK (Branch RED Leaf 128 1 10 Leaf) 64 2 20 (Branch RED Leaf 192 3 30 Leaf).

Lemma demo_rb_represents : represents demo_rb demo_rb_tree.
Proof.
  split; [reflexivity| |by apply (bool_decide_unpack _); vm_compute|].
  - simpl. repeat split; discriminate.
  - simpl. repeat split; repeat constructor; simpl; lia.
Qed.

Lemma rb_find_correct_witness :
  represents demo_rb demo_rb_tree /\
  exists r, rb_find demo_rb 3 = Ok r /\
    (forall v, r = Some v -> (3, v) ∈ inorder demo_rb_tree) /\
    (r = None -> 3 ∉ (inorder demo_rb_tree).*1).
Proof.
  split; [exact demo_rb_represents|].
  exact (rb_find_correct demo_rb demo_rb_tree 3 demo_rb_represents).
Defined.

Lemma rb_extrema_correct_witness :
  represents demo_rb demo_rb_tree /\
  rb_min demo_rb = Ok (Some 1) /\ rb_min_val demo_rb = Ok (Some 10) /\
  exists k1 v1, rb_max demo_rb = Ok (Some k1) /\ rb_max_val demo_rb = Ok (Some v1) /\
    List.last (inorder demo_rb_tree) (1, 10) = (k1, v1).
Proof.
  split; [exact demo_rb_represents|].
  exact (rb_extrema_correct demo_rb demo_rb_tree demo_rb_represents).
Defined.
