(* ===== verification/RBInsert.v ===== *)
(** rb_insert of src/util/src/rbtree.c keeps red-black trees.

    A place in a tree is a subtree and the [frame]s above it, innermost first. The code's
    two mirror images are treated at once: [rotate] is either rotation, [mk d] a node
    whose child on the side [d] comes first. *)
From Stdlib Require Import Sorted.
From S2P Require Import Prelude RBTree.

Inductive side := L | R.

#[export] Instance side_eq_dec : EqDecision side.
Proof. solve_decision. Defined.

Definition pick {A} (d : side) (a b : A) : A := match d with L => a | R => b end.
Definition flip (d : side) : side := pick d R L.

Definition mk (d : side) (c : Color) (n : tree) (a k v : Z) (f : tree) : tree :=
  Branch c (pick d n f) a k v (pick d f n).
Definition mkn (d : side) (c : Color) (k v n f q : Z) : Node := mkNode c k v (pick d n f) (pick d f n) q.

Definition near (d : side) (n : Node) : Z := pick d (left_ n) (right_ n).
Definition far (d : side) (n : Node) : Z := pick d (right_ n) (left_ n).
Definition set_near (d : side) : RBTree -> Z -> Z -> res RBTree := pick d set_left set_right.
Definition set_far (d : side) : RBTree -> Z -> Z -> res RBTree := pick d set_right set_left.

Lemma mk_flip d c n a k v f : mk (flip d) c n a k v f = mk d c f a k v n.
Proof. by destruct d. Qed.

Lemma mk_L c l a k v r : Branch c l a k v r = mk L c l a k v r.
Proof. done. Qed.

Lemma near_mkn d c k v n f q : near d (mkn d c k v n f q) = n.
Proof. by destruct d. Qed.

Lemma far_mkn d c k v n f q : far d (mkn d c k v n f q) = f.
Proof. by destruct d. Qed.

(** ** Places in a tree *)

Record frame := Frame { fside : side; fcolor : Color; faddr : Z; fkey : Z; fvalue : Z; sibling : tree }.

Definition plug1 (T : tree) (f : frame) : tree :=
  mk (fside f) (fcolor f) T (faddr f) (fkey f) (fvalue f) (sibling f).

Fixpoint plug (T : tree) (p : list frame) : tree :=
  match p with [] => T | f :: p => plug (plug1 T f) p end.

Definition paddr (p : list frame) : Z := match p with [] => 0 | f :: _ => faddr f end.

Definition fnode (f : frame) (child q : Z) : Node :=
  mkn (fside f) (fcolor f) (fkey f) (fvalue f) child (addr (sibling f)) q.

Fixpoint path_at (h : gmap Z Node) (child : Z) (p : list frame) : Prop :=
  match p with
  | [] => True
  | f :: p => faddr f <> 0 /\ h !! faddr f = Some (fnode f child (paddr p)) /\
      tree_at h (faddr f) (sibling f) /\ path_at h (faddr f) p
  end.

Fixpoint path_addrs (p : list frame) : list Z :=
  match p with [] => [] | f :: p => faddr f :: addrs (sibling f) ++ path_addrs p end.

Lemma tree_at_mk h q d c n a k v f : tree_at h q (mk d c n a k v f) <->
  a <> 0 /\ h !! a = Some (mkn d c k v (addr n) (addr f) q) /\ tree_at h a n /\ tree_at h a f.
Proof. destruct d; cbn; tauto. Qed.

Lemma addrs_mk d c n a k v f : addrs (mk d c n a k v f) ≡ₚ a :: addrs n ++ addrs f.
Proof. destruct d; cbn; [by rewrite <- Permutation_middle | rewrite <- Permutation_middle; by rewrite Permutation_app_comm]. Qed.

Lemma addrs_plug p : forall T, addrs (plug T p) ≡ₚ addrs T ++ path_addrs p.
Proof.
  induction p as [|f p IH]; intros T; cbn [plug path_addrs]; [by rewrite app_nil_r|].
  rewrite IH. unfold plug1. rewrite addrs_mk. rewrite <- Permutation_middle. cbn.
  by rewrite app_assoc.
Qed.

Lemma tree_at_plug h p : forall T, tree_at h 0 (plug T p) <-> tree_at h (paddr p) T /\ path_at h (addr T) p.
Proof.
  induction p as [|f p IH]; intros T; cbn [plug path_at paddr]; [tauto|].
  rewrite IH. unfold plug1 at 1. rewrite tree_at_mk. cbn. tauto.
Qed.

Lemma addrs_plug_eq p : forall T T', addrs T = addrs T' -> addrs (plug T p) = addrs (plug T' p).
Proof.
  induction p as [|f p IH]; intros T T' E; cbn; [done|]. apply IH. unfold plug1, mk.
  destruct (fside f); cbn; by rewrite E.
Qed.

Lemma inorder_plug_eq p : forall T T', inorder T = inorder T' -> inorder (plug T p) = inorder (plug T' p).
Proof.
  induction p as [|f p IH]; intros T T' E; cbn; [done|]. apply IH. unfold plug1, mk.
  destruct (fside f); cbn; by rewrite E.
Qed.

Lemma addr_plug p : forall T T', addr T = addr T' -> addr (plug T p) = addr (plug T' p).
Proof. induction p as [|f p IH]; intros T T' E; cbn; [done|]. by apply IH. Qed.

Lemma root_in_path p : forall T, p <> [] -> addr (plug T p) ∈ path_addrs p.
Proof.
  induction p as [|f p IH]; intros T Hp; [done|]. cbn [plug path_addrs].
  destruct p as [|g p]; [by left|]. right. apply elem_of_app. right. by apply IH.
Qed.

(** Only the nodes of a tree matter for where it is. *)
Lemma tree_at_ext h h' T : forall q, (forall a, a ∈ addrs T -> h' !! a = h !! a) ->
  tree_at h q T -> tree_at h' q T.
Proof.
  induction T as [|c l IHl a k v r IHr]; intros q He; cbn; [done|]. intros (Ha & El & Hl & Hr).
  split; [done|]. split; [rewrite He; [done|] | split].
  - cbn. apply elem_of_app. right. by left.
  - apply IHl; [|done]. intros x Hx. apply He. cbn. apply elem_of_app. by left.
  - apply IHr; [|done]. intros x Hx. apply He. cbn. apply elem_of_app. right. by right.
Qed.

Lemma path_at_ext h h' p : forall x, (forall a, a ∈ path_addrs p -> h' !! a = h !! a) ->
  path_at h x p -> path_at h' x p.
Proof.
  induction p as [|f p IH]; intros x He; cbn; [done|]. intros (Ha & E & Hs & Hp).
  split; [done|]. split; [rewrite He; [done | by left] | split].
  - eapply tree_at_ext; [|done]. intros a Hin. apply He. right. apply elem_of_app. by left.
  - apply IH; [|done]. intros a Hin. apply He. right. apply elem_of_app. by right.
Qed.

(** ** The tree in memory *)

Record shape (t : RBTree) (T : tree) : Prop := mkShape {
  sh_root : root t = addr T;
  sh_heap : tree_at (nodes t) 0 T;
  sh_nodup : NoDup (addrs T)
}.

Lemma shape_represents t T : represents t T <-> shape t T /\ bst T.
Proof. split; [intros [? ? ? ?] | intros [[? ? ?] ?]]; by repeat split. Qed.

Lemma shape_node t p d c n a k v f : shape t (plug (mk d c n a k v f) p) ->
  a <> 0 /\ node t a = Ok (mkn d c k v (addr n) (addr f) (paddr p)).
Proof.
  intros [_ Hh _]. apply tree_at_plug in Hh as [Hh _]. apply tree_at_mk in Hh as (Ha & E & _).
  split; [done|]. unfold node. by rewrite E.
Qed.

Lemma upd_ok t p f n : nodes t !! p = Some n -> upd t p f = Ok (mkTree (root t) (<[p := f n]> (nodes t))).
Proof. intros E. unfold upd, node. by rewrite E. Qed.

(** A node is given a colour. *)
Lemma set_color_ok t p d c c' n a k v f : shape t (plug (mk d c n a k v f) p) ->
  exists t', set_color t a c' = Ok t' /\ shape t' (plug (mk d c' n a k v f) p) /\
    dom (nodes t') = dom (nodes t).
Proof.
  intros [Hr Hh Hn]. pose proof Hh as Hh0. apply tree_at_plug in Hh as [Ht Hp].
  apply tree_at_mk in Ht as (Ha & E & H1 & H2). rewrite addrs_plug, addrs_mk in Hn.
  apply NoDup_cons in Hn as [Hna Hn]. rewrite !not_elem_of_app in Hna.
  unfold set_color. rewrite (upd_ok _ _ _ _ E). eexists. split; [done|]. split; [split|].
  - cbn [root]. rewrite Hr. by apply addr_plug.
  - cbn [nodes]. apply tree_at_plug. split.
    + apply tree_at_mk. split; [done|]. split; [by rewrite lookup_insert_eq; destruct d|].
      split; (eapply tree_at_ext; [|done]); intros x Hx; apply lookup_insert_ne; intros ->; tauto.
    + eapply path_at_ext; [|exact Hp]. intros x Hx. apply lookup_insert_ne. intros ->. tauto.
  - rewrite addrs_plug, addrs_mk. constructor; [by rewrite !not_elem_of_app | done].
  - cbn. apply dom_insert_lookup_L. by eexists.
Qed.

(** ** Rotations *)

Definition rotate (d : side) (t : RBTree) (x : Z) : res RBTree :=
  let* nx := node t x in
  let y := far d nx in
  let* ny := node t y in
  let* t := set_far d t x (near d ny) in
  let* t := if negb (near d ny =? 0) then set_parent t (near d ny) x else Ok t in
  let* nx := node t x in
  let* t := set_parent t y (parent nx) in
  let* t := replace_child t x y in
  let* t := set_near d t y x in
  set_parent t x y.

Lemma left_rotate_rotate : left_rotate = rotate L.
Proof. done. Qed.

Lemma right_rotate_rotate : right_rotate = rotate R.
Proof. done. Qed.

(** The pointer to the parent at the root of a subtree, and the pointer to a child in
    the frame around it. *)
Definition reparent (h : gmap Z Node) (T : tree) (q : Z) : gmap Z Node :=
  match T with
  | Leaf => h
  | Branch c l a k v r => <[a := mkNode c k v (addr l) (addr r) q]> h
  end.

Definition relink (h : gmap Z Node) (child : Z) (p : list frame) : gmap Z Node :=
  match p with [] => h | f :: p => <[faddr f := fnode f child (paddr p)]> h end.

Lemma reparent_ne h T q a : a ∉ addrs T -> reparent h T q !! a = h !! a.
Proof.
  destruct T as [|c l b k v r]; cbn; [done|]. rewrite elem_of_app, elem_of_cons. intros Ha.
  apply lookup_insert_ne. intros ->. tauto.
Qed.

Lemma relink_ne h x p a : a ∉ path_addrs p -> relink h x p !! a = h !! a.
Proof.
  destruct p as [|f p]; cbn; [done|]. rewrite elem_of_cons. intros Ha. apply lookup_insert_ne.
  intros <-. tauto.
Qed.

Lemma reparent_at h T q q' : NoDup (addrs T) -> tree_at h q T -> tree_at (reparent h T q') q' T.
Proof.
  destruct T as [|c l a k v r]; cbn; [done|]. intros Hn (Ha & _ & Hl & Hr).
  apply NoDup_app in Hn as (_ & Hl' & Hn). apply NoDup_cons in Hn as [Hr' _].
  split; [done|]. rewrite lookup_insert_eq. split; [done|].
  split; (eapply tree_at_ext; [|done]); intros x Hx; apply lookup_insert_ne; intros ->; [|done].
  apply (Hl' x Hx). by left.
Qed.

Lemma relink_at h x y p : NoDup (path_addrs p) -> path_at h x p -> path_at (relink h y p) y p.
Proof.
  destruct p as [|f p]; cbn; [done|]. intros Hn (Ha & _ & Hs & Hp). apply NoDup_cons in Hn as [Hn _].
  rewrite not_elem_of_app in Hn. split; [done|]. rewrite lookup_insert_eq. split; [done|].
  split; [eapply tree_at_ext; [|done] | eapply path_at_ext; [|done]];
    intros a Hin; apply lookup_insert_ne; intros <-; tauto.
Qed.

Lemma set_parent_reparent t T q q' : tree_at (nodes t) q T ->
  (if negb (addr T =? 0) then set_parent t (addr T) q' else Ok t) =
  Ok (mkTree (root t) (reparent (nodes t) T q')).
Proof.
  destruct T as [|c l a k v r]; cbn; [by destruct t|]. intros (Ha & E & _).
  rewrite (proj2 (Z.eqb_neq _ _) Ha). cbn. unfold set_parent. by rewrite (upd_ok _ _ _ _ E).
Qed.

(** [x] is the child of the first frame, and so not its sibling. *)
Lemma replace_child_ok t x y p n : nodes t !! x = Some n -> parent n = paddr p -> x <> 0 ->
  path_at (nodes t) x p -> x ∉ path_addrs p ->
  replace_child t x y =
    Ok (mkTree (match p with [] => y | _ => root t end) (relink (nodes t) y p)).
Proof.
  intros E Hq Hx Hp Hn. unfold replace_child. unfold node at 1. rewrite E. cbn [deref res_bind]. rewrite Hq.
  destruct p as [|f p]; [done|]. cbn [paddr path_at path_addrs] in *. destruct Hp as (Ha & Ef & Hs & _).
  rewrite (proj2 (Z.eqb_neq _ _) Ha). unfold node. rewrite Ef. cbn [deref res_bind].
  assert (x <> addr (sibling f)) as Hxs.
  { intros ->. destruct (sibling f); [done|]. apply Hn. right. apply elem_of_app. left. cbn.
    apply elem_of_app. right. by left. }
  destruct f as [[] fc fa fk fv s]; cbn in *; unfold fnode, mkn in *; cbn in *.
  - rewrite Z.eqb_refl. unfold set_left. by rewrite (upd_ok _ _ _ _ Ef).
  - rewrite (proj2 (Z.eqb_neq _ _) Hxs). unfold set_right. by rewrite (upd_ok _ _ _ _ Ef).
Qed.

(** The stores of a field, on a node seen from the side [d]. *)
Lemma set_near_ok d t p c k v n f q n' : nodes t !! p = Some (mkn d c k v n f q) ->
  set_near d t p n' = Ok (mkTree (root t) (<[p := mkn d c k v n' f q]> (nodes t))).
Proof. intros E. destruct d; cbn; [unfold set_left | unfold set_right]; by rewrite (upd_ok _ _ _ _ E). Qed.

Lemma set_far_ok d t p c k v n f q f' : nodes t !! p = Some (mkn d c k v n f q) ->
  set_far d t p f' = Ok (mkTree (root t) (<[p := mkn d c k v n f' q]> (nodes t))).
Proof. intros E. destruct d; cbn; [unfold set_right | unfold set_left]; by rewrite (upd_ok _ _ _ _ E). Qed.

Lemma set_parent_ok d t p c k v n f q q' : nodes t !! p = Some (mkn d c k v n f q) ->
  set_parent t p q' = Ok (mkTree (root t) (<[p := mkn d c k v n f q']> (nodes t))).
Proof. intros E. unfold set_parent. by destruct d; rewrite (upd_ok _ _ _ _ E). Qed.

Lemma node_ok t p n : nodes t !! p = Some n -> node t p = Ok n.
Proof. intros E. unfold node. by rewrite E. Qed.

Lemma parent_mkn d c k v n f q : parent (mkn d c k v n f q) = q.
Proof. done. Qed.

Lemma dom_reparent h T q q' : tree_at h q T -> dom (reparent h T q') = dom h.
Proof.
  destruct T as [|c l a k v r]; cbn; [done|]. intros (_ & E & _). apply dom_insert_lookup_L. by eexists.
Qed.

Lemma dom_relink h x y p : path_at h x p -> dom (relink h y p) = dom h.
Proof.
  destruct p as [|f p]; cbn; [done|]. intros (_ & E & _). apply dom_insert_lookup_L. by eexists.
Qed.

Lemma addr_mk d c n a k v f : addr (mk d c n a k v f) = a.
Proof. by destruct d. Qed.

Section rotation.
Context (d : side) (t : RBTree) (p : list frame) (cx : Color) (a : tree) (x kx vx : Z)
  (cy : Color) (b : tree) (y ky vy : Z) (c : tree).
Context (Hs : shape t (plug (mk d cx a x kx vx (mk d cy b y ky vy c)) p)).

(** The heap after each of the stores. *)
Let q : Z := paddr p.
Let h : gmap Z Node := nodes t.
Let h1 : gmap Z Node := <[x := mkn d cx kx vx (addr a) (addr b) q]> h.
Let h2 : gmap Z Node := reparent h1 b x.
Let h3 : gmap Z Node := <[y := mkn d cy ky vy (addr b) (addr c) q]> h2.
Let h4 : gmap Z Node := relink h3 y p.
Let h5 : gmap Z Node := <[y := mkn d cy ky vy x (addr c) q]> h4.
Let h6 : gmap Z Node := <[x := mkn d cx kx vx (addr a) (addr b) y]> h5.

Lemma rotate_heap : x <> 0 /\ h !! x = Some (mkn d cx kx vx (addr a) y q) /\ tree_at h x a /\
  y <> 0 /\ h !! y = Some (mkn d cy ky vy (addr b) (addr c) x) /\ tree_at h y b /\ tree_at h y c /\
  path_at h x p.
Proof.
  destruct Hs as [_ Hh _]. apply tree_at_plug in Hh as [Ht Hp]. rewrite addr_mk in Hp.
  apply tree_at_mk in Ht as (Hx & Ex & Ha & Hy). rewrite addr_mk in Ex.
  apply tree_at_mk in Hy as (Hy & Ey & Hb & Hc). done.
Qed.

Lemma rotate_apart : x <> y /\ NoDup (addrs b) /\ NoDup (path_addrs p) /\
  (forall z, z ∈ addrs a -> z <> x /\ z <> y /\ z ∉ addrs b /\ z ∉ path_addrs p) /\
  (forall z, z ∈ addrs b -> z <> x /\ z <> y /\ z ∉ path_addrs p) /\
  (forall z, z ∈ addrs c -> z <> x /\ z <> y /\ z ∉ addrs b /\ z ∉ path_addrs p) /\
  (forall z, z ∈ path_addrs p -> z <> x /\ z <> y /\ z ∉ addrs b).
Proof.
  destruct Hs as [_ _ Hn]. rewrite addrs_plug, addrs_mk, addrs_mk in Hn. cbn in Hn.
  rewrite <- Permutation_middle in Hn. cbn in Hn.
  apply NoDup_cons in Hn as [Nx Hn]. apply NoDup_cons in Hn as [Ny Hn].
  apply NoDup_app in Hn as (Hn & Dp & Np). apply NoDup_app in Hn as (Na & Da & Hn).
  apply NoDup_app in Hn as (Nb & Db & Nc).
  setoid_rewrite elem_of_app in Da. setoid_rewrite elem_of_app in Dp. setoid_rewrite elem_of_app in Dp.
  rewrite elem_of_cons, !elem_of_app in Nx. rewrite !elem_of_app in Ny.
  split; [intros ->; tauto|]. do 2 (split; [done|]).
  split_and!; intros z Hz; split_and!; try (intros ->; tauto); naive_solver.
Qed.

Lemma rotate_b_at : tree_at h1 y b.
Proof.
  destruct rotate_heap as (_ & _ & _ & _ & _ & Hb & _). destruct rotate_apart as (_ & _ & _ & _ & Sb & _).
  eapply tree_at_ext; [|exact Hb]. intros z Hz. apply lookup_insert_ne.
  destruct (Sb z Hz) as (? & _). congruence.
Qed.

Lemma rotate_path_at : path_at h3 x p.
Proof.
  destruct rotate_heap as (_ & _ & _ & _ & _ & _ & _ & Hp). destruct rotate_apart as (_ & _ & _ & _ & _ & _ & Sp).
  eapply path_at_ext; [|exact Hp]. intros z Hz. destruct (Sp z Hz) as (? & ? & ?).
  unfold h3, h2, h1. rewrite lookup_insert_ne, reparent_ne, lookup_insert_ne by done. done.
Qed.

Lemma x_apart : x ∉ addrs b /\ x ∉ path_addrs p.
Proof. destruct rotate_apart as (_ & _ & _ & _ & Sb & _ & Sp). split; intros Hz; [by destruct (Sb x Hz) | by destruct (Sp x Hz)]. Qed.

Lemma y_apart : y ∉ addrs b /\ y ∉ path_addrs p.
Proof. destruct rotate_apart as (_ & _ & _ & _ & Sb & _ & Sp). split; intros Hz; [by destruct (Sb y Hz) as (_ & ? & _) | by destruct (Sp y Hz) as (_ & ? & _)]. Qed.

Lemma rotate_lookups : h2 !! x = Some (mkn d cx kx vx (addr a) (addr b) q) /\
  h2 !! y = Some (mkn d cy ky vy (addr b) (addr c) x) /\
  h3 !! x = h2 !! x /\ h4 !! y = Some (mkn d cy ky vy (addr b) (addr c) q) /\ h5 !! x = h2 !! x.
Proof.
  destruct rotate_heap as (_ & _ & _ & _ & Ey & _). destruct x_apart, y_apart. destruct rotate_apart as [Hxy _].
  assert (h3 !! x = h2 !! x) as E3 by (unfold h3; by rewrite lookup_insert_ne).
  split; [|split; [|split; [done|split]]].
  - unfold h2, h1. by rewrite reparent_ne, lookup_insert_eq.
  - unfold h2, h1. by rewrite reparent_ne, lookup_insert_ne.
  - unfold h4, h3. by rewrite relink_ne, lookup_insert_eq.
  - rewrite <- E3. unfold h5, h4. by rewrite lookup_insert_ne, relink_ne.
Qed.

Let rt : Z := match p with [] => y | _ => root t end.

Lemma rotate_runs : rotate d t x = Ok (mkTree rt h6).
Proof.
  destruct rotate_heap as (Hx & Ex & _ & _ & Ey & _). destruct x_apart.
  destruct rotate_lookups as (E2x & E2y & E3x & E4y & E5x). rewrite E2x in E3x, E5x.
  unfold rotate. rewrite (node_ok _ _ _ Ex). cbn [res_bind]. rewrite far_mkn, (node_ok _ _ _ Ey). cbn [res_bind].
  rewrite near_mkn, (set_far_ok _ _ _ _ _ _ _ _ _ _ Ex). cbn [res_bind]. fold h h1.
  rewrite (set_parent_reparent (mkTree (root t) h1) b y x rotate_b_at). cbn [res_bind nodes root]. fold h2.
  rewrite (node_ok (mkTree (root t) h2) _ _ E2x). cbn [res_bind].
  rewrite parent_mkn, (set_parent_ok d (mkTree (root t) h2) _ _ _ _ _ _ _ _ E2y). cbn [res_bind nodes root]. fold h3.
  rewrite (replace_child_ok (mkTree (root t) h3) x y p _ E3x); [|done | done | exact rotate_path_at | done].
  cbn [res_bind nodes root]. fold h4 rt.
  rewrite (set_near_ok d (mkTree rt h4) _ _ _ _ _ _ _ _ E4y). cbn [res_bind nodes root]. fold h5.
  by rewrite (set_parent_ok d (mkTree rt h5) _ _ _ _ _ _ _ _ E5x).
Qed.

Lemma rotate_dom : dom h6 = dom h.
Proof.
  destruct rotate_heap as (_ & Ex & _ & _ & Ey & _). destruct rotate_lookups as (E2x & E2y & E3x & E4y & E5x).
  unfold h6. rewrite dom_insert_lookup_L by (rewrite E5x, E2x; by eexists).
  unfold h5. rewrite dom_insert_lookup_L by (rewrite E4y; by eexists).
  unfold h4. rewrite (dom_relink h3 x y p rotate_path_at).
  unfold h3. rewrite dom_insert_lookup_L by (rewrite E2y; by eexists).
  unfold h2. rewrite (dom_reparent h1 b y x rotate_b_at).
  unfold h1. by rewrite dom_insert_lookup_L by (rewrite Ex; by eexists).
Qed.

Lemma rotate_out z : z <> x -> z <> y -> h6 !! z = h4 !! z /\
  (z ∉ path_addrs p -> h4 !! z = h2 !! z /\ (z ∉ addrs b -> h2 !! z = h !! z)).
Proof.
  intros Hzx Hzy. split; [unfold h6, h5; by rewrite !lookup_insert_ne|]. intros Hzp.
  split; [unfold h4, h3; by rewrite relink_ne, lookup_insert_ne|]. intros Hzb.
  unfold h2, h1. by rewrite reparent_ne, lookup_insert_ne.
Qed.

Lemma rotate_tree_at : tree_at h6 0 (plug (mk d cy (mk d cx a x kx vx b) y ky vy c) p).
Proof.
  destruct rotate_heap as (Hx & _ & Ha & Hy & _ & _ & Hc & _).
  destruct rotate_apart as (Hxy & Nb & Np & Sa & Sb & Sc & Sp).
  apply tree_at_plug. rewrite tree_at_mk, tree_at_mk, !addr_mk. split.
  - split; [done|]. split.
    { unfold h6. rewrite lookup_insert_ne by done. apply lookup_insert_eq. }
    split; [split; [done | split; [apply lookup_insert_eq | split]]|].
    + eapply tree_at_ext; [|exact Ha]. intros z Hz. destruct (Sa z Hz) as (? & ? & ? & ?).
      destruct (rotate_out z) as (-> & E); [done..|]. destruct E as [-> E]; [done|]. by apply E.
    + eapply tree_at_ext; [|apply (reparent_at h1 b y x Nb rotate_b_at)]. intros z Hz.
      destruct (Sb z Hz) as (? & ? & ?). destruct (rotate_out z) as (-> & E); [done..|]. by apply E.
    + eapply tree_at_ext; [|exact Hc]. intros z Hz. destruct (Sc z Hz) as (? & ? & ? & ?).
      destruct (rotate_out z) as (-> & E); [done..|]. destruct E as [-> E]; [done|]. by apply E.
  - eapply path_at_ext; [|exact (relink_at h3 x y p Np rotate_path_at)]. intros z Hz.
    destruct (Sp z Hz) as (? & ? & ?). by apply rotate_out.
Qed.

Lemma rotate_ok : exists t', rotate d t x = Ok t' /\
  shape t' (plug (mk d cy (mk d cx a x kx vx b) y ky vy c) p) /\ dom (nodes t') = dom (nodes t).
Proof.
  exists (mkTree rt h6). split; [exact rotate_runs|]. split; [|exact rotate_dom].
  destruct Hs as [Hr _ Hn]. split; [|exact rotate_tree_at|].
  - cbn [root]. unfold rt. destruct p as [|f p']; [by cbn; destruct d|]. rewrite Hr. cbn [plug]. by apply addr_plug.
  - erewrite addrs_plug_eq; [exact Hn|]. destruct d; cbn; by rewrite <- app_assoc.
Qed.

End rotation.

(** ** Red-black trees *)

Definition black (T : tree) : Prop :=
  match T with Branch RED _ _ _ _ _ => False | _ => True end.

(** [T] has no red node below a red one, and [n] black ones on every way down. *)
Inductive rb : nat -> tree -> Prop :=
| rb_leaf : rb 0 Leaf
| rb_red n l a k v r : rb n l -> rb n r -> black l -> black r -> rb n (Branch RED l a k v r)
| rb_black n l a k v r : rb n l -> rb n r -> rb (S n) (Branch BLACK l a k v r).

(** The frames around a subtree that has [n] black nodes on every way down. *)
Fixpoint rb_path (n : nat) (p : list frame) : Prop :=
  match p with
  | [] => True
  | f :: p' => rb n (sibling f) /\
      match fcolor f with
      | RED => black (sibling f) /\ match p' with [] => False | g :: _ => fcolor g = BLACK end /\ rb_path n p'
      | BLACK => rb_path (S n) p'
      end
  end.

(** The colour of the node above. *)
Definition below_black (p : list frame) : Prop :=
  match p with [] => True | f :: _ => fcolor f = BLACK end.

Lemma rb_mk_red d n T a k v s : rb n T -> rb n s -> black T -> black s -> rb n (mk d RED T a k v s).
Proof. destruct d; by constructor. Qed.

Lemma rb_mk_black d n T a k v s : rb n T -> rb n s -> rb (S n) (mk d BLACK T a k v s).
Proof. destruct d; by constructor. Qed.

Lemma plug_rb p : forall n T, rb n T -> rb_path n p -> (black T \/ below_black p /\ p <> []) ->
  exists m, rb m (plug T p) /\ black (plug T p).
Proof.
  induction p as [|f p IH]; intros n T HT Hp Hb; cbn [plug].
  { destruct Hb as [Hb | [_ ?]]; [|done]. by exists n. }
  cbn [rb_path below_black] in *. destruct Hp as [Hs Hp]. destruct (fcolor f) eqn:Ef; unfold plug1 at 1 2; rewrite Ef.
  - destruct Hp as (Hbs & Hg & Hp). destruct Hb as [Hb | [? _]]; [|done].
    apply (IH n); [by apply rb_mk_red | done | right]. by destruct p.
  - apply (IH (S n)); [by apply rb_mk_black | done | left]. by destruct (fside f).
Qed.

(** ** One turn of fix_insert *)

Lemma root_black t T : shape t T -> black T -> T <> Leaf -> exists t',
  set_color t (root t) BLACK = Ok t' /\ shape t' T /\ dom (nodes t') = dom (nodes t).
Proof.
  intros Hs Hb HT. destruct T as [|[] l a k v r]; [done | done |].
  rewrite (sh_root _ _ Hs). apply (set_color_ok t [] L BLACK BLACK l a k v r Hs).
Qed.

Lemma not_root t p d c n a k v f : shape t (plug (mk d c n a k v f) p) -> p <> [] -> (a =? root t) = false.
Proof.
  intros [Hr _ Hn] Hp. apply Z.eqb_neq. rewrite Hr. intros E.
  rewrite addrs_plug, addrs_mk in Hn. apply NoDup_cons in Hn as [Hn _]. apply Hn.
  apply elem_of_app. right. rewrite E. by apply root_in_path.
Qed.

(** Below a black node the loop ends; at the root, which becomes black, too. *)
Lemma turn_black t p d n a k v f m : shape t (plug (mk d RED n a k v f) p) -> p <> [] -> below_black p ->
  rb m (mk d RED n a k v f) -> rb_path m p ->
  exists t', fix_insert_body (t, a) = Ok (Done t') /\ shape t' (plug (mk d RED n a k v f) p) /\
    dom (nodes t') = dom (nodes t).
Proof.
  intros Hs Hp Hb Hm Hpm. pose proof (shape_node _ _ _ _ _ _ _ _ _ Hs) as [Ha En].
  unfold fix_insert_body. rewrite (not_root _ _ _ _ _ _ _ _ _ Hs Hp). unfold parent_of at 1. rewrite En.
  cbn [res_bind]. rewrite parent_mkn. destruct p as [|g p]; [done|]. cbn [plug paddr below_black] in *.
  destruct (shape_node t p _ _ _ _ _ _ _ Hs) as [_ Eg]. rewrite Eg. cbn [res_bind].
  replace (bool_decide _) with false by (symmetry; apply bool_decide_eq_false; destruct (fside g); cbn; congruence).
  cbn [negb]. destruct (plug_rb (g :: p) m _ Hm Hpm) as (m' & Hrb & Hbl); [by right|].
  destruct (root_black t _ Hs Hbl) as (t' & -> & Hs' & Hd); [|by exists t'].
  intros E. assert (addrs (plug (plug1 (mk d RED n a k v f) g) p) = []) as E0 by (by rewrite E).
  apply (f_equal length) in E0. rewrite (Permutation_length (addrs_plug _ _)), length_app in E0.
  unfold plug1 in E0. rewrite (Permutation_length (addrs_mk _ _ _ _ _ _ _)) in E0. cbn in E0. lia.
Qed.

Lemma turn_root t d n a k v f : shape t (mk d RED n a k v f) ->
  exists t', fix_insert_body (t, a) = Ok (Done t') /\ shape t' (mk d BLACK n a k v f) /\
    dom (nodes t') = dom (nodes t).
Proof.
  intros Hs. unfold fix_insert_body. rewrite (sh_root _ _ Hs), addr_mk, Z.eqb_refl. cbn [res_bind negb].
  destruct (set_color_ok t [] d RED BLACK n a k v f Hs) as (t' & E & Hs' & Hd). rewrite E. by exists t'.
Qed.

#[export] Instance black_dec T : Decision (black T).
Proof. destruct T as [|[] ? ? ? ? ?]; cbn; apply _. Defined.

(** The two children of a node are different nodes. *)
Lemma children_apart t p d c d' c' n' a' k' v' f' a k v f :
  shape t (plug (mk d c (mk d' c' n' a' k' v' f') a k v f) p) -> addr f <> a'.
Proof.
  intros Hs E. destruct f as [|cf lf af kf vf rf]; cbn in E.
  - destruct (shape_node t (Frame d c a k v Leaf :: p) _ _ _ _ _ _ _ Hs) as [Ha _]. done.
  - subst. destruct Hs as [_ _ Hn]. rewrite addrs_plug, addrs_mk, addrs_mk in Hn. cbn in Hn.
    apply NoDup_cons in Hn as [_ Hn]. apply NoDup_cons in Hn as [Hn _]. apply Hn.
    rewrite !elem_of_app, elem_of_cons. tauto.
Qed.

Lemma is_red_ok t p d c n a k v f : shape t (plug (mk d c n a k v f) p) ->
  is_red t (addr f) = Ok (bool_decide (~ black f)).
Proof.
  intros Hs. unfold is_red. destruct f as [|cf l b kb vb r]; [done|]. rewrite <- mk_flip in Hs.
  destruct (shape_node t (Frame (flip d) c a k v n :: p) L cf l b kb vb r Hs) as [Hb E].
  cbn [addr]. rewrite (proj2 (Z.eqb_neq _ _) Hb), E. cbn [res_bind]. f_equal.
  apply bool_decide_ext. cbn. destruct cf; cbn; split; done || tauto.
Qed.

(** What a turn does after it has found the uncle, [y], below the grandparent on the
    side [d] of which the parent is. *)
Definition turn_rotate (d : side) (t : RBTree) (z : Z) : res (ctl (RBTree * Z) RBTree) :=
  let* zp := parent_of t z in
  let* t := set_color t zp BLACK in
  let* zpp := parent_of t zp in
  let* t := set_color t zpp RED in
  let* t := rotate (flip d) t zpp in
  Ok (Next (t, z)).

Section turn.
Context (t : RBTree) (dz : side) (zn : tree) (z kz vz : Z) (zf : tree) (d1 : side) (zp k1 v1 : Z) (s1 : tree)
  (d2 : side) (c2 : Color) (g k2 v2 : Z) (s2 : tree) (p : list frame).

Let T : tree := mk dz RED zn z kz vz zf.
Let f1 : frame := Frame d1 RED zp k1 v1 s1.
Let f2 : frame := Frame d2 c2 g k2 v2 s2.
Context (Hs : shape t (plug T (f1 :: f2 :: p))).

Lemma turn_start : fix_insert_body (t, z) =
  let* red := is_red t (addr s2) in
  if (red : bool) then
    let* t := set_color t zp BLACK in
    let* t := set_color t (addr s2) BLACK in
    let* t := set_color t g RED in
    Ok (Next (t, g))
  else
    let* tz := (if decide (d1 = d2) then Ok (t, z) else let* t := rotate d2 t zp in Ok (t, zp)) in
    turn_rotate d2 (fst tz) (snd tz).
Proof.
  destruct (shape_node t (f1 :: f2 :: p) _ _ _ _ _ _ _ Hs) as [_ Ez].
  destruct (shape_node t (f2 :: p) d1 RED T zp k1 v1 s1 Hs) as [_ Ezp].
  destruct (shape_node t p d2 c2 (plug1 T f1) g k2 v2 s2 Hs) as [_ Eg].
  pose proof (children_apart t (f2 :: p) d1 RED dz RED zn z kz vz zf zp k1 v1 s1 Hs) as N1.
  pose proof (children_apart t p d2 c2 d1 RED T zp k1 v1 s1 g k2 v2 s2 Hs) as N2.
  unfold fix_insert_body. rewrite (not_root _ _ _ _ _ _ _ _ _ Hs) by done.
  assert (parent_of t z = Ok zp) as Pz by (unfold parent_of; rewrite Ez; done).
  assert (parent_of t zp = Ok g) as Pzp by (unfold parent_of; rewrite Ezp; done).
  rewrite Pz. cbn [res_bind]. rewrite Ezp. cbn [res_bind].
  replace (bool_decide (color (mkn d1 RED k1 v1 _ _ _) = RED)) with true by done. cbn [negb].
  rewrite Pzp. cbn [res_bind]. rewrite Eg. cbn [res_bind].
  assert ((zp =? left_ (mkn d2 c2 k2 v2 (addr (plug1 T f1)) (addr s2) (paddr p))) = pick d2 true false) as ->.
  { replace (addr (plug1 T f1)) with zp by (symmetry; apply addr_mk).
    destruct d2; cbn; [apply Z.eqb_refl | by apply Z.eqb_neq]. }
  replace (if pick d2 true false then right_ _ else left_ _) with (addr s2) by (by destruct d2).
  destruct (is_red t (addr s2)) as [[]| | |]; cbn [res_bind]; try done.
  assert ((z =? (if pick d2 true false then right_ (mkn d1 RED k1 v1 (addr T) (addr s1) g)
      else left_ (mkn d1 RED k1 v1 (addr T) (addr s1) g))) = if decide (d1 = d2) then false else true) as E.
  { replace (addr T) with z by (symmetry; apply addr_mk).
    destruct d1, d2; cbn; (apply Z.eqb_refl || by apply Z.eqb_neq). }
  cbn [paddr f2 faddr]. rewrite E. rewrite left_rotate_rotate, right_rotate_rotate. unfold turn_rotate.
  destruct d2, (decide (d1 = _)); cbn [pick flip res_bind fst snd]; try done.
  all: destruct (rotate _ t zp); done.
Qed.

End turn.

(** A red node at [z], seen from either side. *)
Definition red_at (T : tree) (z : Z) : Prop :=
  match T with Branch RED _ a _ _ _ => a = z | _ => False end.

Lemma red_at_mk d T z : red_at T z -> exists n k v f, T = mk d RED n z k v f.
Proof.
  destruct T as [|[] l a k v r]; cbn; [done | | done]. intros ->.
  exists (pick d l r), k, v, (pick d r l). by destruct d.
Qed.

Lemma mk_red_at d n a k v f : red_at (mk d RED n a k v f) a.
Proof. by destruct d. Qed.

Lemma red_addr T z : red_at T z -> addr T = z.
Proof. by destruct T as [|[] ? ? ? ? ?]. Qed.

(** A red uncle: the colours are exchanged with the grandparent's. *)
Lemma turn_recolor t T z d1 zp k1 v1 s1 d2 g k2 v2 du un u ku vu uf p : red_at T z ->
  shape t (plug T (Frame d1 RED zp k1 v1 s1 :: Frame d2 BLACK g k2 v2 (mk du RED un u ku vu uf) :: p)) ->
  exists t', fix_insert_body (t, z) = Ok (Next (t', g)) /\
    shape t' (plug (mk d2 RED (mk d1 BLACK T zp k1 v1 s1) g k2 v2 (mk du BLACK un u ku vu uf)) p) /\
    dom (nodes t') = dom (nodes t).
Proof.
  intros (zn & kz & vz & zf & ->)%(red_at_mk L) Hs. rewrite (turn_start _ _ _ _ _ _ _ _ _ _ _ _ _ _ _ _ _ _ _ Hs).
  set (T := mk L RED zn z kz vz zf) in *.
  rewrite (is_red_ok t p d2 BLACK (mk d1 RED T zp k1 v1 s1) g k2 v2 (mk du RED un u ku vu uf) Hs), addr_mk. cbn [res_bind].
  rewrite bool_decide_true by (destruct du; cbn; tauto).
  destruct (set_color_ok t (Frame d2 BLACK g k2 v2 (mk du RED un u ku vu uf) :: p) d1 RED BLACK T zp k1 v1 s1 Hs)
    as (t1 & -> & Hs1 & Hd1). cbn [res_bind].
  assert (forall t c, shape t (plug (mk d2 BLACK (mk d1 BLACK T zp k1 v1 s1) g k2 v2 (mk du c un u ku vu uf)) p) <->
    shape t (plug (mk du c un u ku vu uf) (Frame (flip d2) BLACK g k2 v2 (mk d1 BLACK T zp k1 v1 s1) :: p))) as Hsw.
  { intros t0 c0. cbn [plug]. unfold plug1. cbn [fside fcolor faddr fkey fvalue sibling]. by rewrite mk_flip. }
  apply Hsw in Hs1.
  destruct (set_color_ok _ _ du RED BLACK un u ku vu uf Hs1) as (t2 & -> & Hs2 & Hd2). cbn [res_bind].
  apply Hsw in Hs2.
  destruct (set_color_ok _ p d2 BLACK RED _ g k2 v2 _ Hs2) as (t3 & -> & Hs3 & Hd3). cbn [res_bind].
  exists t3. split; [done|]. split; [done | congruence].
Qed.

(** [z] on the outer side: one rotation at the grandparent. *)
Lemma turn_outer t T z d zp k1 v1 s1 g k2 v2 u p : red_at T z ->
  shape t (plug T (Frame d RED zp k1 v1 s1 :: Frame d BLACK g k2 v2 u :: p)) ->
  exists t', turn_rotate d t z = Ok (Next (t', z)) /\
    shape t' (plug (mk d BLACK T zp k1 v1 (mk d RED s1 g k2 v2 u)) p) /\
    dom (nodes t') = dom (nodes t).
Proof.
  intros (zn & kz & vz & zf & ->)%(red_at_mk L) Hs. set (T := mk L RED zn z kz vz zf) in *. unfold turn_rotate.
  assert (parent_of t z = Ok zp) as ->.
  { unfold parent_of. by destruct (shape_node t (Frame d RED zp k1 v1 s1 :: Frame d BLACK g k2 v2 u :: p) _ _ _ _ _ _ _ Hs) as [_ ->]. }
  cbn [res_bind].
  destruct (set_color_ok t (Frame d BLACK g k2 v2 u :: p) d RED BLACK T zp k1 v1 s1 Hs) as (t1 & -> & Hs1 & Hd1).
  cbn [res_bind].
  assert (parent_of t1 zp = Ok g) as ->.
  { unfold parent_of. by destruct (shape_node t1 (Frame d BLACK g k2 v2 u :: p) _ _ _ _ _ _ _ Hs1) as [_ ->]. }
  cbn [res_bind].
  destruct (set_color_ok t1 p d BLACK RED (mk d BLACK T zp k1 v1 s1) g k2 v2 u Hs1) as (t2 & -> & Hs2 & Hd2).
  cbn [res_bind]. rewrite <- (mk_flip d RED), <- (mk_flip d BLACK) in Hs2.
  destruct (rotate_ok _ _ _ _ _ _ _ _ _ _ _ _ _ _ Hs2) as (t3 & -> & Hs3 & Hd3). cbn [res_bind].
  exists t3. split; [done|]. rewrite !mk_flip in Hs3. split; [done | congruence].
Qed.

(** A black uncle: after the turn the parent is black. *)
Lemma turn_rotates t T z d1 zp k1 v1 s1 d2 g k2 v2 u p m : red_at T z ->
  shape t (plug T (Frame d1 RED zp k1 v1 s1 :: Frame d2 BLACK g k2 v2 u :: p)) -> black u ->
  rb m T -> rb m s1 -> black s1 -> rb m u ->
  exists t' T' z' f', fix_insert_body (t, z) = Ok (Next (t', z')) /\ dom (nodes t') = dom (nodes t) /\
    red_at T' z' /\ shape t' (plug T' (f' :: p)) /\ fcolor f' = BLACK /\ rb m T' /\ rb m (sibling f') /\
    inorder (plug T' (f' :: p)) =
      inorder (plug T (Frame d1 RED zp k1 v1 s1 :: Frame d2 BLACK g k2 v2 u :: p)).
Proof.
  intros HTz Hs Hu HT Hs1 Hb1 Hru. destruct (red_at_mk d2 T z HTz) as (zn & kz & vz & zf & ET). subst T.
  rewrite (turn_start _ _ _ _ _ _ _ _ _ _ _ _ _ _ _ _ _ _ _ Hs).
  set (T := mk d2 RED zn z kz vz zf) in *.
  rewrite (is_red_ok t p d2 BLACK (mk d1 RED T zp k1 v1 s1) g k2 v2 u Hs). cbn [res_bind].
  rewrite bool_decide_false by tauto. destruct (decide (d1 = d2)) as [->|Hd]; cbn [res_bind fst snd].
  - destruct (turn_outer _ _ _ _ _ _ _ _ _ _ _ _ _ HTz Hs) as (t' & -> & Hs' & Hdom).
    exists t', T, z, (Frame d2 BLACK zp k1 v1 (mk d2 RED s1 g k2 v2 u)).
    do 5 (split; [done|]). split; [done|]. split; [by apply rb_mk_red|].
    cbn [plug]. apply inorder_plug_eq. destruct d2; cbn; by rewrite <- ?app_assoc; cbn; rewrite <- ?app_assoc.
  - assert (d1 = flip d2) as -> by (by destruct d1, d2).
    assert (rb m zn /\ rb m zf /\ black zn /\ black zf) as (Hzn & Hzf & Bzn & Bzf).
    { subst T. destruct d2; inversion HT; subst; done. }
    pose proof Hs as Hr. cbn [plug] in Hr. unfold plug1 in Hr at 2. cbn [fside fcolor faddr fkey fvalue sibling] in Hr.
    rewrite mk_flip in Hr.
    destruct (rotate_ok d2 t (Frame d2 BLACK g k2 v2 u :: p) _ _ _ _ _ _ _ _ _ _ _ Hr) as (t1 & -> & Hs1' & Hd1).
    cbn [res_bind fst snd].
    destruct (turn_outer t1 (mk d2 RED s1 zp k1 v1 zn) zp d2 z kz vz zf g k2 v2 u p) as (t' & -> & Hs' & Hdom);
      [apply mk_red_at | done |].
    exists t', (mk d2 RED s1 zp k1 v1 zn), zp, (Frame d2 BLACK z kz vz (mk d2 RED zf g k2 v2 u)).
    split; [done|]. split; [congruence|]. split; [apply mk_red_at|]. do 2 (split; [done|]).
    split; [by apply rb_mk_red|]. split; [by apply rb_mk_red|].
    cbn [plug]. apply inorder_plug_eq. subst T.
    destruct d2; cbn; by rewrite <- ?app_assoc; cbn; rewrite <- ?app_assoc.
Qed.

(** ** The whole loop *)

(** A tree in memory with the colours of a red-black tree. *)
Definition balanced (t : RBTree) (T : tree) : Prop := shape t T /\ black T /\ exists m, rb m T.

#[export] Instance below_black_dec p : Decision (below_black p).
Proof. destruct p as [|f p]; cbn; apply _. Defined.

Lemma turn_done t T z p m : red_at T z -> shape t (plug T p) -> below_black p -> rb m T -> rb_path m p ->
  exists t' T', fix_insert_body (t, z) = Ok (Done t') /\ balanced t' T' /\
    inorder T' = inorder (plug T p) /\ dom (nodes t') = dom (nodes t).
Proof.
  intros Hz Hs Hb Hm Hp. destruct (red_at_mk L T z Hz) as (n & k & v & f & ->).
  destruct (decide (p = [])) as [->|Hne].
  - destruct (turn_root t L n z k v f Hs) as (t' & E & Hs' & Hd). exists t', (mk L BLACK n z k v f).
    split; [done|]. split; [|done]. split; [done|]. split; [done|]. exists (S m).
    inversion Hm; subst. by apply rb_mk_black.
  - destruct (turn_black t p L n z k v f m Hs Hne Hb Hm Hp) as (t' & E & Hs' & Hd).
    exists t', (plug (mk L RED n z k v f) p). split; [done|]. split; [|done]. split; [done|].
    destruct (plug_rb p m _ Hm Hp) as (m' & ? & ?); [by right | by eauto].
Qed.

Lemma fix_insert_loop j : forall p t T z m fuel, (length p <= j)%nat -> (length p < fuel)%nat ->
  red_at T z -> shape t (plug T p) -> rb m T -> rb_path m p ->
  exists t' T', loop fuel fix_insert_body (t, z) = Ok t' /\ balanced t' T' /\
    inorder T' = inorder (plug T p) /\ dom (nodes t') = dom (nodes t).
Proof.
  induction j as [j IH] using lt_wf_ind. intros p t T z m fuel Hj Hf Hz Hs Hm Hp.
  destruct fuel as [|fuel]; [lia|]. rewrite loop_S.
  destruct (decide (below_black p)) as [Hb|Hb].
  { destruct (turn_done t T z p m Hz Hs Hb Hm Hp) as (t' & T' & E & H). rewrite E. by exists t', T'. }
  destruct p as [|[d1 [] zp k1 v1 s1] [|[d2 c2 g k2 v2 u] p]]; cbn in Hb, Hp; try done; try tauto.
  destruct Hp as (Hs1 & Hb1 & -> & Hu & Hp). cbn [length] in *.
  destruct (decide (black u)) as [Hbu|Hbu].
  - destruct (turn_rotates t T z d1 zp k1 v1 s1 d2 g k2 v2 u p m) as
      (t1 & T1 & z1 & f1 & E & Hd1 & Hz1 & Hsh & Hf1 & Hm1 & Hsib & Hin); [done..|].
    rewrite E. cbn [res_bind]. destruct fuel as [|fuel]; [lia|]. rewrite loop_S.
    destruct (turn_done t1 T1 z1 (f1 :: p) m Hz1 Hsh Hf1 Hm1) as (t' & T' & E' & Hbal & Hin' & Hd).
    { cbn. by rewrite Hf1. }
    rewrite E'. exists t', T'. split; [done|]. split; [done|]. split; congruence.
  - destruct u as [|[] ul ua uk uv ur]; [done | | done].
    destruct (turn_recolor t T z d1 zp k1 v1 s1 d2 g k2 v2 L ul ua uk uv ur p Hz Hs) as (t1 & E & Hs' & Hd1).
    rewrite E. cbn [res_bind].
    destruct (IH (length p) ltac:(lia) p t1 (mk d2 RED (mk d1 BLACK T zp k1 v1 s1) g k2 v2 (mk L BLACK ul ua uk uv ur)) g (S m) fuel)
      as (t' & T' & E' & Hbal & Hin & Hd); [done | lia | apply mk_red_at | done | | done |].
    { inversion Hu; subst. apply rb_mk_red; [by apply rb_mk_black | by apply (rb_mk_black L) | by destruct d1 | done]. }
    exists t', T'. split; [done|]. split; [done|]. split; [|congruence]. rewrite Hin. cbn [plug].
    apply inorder_plug_eq. by destruct d1, d2.
Qed.

(** ** Insertion *)

Fixpoint descend (T : tree) (k : Z) (p : list frame) : list frame :=
  match T with
  | Leaf => p
  | Branch c l a k' v r =>
      if k <? k' then descend l k (Frame L c a k' v r :: p) else descend r k (Frame R c a k' v l :: p)
  end.

(** The new node at the place the descent ends. *)
Fixpoint attach (T : tree) (z k v : Z) : tree :=
  match T with
  | Leaf => Branch RED Leaf z k v Leaf
  | Branch c l a k' v' r =>
      if k <? k' then Branch c (attach l z k v) a k' v' r else Branch c l a k' v' (attach r z k v)
  end.

(** A pair put after those of at most its key. *)
Fixpoint insert_pair (k v : Z) (l : list (Z * Z)) : list (Z * Z) :=
  match l with
  | [] => [(k, v)]
  | x :: l => if k <? x.1 then (k, v) :: x :: l else x :: insert_pair k v l
  end.

Lemma plug_descend T z k v : forall p, plug (Branch RED Leaf z k v Leaf) (descend T k p) = plug (attach T z k v) p.
Proof. induction T as [|c l IHl a k' v' r IHr]; intros p; cbn; [done|]. destruct (k <? k'); [by rewrite IHl | by rewrite IHr]. Qed.

Lemma plug_leaf T k : forall p, plug Leaf (descend T k p) = plug T p.
Proof. induction T as [|c l IHl a k' v' r IHr]; intros p; cbn; [done|]. destruct (k <? k'); [by rewrite IHl | by rewrite IHr]. Qed.

Lemma rb_descend T k : forall m p, rb m T -> rb_path m p -> (black T \/ below_black p /\ p <> []) ->
  rb_path 0 (descend T k p).
Proof.
  induction T as [|c l IHl a k' v' r IHr]; intros m p HT Hp Hc; inversion HT; subst; cbn [descend]; [done | |].
  - destruct Hc as [? | [Hb Hne]]; [done|].
    destruct (k <? k'); [apply (IHl m) | apply (IHr m)]; try done; try (by left); cbn; (split; [done|]);
      (split; [done|]); (split; [by destruct p | done]).
  - destruct (k <? k'); [eapply IHl | eapply IHr]; try done; right; done.
Qed.

Lemma descend_length T k : forall p, (length (descend T k p) <= height T + length p)%nat.
Proof.
  induction T as [|c l IHl a k' v' r IHr]; intros p; cbn [descend height]; [lia|].
  destruct (k <? k'); [specialize (IHl (Frame L c a k' v' r :: p)) | specialize (IHr (Frame R c a k' v' l :: p))];
    cbn [length] in *; lia.
Qed.

Lemma insert_pair_app k v l l' : Forall (fun x => x.1 <= k) l -> insert_pair k v (l ++ l') = l ++ insert_pair k v l'.
Proof.
  induction 1 as [|x l Hx Hl IH]; cbn; [done|]. rewrite (proj2 (Z.ltb_ge _ _)) by done. by rewrite IH.
Qed.

Lemma insert_pair_before k v l x l' : k < x.1 -> insert_pair k v (l ++ x :: l') = insert_pair k v l ++ x :: l'.
Proof.
  intros Hx. induction l as [|y l IH]; cbn; [by rewrite (proj2 (Z.ltb_lt _ _))|].
  destruct (k <? y.1); [done|]. by rewrite IH.
Qed.

Lemma inorder_attach T z k v : bst T -> inorder (attach T z k v) = insert_pair k v (inorder T).
Proof.
  induction T as [|c l IHl a k' v' r IHr]; cbn [attach inorder bst]; [done|]. intros (Hl & Hr & Bl & Br).
  destruct (Z.ltb_spec k k') as [Hk|Hk]; cbn [inorder].
  - rewrite insert_pair_before by done. by rewrite IHl.
  - rewrite insert_pair_app by (eapply Forall_impl; [exact Hl | cbn; lia]). cbn [insert_pair fst].
    rewrite (proj2 (Z.ltb_ge _ _)) by done. by rewrite IHr.
Qed.

(** ** Order *)

Definition key_le (x y : Z * Z) : Prop := x.1 <= y.1.

Lemma sorted_middle l x l' : StronglySorted key_le (l ++ x :: l') <->
  StronglySorted key_le l /\ StronglySorted key_le l' /\
  Forall (fun y => y.1 <= x.1) l /\ Forall (fun y => x.1 <= y.1) l'.
Proof.
  induction l as [|y l IH]; cbn.
  - split; [intros H; inversion H; subst; split_and!; [constructor | done | constructor | done]|].
    intros (_ & H1 & _ & H2). by constructor.
  - split.
    + intros H. inversion H as [|? ? G1 G2]; subst. apply IH in G1 as (? & ? & ? & ?).
      apply Forall_app in G2 as [G2 G3]. apply Forall_cons in G3 as [G3 G4].
      split_and!; [by constructor | done | by constructor | done].
    + intros (S1 & S2 & F1 & F2). inversion S1 as [|? ? G1 G2]; subst. apply Forall_cons in F1 as [F1 F3].
      constructor; [by apply IH|]. apply Forall_app. split; [done|]. constructor; [done|].
      eapply Forall_impl; [exact F2|]. unfold key_le. intros z Hz. lia.
Qed.

Lemma bst_sorted T : bst T <-> StronglySorted key_le (inorder T).
Proof.
  induction T as [|c l IHl a k v r IHr]; cbn; [split; [constructor | done]|].
  rewrite sorted_middle, IHl, IHr. cbn. tauto.
Qed.

Lemma insert_pair_sorted k v l : StronglySorted key_le l -> StronglySorted key_le (insert_pair k v l).
Proof.
  induction 1 as [|x l Hl IH Hx]; cbn; [repeat constructor|]. destruct (Z.ltb_spec k x.1).
  - constructor; [by constructor|]. constructor; [unfold key_le; cbn; lia|].
    eapply Forall_impl; [exact Hx|]. unfold key_le. cbn. intros y Hy. lia.
  - constructor; [done|]. clear Hl IH. induction Hx as [|y l Hy Hl IH]; cbn.
    + repeat constructor. done.
    + destruct (k <? y.1); constructor; [done | by constructor | done | done].
Qed.

(** ** rb_insert *)

(** The descent of the code. *)
Lemma descent_ok h rt T k : forall p n, tree_at h (paddr p) T -> (height T < n)%nat ->
  loop n (fun '(x, y) => if x =? 0 then Ok (Done y)
                    else
                      let* nd := node (mkTree rt h) x in
                      Ok (Next (if k <? key nd then left_ nd else right_ nd, x))) (addr T, paddr p) =
  Ok (paddr (descend T k p)).
Proof.
  induction T as [|c l IHl a k' v' r IHr]; intros p [|n] HT Hn; cbn [height] in Hn; try lia; rewrite loop_S; [done|].
  cbn in HT. destruct HT as (Ha & E & Hl & Hr). cbn [addr]. rewrite (proj2 (Z.eqb_neq _ _) Ha).
  unfold node at 1. cbn [nodes]. rewrite E. cbn [deref res_bind key left_ right_ descend].
  destruct (k <? k').
  - apply (IHl (Frame L c a k' v' r :: p) n); [done | lia].
  - apply (IHr (Frame R c a k' v' l :: p) n); [done | lia].
Qed.

(** The side of the last turn of the descent. *)
Lemma descend_side T k p f p' : descend T k p = f :: p' -> p = f :: p' \/
  (k <? fkey f) = (if decide (fside f = L) then true else false).
Proof.
  revert p. induction T as [|c l IHl a k' v' r IHr]; intros p; cbn; [by left|].
  destruct (k <? k') eqn:E; intros H; [apply IHl in H | apply IHr in H];
    (destruct H as [H|H]; [right; injection H as <- <-; done | by right]).
Qed.

(** The link to the new node. *)
Lemma link_ok t x z k p : path_at (nodes t) x p ->
  match p with [] => True | f :: _ => (k <? fkey f) = (if decide (fside f = L) then true else false) end ->
  (if paddr p =? 0 then Ok (set_root t z)
   else
     let* n := node t (paddr p) in
     if k <? key n then set_left t (paddr p) z else set_right t (paddr p) z) =
  Ok (mkTree (match p with [] => z | _ => root t end) (relink (nodes t) z p)).
Proof.
  destruct p as [|f p]; cbn [path_at paddr relink]; [done|]. intros (Ha & E & _ & _) Hk.
  rewrite (proj2 (Z.eqb_neq _ _) Ha). unfold node. rewrite E. cbn [deref res_bind].
  replace (key (fnode f x (paddr p))) with (fkey f) by done. rewrite Hk.
  destruct f as [[] fc fa fk fv s]; cbn in *.
  - unfold set_left. by rewrite (upd_ok _ _ _ _ E).
  - unfold set_right. by rewrite (upd_ok _ _ _ _ E).
Qed.

Section insert.
Context (t : RBTree) (T : tree) (z k v : Z) (Ht : represents t T) (Hz : z <> 0) (Hfresh : nodes t !! z = None).

Let p : list frame := descend T k [].
Let N : tree := Branch RED Leaf z k v Leaf.
Let h1 : gmap Z Node := <[z := mkNode RED k v 0 0 0]> (nodes t).
Let h2 : gmap Z Node := <[z := mkNode RED k v 0 0 (paddr p)]> h1.
Let t3 : RBTree := mkTree (match p with [] => z | _ => root t end) (relink h2 z p).

Lemma plug_p : plug Leaf p = T.
Proof. unfold p. by rewrite plug_leaf. Qed.

Lemma insert_fresh : z ∉ addrs T /\ z ∉ path_addrs p /\ NoDup (path_addrs p).
Proof.
  destruct Ht as [_ Hh Hn _]. assert (z ∉ addrs T) as Hnz.
  { intros Hin. destruct (tree_at_lookup _ _ _ _ Hh Hin) as [_ [n E]]. by rewrite Hfresh in E. }
  assert (path_addrs p ≡ₚ addrs T) as Hp.
  { rewrite <- plug_p, addrs_plug. done. }
  split; [done|]. rewrite Hp. by split.
Qed.

Lemma insert_path h : (forall a, a <> z -> h !! a = nodes t !! a) -> path_at h 0 p.
Proof.
  intros He. destruct Ht as [_ Hh _ _], insert_fresh as [Hnz _].
  assert (tree_at h 0 (plug Leaf p)) as H.
  { rewrite plug_p. eapply tree_at_ext; [|exact Hh]. intros a Ha. apply He. congruence. }
  by apply tree_at_plug in H as [_ H].
Qed.

Lemma insert_links : (let* t := create_node t z k v in
    let* y := loop (rb_fuel t)
      (fun '(x, y) => if x =? 0 then Ok (Done y)
                      else let* n := node t x in
                           Ok (Next (if k <? key n then left_ n else right_ n, x))) (root t, 0) in
    let* t := set_parent t z y in
    if y =? 0 then Ok (set_root t z)
    else let* n := node t y in if k <? key n then set_left t y z else set_right t y z) = Ok t3.
Proof.
  destruct insert_fresh as (Hnz & _). pose proof (rb_fuel_height _ _ Ht) as Hf. destruct Ht as [Hr Hh _ _].
  unfold create_node. rewrite (proj2 (Z.eqb_neq _ _) Hz). cbn [res_bind]. fold h1. cbn [root].
  pose proof (descent_ok h1 (addr T) T k [] (rb_fuel (mkTree (addr T) h1))) as E. cbn [paddr] in E. fold p in E.
  rewrite Hr, E.
  - cbn [res_bind]. unfold set_parent.
    rewrite (upd_ok _ _ _ (mkNode RED k v 0 0 0)) by apply lookup_insert_eq.
    cbn [res_bind root nodes color key value left_ right_]. fold h2.
    rewrite (link_ok (mkTree (addr T) h2) 0 z k p).
    + cbn [root nodes]. by rewrite <- Hr.
    + cbn [nodes]. apply insert_path. intros a Ha. unfold h2, h1. by rewrite !lookup_insert_ne.
    + destruct p as [|f p'] eqn:Ep; [done|]. unfold p in Ep. by destruct (descend_side T k [] f p' Ep).
  - eapply tree_at_ext; [|exact Hh]. intros a Ha. unfold h1. rewrite lookup_insert_ne; [done|]. congruence.
  - unfold rb_fuel in *. cbn [nodes]. unfold h1. rewrite map_size_insert_None by done. lia.
Qed.

Lemma insert_shape : shape t3 (plug N p) /\ dom (nodes t3) = {[z]} ∪ dom (nodes t).
Proof.
  destruct insert_fresh as (Hnz & Hzp & Hnp).
  assert (path_at h2 0 p) as Hp.
  { apply insert_path. intros a Ha. unfold h2, h1. by rewrite !lookup_insert_ne. }
  split; [split|].
  - unfold t3. cbn [root]. destruct Ht as [Hr _ _ _]. destruct p as [|f p'] eqn:E; [done|].
    rewrite Hr, <- plug_p, E. cbn [plug]. by apply addr_plug.
  - unfold t3. cbn [nodes]. apply tree_at_plug. split; [|by apply (relink_at h2 0)].
    cbn. split; [done|]. rewrite relink_ne by done. unfold h2. by rewrite lookup_insert_eq.
  - rewrite addrs_plug. cbn. by constructor.
  - unfold t3. cbn [nodes]. rewrite (dom_relink h2 0 z p Hp). unfold h2, h1. rewrite !dom_insert_L. set_solver.
Qed.

Lemma rb_insert_shape m : rb m T -> black T ->
  exists t' T', rb_insert t z k v = Ok t' /\ balanced t' T' /\ inorder T' = insert_pair k v (inorder T) /\
    dom (nodes t') = {[z]} ∪ dom (nodes t).
Proof.
  intros Hm Hb. pose proof insert_links as E. destruct insert_shape as [Hs Hd].
  destruct (fix_insert_loop (length p) p t3 N z 0 (rb_fuel t3)) as (t' & T' & E' & Hbal & Hin & Hd').
  - lia.
  - pose proof (descend_length T k []) as Hl. fold p in Hl. cbn [length] in Hl. pose proof (rb_fuel_height _ _ Ht).
    unfold rb_fuel in *. assert (size (nodes t) <= size (nodes t3))%nat; [|lia].
    rewrite <- !size_dom. apply subseteq_size. rewrite Hd. set_solver.
  - done.
  - done.
  - by repeat constructor.
  - apply (rb_descend T k m []); [done | done | by left].
  - exists t', T'. split; [|split; [done | split; [|by rewrite Hd']]].
    + unfold rb_insert. revert E.
      destruct (create_node t z k v) as [t1| | |]; cbn [res_bind]; try done.
      destruct (loop (rb_fuel t1) _ _) as [y| | |]; cbn [res_bind]; try done.
      destruct (set_parent t1 z y) as [t2| | |]; cbn [res_bind]; try done. intros ->. cbn [res_bind]. exact E'.
    + rewrite Hin. unfold N, p. rewrite plug_descend. cbn [plug]. apply inorder_attach. apply Ht.
Qed.

End insert.

(** A red-black tree in memory: a search tree, its root black, without a red node below
    a red one, and with as many black nodes on every way down. *)
Definition redblack (t : RBTree) (T : tree) : Prop := represents t T /\ black T /\ exists m, rb m T.

Lemma rb_insert_ok t T z k v : redblack t T -> z <> 0 -> nodes t !! z = None ->
  exists t' T', rb_insert t z k v = Ok t' /\ redblack t' T' /\ inorder T' = insert_pair k v (inorder T) /\
    dom (nodes t') = {[z]} ∪ dom (nodes t).
Proof.
  intros (Ht & Hb & m & Hm) Hz Hf.
  destruct (rb_insert_shape t T z k v Ht Hz Hf m Hm Hb) as (t' & T' & E & (Hs & Hb' & Hm') & Hin & Hd).
  exists t', T'. split; [done|]. split; [|done]. split; [|done]. apply shape_represents. split; [done|].
  apply bst_sorted. rewrite Hin. apply insert_pair_sorted, bst_sorted. apply Ht.
Qed.

(** (C16) rb_insert of a new node into a red-black tree ends and leaves a red-black tree, in
    memory and with its parent pointers, that lists the pair after those of at most its
    key and is otherwise the same. *)
Theorem rb_insert_keeps_redblack t T z k v : redblack t T -> z <> 0 -> nodes t !! z = None ->
  exists t' T', rb_insert t z k v = Ok t' /\ redblack t' T' /\ inorder T' = insert_pair k v (inorder T) /\
    dom (nodes t') = {[z]} ∪ dom (nodes t).
Proof. apply rb_insert_ok. Qed.

(** ** The height *)

Lemma rb_size m T : rb m T -> (2 ^ m <= S (length (inorder T)))%nat.
Proof.
  induction 1; cbn [inorder]; rewrite ?length_app; cbn [length Nat.pow]; lia.
Qed.

Lemma rb_height m T : rb m T -> (height T <= 2 * m + (if decide (black T) then 0 else 1))%nat.
Proof.
  induction 1 as [|m l a k v r Hl IHl Hr IHr Bl Br|m l a k v r Hl IHl Hr IHr]; cbn [height]; [cbn; lia | |].
  - rewrite decide_True in IHl by done. rewrite decide_True in IHr by done. rewrite decide_False by (cbn; tauto). lia.
  - rewrite (decide_True (P := black (Branch BLACK l a k v r))) by done.
    destruct (decide (black l)), (decide (black r)); lia.
Qed.

(** Any insertions, from the empty tree. *)
Lemma rb_new_redblack : redblack rb_new Leaf.
Proof. split; [|split; [done | exists O; constructor]]. split; [done | done | constructor | done]. Qed.

Fixpoint insert_all (t : RBTree) (l : list (Z * (Z * Z))) : res RBTree :=
  match l with [] => Ok t | (z, (k, v)) :: l => let* t := rb_insert t z k v in insert_all t l end.

(** (C17) Any insertions of nodes at different addresses, from the empty tree, give a red-black
    tree with the pairs in the order of their keys, of those with one key the first first,
    and of a height at most twice the logarithm of its size. *)
Theorem rb_inserts_balanced l : Forall (fun x => x.1 <> 0) l -> NoDup l.*1 ->
  exists t T, insert_all rb_new l = Ok t /\ redblack t T /\
    inorder T = fold_left (fun s x => insert_pair x.2.1 x.2.2 s) l [] /\
    (2 ^ height T <= S (length l) * S (length l))%nat.
Proof.
  intros Hz Hn.
  assert (forall l t0 T0, Forall (fun x => x.1 <> 0) l -> NoDup l.*1 -> redblack t0 T0 ->
    (forall z, z ∈ l.*1 -> nodes t0 !! z = None) ->
    exists t T, insert_all t0 l = Ok t /\ redblack t T /\
      inorder T = fold_left (fun s x => insert_pair x.2.1 x.2.2 s) l (inorder T0)) as Hall.
  { clear. induction l as [|[z [k v]] l IH]; intros t0 T0 Hz Hn H0 Hf; cbn; [by exists t0, T0|].
    apply Forall_cons in Hz as [Hz Hzs]. cbn in Hn, Hf. apply NoDup_cons in Hn as [Hn Hns].
    destruct (rb_insert_ok t0 T0 z k v H0 Hz) as (t1 & T1 & -> & H1 & E1 & D1); [apply Hf; by left|].
    cbn [res_bind]. rewrite <- E1. apply IH; [done | done | done|]. intros z' Hz'.
    apply not_elem_of_dom. rewrite D1. intros [->%elem_of_singleton | H]%elem_of_union; [done|].
    apply elem_of_dom in H as [n H]. by rewrite Hf in H by (by right). }
  destruct (Hall l rb_new Leaf Hz Hn rb_new_redblack) as (t & T & E & HT & Hin); [done|].
  exists t, T. split; [done|]. split; [done|]. split; [done|]. destruct HT as (_ & Hb & m & Hm).
  pose proof (rb_height m T Hm) as Hh. rewrite decide_True in Hh by done. pose proof (rb_size m T Hm) as Hs.
  assert (length (inorder T) = length l) as El.
  { rewrite Hin. cbn [inorder]. change (length l) with (length (@nil (Z * Z)) + length l)%nat. generalize (@nil (Z * Z)). clear.
    assert (forall k v s, length (insert_pair k v s) = S (length s)) as Hp.
    { intros k v. induction s as [|x s IH]; cbn; [done|]. destruct (k <? x.1); cbn; [done|]. by rewrite IH. }
    induction l as [|x l IH]; intros s; cbn; [lia|]. rewrite IH, Hp. lia. }
  rewrite El in Hs. transitivity (2 ^ (2 * m))%nat; [apply Nat.pow_le_mono_r; lia|].
  rewrite Nat.mul_comm, Nat.pow_mul_r. cbn [Nat.pow]. rewrite Nat.mul_1_r. by apply Nat.mul_le_mono.
Qed.

(** The tree of [RBTree.demo_rb]. *)
Lemma demo_rb_redblack : redblack demo_rb demo_rb_tree.
Proof. split; [exact demo_rb_represents|]. split; [done|]. exists 1%nat. by repeat constructor. Qed.

Lemma rb_insert_keeps_redblack_witness :
  exists t' T', rb_insert demo_rb 256 2 21 = Ok t' /\ redblack t' T' /\
    inorder T' = [(1, 10); (2, 20); (2, 21); (3, 30)] /\ dom (nodes t') = {[256]} ∪ dom (nodes demo_rb).
Proof. apply (rb_insert_keeps_redblack demo_rb demo_rb_tree 256 2 21 demo_rb_redblack); done. Defined.

Lemma rb_inserts_balanced_witness :
  let l := [(64, (2, 20)); (128, (1, 10)); (192, (3, 30))] in
  exists t T, insert_all rb_new l = Ok t /\ redblack t T /\ inorder T = [(1, 10); (2, 20); (3, 30)] /\
    (2 ^ height T <= 16)%nat.
Proof.
  intros l. apply (rb_inserts_balanced l).
  - by repeat constructor.
  - by apply (bool_decide_unpack _); vm_compute.
Defined.
