(* ===== verification/HashMap.v ===== *)
(** The hash map of src/util/src/map.c: FNV-1a buckets of pointer lists.

    A string is the list of its bytes before the NUL. Each bucket is a list of
    [DList], in its own region of the heap; its elements hold the addresses of the
    [MapElem] records, kept in [elems]. The addresses the allocator returns are
    arguments of the operations that allocate. The refinement theorem relates the
    structure to a finite map. *)
From S2P Require Import Prelude Mem Util DList.

Definition FNV1_64_OFFSET : Z := 14695981039346656037.
Definition FNV1_64_PRIME : Z := 1099511628211.

Definition fnv1a_digest_64 (key : list Z) : Z :=
  fold_left (fun digest k => u64 (Z.lxor digest k * FNV1_64_PRIME)) key FNV1_64_OFFSET.

Record MapElem := mkMapElem { me_key : list Z; me_val : Z }.

Record Map := mkMap {
  slots : Z;
  size : Z;
  values : list (Z * lheap);  (* the [List *] of each slot and its region *)
  elems : gmap Z MapElem
}.

Definition slot_of (map : Map) (key : list Z) : nat := Z.to_nat (fnv1a_digest_64 key mod slots map).

(** [map->values[fnv1a_digest_64(key) % map->slots]] *)
Definition bucket (map : Map) (key : list Z) : res (Z * lheap) :=
  if slots map =? 0 then Ub else deref (values map !! slot_of map key).

(** The walk of [map_get_elem], [map_get_celem] and [map_remove]: the list element
    whose [MapElem] has the key, or 0. [!strcmp(a, b)] is [str_diff a b =? 0]. *)
Definition bucket_search (els : gmap Z MapElem) (b : Z * lheap) (key : list Z) : res Z :=
  let '(lst, h) := b in
  let* hd := elem h lst in
  loop (list_fuel h)
    (fun e => if list_elem_valid lst e then
                let* x := elem h e in
                let* me := deref (els !! value x) in
                if str_diff key (me_key me) =? 0 then Ok (Done e) else Ok (Next (prev x))
              else Ok (Done 0)) (prev hd).

(** The address of the [MapElem] of the key, or 0. *)
Definition map_get_elem (map : Map) (key : list Z) : res Z :=
  let* b := bucket map key in
  let* e := bucket_search (elems map) b key in
  if e =? 0 then Ok 0 else let* x := elem (snd b) e in Ok (value x).

Definition map_get_celem : Map -> list Z -> res Z := map_get_elem.

Definition mapelem_set_val (map : Map) (me v : Z) : res Map :=
  let* m := deref (elems map !! me) in
  Ok (mkMap (slots map) (size map) (values map) (<[me := mkMapElem (me_key m) v]> (elems map))).

(** [me] is the new [MapElem] and [l] the new list element. *)
Definition mapelem_new_val (map : Map) (me l : Z) (key : list Z) (v : Z) : res Map :=
  let* b := bucket map key in
  if me =? 0 then Ub
  else
    let* h := list_add (snd b) (fst b) l me in
    Ok (mkMap (slots map) (u32 (size map + 1))
              (<[slot_of map key := (fst b, h)]> (values map))
              (<[me := mkMapElem key v]> (elems map))).

(** [lists] are the addresses of the new bucket lists. *)
Fixpoint map_init_values (lists : list Z) : res (list (Z * lheap)) :=
  match lists with
  | [] => Ok []
  | p :: ps =>
      let* b := list_new ∅ p in
      let* bs := map_init_values ps in Ok (b :: bs)
  end.

(** [map] is what [g_kmalloc] returned; the result is [None] for NULL. *)
Definition map_init (map slots : Z) (lists : list Z) : res (option Map) :=
  if map =? 0 then Ok None
  else
    let slots := if slots =? 0 then 1 else slots in
    let* vs := map_init_values (take (Z.to_nat slots) lists) in
    Ok (Some (mkMap slots 0 vs ∅)).

Definition map_new_with_slots (map slots : Z) (lists : list Z) : res (option Map) :=
  if slots =? 0 then Ok None else map_init map slots lists.

Definition DEFAULT_MAP_SIZE : Z := 64.

Definition map_new (map : Z) (lists : list Z) : res (option Map) :=
  map_new_with_slots map DEFAULT_MAP_SIZE lists.

Definition map_slots (map : Map) : Z := slots map.
Definition map_size (map : Map) : Z := size map.

Definition map_set (map : Map) (me l : Z) (key : list Z) (v : Z) : res Map :=
  let* p := map_get_elem map key in
  if negb (p =? 0) then mapelem_set_val map p v else mapelem_new_val map me l key v.

Definition map_get (map : Map) (key : list Z) : res (option Z) :=
  let* p := map_get_celem map key in
  if p =? 0 then Ok None
  else let* m := deref (elems map !! p) in Ok (Some (me_val m)).

Definition map_get_unchecked (map : Map) (key : list Z) : res Z :=
  let* r := map_get map key in Ok (default 0 r).

Definition map_contains (map : Map) (key : list Z) : res bool :=
  let* r := map_get map key in Ok (bool_decide (is_Some r)).

(** [map_elem_free] and [list_remove_elem] on the element [e] of the region [h]. *)
Definition map_elem_free (els : gmap Z MapElem) (me : Z) : gmap Z MapElem := delete me els.

Definition map_lst_free (els : gmap Z MapElem) (h : lheap) (e : Z)
    : res (gmap Z MapElem * lheap) :=
  let* x := elem h e in
  let* h := list_remove_elem h e in
  Ok (map_elem_free els (value x), h).

Definition map_remove (map : Map) (key : list Z) : res (bool * Map) :=
  let* b := bucket map key in
  let* e := bucket_search (elems map) b key in
  if e =? 0 then Ok (false, map)
  else
    let* r := map_lst_free (elems map) (snd b) e in
    Ok (true, mkMap (slots map) (u32 (size map - 1))
                    (<[slot_of map key := (fst b, snd r)]> (values map)) (fst r)).

(** One bucket of [map_clear]: [list_for_each_ascending] around [map_lst_free]. The
    step of the [for] reads [e->prev] after the body. *)
Definition clear_bucket (els : gmap Z MapElem) (b : Z * lheap)
    : res (gmap Z MapElem * lheap) :=
  let '(lst, h) := b in
  let* hd := elem h lst in
  loop (list_fuel h)
    (fun '(e, els, h) =>
       if list_elem_valid lst e then
         let* r := map_lst_free els h e in
         let '(els, h) := r in
         let* x := elem h e in Ok (Next (prev x, els, h))
       else Ok (Done (els, h))) (prev hd, els, h).

Fixpoint clear_buckets (els : gmap Z MapElem) (bs : list (Z * lheap))
    : res (gmap Z MapElem * list (Z * lheap)) :=
  match bs with
  | [] => Ok (els, [])
  | b :: bs' =>
      let* r := clear_bucket els b in
      let* rs := clear_buckets (fst r) bs' in
      Ok (fst rs, (fst b, snd r) :: snd rs)
  end.

Definition map_clear (map : Map) : res Map :=
  let* r := clear_buckets (elems map) (take (Z.to_nat (slots map)) (values map)) in
  Ok (mkMap (slots map) 0 (snd r) (fst r)).

(** [map_free] clears each bucket the same way and then frees its list. *)
Fixpoint free_buckets (els : gmap Z MapElem) (bs : list (Z * lheap)) : res (gmap Z MapElem) :=
  match bs with
  | [] => Ok els
  | b :: bs' =>
      let* r := clear_bucket els b in
      let* _ := list_free (snd r) (fst b) in
      free_buckets (fst r) bs'
  end.

Definition map_free (map : Map) : res (gmap Z MapElem) :=
  free_buckets (elems map) (take (Z.to_nat (slots map)) (values map)).

(** The keys of one bucket, in list order. *)
Definition bucket_keys (els : gmap Z MapElem) (b : Z * lheap) : res (list (list Z)) :=
  let '(lst, h) := b in
  let* hd := elem h lst in
  loop (list_fuel h)
    (fun '(e, ks) =>
       if list_elem_valid lst e then
         let* x := elem h e in
         let* me := deref (els !! value x) in Ok (Next (prev x, ks ++ [me_key me]))
       else Ok (Done ks)) (prev hd, []).

(** The strings [map_get_keys] duplicates into its list, in order. *)
Fixpoint keys_of (els : gmap Z MapElem) (bs : list (Z * lheap)) : res (list (list Z)) :=
  match bs with
  | [] => Ok []
  | b :: bs' =>
      let* ks := bucket_keys els b in
      let* ks' := keys_of els bs' in Ok (ks ++ ks')
  end.

Definition map_get_keys (map : Map) : res (list (list Z)) :=
  keys_of (elems map) (take (Z.to_nat (slots map)) (values map)).

(** ** Integer keys *)

Definition STR_KEY_SIZE : Z := 64.

(** [dst[i] = c] in the 64-byte buffer. *)
Definition buf_set (dst : list Z) (i c : Z) : res (list Z) :=
  if bool_decide (0 <= i < Z.of_nat (length dst)) then Ok (<[Z.to_nat i := c]> dst) else Ub.
Definition buf_get (dst : list Z) (i : Z) : res Z :=
  if i <? 0 then Ub else deref (dst !! Z.to_nat i).

(** [base] is how far [dst] was advanced past the minus sign. *)
Definition map_int_to_str (dst : list Z) (n : Z) : res (list Z) :=
  if n =? 0 then let* d := buf_set dst 0 48 in buf_set d 1 0
  else
    let* r := if n <? 0 then
                let* d := buf_set dst 0 45 in
                if n =? - 2 ^ 63 then Ub else Ok (d, 1, - n)
              else Ok (dst, 0, n) in
    let '(dst, base, n) := r in
    let* r := loop (Z.to_nat STR_KEY_SIZE)
      (fun '(i, n, dst) =>
         if (i <? STR_KEY_SIZE - 2) && (n >? 0) then
           let* d := buf_set dst (base + i) (u8 (Z.rem n 10 + 48)) in
           Ok (Next (i + 1, Z.quot n 10, d))
         else Ok (Done (i, dst))) (0, n, dst) in
    let '(i, dst) := r in
    let* dst := for_up (Z.to_nat (Z.quot i 2)) 0
      (fun j dst =>
         let* c := buf_get dst (base + j) in
         let* d := buf_get dst (base + (i - j - 1)) in
         let* dst := buf_set dst (base + j) d in
         buf_set dst (base + (i - j - 1)) c) dst in
    buf_set dst (base + i) 0.

(** The C string a buffer holds. *)
Fixpoint to_str (dst : list Z) : list Z :=
  match dst with [] => [] | c :: dst' => if c =? 0 then [] else c :: to_str dst' end.

Definition key_buffer : list Z := replicate (Z.to_nat STR_KEY_SIZE) 0.

Definition int_key (n : Z) : res (list Z) :=
  let* d := map_int_to_str key_buffer n in Ok (to_str d).

Definition map_set_int (map : Map) (me l ikey v : Z) : res Map :=
  let* key := int_key ikey in map_set map me l key v.
Definition map_get_int (map : Map) (ikey : Z) : res (option Z) :=
  let* key := int_key ikey in map_get map key.
Definition map_contains_int (map : Map) (ikey : Z) : res bool :=
  let* r := map_get_int map ikey in Ok (bool_decide (is_Some r)).
Definition map_remove_int (map : Map) (ikey : Z) : res (bool * Map) :=
  let* key := int_key ikey in map_remove map key.

(** ** The invariant: the structure holds the finite map [M] *)

Definition key_ok (k : list Z) : Prop := Forall (fun c => c <> 0) k.

Record map_inv (m : Map) (M : gmap (list Z) Z) : Prop := mkMapInv {
  mi_slots : 0 < slots m < 2 ^ 32;
  mi_len : length (values m) = Z.to_nat (slots m);
  mi_bucket : forall i b, values m !! i = Some b ->
    exists ms, holds_list (snd b) (fst b) ms /\ NoDup ms /\
      forall p, p ∈ ms <-> exists me, elems m !! p = Some me /\ slot_of m (me_key me) = i;
  mi_elems : forall p me, elems m !! p = Some me -> p <> 0 /\ key_ok (me_key me);
  mi_keys : forall p q mp mq, elems m !! p = Some mp -> elems m !! q = Some mq ->
    me_key mp = me_key mq -> p = q;
  mi_abs : forall k v, M !! k = Some v <-> exists p, elems m !! p = Some (mkMapElem k v);
  mi_size : size m = u32 (Z.of_nat (base.size M))
}.

(** A bucket searched from any of its elements: the first one with the key. *)
Lemma bucket_search_loop (els : gmap Z MapElem) lst h key : key_ok key -> forall ps2 ps1 n,
  dlist h lst (ps1 ++ ps2) -> (length ps2 < n)%nat ->
  (forall p, p ∈ vals h ps2 -> exists me, els !! p = Some me /\ key_ok (me_key me)) ->
  exists r, loop n (fun e => if list_elem_valid lst e then
                let* x := elem h e in
                let* me := deref (els !! value x) in
                if str_diff key (me_key me) =? 0 then Ok (Done e) else Ok (Next (prev x))
              else Ok (Done 0)) (after_of ps2 lst) = Ok r /\
   ((r = 0 /\ forall p me, p ∈ vals h ps2 -> els !! p = Some me -> me_key me <> key) \/
    (exists qs1 qs2 me, ps2 = qs1 ++ r :: qs2 /\ r <> 0 /\ els !! val_at h r = Some me /\
       me_key me = key)).
Proof.
  intros Hk. induction ps2 as [|a ps2 IH]; intros ps1 n Hd Hn Hv;
    (destruct n as [|n]; [cbn in Hn; lia|]); rewrite loop_S.
  - change (after_of [] lst) with lst. unfold list_elem_valid. rewrite Z.eqb_refl, andb_false_r.
    exists 0. split; [done|]. left. split; [done|]. intros p me []%elem_of_nil.
  - change (after_of (a :: ps2) lst) with a. destruct (Hd) as [Hnd Hnn Hpath].
    assert (a ∈ ps1 ++ a :: ps2) as Ha by (apply elem_of_app; right; left).
    assert (a <> 0) by (intros ->; apply Hnn; by right).
    assert (a <> lst) by (intros ->; by apply NoDup_cons in Hnd as [? _]).
    unfold list_elem_valid at 1. replace (a =? 0) with false by lia.
    replace (a =? lst) with false by lia. cbn [negb andb].
    destruct (prevf_elem h a) as (x & -> & Lx & Ep & _ & Ev);
      [eapply dlist_elem; [done | by right]|].
    destruct (Hv (val_at h a)) as (me & Em & Hme); [by left|].
    cbn [res_bind]. rewrite <- Ev, Em. cbn [deref res_bind].
    apply path_app in Hpath as [_ P2]. rewrite (path_first _ _ _ _ P2) in Ep. injection Ep as <-.
    destruct (Z.eqb_spec (str_diff key (me_key me)) 0) as [E|E]; cbn [res_bind].
    + exists a. split; [done|]. right. exists [], ps2, me. repeat split; try done.
      symmetry. by apply str_diff_zero.
    + destruct (IH (ps1 ++ [a]) n) as (r & Er & Hr).
      * by rewrite <- app_assoc.
      * cbn in Hn. lia.
      * intros p Hp. apply Hv. by right.
      * exists r. split; [exact Er|]. destruct Hr as [[-> Hr]|(qs1 & qs2 & me' & -> & Hr)].
        -- left. split; [done|]. intros p me' [->|Hp]%elem_of_cons; [|by apply Hr].
           rewrite Em. intros [= <-] Ek. apply E, str_diff_zero; done.
        -- right. by exists (a :: qs1), qs2, me'.
Qed.

Lemma bucket_search_ok (els : gmap Z MapElem) lst h ps key : key_ok key -> dlist h lst ps ->
  (forall p, p ∈ vals h ps -> exists me, els !! p = Some me /\ key_ok (me_key me)) ->
  exists r, bucket_search els (lst, h) key = Ok r /\
   ((r = 0 /\ forall p me, p ∈ vals h ps -> els !! p = Some me -> me_key me <> key) \/
    (exists qs1 qs2 me, ps = qs1 ++ r :: qs2 /\ r <> 0 /\ els !! val_at h r = Some me /\
       me_key me = key)).
Proof.
  intros Hk Hd Hv. unfold bucket_search.
  destruct (prevf_elem h lst) as (x & -> & _ & Ep & _); [eapply dlist_elem; [done | left]|].
  cbn [res_bind]. rewrite (path_first _ _ _ _ (dl_path _ _ _ Hd)) in Ep. injection Ep as <-.
  apply (bucket_search_loop els lst h key Hk ps [] _ Hd); [|done].
  pose proof (dlist_size _ _ _ Hd). unfold list_fuel. lia.
Qed.

(** The bucket of a key, with everything the invariant says of it. *)
Lemma bucket_ok m M key : map_inv m M ->
  exists lst h ps, bucket m key = Ok (lst, h) /\ values m !! slot_of m key = Some (lst, h) /\
    dlist h lst ps /\ NoDup (vals h ps) /\
    forall p, p ∈ vals h ps <->
      exists me, elems m !! p = Some me /\ slot_of m (me_key me) = slot_of m key.
Proof.
  intros [Hs Hl Hb _ _ _ _]. unfold bucket. replace (slots m =? 0) with false by lia.
  assert (slot_of m key < length (values m))%nat as Hi.
  { rewrite Hl. unfold slot_of. pose proof (Z.mod_pos_bound (fnv1a_digest_64 key) (slots m)). lia. }
  apply lookup_lt_is_Some in Hi as [[lst h] Hi].
  destruct (Hb _ _ Hi) as (ms & (ps & Hd & <-) & Hn & Hp).
  exists lst, h, ps. rewrite Hi. done.
Qed.

(** What every operation learns from its search. *)
Lemma search_key_ok m M key : map_inv m M -> key_ok key ->
  exists lst h ps r, bucket m key = Ok (lst, h) /\
    values m !! slot_of m key = Some (lst, h) /\ dlist h lst ps /\ NoDup (vals h ps) /\
    (forall p, p ∈ vals h ps <->
      exists me, elems m !! p = Some me /\ slot_of m (me_key me) = slot_of m key) /\
    bucket_search (elems m) (lst, h) key = Ok r /\
    ((r = 0 /\ M !! key = None) \/
     (exists qs1 qs2 v, ps = qs1 ++ r :: qs2 /\ r <> 0 /\ M !! key = Some v /\
        elems m !! val_at h r = Some (mkMapElem key v))).
Proof.
  intros Hm Hk. destruct (bucket_ok m M key Hm) as (lst & h & ps & Hb & Hi & Hd & Hn & Hp).
  destruct (bucket_search_ok (elems m) lst h ps key Hk Hd) as (r & Hr & Hcase).
  { intros p (me & E & _)%Hp. exists me. split; [done|]. by apply (mi_elems m M Hm p). }
  exists lst, h, ps, r. do 6 (split; [done|]).
  destruct Hcase as [[-> Hno]|(qs1 & qs2 & [k v] & -> & H0 & E & <-)]; [left|right].
  - split; [done|]. destruct (M !! key) as [v|] eqn:EM; [|done].
    apply (mi_abs m M Hm) in EM as [p Ep]. destruct (Hno p _ (proj2 (Hp p) (ex_intro _ _ (conj Ep eq_refl))) Ep eq_refl).
  - exists qs1, qs2, v. repeat split; try done. apply (mi_abs m M Hm). by eexists.
Qed.

Lemma vals_split h qs1 r qs2 :
  vals h (qs1 ++ r :: qs2) = vals h qs1 ++ val_at h r :: vals h qs2.
Proof. unfold vals. by rewrite fmap_app, fmap_cons. Qed.

Lemma map_get_elem_ok m M key : map_inv m M -> key_ok key ->
  exists p, map_get_elem m key = Ok p /\
    ((p = 0 /\ M !! key = None) \/
     (p <> 0 /\ exists v, M !! key = Some v /\ elems m !! p = Some (mkMapElem key v))).
Proof.
  intros Hm Hk.
  destruct (search_key_ok m M key Hm Hk) as (lst & h & ps & r & Hb & _ & Hd & _ & _ & Hr & Hc).
  unfold map_get_elem. rewrite Hb. cbn [res_bind]. rewrite Hr. cbn [res_bind snd].
  destruct Hc as [[-> HM]|(qs1 & qs2 & v & -> & H0 & HM & E)]; [by exists 0; eauto|].
  replace (r =? 0) with false by lia.
  destruct (prevf_elem h r) as (x & -> & _ & _ & _ & Ev).
  { eapply dlist_elem; [done|]. right. apply elem_of_app. right; left. }
  cbn [res_bind]. exists (value x). split; [done|]. right. rewrite <- Ev.
  split; [by apply (mi_elems m M Hm _ _ E)|]. by exists v.
Qed.

(** Overwriting the value of a key that is there. *)
Lemma set_val_inv m M p key w v : map_inv m M -> elems m !! p = Some (mkMapElem key w) ->
  exists m', mapelem_set_val m p v = Ok m' /\ map_inv m' (<[key := v]> M).
Proof.
  intros Hm Ep. unfold mapelem_set_val. rewrite Ep. cbn [deref res_bind me_key].
  eexists. split; [done|]. destruct Hm as [Hs Hl Hb He Hk Ha Hz].
  assert (forall q mq, <[p := mkMapElem key v]> (elems m) !! q = Some mq ->
    exists mq', elems m !! q = Some mq' /\ me_key mq' = me_key mq) as Hback.
  { intros q mq. rewrite lookup_insert_Some. intros [[<- <-]|[_ H]]; eauto. }
  split; cbn [slots size values elems]; try done.
  - intros i b Hi. destruct (Hb i b Hi) as (ms & Hh & Hn & Hp). exists ms.
    do 2 (split; [done|]). intros q. rewrite Hp. unfold slot_of; cbn [slots]. split.
    + intros (mq & E & Hq). destruct (decide (q = p)) as [->|Hne].
      * rewrite lookup_insert, decide_True by done. eexists. split; [done|].
        rewrite Ep in E. by injection E as <-.
      * exists mq. by rewrite lookup_insert_ne by done.
    + intros (mq & E & Hq). destruct (Hback q mq E) as (mq' & E' & Ek).
      exists mq'. by rewrite Ek.
  - intros q mq E. destruct (Hback q mq E) as (mq' & E' & <-). by apply (He q mq').
  - intros q r mq mr Eq Er Ek. destruct (Hback _ _ Eq) as (mq' & Eq' & Kq).
    destruct (Hback _ _ Er) as (mr' & Er' & Kr). apply (Hk q r mq' mr' Eq' Er'). congruence.
  - intros k x. rewrite lookup_insert_Some, Ha. split.
    + intros [[<- <-]|[Hne [q Eq]]]; [exists p; by rewrite lookup_insert, decide_True by done|].
      exists q. rewrite lookup_insert_ne; [done|]. intros <-. congruence.
    + intros [q Eq]. rewrite lookup_insert_Some in Eq. destruct Eq as [[<- E]|[Hne E]].
      * injection E as <- <-. by left.
      * right. split; [|by exists q]. intros <-. apply Hne.
        by apply (Hk p q _ _ Ep E).
  - rewrite Hz. f_equal. f_equal. symmetry. apply map_size_insert_Some.
    exists w. apply Ha. by exists p.
Qed.

(** A new key: the bucket list gains the new [MapElem]. *)
Lemma new_val_inv m M me l key v lst h ps : map_inv m M -> key_ok key -> M !! key = None ->
  bucket m key = Ok (lst, h) -> values m !! slot_of m key = Some (lst, h) ->
  dlist h lst ps -> NoDup (vals h ps) ->
  (forall p, p ∈ vals h ps <->
     exists me, elems m !! p = Some me /\ slot_of m (me_key me) = slot_of m key) ->
  me <> 0 -> elems m !! me = None -> l <> 0 -> h !! l = None ->
  exists m', mapelem_new_val m me l key v = Ok m' /\ map_inv m' (<[key := v]> M).
Proof.
  intros Hm Hko HM Hbk Hi Hd Hnd Hp Hme0 Hme Hl0 Hl. unfold mapelem_new_val.
  rewrite Hbk. cbn [res_bind fst snd]. replace (me =? 0) with false by lia.
  destruct (list_add_ok h lst ps l me Hd Hl0 Hl) as (h' & -> & Hd' & Hv').
  cbn [res_bind]. eexists. split; [done|]. destruct Hm as [Hs Hlen Hb He Hk Ha Hz].
  split; cbn [slots size values elems].
  - done.
  - by rewrite length_insert.
  - intros i b. rewrite list_lookup_insert_Some. unfold slot_of; cbn [slots]; fold (slot_of m key).
    intros [(<- & <- & _)|(Hne & Hib)]; cbn [fst snd].
    + exists (vals h ps ++ [me]). split; [|split].
      * exists (ps ++ [l]). by rewrite Hv'.
      * apply NoDup_app. split; [done|]. split; [|apply NoDup_singleton].
        intros p (mp & E & _)%Hp ->%list_elem_of_singleton. congruence.
      * intros p. rewrite elem_of_app, list_elem_of_singleton, Hp. split.
        -- intros [(mp & E & Es)| ->].
           ++ exists mp. rewrite lookup_insert_ne by congruence. done.
           ++ eexists. by rewrite lookup_insert, decide_True by done.
        -- intros (mp & E & Es). rewrite lookup_insert_Some in E.
           destruct E as [[<- _]|[_ E]]; [by right|left; by exists mp].
    + destruct (Hb i b Hib) as (ms & Hh & Hn & Hq). exists ms. do 2 (split; [done|]).
      intros p. rewrite Hq. split.
      * intros (mp & E & Es). exists mp. by rewrite lookup_insert_ne by congruence.
      * intros (mp & E & Es). rewrite lookup_insert_Some in E.
        destruct E as [[_ <-]|[_ E]]; [by destruct Hne|by exists mp].
  - intros p mp. rewrite lookup_insert_Some. intros [[<- <-]|[_ E]]; [done|by eapply He].
  - assert (forall q mq, elems m !! q = Some mq -> me_key mq <> key) as Hno.
    { intros q [k w] E Ek. simpl in Ek. subst k. assert (M !! key = Some w) by (apply Ha; eauto).
      congruence. }
    intros p q mp mq. rewrite !lookup_insert_Some.
    intros [[<- <-]|[_ Ep]] [[<- <-]|[_ Eq]]; simpl; try done.
    + intros Ek. by destruct (Hno q mq Eq).
    + intros Ek. by destruct (Hno p mp Ep).
    + by apply Hk.
  - intros k x. rewrite lookup_insert_Some, Ha. split.
    + intros [[<- <-]|[Hne [q Eq]]].
      * exists me. by rewrite lookup_insert, decide_True by done.
      * exists q. rewrite lookup_insert_ne by congruence. done.
    + intros [q Eq]. rewrite lookup_insert_Some in Eq. destruct Eq as [[<- E]|[Hne E]].
      * injection E as <- <-. by left.
      * right. split; [|by exists q]. intros <-.
        assert (M !! key = Some x) by (apply Ha; eauto). congruence.
  - rewrite map_size_insert_None by done. rewrite Hz. unfold u32. rewrite Zplus_mod_idemp_l.
    f_equal. lia.
Qed.

(** Removing a key that is there: its element leaves the bucket and is freed. *)
Lemma remove_inv m M key v lst h qs1 r qs2 : map_inv m M -> M !! key = Some v ->
  values m !! slot_of m key = Some (lst, h) -> dlist h lst (qs1 ++ r :: qs2) ->
  NoDup (vals h (qs1 ++ r :: qs2)) ->
  (forall p, p ∈ vals h (qs1 ++ r :: qs2) <->
     exists me, elems m !! p = Some me /\ slot_of m (me_key me) = slot_of m key) ->
  elems m !! val_at h r = Some (mkMapElem key v) ->
  exists els h', map_lst_free (elems m) h r = Ok (els, h') /\
    map_inv (mkMap (slots m) (u32 (size m - 1)) (<[slot_of m key := (lst, h')]> (values m)) els)
            (delete key M).
Proof.
  intros Hm HM Hi Hd Hnd Hp Er. unfold map_lst_free.
  destruct (prevf_elem h r) as (x & -> & _ & _ & _ & Ev).
  { eapply dlist_elem; [done|]. right. apply elem_of_app. right; left. }
  destruct (remove_elem_ok h lst qs1 r qs2 Hd) as (h' & Hrem & Hd' & _ & Hv'). cbn [res_bind].
  rewrite Hrem. cbn [res_bind]. do 2 eexists. split; [done|]. unfold map_elem_free.
  rewrite <- Ev. set (q0 := val_at h r) in *.
  rewrite vals_split in Hnd, Hp. fold q0 in Hnd, Hp.
  assert (vals h' (qs1 ++ qs2) = vals h qs1 ++ vals h qs2) as Ev'.
  { rewrite Hv'. apply fmap_app. }
  destruct Hm as [Hs Hlen Hb He Hk Ha Hz].
  assert (q0 ∉ vals h qs1 ++ vals h qs2 /\ NoDup (vals h qs1 ++ vals h qs2)) as [Hq0 Hnd'].
  { rewrite <- Permutation_middle in Hnd. by apply NoDup_cons in Hnd. }
  split; cbn [slots size values elems].
  - done.
  - by rewrite length_insert.
  - intros i b. rewrite list_lookup_insert_Some. unfold slot_of; cbn [slots]; fold (slot_of m key).
    intros [(<- & <- & _)|(Hne & Hib)]; cbn [fst snd].
    + exists (vals h qs1 ++ vals h qs2). split; [by exists (qs1 ++ qs2)|]. split; [done|].
      intros p. specialize (Hp p). rewrite elem_of_app, elem_of_cons in Hp. split.
      * intros Hin. assert (p <> q0) by congruence. rewrite elem_of_app in Hin.
        destruct (proj1 Hp) as (mp & E & Es); [tauto|]. exists mp.
        by rewrite lookup_delete_ne by done.
      * intros (mp & [Hne E]%lookup_delete_Some & Es). rewrite elem_of_app.
        destruct (proj2 Hp) as [?|[->|?]]; [by exists mp|by left|done|by right].
    + destruct (Hb i b Hib) as (ms & Hh & Hn & Hq). exists ms. do 2 (split; [done|]).
      intros p. rewrite Hq. split.
      * intros (mp & E & Es). exists mp. rewrite lookup_delete_ne; [done|].
        intros <-. rewrite Er in E. injection E as <-. by destruct Hne.
      * intros (mp & [_ E]%lookup_delete_Some & Es). by exists mp.
  - intros p mp [_ E]%lookup_delete_Some. by eapply He.
  - intros p q mp mq [_ Ep]%lookup_delete_Some [_ Eq]%lookup_delete_Some. by apply Hk.
  - intros k y. rewrite lookup_delete_Some, Ha. split.
    + intros [Hne [q Eq]]. exists q. rewrite lookup_delete_ne; [done|]. intros <-. congruence.
    + intros [q [Hne Eq]%lookup_delete_Some]. split; [|by exists q]. intros <-. apply Hne.
      by apply (Hk q0 q _ _ Er Eq).
  - rewrite map_size_delete, HM, Hz. unfold u32. rewrite Zminus_mod_idemp_l. f_equal.
    assert (base.size M <> 0%nat) by (intros E; apply map_size_empty_inv in E; by rewrite E in HM).
    lia.
Qed.

(** (C18) The hash map is a finite map from strings: on a structure that holds the map M,
    map_get, map_contains, map_size, map_set and map_remove finish and return or leave
    exactly what the lookup, insertion and deletion on M give, whatever the collisions
    of the hash, and the structure stays well-formed. *)
Theorem map_refines_gmap m M key : map_inv m M -> key_ok key ->
  map_get m key = Ok (M !! key) /\
  map_contains m key = Ok (bool_decide (is_Some (M !! key))) /\
  map_size m = u32 (Z.of_nat (base.size M)) /\
  (forall me l v, me <> 0 -> elems m !! me = None -> l <> 0 ->
     (forall b, values m !! slot_of m key = Some b -> snd b !! l = None) ->
     exists m', map_set m me l key v = Ok m' /\ map_inv m' (<[key := v]> M)) /\
  (exists m', map_remove m key = Ok (bool_decide (is_Some (M !! key)), m') /\
     map_inv m' (delete key M)).
Proof.
  intros Hm Hk. destruct (map_get_elem_ok m M key Hm Hk) as (p & Hp & Hcase).
  assert (map_get m key = Ok (M !! key)) as Hget.
  { unfold map_get, map_get_celem. rewrite Hp. cbn [res_bind].
    destruct Hcase as [[-> ->]|(H0 & v & -> & E)]; [done|].
    replace (p =? 0) with false by lia. by rewrite E. }
  split; [done|]. split; [unfold map_contains; by rewrite Hget|].
  split; [by apply mi_size|].
  destruct (search_key_ok m M key Hm Hk) as
    (lst & h & ps & r & Hb & Hi & Hd & Hn & Hin & Hr & Hc). split.
  - intros me l v Hme0 Hme Hl0 Hl. unfold map_set. rewrite Hp. cbn [res_bind].
    destruct Hcase as [[-> HM]|(H0 & w & HM & E)].
    + apply (new_val_inv m M me l key v lst h ps); try done. by apply (Hl (lst, h)).
    + replace (p =? 0) with false by lia. by apply (set_val_inv m M p key w v).
  - unfold map_remove. rewrite Hb. cbn [res_bind]. rewrite Hr. cbn [res_bind fst snd].
    destruct Hc as [[-> HM]|(qs1 & qs2 & v & -> & H0 & HM & E)].
    + rewrite HM, delete_id by done. by exists m.
    + replace (r =? 0) with false by lia.
      destruct (remove_inv m M key v lst h qs1 r qs2) as (els & h' & -> & Hm'); try done.
      cbn [res_bind fst snd]. rewrite HM. by eexists.
Qed.

(** ** A new map is empty *)

Lemma map_init_values_ok lists : Forall (fun p => p <> 0) lists ->
  exists vs, map_init_values lists = Ok vs /\ length vs = length lists /\
    Forall (fun b => holds_list (snd b) (fst b) []) vs.
Proof.
  induction 1 as [|p ps Hp _ (vs & E & Hl & Hf)]; cbn [map_init_values]; [by exists []|].
  unfold list_new. replace (p =? 0) with false by lia.
  unfold list_init, set_next, set_prev, elem.
  rewrite lookup_insert, decide_True by done. cbn [deref res_bind].
  rewrite lookup_insert, decide_True by done. cbn [deref res_bind]. rewrite E. cbn [res_bind].
  eexists. split; [done|]. split; [cbn [length]; lia|]. constructor; [|done].
  exists []. split; [|done]. split; [apply NoDup_singleton|by intros ?%list_elem_of_singleton|].
  cbn. unfold link, prevf, nextf. by rewrite lookup_insert, decide_True by done.
Qed.

Lemma map_init_ok map slots lists : map <> 0 -> 0 <= slots < 2 ^ 32 ->
  Forall (fun p => p <> 0) lists -> (Z.to_nat slots `max` 1 <= length lists)%nat ->
  exists m, map_init map slots lists = Ok (Some m) /\ map_inv m ∅ /\
    map_slots m = (if slots =? 0 then 1 else slots).
Proof.
  intros Hmap Hs Hf Hl. unfold map_init. replace (map =? 0) with false by lia.
  set (s := if slots =? 0 then 1 else slots).
  assert (0 < s < 2 ^ 32 /\ (Z.to_nat s <= length lists)%nat) as [Hs' Hl'].
  { unfold s. destruct (Z.eqb_spec slots 0); lia. }
  destruct (map_init_values_ok (take (Z.to_nat s) lists)) as (vs & -> & Hlen & Hv).
  { by apply Forall_take. }
  cbn [res_bind]. eexists. split; [done|]. split; [|done].
  rewrite length_take in Hlen.
  split; cbn [HashMap.slots values elems HashMap.size]; try done.
  - lia.
  - intros i b Hi. exists []. split; [by eapply (Forall_lookup_1 _ _ _ _ Hv)|].
    split; [constructor|]. intros p. rewrite elem_of_nil, lookup_empty. naive_solver.
  - intros k v. rewrite lookup_empty. setoid_rewrite lookup_empty. naive_solver.
Qed.

(** ** Clearing *)

Lemma clear_bucket_empty els lst h : holds_list h lst [] ->
  clear_bucket els (lst, h) = Ok (els, h).
Proof.
  intros (ps & Hd & Hv). destruct ps; [|done]. unfold clear_bucket.
  destruct (prevf_elem h lst) as (x & -> & _ & Ep & _); [eapply dlist_elem; [done | left]|].
  cbn [res_bind]. rewrite (path_first _ _ _ _ (dl_path _ _ _ Hd)) in Ep. injection Ep as <-.
  unfold list_fuel. rewrite loop_S. change (after_of [] lst) with lst.
  unfold list_elem_valid. by rewrite Z.eqb_refl, andb_false_r.
Qed.

Lemma clear_bucket_used els lst h v vs : holds_list h lst (v :: vs) ->
  clear_bucket els (lst, h) = Ub.
Proof.
  intros (ps & Hd & Hv). destruct ps as [|a ps]; [done|]. unfold clear_bucket.
  destruct (prevf_elem h lst) as (x & -> & _ & Ep & _); [eapply dlist_elem; [done | left]|].
  cbn [res_bind]. rewrite (path_first _ _ _ _ (dl_path _ _ _ Hd)) in Ep. injection Ep as <-.
  unfold list_fuel. rewrite loop_S. change (after_of (a :: ps) lst) with a.
  destruct (Hd) as [Hnd Hnn _].
  assert (a <> 0) by (intros ->; apply Hnn; right; left).
  assert (a <> lst) by (intros ->; apply NoDup_cons in Hnd as [K _]; apply K; left).
  unfold list_elem_valid. replace (a =? 0) with false by lia.
  replace (a =? lst) with false by lia. cbn [negb andb]. unfold map_lst_free.
  destruct (prevf_elem h a) as (y & -> & _); [eapply dlist_elem; [done | right; left]|].
  destruct (remove_elem_ok h lst [] a ps Hd) as (h' & Hrem & _ & Hnone & _).
  cbn [res_bind]. rewrite Hrem. cbn [res_bind]. unfold elem. by rewrite Hnone.
Qed.

Lemma clear_buckets_used els bs i b v vs :
  (forall j c, bs !! j = Some c -> exists ms, holds_list (snd c) (fst c) ms) ->
  bs !! i = Some b -> holds_list (snd b) (fst b) (v :: vs) ->
  clear_buckets els bs = Ub /\
  ((forall lst h, holds_list h lst [] -> exists h', list_free h lst = Ok h') ->
   free_buckets els bs = Ub).
Proof.
  revert els i; induction bs as [|[lst h] bs IH]; intros els i Hall Hi Hb; [done|].
  cbn [clear_buckets free_buckets].
  destruct (Hall 0%nat _ eq_refl) as (ms & Hms). cbn [fst snd] in Hms.
  destruct ms as [|w ws]; [|by rewrite (clear_bucket_used els lst h w ws Hms)].
  rewrite (clear_bucket_empty els lst h Hms). cbn [res_bind fst snd].
  destruct i as [|i].
  { cbn in Hi. injection Hi as <-. pose proof (clear_bucket_empty els lst h Hms) as A.
    by rewrite (clear_bucket_used els lst h v vs Hb) in A. }
  destruct (IH els i (fun j c => Hall (S j) c) Hi Hb) as [-> Hfree]. split; [done|].
  intros Hlf. destruct (Hlf lst h Hms) as [h' ->]. cbn [res_bind]. by apply Hfree.
Qed.

Lemma list_free_empty lst h : holds_list h lst [] -> exists h', list_free h lst = Ok h'.
Proof.
  intros (ps & Hd & Hv). destruct ps; [|done]. unfold list_free.
  assert (lst <> 0) by (intros ->; apply (dl_nonnull _ _ _ Hd); left).
  replace (lst =? 0) with false by lia.
  destruct (prevf_elem h lst) as (x & -> & _ & _ & En & _); [eapply dlist_elem; [done | left]|].
  cbn [res_bind]. rewrite (path_last _ _ _ _ (dl_path _ _ _ Hd)) in En. injection En as <-.
  unfold list_fuel. rewrite loop_S. change (before_of lst []) with lst. rewrite Z.eqb_refl.
  cbn [res_bind]. by eexists.
Qed.

(** map_clear and map_free use freed memory on every map that is not empty: the loop
    over a bucket frees the current element in its body and then reads its prev link
    to go on. *)
Theorem map_clear_use_after_free m M : map_inv m M -> M <> ∅ ->
  map_clear m = Ub /\ map_free m = Ub.
Proof.
  intros Hm [k (v & Ek)]%map_choose.
  apply (mi_abs m M Hm) in Ek as [p Ep].
  assert (take (Z.to_nat (slots m)) (values m) = values m) as Et.
  { apply take_ge. rewrite (mi_len m M Hm). lia. }
  destruct (bucket_ok m M k Hm) as (lst & h & ps & _ & Hi & Hd & _ & Hp).
  pose proof (proj2 (Hp p) (ex_intro _ _ (conj Ep eq_refl))) as Hin.
  destruct (vals h ps) as [|w ws] eqn:Ev; [by apply elem_of_nil in Hin|].
  destruct (clear_buckets_used (elems m) (values m) _ _ w ws
              (fun j c Hj => match mi_bucket m M Hm j c Hj with
                             | ex_intro _ ms (conj H _) => ex_intro _ ms H end) Hi)
    as [Hc Hf]; [by exists ps|].
  unfold map_clear, map_free. rewrite Et, Hc, (Hf list_free_empty). done.
Qed.

(** ** Integer keys *)

(** The number a decimal string denotes. *)
Definition dec_value (s : list Z) : Z :=
  match s with c :: s' => if c =? 45 then - digits_value s' else digits_value s | [] => 0 end.

(** Buffer accesses in range. *)
Lemma buf_set_ok dst i c : 0 <= i < Z.of_nat (length dst) ->
  buf_set dst i c = Ok (<[Z.to_nat i := c]> dst).
Proof. intros. unfold buf_set. by rewrite bool_decide_true. Qed.

Lemma buf_get_ok dst i c : 0 <= i -> dst !! Z.to_nat i = Some c -> buf_get dst i = Ok c.
Proof. intros Hi H. unfold buf_get. replace (i <? 0) with false by lia. by rewrite H. Qed.

(** The first loop stores the digits from the last one on. *)
Lemma store_digits dst base n : 0 <= base <= 1 -> 0 < n < 2 ^ 63 -> length dst = 64%nat ->
  exists L dst', loop (Z.to_nat STR_KEY_SIZE)
      (fun '(i, n, dst) =>
         if (i <? STR_KEY_SIZE - 2) && (n >? 0) then
           let* d := buf_set dst (base + i) (u8 (Z.rem n 10 + 48)) in
           Ok (Next (i + 1, Z.quot n 10, d))
         else Ok (Done (i, dst))) (0, n, dst) = Ok (Z.of_nat L, dst') /\
    (L <= 19)%nat /\ n < 10 ^ Z.of_nat L /\ length dst' = 64%nat /\
    (forall k, 0 <= k < base -> dst' !! Z.to_nat k = dst !! Z.to_nat k) /\
    (forall k, 0 <= k < Z.of_nat L -> dst' !! Z.to_nat (base + k) = Some (digit n k)).
Proof.
  intros Hb Hn Hlen.
  edestruct (loop_total
    (fun '(i, m, d) => 0 <= i <= 19 /\ m = n / 10 ^ i /\ length d = 64%nat /\
       (forall k, 0 <= k < base -> d !! Z.to_nat k = dst !! Z.to_nat k) /\
       (forall k, 0 <= k < i -> d !! Z.to_nat (base + k) = Some (digit n k)))
    (fun '(i, m, d) => Z.to_nat (19 - i))
    (fun '(i, d) => 0 <= i <= 19 /\ n < 10 ^ i /\ length d = 64%nat /\
       (forall k, 0 <= k < base -> d !! Z.to_nat k = dst !! Z.to_nat k) /\
       (forall k, 0 <= k < i -> d !! Z.to_nat (base + k) = Some (digit n k))))
    as ([i d] & E & Hi & Hlt & Hd & Hpre & Hdig); [| | |].
  4: { exists (Z.to_nat i), d. rewrite Z2Nat.id by lia. split; [exact E|].
       repeat split; try done; lia. }
  - intros [[i m] d] (Hi & -> & Hd & Hpre & Hdig). unfold STR_KEY_SIZE. cbn beta.
    assert (0 < 10 ^ i) by lia.
    replace (i <? 64 - 2) with true by lia. cbn [andb].
    destruct (n / 10 ^ i >? 0) eqn:Ez.
    + left. assert (i < 19) as Hi19.
      { destruct (decide (i = 19)) as [->|]; [|lia]. rewrite Z.div_small in Ez by lia. lia. }
      rewrite buf_set_ok by lia. cbn [res_bind]. eexists. split; [done|]. split; [|lia].
      split; [lia|]. split; [by rewrite quot_pow by lia|]. rewrite length_insert.
      split; [done|]. rewrite Z.rem_mod_nonneg by lia. fold (digit n i).
      pose proof (digit_range n i). wid. split.
      * intros k Hk. rewrite list_lookup_insert_ne by lia. by apply Hpre.
      * intros k Hk. destruct (decide (k = i)) as [->|].
        -- apply list_lookup_insert_eq. lia.
        -- rewrite list_lookup_insert_ne by lia. apply Hdig. lia.
    + right. eexists. split; [done|]. repeat split; try done; try lia.
      assert (n / 10 ^ i = 0) as Hz by (pose proof (Z.div_pos n (10 ^ i)); lia).
      apply Z.div_small_iff in Hz; lia.
  - split; [lia|]. split; [by rewrite Z.div_1_r|]. repeat split; try done; lia.
  - unfold STR_KEY_SIZE. lia.
Qed.

(** The second loop flips the first [L] cells after [base]. *)
Lemma flip_digits dst base L f : 0 <= base -> base + Z.of_nat L <= Z.of_nat (length dst) ->
  (forall k, 0 <= k < Z.of_nat L -> dst !! Z.to_nat (base + k) = Some (f k)) ->
  exists dst', for_up (Z.to_nat (Z.quot (Z.of_nat L) 2)) 0
      (fun j dst =>
         let* c := buf_get dst (base + j) in
         let* d := buf_get dst (base + (Z.of_nat L - j - 1)) in
         let* dst := buf_set dst (base + j) d in
         buf_set dst (base + (Z.of_nat L - j - 1)) c) dst = Ok dst' /\
    length dst' = length dst /\
    (forall k, 0 <= k < base -> dst' !! Z.to_nat k = dst !! Z.to_nat k) /\
    (forall k, 0 <= k < Z.of_nat L -> dst' !! Z.to_nat (base + k) = Some (f (Z.of_nat L - 1 - k))).
Proof.
  intros Hb Hlen Hf. rewrite Z.quot_div_nonneg by lia.
  destruct (for_up_total
    (fun j d => 0 <= j /\ length d = length dst /\
       (forall k, 0 <= k < base -> d !! Z.to_nat k = dst !! Z.to_nat k) /\
       (forall k, 0 <= k < Z.of_nat L -> d !! Z.to_nat (base + k) =
          Some (f (if (k <? j) || (k >=? Z.of_nat L - j) then Z.of_nat L - 1 - k else k))))
    (fun j dst =>
         let* c := buf_get dst (base + j) in
         let* d := buf_get dst (base + (Z.of_nat L - j - 1)) in
         let* dst := buf_set dst (base + j) d in
         buf_set dst (base + (Z.of_nat L - j - 1)) c)
    (Z.to_nat (Z.of_nat L / 2)) 0 dst) as (d & E & _ & Hd & Hpre & Hk).
  - repeat split; try done. intros k Hk. rewrite Hf by done. do 2 f_equal.
    replace ((k <? 0) || (k >=? Z.of_nat L - 0)) with false by lia. done.
  - intros j d Hj (_ & Hd & Hpre & Hk). assert (2 * j + 1 < Z.of_nat L) by dlia.
    rewrite (buf_get_ok d (base + j) (f j)); [|lia|].
    2: { rewrite Hk by lia. by replace ((j <? j) || (j >=? Z.of_nat L - j)) with false by lia. }
    rewrite (buf_get_ok d _ (f (Z.of_nat L - j - 1))); [|lia|].
    2: { rewrite Hk by lia. do 2 f_equal.
         replace ((Z.of_nat L - j - 1 <? j) || _) with false by lia. done. }
    cbn [res_bind]. rewrite buf_set_ok by lia. cbn [res_bind].
    rewrite buf_set_ok by (rewrite length_insert; lia).
    eexists. split; [done|]. split; [lia|]. rewrite !length_insert. split; [done|]. split.
    + intros k Hkb. rewrite !list_lookup_insert_ne by lia. by apply Hpre.
    + intros k Hkr. destruct (decide (k = Z.of_nat L - j - 1)) as [->|].
      * rewrite list_lookup_insert_eq by (rewrite length_insert; lia). do 2 f_equal.
        replace ((_ <? j + 1) || (_ >=? Z.of_nat L - (j + 1))) with true by lia. lia.
      * rewrite list_lookup_insert_ne by lia. destruct (decide (k = j)) as [->|].
        -- rewrite list_lookup_insert_eq by lia. do 2 f_equal.
           replace ((j <? j + 1) || _) with true by lia. lia.
        -- rewrite list_lookup_insert_ne, Hk by lia. do 2 f_equal.
           replace ((k <? j + 1) || (k >=? Z.of_nat L - (j + 1)))
             with ((k <? j) || (k >=? Z.of_nat L - j)) by lia. done.
  - exists d. split; [exact E|]. do 2 (split; [done|]). intros k Hkr. rewrite Hk by done.
    do 2 f_equal. rewrite Z2Nat.id by dlia.
    destruct ((k <? 0 + Z.of_nat L / 2) || (k >=? Z.of_nat L - (0 + Z.of_nat L / 2))) eqn:Ec;
      [done|]. dlia.
Qed.

Lemma to_str_ok s : forall dst, Forall (fun c => c <> 0) s ->
  (forall k c, s !! k = Some c -> dst !! k = Some c) -> dst !! length s = Some 0 ->
  to_str dst = s.
Proof.
  induction s as [|c s IH]; intros [|d dst] Hs Hk Hz; try done; cbn [to_str].
  - cbn in Hz. injection Hz as ->. done.
  - apply Forall_cons in Hs as [Hc Hs]. pose proof (Hk 0%nat c eq_refl) as E. cbn in E.
    injection E as ->. replace (c =? 0) with false by lia. f_equal. apply IH; [done| |done].
    intros k x Hx. by apply (Hk (S k)).
Qed.

(** Both signs: the digits of [n] land after the first [base] cells. *)
Lemma write_digits dst base n : 0 <= base <= 1 -> 0 < n < 2 ^ 63 -> length dst = 64%nat ->
  exists L dst', (let* r := loop (Z.to_nat STR_KEY_SIZE)
      (fun '(i, n, dst) =>
         if (i <? STR_KEY_SIZE - 2) && (n >? 0) then
           let* d := buf_set dst (base + i) (u8 (Z.rem n 10 + 48)) in
           Ok (Next (i + 1, Z.quot n 10, d))
         else Ok (Done (i, dst))) (0, n, dst) in
    let '(i, dst) := r in
    let* dst := for_up (Z.to_nat (Z.quot i 2)) 0
      (fun j dst =>
         let* c := buf_get dst (base + j) in
         let* d := buf_get dst (base + (i - j - 1)) in
         let* dst := buf_set dst (base + j) d in
         buf_set dst (base + (i - j - 1)) c) dst in
    buf_set dst (base + i) 0) = Ok dst' /\
    (L <= 19)%nat /\ digits_value (digits n L) = n /\
    (forall k, 0 <= k < base -> dst' !! Z.to_nat k = dst !! Z.to_nat k) /\
    dst' !! Z.to_nat (base + Z.of_nat L) = Some 0 /\
    (forall k c, digits n L !! k = Some c -> dst' !! Z.to_nat (base + Z.of_nat k) = Some c).
Proof.
  intros Hb Hn Hlen.
  destruct (store_digits dst base n Hb Hn Hlen) as (L & d1 & -> & HL & Hlt & Hl1 & Hp1 & Hd1).
  cbn [res_bind].
  destruct (flip_digits d1 base L (digit n)) as (d2 & -> & Hl2 & Hp2 & Hd2); [lia|lia|done|].
  cbn [res_bind]. rewrite buf_set_ok by lia. exists L. eexists. split; [done|]. split; [done|].
  split; [rewrite digits_value_ok by lia; apply Z.mod_small; lia|]. split; [|split].
  - intros k Hk. rewrite list_lookup_insert_ne, Hp2, Hp1 by lia. done.
  - apply list_lookup_insert_eq. lia.
  - intros k c [Hk ->]%digits_lookup. rewrite list_lookup_insert_ne, Hd2 by lia. done.
Qed.

Lemma digits_head n L c : digits n L !! 0%nat = Some c -> c <> 45.
Proof. intros [_ ->]%digits_lookup. pose proof (digit_range n (Z.of_nat L - 1 - Z.of_nat 0)). lia. Qed.

(** The keys of the integer interface are faithful: for every long but LONG_MIN (whose
    negation overflows), map_int_to_str stays inside its buffer and writes a string of
    at most 20 characters that denotes exactly the integer, so that different integers
    never share a key. *)
Theorem int_key_faithful n : - 2 ^ 63 < n < 2 ^ 63 ->
  exists s, int_key n = Ok s /\ key_ok s /\ (length s <= 20)%nat /\ dec_value s = n.
Proof.
  intros Hn. destruct (decide (n = 0)) as [->|Hn0].
  { exists [48]. split; [reflexivity|]. repeat constructor; discriminate. }
  assert (length key_buffer = 64%nat) as Hkb by apply length_replicate.
  unfold int_key, map_int_to_str. replace (n =? 0) with false by lia.
  destruct (Z.ltb_spec n 0) as [Hneg|Hpos]; cbn [res_bind].
  - rewrite buf_set_ok by lia. cbn [res_bind]. replace (n =? - 2 ^ 63) with false by lia.
    cbn [res_bind].
    destruct (write_digits (<[Z.to_nat 0 := 45]> key_buffer) 1 (- n))
      as (L & d & E & HL & Hv & Hp & Hz & Hd); [lia|lia|by rewrite length_insert|].
    rewrite E. cbn [res_bind]. exists (45 :: digits (- n) L).
    pose proof (digits_nonzero (- n) L) as Hf. rewrite (to_str_ok (45 :: digits (- n) L)).
    + split; [done|]. split; [constructor; [lia|]; eapply Forall_impl; [exact Hf|cbn; lia]|].
      split; [cbn; rewrite digits_length; lia|]. cbn [dec_value]. cbn. lia.
    + constructor; [lia|]. eapply Forall_impl; [exact Hf|cbn; lia].
    + intros [|k] c Hk; [|by apply Hd in Hk as <-; f_equal; lia].
      cbn in Hk. injection Hk as <-. exact (Hp 0 ltac:(lia)).
    + cbn. rewrite digits_length. rewrite <- Hz. f_equal. lia.
  - destruct (write_digits key_buffer 0 n) as (L & d & E & HL & Hv & Hp & Hz & Hd); [lia|lia|done|].
    rewrite E. cbn [res_bind]. exists (digits n L).
    pose proof (digits_nonzero n L) as Hf. rewrite (to_str_ok (digits n L)).
    + split; [done|]. split; [eapply Forall_impl; [exact Hf|cbn; lia]|].
      split; [rewrite digits_length; lia|]. unfold dec_value.
      destruct (digits n L) as [|c l] eqn:El; [done|].
      replace (c =? 45) with false; [done|].
      assert (c <> 45) by (apply (digits_head n L); by rewrite El). lia.
    + eapply Forall_impl; [exact Hf|cbn; lia].
    + intros k c Hk. apply Hd in Hk as <-. f_equal. lia.
    + rewrite digits_length, <- Hz. f_equal. lia.
Qed.

(** ** Concrete instances *)

(** One slot, one key. *)
Definition demo_map : Map :=
  mkMap 1 1 [(16, <[16 := mkElem 0 32 32]> (<[32 := mkElem 48 16 16]> ∅))]
        {[48 := mkMapElem [65] 7]}.

Lemma demo_map_run :
  (let* o := map_init 8 1 [16] in
   match o with Some m => map_set m 48 32 [65] 7 | None => Ub end) = Ok demo_map.
Proof. vm_compute. reflexivity. Qed.

Lemma demo_map_inv : map_inv demo_map {[[65] := 7]}.
Proof.
  assert (forall p me, elems demo_map !! p = Some me -> p = 48 /\ me = mkMapElem [65] 7) as He.
  { intros p me H. cbn [elems demo_map] in H. apply lookup_singleton_Some in H as [<- <-]. done. }
  split; try (cbn; lia); try done.
  - intros i b Hi. exists [48]. destruct i as [|i]; [|done]. cbn in Hi. injection Hi as <-.
    split; [|split; [apply NoDup_singleton|]].
    + exists [32]. split; [|reflexivity].
      split; [computed| |by repeat split].
      computed.
    + intros p. rewrite list_elem_of_singleton. split.
      * intros ->. by exists (mkMapElem [65] 7).
      * by intros (me & [-> _]%He & _).
  - intros p me [-> ->]%He. split; [done|]. repeat constructor; discriminate.
  - intros p q mp mq [-> _]%He [-> _]%He. done.
  - intros k v. split.
    + intros [<- <-]%lookup_singleton_Some. by exists 48.
    + intros (p & [_ E]%He). by injection E as -> ->.
Qed.

Lemma map_refines_gmap_witness :
  map_inv demo_map {[[65] := 7]} /\
  (map_get demo_map [66] = Ok (({[[65] := 7]} : gmap (list Z) Z) !! [66]) /\
   map_contains demo_map [66] = Ok (bool_decide (is_Some (({[[65] := 7]} : gmap (list Z) Z) !! [66]))) /\
   map_size demo_map = u32 (Z.of_nat (base.size ({[[65] := 7]} : gmap (list Z) Z))) /\
   (forall me l v, me <> 0 -> elems demo_map !! me = None -> l <> 0 ->
     (forall b, values demo_map !! slot_of demo_map [66] = Some b -> snd b !! l = None) ->
     exists m', map_set demo_map me l [66] v = Ok m' /\ map_inv m' (<[[66] := v]> {[[65] := 7]})) /\
   (exists m', map_remove demo_map [66] =
      Ok (bool_decide (is_Some (({[[65] := 7]} : gmap (list Z) Z) !! [66])), m') /\
     map_inv m' (delete [66] {[[65] := 7]}))).
Proof.
  split; [exact demo_map_inv|].
  exact (map_refines_gmap demo_map {[[65] := 7]} [66] demo_map_inv
           ltac:(repeat constructor; discriminate)).
Defined.

Lemma map_clear_use_after_free_witness :
  map_inv demo_map {[[65] := 7]} /\ map_clear demo_map = Ub /\ map_free demo_map = Ub.
Proof.
  split; [exact demo_map_inv|].
  exact (map_clear_use_after_free demo_map {[[65] := 7]} demo_map_inv
           ltac:(intros H; apply (f_equal (lookup [65])) in H; discriminate H)).
Defined.

Lemma int_key_faithful_witness :
  - 2 ^ 63 < -120 < 2 ^ 63 /\
  exists s, int_key (-120) = Ok s /\ key_ok s /\ (length s <= 20)%nat /\ dec_value s = -120.
Proof. split; [lia|]. exact (int_key_faithful (-120) ltac:(lia)). Defined.
