(* ===== verification/Path.v ===== *)
(** Path splitting, src/util/src/path.c, on C strings in memory.

    The list [path_split] builds is given by the strings [strdup] copied into it, in
    order. 47 is the slash. *)
From S2P Require Import Prelude Mem Util DList.

Definition path_skip_slashes (m : mem) (path : Z) : res Z :=
  loop (scan_fuel m)
    (fun p => let* c := ld8 m p in if c =? 47 then Ok (Next (p + 1)) else Ok (Done p)) path.

Definition path_next_slash (m : mem) (path : Z) : res Z :=
  loop (scan_fuel m)
    (fun p => let* c := ld8 m p in
              if negb (c =? 47) && negb (c =? 0) then Ok (Next (p + 1)) else Ok (Done p)) path.

(** [for (i = len - 1; path[i] != '/' && i >= 0; i -= 1);]: the byte is read before the
    index is compared. *)
Definition path_file_name (m : mem) (path : Z) : res Z :=
  let* len := strlen m path in
  let* i := loop (S (scan_fuel m))
    (fun i => let* c := ld8 m (path + i) in
              if negb (c =? 47) && (i >=? 0) then Ok (Next (i - 1)) else Ok (Done i))
    (s32 len - 1) in
  Ok (path + i + 1).

Definition NAME_SIZE : Z := 256.

(** The copy of one component into [name]: the characters before the terminator. *)
Definition copy_name (m : mem) (path : Z) : res (list Z) :=
  loop (Z.to_nat NAME_SIZE)
    (fun '(i, name) =>
       if i <? NAME_SIZE - 1 then
         let* c := ld8 m (path + i) in
         if negb (c =? 47) && negb (c =? 0) then Ok (Next (i + 1, name ++ [c]))
         else Ok (Done name)
       else Ok (Done name)) (0, []).

Definition path_split (m : mem) (path : Z) : res (list (list Z)) :=
  loop (scan_fuel m)
    (fun '(path, v) =>
       let* c := ld8 m path in
       if c =? 0 then Ok (Done v)
       else
         let* path := path_skip_slashes m path in
         let* name := copy_name m path in
         let* path := path_next_slash m path in
         Ok (Next (path, v ++ [name]))) (path, []).

(** A block the allocator gets back must be one it handed out. *)
Definition kfree_block (h : lheap) (p : Z) : res lheap :=
  if bool_decide (is_Some (h !! p)) then Ok (g_kfree h p) else Ub.

(** [strs] are the string blocks; the list element and string frees go to the same
    allocator. *)
Definition path_split_free (strs : gset Z) (h : lheap) (l : Z) : res (gset Z * lheap) :=
  let* hd := elem h l in
  let* strs := loop (list_fuel h)
    (fun '(e, strs) =>
       if list_elem_valid l e then
         let* x := elem h e in
         if bool_decide (value x ∈ (strs : gset Z)) then Ok (Next (prev x, strs ∖ {[value x]}))
         else Ub
       else Ok (Done strs)) (prev hd, strs) in
  let* h := list_free h l in
  let* h := kfree_block h l in
  Ok (strs, h).

(** ** Scans *)

Definition no_slash (s : list Z) : Prop := Forall (fun c => c <> 47) s.

(** Where a component ends. *)
Definition at_end (s : list Z) : Prop := head s = None \/ head s = Some 47.

Lemma cstr_cons m a c s : cstr m a (c :: s) -> m !! a = Some c /\ c <> 0 /\ cstr m (a + 1) s.
Proof. intros (H1 & H2 & H3). done. Qed.

Lemma cstr_app m a s t : cstr m a (s ++ t) -> cstr m (a + Z.of_nat (length s)) t.
Proof.
  intros H. pose proof (cstr_skip m (s ++ t) a (Z.of_nat (length s)) H) as K.
  rewrite length_app, Nat2Z.id, drop_app_length in K. apply K. lia.
Qed.

Lemma skip_loop m s : head s <> Some 47 -> forall k n a, cstr m a (replicate k 47 ++ s) ->
  (k < n)%nat ->
  loop n (fun p => let* c := ld8 m p in if c =? 47 then Ok (Next (p + 1)) else Ok (Done p)) a
  = Ok (a + Z.of_nat k).
Proof.
  intros Hs. induction k as [|k IH]; intros n a H Hn; (destruct n as [|n]; [lia|]); rewrite loop_S.
  - cbn [replicate app] in H. unfold ld8. destruct s as [|c s].
    + cbn in H. rewrite H. cbn. f_equal. lia.
    + destruct (cstr_cons _ _ _ _ H) as (-> & _). cbn [deref res_bind].
      assert (c <> 47) by (cbn in Hs; congruence). replace (c =? 47) with false by lia.
      cbn [res_bind]. f_equal. lia.
  - cbn [replicate app] in H. destruct (cstr_cons _ _ _ _ H) as (E & _ & H').
    unfold ld8 at 1. rewrite E. cbn [deref res_bind]. rewrite Z.eqb_refl. cbn [res_bind].
    rewrite (IH n (a + 1) H') by lia. f_equal. lia.
Qed.

Lemma path_skip_slashes_ok m a k s : cstr m a (replicate k 47 ++ s) -> head s <> Some 47 ->
  path_skip_slashes m a = Ok (a + Z.of_nat k).
Proof.
  intros H Hs. apply (skip_loop m s Hs k _ a H). apply cstr_size in H.
  rewrite length_app, length_replicate in H. unfold scan_fuel. lia.
Qed.

(** A scan over a component sees its characters and stops after them. *)
Lemma end_char m a s : cstr m a s -> at_end s ->
  exists c, m !! a = Some c /\ negb (c =? 47) && negb (c =? 0) = false.
Proof.
  intros H [E|E]; destruct s as [|c s]; try done.
  - by exists 0.
  - cbn in E. injection E as ->. destruct (cstr_cons _ _ _ _ H) as (-> & _). by exists 47.
Qed.

Lemma next_loop m t : at_end t -> forall s n a, cstr m a (s ++ t) -> no_slash s ->
  (length s < n)%nat ->
  loop n (fun p => let* c := ld8 m p in
            if negb (c =? 47) && negb (c =? 0) then Ok (Next (p + 1)) else Ok (Done p)) a
  = Ok (a + Z.of_nat (length s)).
Proof.
  intros Ht. induction s as [|c s IH]; intros n a H Hs Hn;
    (destruct n as [|n]; [cbn in Hn; lia|]); rewrite loop_S; unfold ld8 at 1.
  - destruct (end_char m a t H Ht) as (c & -> & Ec). cbn [deref res_bind]. rewrite Ec.
    cbn. f_equal. lia.
  - apply Forall_cons in Hs as [Hc Hs]. destruct (cstr_cons _ _ _ _ H) as (-> & Hc0 & H').
    cbn [deref res_bind]. replace (negb (c =? 47) && negb (c =? 0)) with true by lia.
    cbn [res_bind]. cbn in Hn. rewrite (IH n (a + 1) H' Hs) by lia. cbn [length]. f_equal. lia.
Qed.

Lemma path_next_slash_ok m a s t : cstr m a (s ++ t) -> no_slash s -> at_end t ->
  path_next_slash m a = Ok (a + Z.of_nat (length s)).
Proof.
  intros H Hs Ht. apply (next_loop m t Ht s _ a H Hs). apply cstr_size in H.
  rewrite length_app in H. unfold scan_fuel. lia.
Qed.

Lemma copy_loop m t : at_end t -> forall s n a i acc, cstr m (a + i) (s ++ t) -> no_slash s ->
  0 <= i <= 255 -> (Z.to_nat (255 - i) < n)%nat ->
  loop n (fun '(i, name) =>
       if i <? NAME_SIZE - 1 then
         let* c := ld8 m (a + i) in
         if negb (c =? 47) && negb (c =? 0) then Ok (Next (i + 1, name ++ [c]))
         else Ok (Done name)
       else Ok (Done name)) (i, acc) = Ok (acc ++ take (Z.to_nat (255 - i)) s).
Proof.
  intros Ht. unfold NAME_SIZE. change (256 - 1) with 255.
  induction s as [|c s IH]; intros n a i acc H Hs Hi Hn; (destruct n as [|n]; [lia|]);
    rewrite loop_S; destruct (Z.ltb_spec i 255); unfold ld8 at 1.
  - destruct (end_char m (a + i) t H Ht) as (c & -> & Ec). cbn [deref res_bind]. rewrite Ec.
    cbn. by rewrite take_nil, app_nil_r.
  - cbn. by rewrite take_nil, app_nil_r.
  - apply Forall_cons in Hs as [Hc Hs]. destruct (cstr_cons _ _ _ _ H) as (-> & Hc0 & H').
    cbn [deref res_bind]. replace (negb (c =? 47) && negb (c =? 0)) with true by lia.
    cbn [res_bind]. rewrite <- Z.add_assoc in H'.
    rewrite (IH n a (i + 1) (acc ++ [c]) H' Hs) by lia.
    replace (Z.to_nat (255 - i)) with (S (Z.to_nat (255 - (i + 1)))) by lia.
    cbn [take]. by rewrite <- app_assoc.
  - replace (Z.to_nat (255 - i)) with 0%nat by lia. cbn. by rewrite app_nil_r.
Qed.

Lemma copy_name_ok m a s t : cstr m a (s ++ t) -> no_slash s -> at_end t ->
  copy_name m a = Ok (take 255 s).
Proof.
  intros H Hs Ht. apply (copy_loop m t Ht s _ a 0 []); [by rewrite Z.add_0_r|done|lia|].
  unfold NAME_SIZE. lia.
Qed.

(** ** Splitting *)

(** A path as runs of slashes, each with the component after it, and the slashes after
    the last component. *)
Definition path_text (segs : list (nat * list Z)) (trail : nat) : list Z :=
  concat ((fun s => replicate (fst s) 47 ++ snd s) <$> segs) ++ replicate trail 47.

Definition seg_ok (s : nat * list Z) : Prop :=
  (0 < fst s)%nat /\ snd s <> [] /\ no_slash (snd s).

(** The components [path_split] returns: each cut to 255 characters, and an empty one
    when slashes end the path. *)
Definition components (segs : list (nat * list Z)) (trail : nat) : list (list Z) :=
  (take 255 ∘ snd <$> segs) ++ (if trail is O then [] else [[]]).

Lemma at_end_text segs trail : Forall seg_ok segs -> at_end (path_text segs trail).
Proof.
  intros H. unfold path_text. destruct H as [|[[|k] s] segs (Hk & _ & _) _]; cbn.
  - destruct trail; [by left|by right].
  - cbn in Hk. lia.
  - by right.
Qed.

Lemma name_head s t : no_slash s -> s <> [] -> head (s ++ t) <> Some 47.
Proof. intros Hs Hne. destruct s as [|c s]; [done|]. apply Forall_cons in Hs as [Hc _]. cbn. congruence. Qed.

Lemma split_loop m trail : forall segs n a acc, cstr m a (path_text segs trail) ->
  match segs with
  | [] => True
  | (_, s) :: rest => s <> [] /\ no_slash s /\ Forall seg_ok rest
  end -> (S (length segs) < n)%nat ->
  loop n (fun '(path, v) =>
       let* c := ld8 m path in
       if c =? 0 then Ok (Done v)
       else
         let* path := path_skip_slashes m path in
         let* name := copy_name m path in
         let* path := path_next_slash m path in
         Ok (Next (path, v ++ [name]))) (a, acc) = Ok (acc ++ components segs trail).
Proof.
  induction segs as [|[k s] segs IH]; intros n a acc H Hok Hn; (destruct n as [|n]; [lia|]);
    rewrite loop_S.
  - unfold path_text in H. cbn in H. destruct trail as [|t]; unfold ld8 at 1.
    + cbn in H. rewrite H. cbn. by rewrite app_nil_r.
    + cbn [replicate] in H. destruct (cstr_cons _ _ _ _ H) as (-> & _ & _).
      cbn [deref res_bind]. cbn [Z.eqb Pos.eqb].
      change (cstr m a (replicate (S t) 47)) in H.
      assert (cstr m a (replicate (S t) 47 ++ [])) as H0 by by rewrite app_nil_r.
      rewrite (path_skip_slashes_ok m a (S t) [] H0) by done. cbn [res_bind].
      pose proof (cstr_app m a (replicate (S t) 47) [] H0) as H1.
      rewrite length_replicate in H1.
      rewrite (copy_name_ok m _ [] [] H1) by (try constructor; done). cbn [res_bind].
      rewrite (path_next_slash_ok m _ [] [] H1) by (try constructor; done).
      cbn [res_bind length]. rewrite Z.add_0_r.
      destruct n as [|n]; [cbn in Hn; lia|]. rewrite loop_S. unfold ld8 at 1. cbn in H1.
      change (Z.pos (Pos.of_succ_nat t)) with (Z.of_nat (S t)). rewrite H1. done.
  - destruct Hok as (Hne & Hs & Hrest). unfold path_text in H. cbn [fmap list_fmap concat fst snd] in H.
    rewrite <- !app_assoc in H. fold (path_text segs trail) in H.
    pose proof (cstr_app m a (replicate k 47) _ H) as H1. rewrite length_replicate in H1.
    pose proof (cstr_app m _ s _ H1) as H2.
    assert (exists c, ld8 m a = Ok c /\ c <> 0) as (c & -> & Hc).
    { destruct k as [|k]; cbn [replicate app] in H.
      - destruct s as [|c s]; [done|]. cbn [app] in H. destruct (cstr_cons _ _ _ _ H) as (E & E0 & _).
        exists c. unfold ld8. by rewrite E.
      - destruct (cstr_cons _ _ _ _ H) as (E & E0 & _). exists 47. unfold ld8. by rewrite E. }
    cbn [res_bind]. replace (c =? 0) with false by lia.
    rewrite (path_skip_slashes_ok m a k _ H) by by apply name_head. cbn [res_bind].
    pose proof (at_end_text segs trail Hrest) as Hend.
    rewrite (copy_name_ok m _ s _ H1 Hs Hend). cbn [res_bind].
    rewrite (path_next_slash_ok m _ s _ H1 Hs Hend). cbn [res_bind].
    rewrite (IH n _ (acc ++ [take 255 s]) H2).
    + unfold components. cbn. by rewrite <- !app_assoc.
    + destruct segs as [|[k' s'] segs']; [done|]. apply Forall_cons in Hrest as [(_ & ? & ?) ?]. done.
    + cbn in Hn. lia.
Qed.

Lemma text_length segs trail : Forall seg_ok segs -> (length segs + trail <= length (path_text segs trail))%nat.
Proof.
  unfold path_text. rewrite length_app, length_replicate. induction 1 as [|[k s] segs (Hk & _) _ IH]; cbn; [lia|].
  rewrite !length_app, length_replicate. cbn in Hk. lia.
Qed.

(** path_split finishes on every absolute path and returns its components in order,
    whatever the number of slashes between them: a component longer than 255
    characters is cut, and slashes at the end of the path add one empty name. *)
Theorem path_split_correct m a segs trail :
  cstr m a (path_text segs trail) -> Forall seg_ok segs ->
  path_split m a = Ok (components segs trail).
Proof.
  intros H Hs. unfold path_split. rewrite (split_loop m trail segs _ a [] H); [done| |].
  - destruct segs as [|[k s] segs]; [done|]. apply Forall_cons in Hs as [(_ & ? & ?) ?]. done.
  - apply cstr_size in H. pose proof (text_length segs trail Hs). unfold scan_fuel.
    destruct segs, trail; cbn in *; lia.
Qed.

(** ** The file name *)

Lemma name_loop m a s : cstr m a s -> forall n i, 0 <= i < Z.of_nat (length s) -> (Z.to_nat i + 1 < n)%nat ->
  (forall k, i < k < Z.of_nat (length s) -> s !! Z.to_nat k <> Some 47) ->
  exists r, loop n (fun i => let* c := ld8 m (a + i) in
              if negb (c =? 47) && (i >=? 0) then Ok (Next (i - 1)) else Ok (Done i)) i = r /\
   ((exists j, r = Ok j /\ 0 <= j < Z.of_nat (length s) /\ s !! Z.to_nat j = Some 47 /\
       forall k, j < k < Z.of_nat (length s) -> s !! Z.to_nat k <> Some 47) \/
    (no_slash s /\ r = match m !! (a - 1) with Some _ => Ok (-1) | None => Ub end)).
Proof.
  intros Hs. induction n as [|n IH]; intros i Hi Hn Hafter; [lia|]. rewrite loop_S.
  destruct (cstr_at m a s i Hs) as [E _]; [lia|]. unfold ld8 at 1. rewrite E.
  cbn [deref res_bind].
  destruct (lookup_lt_is_Some_2 s (Z.to_nat i)) as [c Ec]; [lia|]. rewrite Ec. cbn [default id].
  destruct (Z.eqb_spec c 47) as [->|Hc]; cbn [negb andb res_bind].
  - eexists. split; [done|]. left. by exists i.
  - replace (i >=? 0) with true by lia. cbn [res_bind].
    assert (forall k, i - 1 < k < Z.of_nat (length s) -> s !! Z.to_nat k <> Some 47) as Hafter'.
    { intros k Hk. destruct (decide (k = i)) as [->|]; [congruence|]. apply Hafter. lia. }
    destruct (decide (i = 0)) as [->|].
    + destruct n as [|n]; [lia|]. rewrite loop_S. unfold ld8 at 1.
      replace (a + (0 - 1)) with (a - 1) by lia. eexists. split; [done|]. right. split.
      * apply Forall_lookup_2. intros k x Hx ->. pose proof (lookup_lt_Some _ _ _ Hx).
        apply (Hafter' (Z.of_nat k)); [lia|]. by rewrite Nat2Z.id.
      * destruct (m !! (a - 1)) as [b|]; [|done]. cbn [deref res_bind].
        replace (0 - 1 >=? 0) with false by lia. by rewrite andb_false_r.
    + apply IH; [lia|lia|done].
Qed.

(** path_file_name returns the address just past the last slash of the path. On a
    path without a slash it reads the byte before the string, because the loop tests
    path[i] before i: it returns the path itself when that byte exists, and is
    undefined behaviour otherwise. *)
Theorem path_file_name_correct m a s : cstr m a s -> s <> [] -> Z.of_nat (length s) < 2 ^ 31 ->
  (exists dir name, s = dir ++ 47 :: name /\ no_slash name /\
     path_file_name m a = Ok (a + Z.of_nat (length dir) + 1) /\
     cstr m (a + Z.of_nat (length dir) + 1) name) \/
  (no_slash s /\ path_file_name m a = match m !! (a - 1) with Some _ => Ok a | None => Ub end).
Proof.
  intros Hs Hne Hlen. unfold path_file_name. rewrite (strlen_spec m a s Hs). cbn [res_bind]. wid.
  assert (0 < length s)%nat by (destruct s; cbn; [done|lia]).
  destruct (name_loop m a s Hs (S (scan_fuel m)) (Z.of_nat (length s) - 1)) as (r & -> & Hr).
  - lia.
  - apply cstr_size in Hs. unfold scan_fuel. lia.
  - intros k Hk. lia.
  - destruct Hr as [(j & -> & Hj & Ej & Hafter)|[Hns ->]].
    + left. exists (take (Z.to_nat j) s), (drop (S (Z.to_nat j)) s). cbn [res_bind].
      rewrite length_take, Nat.min_l by lia. split; [by rewrite take_drop_middle|].
      split; [|split; [f_equal; lia|]].
      * apply Forall_lookup_2. intros k x. rewrite lookup_drop. intros Hx ->.
        pose proof (lookup_lt_Some _ _ _ Hx).
        apply (Hafter (Z.of_nat (S (Z.to_nat j) + k))); [lia|]. by rewrite Nat2Z.id.
      * pose proof (cstr_skip m s a (j + 1) Hs) as K.
        replace (Z.to_nat (j + 1)) with (S (Z.to_nat j)) in K by lia.
        replace (a + Z.of_nat (Z.to_nat j) + 1) with (a + (j + 1)) by lia. apply K. lia.
    + right. split; [done|]. destruct (m !! (a - 1)); [|done]. cbn. f_equal. lia.
Qed.

(** ** Freeing the list

    [list_free] already frees the head, which [path_split_free] then frees again. *)
Lemma path_split_free_double strs h l r : l <> 0 -> path_split_free strs h l <> Ok r.
Proof.
  intros Hl H. unfold path_split_free in H. inv_ok. unfold kfree_block in E2.
  unfold list_free in E1. replace (l =? 0) with false in E1 by lia. inv_ok.
  unfold g_kfree in E2. rewrite lookup_delete_eq in E2. by rewrite bool_decide_false in E2 by (by intros []).
Qed.

(** "/usr//bin" at address 100, and nothing before it. *)
Definition demo_path : mem := mem_list 100 [47; 117; 115; 114; 47; 47; 98; 105; 110; 0].

Lemma path_split_correct_witness :
  cstr demo_path 100 (path_text [(1%nat, [117; 115; 114]); (2%nat, [98; 105; 110])] 0) /\
  path_split demo_path 100 = Ok (components [(1%nat, [117; 115; 114]); (2%nat, [98; 105; 110])] 0).
Proof.
  assert (cstr demo_path 100 (path_text [(1%nat, [117; 115; 114]); (2%nat, [98; 105; 110])] 0)) as H.
  { cbn. repeat split; discriminate. }
  split; [exact H|]. apply (path_split_correct _ _ _ _ H).
  repeat constructor; cbn; try lia; discriminate.
Defined.

Lemma path_file_name_correct_witness :
  cstr demo_path 105 [47; 98; 105; 110] /\
  ((exists dir name, [47; 98; 105; 110] = dir ++ 47 :: name /\ no_slash name /\
     path_file_name demo_path 105 = Ok (105 + Z.of_nat (length dir) + 1) /\
     cstr demo_path (105 + Z.of_nat (length dir) + 1) name) \/
   (no_slash [47; 98; 105; 110] /\ path_file_name demo_path 105 =
      match demo_path !! (105 - 1) with Some _ => Ok 105 | None => Ub end)).
Proof.
  assert (cstr demo_path 105 [47; 98; 105; 110]) as H by (cbn; repeat split; discriminate).
  split; [exact H|].
  exact (path_file_name_correct demo_path 105 [47; 98; 105; 110] H ltac:(discriminate) ltac:(cbn; lia)).
Defined.
