(* ===== verification/Plic.v ===== *)
(** The platform interrupt controller: src/src/plic.c (supervisor contexts) and
    src/sbi/src/plic.c (machine contexts), which differ in the mode only.

    The controller's registers are 32-bit words at physical addresses. A register that
    was never written reads as 0. *)
From S2P Require Import Prelude.

Definition PLIC_BASE : Z := 0x0c000000.
Definition PLIC_PRIORITY_BASE : Z := 0x4.
Definition PLIC_ENABLE_BASE : Z := 0x2000.
Definition PLIC_ENABLE_STRIDE : Z := 0x80.
Definition PLIC_CONTEXT_BASE : Z := 0x200000.
Definition PLIC_CONTEXT_STRIDE : Z := 0x1000.

Definition PLIC_MODE_MACHINE : Z := 0.
Definition PLIC_MODE_SUPERVISOR : Z := 1.

Definition PLIC_PRIORITY (interrupt : Z) : Z := PLIC_BASE + PLIC_PRIORITY_BASE * interrupt.
Definition PLIC_THRESHOLD (hart mode : Z) : Z :=
  PLIC_BASE + PLIC_CONTEXT_BASE + PLIC_CONTEXT_STRIDE * (2 * hart + mode).
Definition PLIC_CLAIM (hart mode : Z) : Z := PLIC_THRESHOLD hart mode + 4.
Definition PLIC_ENABLE (hart mode : Z) : Z :=
  PLIC_BASE + PLIC_ENABLE_BASE + PLIC_ENABLE_STRIDE * (2 * hart + mode).

Definition PLIC_PCI_INTA : Z := 32.
Definition PLIC_PCI_INTB : Z := 33.
Definition PLIC_PCI_INTC : Z := 34.
Definition PLIC_PCI_INTD : Z := 35.

Abbreviation plic := (gmap Z Z).

Definition rd (p : plic) (a : Z) : Z := default 0 (p !! a).
Definition wr (p : plic) (a v : Z) : plic := <[a := u32 v]> p.

Section plic.
Context (mode : Z).

Definition plic_set_priority (p : plic) (interrupt_id priority : Z) : plic :=
  wr p (PLIC_PRIORITY interrupt_id) (Z.land priority 0x7).

Definition plic_set_threshold (p : plic) (hart priority : Z) : plic :=
  wr p (PLIC_THRESHOLD hart mode) (Z.land priority 0x7).

(** [&base[interrupt_id / 32]] *)
Definition enable_word (hart interrupt_id : Z) : Z :=
  PLIC_ENABLE hart mode + 4 * Z.quot interrupt_id 32.

Definition plic_enable (p : plic) (hart interrupt_id : Z) : plic :=
  let a := enable_word hart interrupt_id in
  wr p a (Z.lor (rd p a) (Z.shiftl 1 (Z.rem interrupt_id 32))).

Definition plic_disable (p : plic) (hart interrupt_id : Z) : plic :=
  let a := enable_word hart interrupt_id in
  wr p a (Z.land (rd p a) (u64 (Z.lnot (Z.shiftl 1 (Z.rem interrupt_id 32))))).

(** Reading the claim register is a transaction with the device: what it returns is
    the argument of [plic_handle_irq]. *)
Definition plic_complete (p : plic) (hart id : Z) : plic := wr p (PLIC_CLAIM hart mode) id.

End plic.

(** [plic_init] of the kernel. *)
Definition plic_init (p : plic) : plic :=
  let en := plic_enable PLIC_MODE_SUPERVISOR in
  let p := en p 0 PLIC_PCI_INTA in
  let p := en p 0 PLIC_PCI_INTB in
  let p := en p 0 PLIC_PCI_INTC in
  let p := en p 0 PLIC_PCI_INTD in
  let p := plic_set_threshold PLIC_MODE_SUPERVISOR p 0 1 in
  let p := plic_set_priority p PLIC_PCI_INTA 3 in
  let p := plic_set_priority p PLIC_PCI_INTB 3 in
  let p := plic_set_priority p PLIC_PCI_INTC 3 in
  plic_set_priority p PLIC_PCI_INTD 3.

(** ** The enable bits *)

(** Whether interrupt [id] is enabled for the context [2 * hart + mode]. *)
Definition enabled (p : plic) (mode hart id : Z) : bool :=
  Z.testbit (rd p (enable_word mode hart id)) (id mod 32).

Lemma rd_wr p a v b : rd (wr p a v) b = if decide (a = b) then u32 v else rd p b.
Proof.
  unfold rd, wr. destruct (decide (a = b)) as [->|]; [by rewrite lookup_insert_eq|].
  by rewrite lookup_insert_ne.
Qed.

(** The enable words of different contexts are disjoint. *)
Lemma enable_word_inj mode hart id mode' hart' id' :
  0 <= mode < 2 -> 0 <= mode' < 2 -> 0 <= id < 1024 -> 0 <= id' < 1024 ->
  enable_word mode hart id = enable_word mode' hart' id' ->
  mode = mode' /\ hart = hart' /\ id / 32 = id' / 32.
Proof.
  intros Hm Hm' Hi Hi'. unfold enable_word, PLIC_ENABLE, PLIC_ENABLE_STRIDE.
  rewrite !Z.quot_div_nonneg by lia. intros. dlia.
Qed.

(** plic_enable and plic_disable change the enable bit of the given hart and interrupt
    and no other bit of any hart, mode or interrupt, and change no register outside the
    enable words. *)
Theorem plic_enable_correct p mode hart id mode' hart' id' :
  0 <= mode < 2 -> 0 <= hart -> 0 <= id < 1024 ->
  0 <= mode' < 2 -> 0 <= hart' -> 0 <= id' < 1024 ->
  enabled (plic_enable mode p hart id) mode' hart' id' =
    (bool_decide ((mode, hart, id) = (mode', hart', id')) || enabled p mode' hart' id') /\
  enabled (plic_disable mode p hart id) mode' hart' id' =
    (negb (bool_decide ((mode, hart, id) = (mode', hart', id'))) && enabled p mode' hart' id') /\
  (forall a, a <> enable_word mode hart id ->
     rd (plic_enable mode p hart id) a = rd p a /\ rd (plic_disable mode p hart id) a = rd p a).
Proof.
  intros Hm Hh Hi Hm' Hh' Hi'. unfold enabled, plic_enable, plic_disable. rewrite !rd_wr.
  pose proof (Z.mod_pos_bound id' 32). rewrite !Z.rem_mod_nonneg by lia.
  pose proof (Z.mod_pos_bound id 32).
  split; [|split].
  3: { intros a Ha. by rewrite !rd_wr, !decide_False by congruence. }
  all: destruct (decide _) as [E|E];
    [|rewrite bool_decide_false by (intros [= -> -> ->]; done); done].
  all: apply enable_word_inj in E as E'; try done; destruct E' as (-> & -> & Eq);
    rewrite u32_testbit by lia; rewrite E.
  - rewrite Z.lor_spec, one_bit by lia. rewrite orb_comm. f_equal.
    apply bool_decide_ext. split; [intros; repeat f_equal; dlia|congruence].
  - rewrite Z.land_spec. unfold u64. rewrite Z.mod_pow2_bits_low by lia.
    rewrite Z.lnot_spec, one_bit, andb_comm by lia. do 2 f_equal.
    apply bool_decide_ext. split; [intros; repeat f_equal; dlia|congruence].
Qed.

Lemma plic_enable_correct_witness :
  0 <= 1 < 2 /\
  (enabled (plic_enable 1 ∅ 0 33) 1 0 33 =
     (bool_decide ((1, 0, 33) = (1, 0, 33)) || enabled ∅ 1 0 33) /\
   enabled (plic_disable 1 ∅ 0 33) 1 0 33 =
     (negb (bool_decide ((1, 0, 33) = (1, 0, 33))) && enabled ∅ 1 0 33) /\
   (forall a, a <> enable_word 1 0 33 ->
      rd (plic_enable 1 ∅ 0 33) a = rd ∅ a /\ rd (plic_disable 1 ∅ 0 33) a = rd ∅ a)).
Proof. split; [lia|]. apply (plic_enable_correct ∅ 1 0 33 1 0 33); lia. Defined.

(** After [plic_init] hart 0 hears the four PCI interrupts in supervisor mode. *)
Example plic_init_enables :
  forallb (enabled (plic_init ∅) PLIC_MODE_SUPERVISOR 0) [32; 33; 34; 35] = true /\
  rd (plic_init ∅) (PLIC_THRESHOLD 0 PLIC_MODE_SUPERVISOR) = 1 /\
  rd (plic_init ∅) (PLIC_PRIORITY PLIC_PCI_INTD) = 3.
Proof. vm_compute. done. Qed.
