(* ===== verification/Sbi.v ===== *)
(** The machine-mode monitor, src/sbi: boot (main.c), hart control (hart.c), the core
    local interruptor (clint.c), supervisor calls (svcall.c) and the trap entry
    (ctrap.c), over the UART of [Ring] and the interrupt controller of [Plic].

    What belongs to one hart is a [Hart]: its entry of [sbi_hart_data] and of
    [sbi_hart_lock], its msip and mtimecmp registers, its control registers and the
    frame its general registers are saved in. What the environment supplies to one
    trap (time, clock, claimed interrupt) is an [Env]. A handler leaves by returning,
    by [MRET], by parking in [WFI_LOOP] or with the machine off. The messages of printf are
    not modelled. *)
From S2P Require Import Prelude Mem Lock Ring Plic.

Definition MAX_ALLOWABLE_HARTS : Z := 8.
Definition CLINT_MTIMECMP_INFINITE : Z := 0x7FFFFFFFFFFFFFFF.

Inductive HartStatus := HS_INVALID | HS_STOPPED | HS_STARTING | HS_STARTED.

#[export] Instance HartStatus_eq_dec : EqDecision HartStatus.
Proof. solve_decision. Defined.

Definition status_code (s : HartStatus) : Z :=
  match s with HS_INVALID => 0 | HS_STOPPED => 1 | HS_STARTING => 2 | HS_STARTED => 3 end.

Inductive HartPrivMode := HPM_USER | HPM_SUPERVISOR | HPM_HYPERVISOR | HPM_MACHINE.

Record HartData := mkData {
  status : HartStatus;
  priv_mode : HartPrivMode;
  target_address : Z;
  scratch : Z;
  satp_ : Z
}.

Inductive Csr :=
  | mepc | mstatus | mie | mip | mideleg | medeleg | mtvec | mscratch
  | sscratch | satp | stvec | sepc | pmpaddr0 | pmpcfg0.

#[export] Instance Csr_eq_dec : EqDecision Csr.
Proof. solve_decision. Defined.

Record Hart := mkHart {
  data : HartData;
  lock : Mutex;
  msip : Z;
  mtimecmp : Z;
  csr : Csr -> Z;
  regs : list Z
}.

Definition set_data (d : HartData) (h : Hart) : Hart :=
  mkHart d (lock h) (msip h) (mtimecmp h) (csr h) (regs h).
Definition set_lock (l : Mutex) (h : Hart) : Hart :=
  mkHart (data h) l (msip h) (mtimecmp h) (csr h) (regs h).
Definition set_msip (v : Z) (h : Hart) : Hart :=
  mkHart (data h) (lock h) v (mtimecmp h) (csr h) (regs h).
Definition set_mtimecmp (v : Z) (h : Hart) : Hart :=
  mkHart (data h) (lock h) (msip h) v (csr h) (regs h).
Definition set_regs (r : list Z) (h : Hart) : Hart :=
  mkHart (data h) (lock h) (msip h) (mtimecmp h) (csr h) r.

(** [CSR_WRITE(c, v)] for a list of registers, first one first. *)
Definition csr_writes (ws : list (Csr * Z)) (h : Hart) : Hart :=
  mkHart (data h) (lock h) (msip h) (mtimecmp h)
    (fold_left (fun f w c => if decide (c = fst w) then snd w else f c) ws (csr h)) (regs h).

Record Sbi := mkSbi {
  harts : list Hart;
  uart_ : uart;
  fifo : list Z;         (* bytes waiting in the receiver *)
  uart_out : list Z;     (* bytes sent, last one first *)
  plic_ : plic;
  test_device : list Z   (* writes to the test device at 0x10_0000 *)
}.

Record Env := mkEnv { rdtime : Z; rtc_low : Z; rtc_high : Z; claim : Z }.

Definition get_hart (st : Sbi) (hart : Z) : res Hart :=
  if hart <? 0 then Ub else deref (harts st !! Z.to_nat hart).

Definition upd_hart (st : Sbi) (hart : Z) (f : Hart -> Hart) : res Sbi :=
  let* h := get_hart st hart in
  Ok (mkSbi (<[Z.to_nat hart := f h]> (harts st)) (uart_ st) (fifo st) (uart_out st) (plic_ st)
            (test_device st)).

(** ** clint.c *)

Definition clint_set_msip (st : Sbi) (hart : Z) : res Sbi :=
  if hart >=? MAX_ALLOWABLE_HARTS then Ok st else upd_hart st hart (set_msip 1).

Definition clint_clear_msip (st : Sbi) (hart : Z) : res Sbi :=
  if hart >=? MAX_ALLOWABLE_HARTS then Ok st else upd_hart st hart (set_msip 0).

Definition clint_set_mtimecmp (st : Sbi) (hart val : Z) : res Sbi :=
  if hart >=? MAX_ALLOWABLE_HARTS then Ok st else upd_hart st hart (set_mtimecmp val).

Definition clint_get_time (e : Env) : Z := rdtime e.

Definition clint_add_mtimecmp (e : Env) (st : Sbi) (hart val : Z) : res Sbi :=
  clint_set_mtimecmp st hart (u64 (clint_get_time e + val)).

Definition rtc_get_time (e : Env) : Z := Z.lor (Z.shiftl (rtc_high e) 32) (rtc_low e).

(** ** hart.c *)

(** [PoweredOff]: the store to the test device ends the machine, nothing runs after it. *)
Inductive Exit := Returns | Mret | WfiLoop | PoweredOff.

Definition MSTATUS_MPP_MACHINE : Z := Z.shiftl 3 11.
Definition MSTATUS_MPP_SUPERVISOR : Z := Z.shiftl 1 11.
Definition MSTATUS_MPIE : Z := Z.shiftl 1 7.
Definition MSTATUS_FS_INITIAL : Z := Z.shiftl 1 13.
Definition MIE_MEIE : Z := Z.shiftl 1 11.
Definition MIE_MTIE : Z := Z.shiftl 1 7.
Definition MIE_MSIE : Z := Z.shiftl 1 3.
Definition SIP_SEIP : Z := Z.shiftl 1 9.
Definition SIP_STIP : Z := Z.shiftl 1 5.
Definition SIP_SSIP : Z := Z.shiftl 1 1.
Definition MEDELEG_ALL : Z := 0xB1F7.

(** The disjunction of some flags. *)
Definition flags (l : list Z) : Z := fold_right Z.lor 0 l.

Definition hart_get_status (st : Sbi) (hart : Z) : res HartStatus :=
  if hart >=? MAX_ALLOWABLE_HARTS then Ok HS_INVALID
  else let* h := get_hart st hart in Ok (status (data h)).

Definition hart_start (st : Sbi) (hart target scr satp : Z) : res (bool * Sbi) :=
  if hart >=? MAX_ALLOWABLE_HARTS then Ok (false, st)
  else
    let* h := get_hart st hart in
    let '(got, l) := mutex_trylock (lock h) in
    let* st := upd_hart st hart (set_lock l) in
    if negb got then Ok (false, st)
    else
      let* r := if decide (status (data h) <> HS_STOPPED) then Ok (false, st)
                else
                  let* st := upd_hart st hart
                    (set_data (mkData HS_STARTING (priv_mode (data h)) target scr satp)) in
                  let* st := clint_set_msip st hart in Ok (true, st) in
      let '(ret, st) := r in
      let* st := upd_hart st hart (fun h => set_lock (mutex_unlock (lock h)) h) in
      Ok (ret, st).

(** [park] is the address of the wait loop of asm/start.S. [MRET] leaves the handler. *)
Definition hart_stop (park : Z) (st : Sbi) (hart : Z) : res (Exit * bool * Sbi) :=
  if hart >=? MAX_ALLOWABLE_HARTS then Ok (Returns, false, st)
  else
    let* h := get_hart st hart in
    let '(got, l) := mutex_trylock (lock h) in
    let* st := upd_hart st hart (set_lock l) in
    if negb got then Ok (Returns, false, st)
    else if decide (status (data h) <> HS_STARTED) then
      let* st := upd_hart st hart (fun h => set_lock (mutex_unlock (lock h)) h) in
      Ok (Returns, false, st)
    else
      let d := data h in
      let* st := upd_hart st hart
        (set_data (mkData HS_STOPPED (priv_mode d) (target_address d) (scratch d) (satp_ d))) in
      let* st := upd_hart st hart (csr_writes
        [(mepc, park); (mstatus, flags [MSTATUS_MPP_MACHINE; MSTATUS_MPIE]);
         (mie, flags [MIE_MSIE; if hart =? 0 then MIE_MEIE else 0]);
         (satp, 0); (sscratch, 0); (stvec, 0); (sepc, 0)]) in
      let* st := clint_set_mtimecmp st hart CLINT_MTIMECMP_INFINITE in
      let* st := upd_hart st hart (csr_writes [(mip, 0)]) in
      let* st := upd_hart st hart (fun h => set_lock (mutex_unlock (lock h)) h) in
      Ok (Mret, false, st).

Definition hart_handle_msip (st : Sbi) (hart : Z) : res (Exit * Sbi) :=
  let* h := get_hart st hart in
  let* l := mutex_spinlock (lock h) in
  let* st := upd_hart st hart (set_lock l) in
  let* st := clint_clear_msip st hart in
  let d := data h in
  let* st := if decide (status d = HS_STARTING) then
      let* st := upd_hart st hart (csr_writes
        [(mepc, target_address d);
         (mstatus, flags [MSTATUS_MPP_SUPERVISOR; MSTATUS_MPIE; MSTATUS_FS_INITIAL]);
         (mie, flags [MIE_MEIE; SIP_SSIP; SIP_STIP; MIE_MTIE]);
         (mideleg, flags [SIP_SEIP; SIP_SSIP; SIP_STIP]);
         (medeleg, MEDELEG_ALL); (sscratch, scratch d); (satp, satp_ d)]) in
      upd_hart st hart
        (set_data (mkData HS_STARTED (priv_mode d) (target_address d) (scratch d) (satp_ d)))
    else Ok st in
  let* st := upd_hart st hart (fun h => set_lock (mutex_unlock (lock h)) h) in
  Ok (Mret, st).

(** ** plic.c and svcall.c *)

Definition set_uart (st : Sbi) (u : uart) (f : list Z) : Sbi :=
  mkSbi (harts st) u f (uart_out st) (plic_ st) (test_device st).
Definition set_plic (st : Sbi) (p : plic) : Sbi :=
  mkSbi (harts st) (uart_ st) (fifo st) (uart_out st) p (test_device st).

(** The monitor's interrupt handler; IRQ 10 is the UART. *)
Definition plic_handle_irq (e : Env) (st : Sbi) (hart : Z) : res Sbi :=
  let irq := s32 (claim e) in
  let* st := if irq =? 10 then
               let* r := uart_handle_irq (uart_ st) (fifo st) in Ok (set_uart st (fst r) (snd r))
             else Ok st in
  Ok (set_plic st (plic_complete PLIC_MODE_MACHINE (plic_ st) hart irq)).

(** [uart_put]: the byte goes out once the transmitter is empty. *)
Definition uart_put (st : Sbi) (c : Z) : Sbi :=
  mkSbi (harts st) (uart_ st) (fifo st) (u8 c :: uart_out st) (plic_ st) (test_device st).
Definition poweroff (st : Sbi) : Sbi :=
  mkSbi (harts st) (uart_ st) (fifo st) (uart_out st) (plic_ st) (0x5555 :: test_device st).

Definition XREG_A0 : nat := 10.
Definition XREG_A7 : nat := 17.

Definition set_a0 (st : Sbi) (hart v : Z) : res Sbi :=
  upd_hart st hart (fun h => set_regs (<[XREG_A0 := u64 v]> (regs h)) h).

Definition svcall_handle (park : Z) (e : Env) (st : Sbi) (hart : Z) : res (Exit * Sbi) :=
  let* h := get_hart st hart in
  let x i := default 0 (regs h !! (XREG_A0 + i)%nat) in
  let ret v := let* st := set_a0 st hart v in Ok (Returns, st) in
  let call n := x 7%nat =? n in
  if call 1 then let* s := hart_get_status st (u32 (x 0%nat)) in ret (status_code s)
  else if call 2 then
    let* r := hart_start st (u32 (x 0%nat)) (x 1%nat) (x 2%nat) (x 3%nat) in
    let* st := set_a0 (snd r) hart (Z.b2z (fst r)) in Ok (Returns, st)
  else if call 3 then
    let* r := hart_stop park st (u32 hart) in
    let '(ex, b, st) := r in
    match ex with
    | Returns => let* st := set_a0 st hart (Z.b2z b) in Ok (Returns, st)
    | _ => Ok (ex, st)
    end
  else if call 4 then ret (clint_get_time e)
  else if call 5 then
    let* st := clint_set_mtimecmp st (u32 (x 0%nat)) (x 1%nat) in Ok (Returns, st)
  else if call 6 then
    let* st := clint_add_mtimecmp e st (u32 (x 0%nat)) (x 1%nat) in Ok (Returns, st)
  else if call 7 then
    let* st := upd_hart st hart (fun h =>
      csr_writes [(mip, Z.land (csr h mip) (u64 (Z.lnot SIP_STIP)))] h) in
    Ok (Returns, st)
  else if call 8 then ret (rtc_get_time e)
  else if call 9 then Ok (Returns, uart_put st (x 0%nat))
  else if call 11 then ret hart
  else if call 10 then
    let* r := uart_ring_pop (uart_ st) in
    let* st := set_a0 (set_uart st (snd r) (fifo st)) hart (fst r) in Ok (Returns, st)
  else if call 12 then Ok (PoweredOff, poweroff st)
  else Ok (Returns, st).

(** ** ctrap.c *)

Definition MCAUSE_IS_ASYNC (x : Z) : bool := negb (Z.land (Z.shiftr x 63) 1 =? 0).
Definition MCAUSE_NUM (x : Z) : Z := Z.land x 0xff.

Definition CAUSE_MSIP : Z := 3.
Definition CAUSE_MTIP : Z := 7.
Definition CAUSE_MEIP : Z := 11.
Definition CAUSE_ECALL_S_MODE : Z := 9.

Definition c_trap_handler (park : Z) (e : Env) (st : Sbi) (hart mcause : Z)
    : res (Exit * Sbi) :=
  let* h := get_hart st hart in
  let epc := csr h mepc in
  if MCAUSE_IS_ASYNC mcause then
    if MCAUSE_NUM mcause =? CAUSE_MSIP then hart_handle_msip st hart
    else if MCAUSE_NUM mcause =? CAUSE_MTIP then
      let* st := upd_hart st hart (csr_writes [(mip, SIP_STIP)]) in
      let* st := clint_set_mtimecmp st hart CLINT_MTIMECMP_INFINITE in Ok (Returns, st)
    else if MCAUSE_NUM mcause =? CAUSE_MEIP then
      let* st := plic_handle_irq e st hart in Ok (Returns, st)
    else Ok (Returns, st)
  else
    if MCAUSE_NUM mcause =? CAUSE_ECALL_S_MODE then
      let* r := svcall_handle park e st hart in
      let '(ex, st) := r in
      match ex with
      | Returns => let* st := upd_hart st hart (csr_writes [(mepc, u64 (epc + 4))]) in
                   Ok (Returns, st)
      | _ => Ok (ex, st)
      end
    else Ok (WfiLoop, st).

(** ** main.c *)

Definition OS_TARGET_START : Z := 0x80010000.
Definition OS_TARGET_END : Z := 0x80FFFFF0.
Definition OS_TARGET_MAGIC : Z := 0xDEAD0BEEF1CAFE22.
Definition OS_TARGET_ALIGNMENT : Z := 8.

Definition find_os_addr (m : mem) : res Z :=
  loop (Z.to_nat ((OS_TARGET_END - OS_TARGET_START) / OS_TARGET_ALIGNMENT + 2))
    (fun s => if s <=? OS_TARGET_END then
                let* magic := ld64 m s in
                if magic =? OS_TARGET_MAGIC then let* a := ld64 m (s + 8) in Ok (Done a)
                else Ok (Next (s + OS_TARGET_ALIGNMENT))
              else Ok (Done 0)) OS_TARGET_START.

(** The addresses the boot code takes: the wait loop, the trap vector and the frames. *)
Record Symbols := mkSymbols { park_ : Z; sbi_trap_vector : Z; SBI_GPREGS : Z }.

(** The machine-level plic_init: IRQ 10 for hart 0. *)
Definition sbi_plic_init (p : plic) : plic :=
  let p := plic_enable PLIC_MODE_MACHINE p 0 10 in
  let p := plic_set_priority p 10 7 in
  plic_set_threshold PLIC_MODE_MACHINE p 0 0.

Definition pmp_init (h : Hart) : Hart :=
  csr_writes [(pmpaddr0, Z.shiftr 0xffffffff 2); (pmpcfg0, flags [8; 4; 2; 1])] h.

(** The first part of [main], for every hart but 0, once [hart0lock] is released. *)
Definition main_park (y : Symbols) (st : Sbi) (hart : Z) : res Sbi :=
  let set h :=
    csr_writes [(mepc, park_ y); (mideleg, 0); (medeleg, 0); (mie, MIE_MSIE);
                (mstatus, flags [MSTATUS_FS_INITIAL; MSTATUS_MPP_MACHINE; MSTATUS_MPIE]);
                (mtvec, sbi_trap_vector y)] h in
  let init h :=
    if hart <? MAX_ALLOWABLE_HARTS then
      csr_writes [(mscratch, SBI_GPREGS y + 256 * hart); (sscratch, hart)]
        (set_data (mkData HS_STOPPED HPM_MACHINE 0 (scratch (data h)) (satp_ (data h))) h)
    else h in
  upd_hart st hart (fun h => set (init (pmp_init h))).

(** The rest of [main], for hart 0: [None] when no operating system was found and the
    hart waits forever. The UART set-up and clear_bss are not modelled. *)
Definition main_boot (y : Symbols) (m : mem) (st : Sbi) : res (option Sbi) :=
  let* os_addr := find_os_addr m in
  if os_addr =? 0 then Ok None
  else
    let st := set_plic st (sbi_plic_init (plic_ st)) in
    let* st := upd_hart st 0 (fun h =>
      csr_writes [(mscratch, SBI_GPREGS y); (sscratch, 0); (mepc, os_addr);
                  (mtvec, sbi_trap_vector y); (mie, flags [MIE_MEIE; MIE_MTIE; MIE_MSIE]);
                  (mideleg, flags [SIP_SEIP; SIP_STIP; SIP_SSIP]); (medeleg, MEDELEG_ALL);
                  (mstatus, flags [MSTATUS_FS_INITIAL; MSTATUS_MPP_SUPERVISOR; MSTATUS_MPIE])]
        (set_data (mkData HS_STARTED HPM_MACHINE 0 (scratch (data h)) (satp_ (data h)))
           (pmp_init h))) in
    Ok (Some st).

(** ** Replacing one hart *)

Definition put (st : Sbi) (i : Z) (h : Hart) : Sbi :=
  mkSbi (<[Z.to_nat i := h]> (harts st)) (uart_ st) (fifo st) (uart_out st) (plic_ st)
        (test_device st).

Lemma get_hart_Some st i h : get_hart st i = Ok h <-> 0 <= i /\ harts st !! Z.to_nat i = Some h.
Proof.
  unfold get_hart. destruct (Z.ltb_spec i 0); [split; [done|lia]|].
  destruct (harts st !! Z.to_nat i); cbn; split; try done.
  - intros [= ->]. split; [lia|done].
  - by intros [_ [= ->]].
  - by intros [_ ?].
Qed.

Lemma upd_hart_ok st i h f : get_hart st i = Ok h -> upd_hart st i f = Ok (put st i (f h)).
Proof. intros E. unfold upd_hart. by rewrite E. Qed.

Lemma get_put_eq st i h h' : get_hart st i = Ok h -> get_hart (put st i h') i = Ok h'.
Proof.
  rewrite !get_hart_Some. intros [Hi E]. split; [done|]. cbn [harts put].
  apply list_lookup_insert_eq. by apply lookup_lt_Some in E.
Qed.

Lemma get_put_ne st i j h : 0 <= i -> i <> j -> get_hart (put st i h) j = get_hart st j.
Proof.
  intros Hi Hne. unfold get_hart. destruct (Z.ltb_spec j 0); [done|]. cbn [harts put].
  rewrite list_lookup_insert_ne by lia. done.
Qed.

Lemma put_put st i h h' : put (put st i h) i h' = put st i h'.
Proof. unfold put; cbn. by rewrite list_insert_insert_eq. Qed.

Lemma upd_put st i h h1 f : get_hart st i = Ok h -> upd_hart (put st i h1) i f = Ok (put st i (f h1)).
Proof. intros E. by rewrite (upd_hart_ok _ i h1 _ (get_put_eq _ _ _ _ E)), put_put. Qed.

(** Between two traps: eight harts, their locks free, the UART ring well-formed. *)
Definition hart_ok (h : Hart) : Prop := lock h = MUTEX_UNLOCKED /\ length (regs h) = 32%nat.

Record sbi_ok (st : Sbi) : Prop := mkSbiOk {
  so_harts : length (harts st) = Z.to_nat MAX_ALLOWABLE_HARTS;
  so_each : Forall hart_ok (harts st);
  so_uart : uart_ok (uart_ st)
}.

Lemma sbi_get st i : sbi_ok st -> 0 <= i < MAX_ALLOWABLE_HARTS ->
  exists h, get_hart st i = Ok h /\ hart_ok h.
Proof.
  intros [Hl Hf _] Hi. destruct (lookup_lt_is_Some_2 (harts st) (Z.to_nat i)) as [h E]; [lia|].
  exists h. split; [apply get_hart_Some; split; [lia|done]|]. by eapply Forall_lookup_1.
Qed.

Lemma sbi_get_ok st i h : sbi_ok st -> get_hart st i = Ok h ->
  hart_ok h /\ 0 <= i < MAX_ALLOWABLE_HARTS.
Proof.
  intros [Hl Hf _] [Hi E]%get_hart_Some. split; [by eapply Forall_lookup_1|].
  apply lookup_lt_Some in E. lia.
Qed.

Lemma sbi_put_ok st i h : sbi_ok st -> hart_ok h -> sbi_ok (put st i h).
Proof.
  intros [Hl Hf Hu] Hh. split; [by cbn; rewrite length_insert| |done]. by apply Forall_insert.
Qed.

(** ** The start protocol

    What a trap asks of the protocol: the software interrupt of the hart, a call that
    starts hart [i], or a call that stops the caller; anything else asks nothing. *)
Inductive Request := RNone | RMsi | RStart (i t s p : Z) | RStop.

Definition svcall_request (regs : list Z) : Request :=
  let x i := default 0 (regs !! (XREG_A0 + i)%nat) in
  if x 7%nat =? 2 then RStart (u32 (x 0%nat)) (x 1%nat) (x 2%nat) (x 3%nat)
  else if x 7%nat =? 3 then RStop else RNone.

Definition request (mcause : Z) (regs : list Z) : Request :=
  if MCAUSE_IS_ASYNC mcause then if MCAUSE_NUM mcause =? CAUSE_MSIP then RMsi else RNone
  else if MCAUSE_NUM mcause =? CAUSE_ECALL_S_MODE then svcall_request regs else RNone.

(** The request of hart [me] is one that moves hart [j] in the state [h]. *)
Definition moves (me : Z) (r : Request) (j : Z) (h : Hart) : Prop :=
  match r with
  | RNone => False
  | RMsi => j = me
  | RStart i _ _ _ => j = i /\ status (data h) = HS_STOPPED
  | RStop => j = me /\ status (data h) = HS_STARTED
  end.

(** What request [r] of hart [me] makes of hart [j]. *)
Inductive hart_step (park me : Z) (r : Request) (j : Z) (h h' : Hart) : Prop :=
| hs_quiet : ~ moves me r j h -> data h' = data h -> msip h' = msip h -> hart_step park me r j h h'
| hs_start t s p :
    r = RStart j t s p -> status (data h) = HS_STOPPED ->
    data h' = mkData HS_STARTING (priv_mode (data h)) t s p -> msip h' = 1 ->
    hart_step park me r j h h'
| hs_stop :
    r = RStop -> j = me -> status (data h) = HS_STARTED -> msip h' = msip h ->
    data h' = mkData HS_STOPPED (priv_mode (data h)) (target_address (data h))
                     (scratch (data h)) (satp_ (data h)) ->
    csr h' mepc = park -> csr h' mie = flags [MIE_MSIE; if j =? 0 then MIE_MEIE else 0] ->
    csr h' satp = 0 -> mtimecmp h' = CLINT_MTIMECMP_INFINITE ->
    hart_step park me r j h h'
| hs_awake :
    r = RMsi -> j = me -> status (data h) = HS_STARTING -> msip h' = 0 ->
    data h' = mkData HS_STARTED (priv_mode (data h)) (target_address (data h))
                     (scratch (data h)) (satp_ (data h)) ->
    csr h' mepc = target_address (data h) -> csr h' sscratch = scratch (data h) ->
    csr h' satp = satp_ (data h) ->
    csr h' mstatus = flags [MSTATUS_MPP_SUPERVISOR; MSTATUS_MPIE; MSTATUS_FS_INITIAL] ->
    hart_step park me r j h h'
| hs_ignored :
    r = RMsi -> j = me -> status (data h) <> HS_STARTING -> msip h' = 0 ->
    data h' = data h -> hart_step park me r j h h'.

(** Every hart makes the step of the request; the registers of the others stay. *)
Definition evolves (park me : Z) (r : Request) (st st' : Sbi) : Prop :=
  forall j h, get_hart st j = Ok h -> exists h', get_hart st' j = Ok h' /\
    hart_step park me r j h h' /\ (j <> me -> csr h' = csr h /\ regs h' = regs h).

Lemma hart_step_from park me r j h h1 h' : data h1 = data h -> msip h1 = msip h ->
  hart_step park me r j h1 h' -> hart_step park me r j h h'.
Proof.
  intros Ed Em Hs. assert (moves me r j h <-> moves me r j h1) as Emv by (unfold moves; by rewrite Ed).
  destruct Hs as [H| | | |]; rewrite ?Ed, ?Em in *.
  - apply hs_quiet; [by rewrite Emv | done | done].
  - by eapply hs_start.
  - by apply hs_stop.
  - by apply hs_awake.
  - by apply hs_ignored.
Qed.

Lemma evolves_same park me r st st' : harts st' = harts st ->
  (forall j h, get_hart st j = Ok h -> ~ moves me r j h) -> evolves park me r st st'.
Proof.
  intros E Hno j h Hj. exists h. split; [by rewrite get_hart_Some, E, <- get_hart_Some|].
  split; [|done]. apply hs_quiet; [by apply Hno | done | done].
Qed.

(** One hart is replaced, the one the request moves or, when it moves none, any. *)
Lemma evolves_put park me r st i h h' : get_hart st i = Ok h -> hart_step park me r i h h' ->
  (i <> me -> csr h' = csr h /\ regs h' = regs h) ->
  (forall j hj, j <> i -> get_hart st j = Ok hj -> ~ moves me r j hj) ->
  evolves park me r st (put st i h').
Proof.
  intros Hi Hs Hr Hno j hj Hj. destruct (decide (i = j)) as [->|Hne].
  - exists h'. split; [by eapply get_put_eq|]. by rewrite Hi in Hj; injection Hj as <-.
  - exists hj. apply get_hart_Some in Hi as [H0 _]. rewrite get_put_ne by done.
    split; [done|]. split; [|done]. apply hs_quiet; [|done | done]. by eapply Hno.
Qed.

(** A later write of the caller's own registers does not matter, if it goes on. *)
Lemma evolves_quiet park me r st st1 h1 h' : evolves park me r st st1 -> get_hart st1 me = Ok h1 ->
  r <> RMsi -> (r = RStop -> forall h, get_hart st me = Ok h -> status (data h) <> HS_STARTED) ->
  data h' = data h1 -> msip h' = msip h1 -> evolves park me r st (put st1 me h').
Proof.
  intros He Hi Hm Hstop Ed Em j hj Hj. destruct (He j hj Hj) as (h2 & H2 & Hs & Ho).
  destruct (decide (me = j)) as [->|Hne].
  - exists h'. split; [by eapply get_put_eq|]. split; [|done]. rewrite Hi in H2. injection H2 as <-.
    destruct Hs; try done.
    + apply hs_quiet; [done | congruence | congruence].
    + eapply hs_start; [eassumption | done | rewrite Ed; eassumption | congruence].
    + by destruct (Hstop ltac:(done) hj Hj).
  - exists h2. apply get_hart_Some in Hi as [H0 _]. by rewrite get_put_ne by done.
Qed.

(** ** Each operation *)

Lemma set_lock_same h l : lock h = l -> set_lock l h = h.
Proof. intros <-. by destruct h. Qed.

Lemma hart_start_spec st i t s p : sbi_ok st -> 0 <= i ->
  exists b st', hart_start st i t s p = Ok (b, st') /\ sbi_ok st' /\
    (b = true -> exists h h', get_hart st i = Ok h /\ get_hart st' i = Ok h' /\
       data h' = mkData HS_STARTING (priv_mode (data h)) t s p) /\
    forall park me, evolves park me (RStart i t s p) st st'.
Proof.
  intros Hok Hi. unfold hart_start. destruct (Z.geb_spec i MAX_ALLOWABLE_HARTS) as [Hge|Hlt].
  { exists false, st. split; [done|]. split; [done|]. split; [done|]. intros park me.
    apply evolves_same; [done|]. intros j h Hj [-> _]. apply (sbi_get_ok _ _ _ Hok) in Hj as [_ ?]. lia. }
  destruct (sbi_get st i Hok) as (h & Hh & Hl & Hr); [lia|]. rewrite Hh. cbn [res_bind].
  rewrite Hl. change (mutex_trylock MUTEX_UNLOCKED) with (true, MUTEX_LOCKED). cbv beta iota.
  rewrite (upd_hart_ok st i h _ Hh). cbn [res_bind negb].
  destruct (decide (status (data h) <> HS_STOPPED)) as [Hs|Hs]; cbn [res_bind].
  - rewrite (upd_put st i h _ _ Hh). cbn [res_bind]. eexists false, _. split; [done|].
    split; [by apply sbi_put_ok|]. split; [done|].
    intros park me. apply (evolves_put _ _ _ st i h); [done | | done | by intros j hj Hne _ [? _]].
    apply hs_quiet; [by intros [_ ?] | done | done].
  - rewrite (upd_put st i h _ _ Hh). cbn [res_bind]. unfold clint_set_msip.
    replace (i >=? MAX_ALLOWABLE_HARTS) with false by lia.
    rewrite (upd_put st i h _ _ Hh). cbn [res_bind]. rewrite (upd_put st i h _ _ Hh).
    cbn [res_bind]. eexists true, _. split; [done|]. split; [by apply sbi_put_ok|].
    split.
    + intros _. exists h. eexists. split; [done|]. split; [by eapply get_put_eq|done].
    + intros park me. apply (evolves_put _ _ _ st i h); [done | | done | by intros j hj Hne _ [? _]].
      apply dec_stable in Hs. by eapply hs_start.
Qed.

Lemma hart_stop_spec park st i : sbi_ok st -> 0 <= i ->
  exists ex st', hart_stop park st i = Ok (ex, false, st') /\ sbi_ok st' /\ evolves park i RStop st st' /\
    (ex = Returns -> forall h, get_hart st i = Ok h -> status (data h) <> HS_STARTED).
Proof.
  intros Hok Hi. unfold hart_stop. destruct (Z.geb_spec i MAX_ALLOWABLE_HARTS) as [Hge|Hlt].
  { assert (forall j h, get_hart st j = Ok h -> j <> i) as Hno.
    { intros j h Hj ->. apply (sbi_get_ok _ _ _ Hok) in Hj as [_ ?]. lia. }
    eexists _, st. split_and!; [done | done | |].
    - apply evolves_same; [done|]. intros j h Hj [-> _]. by eapply Hno.
    - intros _ h Hh. by destruct (Hno i h Hh). }
  destruct (sbi_get st i Hok) as (h & Hh & Hl & Hr); [lia|]. rewrite Hh. cbn [res_bind].
  rewrite Hl. change (mutex_trylock MUTEX_UNLOCKED) with (true, MUTEX_LOCKED). cbv beta iota.
  rewrite (upd_hart_ok st i h _ Hh). cbn [res_bind negb].
  destruct (decide (status (data h) <> HS_STARTED)) as [Hs|Hs].
  - rewrite (upd_put st i h _ _ Hh). cbn [res_bind]. eexists _, _. split; [done|].
    split; [by apply sbi_put_ok|]. split; [|by intros _ h0 [= <-]].
    apply (evolves_put _ _ _ st i h); [done | | done | by intros j hj Hne _ [? _]].
    apply hs_quiet; [by intros [_ ?] | done | done].
  - unfold clint_set_mtimecmp. replace (i >=? MAX_ALLOWABLE_HARTS) with false by lia.
    rewrite (upd_put st i h _ _ Hh). cbn [res_bind]. rewrite (upd_put st i h _ _ Hh).
    cbn [res_bind]. rewrite (upd_put st i h _ _ Hh). cbn [res_bind].
    rewrite (upd_put st i h _ _ Hh). cbn [res_bind]. rewrite (upd_put st i h _ _ Hh). cbn [res_bind].
    eexists _, _. split; [done|]. split; [by apply sbi_put_ok|]. split; [|done].
    apply (evolves_put _ _ _ st i h); [done | | done | by intros j hj Hne _ [? _]].
    apply dec_stable in Hs. by apply hs_stop.
Qed.

Lemma hart_handle_msip_spec st i : sbi_ok st -> 0 <= i < MAX_ALLOWABLE_HARTS ->
  exists st', hart_handle_msip st i = Ok (Mret, st') /\ sbi_ok st' /\
    (forall park, evolves park i RMsi st st') /\
    forall h, get_hart st i = Ok h -> exists h', get_hart st' i = Ok h' /\ msip h' = 0 /\
      (status (data h) = HS_STARTING -> status (data h') = HS_STARTED /\
         csr h' mepc = target_address (data h) /\ csr h' sscratch = scratch (data h) /\
         csr h' satp = satp_ (data h)).
Proof.
  intros Hok Hi. unfold hart_handle_msip.
  destruct (sbi_get st i Hok Hi) as (h & Hh & Hl & Hr). rewrite Hh. cbn [res_bind].
  rewrite Hl. change (mutex_spinlock MUTEX_UNLOCKED) with (Ok MUTEX_LOCKED). cbn [res_bind].
  rewrite (upd_hart_ok st i h _ Hh). cbn [res_bind]. unfold clint_clear_msip.
  replace (i >=? MAX_ALLOWABLE_HARTS) with false by lia.
  rewrite (upd_put st i h _ _ Hh). cbn [res_bind].
  destruct (decide (status (data h) = HS_STARTING)) as [Hs|Hs]; cbn [res_bind].
  - rewrite (upd_put st i h _ _ Hh). cbn [res_bind]. rewrite (upd_put st i h _ _ Hh).
    cbn [res_bind]. rewrite (upd_put st i h _ _ Hh). cbn [res_bind].
    eexists. split; [done|]. split; [by apply sbi_put_ok|]. split.
    + intros park. apply (evolves_put _ _ _ st i h); [done | by apply hs_awake | done | done].
    + intros h0 [= <-]. eexists. split; [by eapply get_put_eq|]. done.
  - rewrite (upd_put st i h _ _ Hh). cbn [res_bind]. eexists. split; [done|].
    split; [by apply sbi_put_ok|]. split.
    + intros park. apply (evolves_put _ _ _ st i h); [done | by apply hs_ignored | done | done].
    + intros h0 [= <-]. eexists. split; [by eapply get_put_eq|]. done.
Qed.

(** Storing the result of a call in A0 of the calling hart. *)
Lemma ret_ok park r st st1 me v : sbi_ok st1 -> 0 <= me < MAX_ALLOWABLE_HARTS ->
  evolves park me r st st1 -> r <> RMsi ->
  (r = RStop -> forall h, get_hart st me = Ok h -> status (data h) <> HS_STARTED) ->
  exists st', (let* s := set_a0 st1 me v in Ok (Returns, s)) = Ok (Returns, st') /\
    sbi_ok st' /\ evolves park me r st st'.
Proof.
  intros Hok Hm He Hr Hstop. destruct (sbi_get st1 me Hok Hm) as (h & Hh & Hl & Hr').
  unfold set_a0. rewrite (upd_hart_ok st1 me h _ Hh). cbn [res_bind]. eexists. split; [done|].
  split; [apply sbi_put_ok; [done|]; split; [done|by cbn; rewrite length_insert]|].
  by apply (evolves_quiet park me r st st1 h).
Qed.

(** A write to a device or to registers that are not start data. *)
Lemma quiet_ok park st i me f : sbi_ok st -> 0 <= i < MAX_ALLOWABLE_HARTS ->
  (forall h, hart_ok h -> hart_ok (f h)) -> (forall h, data (f h) = data h) ->
  (forall h, msip (f h) = msip h) ->
  (i <> me -> forall h, csr (f h) = csr h /\ regs (f h) = regs h) ->
  exists st', upd_hart st i f = Ok st' /\ sbi_ok st' /\ evolves park me RNone st st'.
Proof.
  intros Hok Hi Hf Hd Hm Ho. destruct (sbi_get st i Hok Hi) as (h & Hh & Hho).
  rewrite (upd_hart_ok st i h _ Hh). eexists. split; [done|].
  split; [apply sbi_put_ok; auto|].
  apply (evolves_put _ _ _ st i h); [done | by apply hs_quiet; [intros []|..] | auto | by intros ? ? ? ? []].
Qed.

Lemma set_mtimecmp_ok park st i me v : sbi_ok st -> 0 <= i ->
  exists st', clint_set_mtimecmp st i v = Ok st' /\ sbi_ok st' /\ evolves park me RNone st st'.
Proof.
  intros Hok Hi. unfold clint_set_mtimecmp. destruct (Z.geb_spec i MAX_ALLOWABLE_HARTS).
  - exists st. split; [done|]. split; [done|]. apply evolves_same; [done | by intros ? ? ? []].
  - apply quiet_ok; auto.
Qed.

Lemma same_harts_ok st st' : sbi_ok st -> harts st' = harts st -> uart_ok (uart_ st') -> sbi_ok st'.
Proof. intros [Hl Hf _] E Hu. split; [by rewrite E|by rewrite E|done]. Qed.

Lemma uart_irq_ok u f : uart_ok u -> exists u' f', uart_handle_irq u f = Ok (u', f') /\ uart_ok u'.
Proof.
  intros Hu. unfold uart_handle_irq.
  destruct (loop_total (fun '(u, f) => uart_ok u) (fun '(u, f) => length f)
    (fun '(u, f) => uart_ok u)
    (fun '(u, fifo) =>
       let '(c, rest) := uart_get fifo in
       if c =? 0xff then Ok (Done (u, rest))
       else let* u' := uart_ring_push u c in Ok (Next (u', rest)))) with (n := S (length f)) (s := (u, f))
    as ([u' f'] & E & Hu'); [| done | lia | by exists u', f'].
  intros [v g] Hv. destruct g as [|c g]; cbn [uart_get].
  - right. by eexists.
  - destruct (c =? 255); [right; by eexists|]. left.
    destruct (uart_push_spec v c Hv) as (v' & -> & Hv' & _). cbn [res_bind].
    eexists. split; [done|]. split; [done|]. cbn. lia.
Qed.

Lemma svcall_ok park e st me h : sbi_ok st -> 0 <= me < MAX_ALLOWABLE_HARTS -> get_hart st me = Ok h ->
  exists ex st', svcall_handle park e st me = Ok (ex, st') /\ sbi_ok st' /\
    evolves park me (svcall_request (regs h)) st st' /\
    (ex = Returns -> svcall_request (regs h) = RStop -> status (data h) <> HS_STARTED).
Proof.
  intros Hok Hme Hh. unfold svcall_handle, svcall_request. rewrite Hh. cbn [res_bind].
  cbv beta zeta. generalize (default 0 (regs h !! (XREG_A0 + 7)%nat)),
    (default 0 (regs h !! (XREG_A0 + 0)%nat)), (default 0 (regs h !! (XREG_A0 + 1)%nat)),
    (default 0 (regs h !! (XREG_A0 + 2)%nat)), (default 0 (regs h !! (XREG_A0 + 3)%nat)).
  intros a7 x0 x1 x2 x3. pose proof (u32_range x0) as Hx0.
  destruct (Z.eqb_spec a7 2) as [->|H2].
  { change (2 =? 1) with false. cbv beta iota.
    destruct (hart_start_spec st (u32 x0) x1 x2 x3 Hok)
      as (b & st1 & -> & Hok1 & _ & He); [lia|]. cbn [res_bind fst snd].
    destruct (ret_ok park _ st st1 me (Z.b2z b) Hok1 Hme (He park me)) as (st' & E & Ha & Hb); [done..|].
    by exists Returns, st'. }
  destruct (Z.eqb_spec a7 3) as [->|H3].
  { change (3 =? 1) with false. cbv beta iota. rewrite u32_id by (unfold MAX_ALLOWABLE_HARTS in *; lia).
    destruct (hart_stop_spec park st me Hok) as (ex & st1 & -> & Hok1 & He & Hex); [lia|].
    cbn [res_bind]. destruct ex; try (by eexists _, _; split_and!).
    assert (forall h, get_hart st me = Ok h -> status (data h) <> HS_STARTED) as Hns by (by apply Hex).
    destruct (ret_ok park RStop st st1 me (Z.b2z false) Hok1 Hme He) as (st' & E & Ha & Hb); [done..|].
    exists Returns, st'. split_and!; [done..|]. intros _ _. by apply Hns. }
  assert (evolves park me RNone st st) as Hrefl by (apply evolves_same; [done | by intros ? ? ? []]).
  assert (forall v, exists st', (let* s := set_a0 st me v in Ok (Returns, s)) = Ok (Returns, st') /\
    sbi_ok st' /\ evolves park me RNone st st') as Hret by (intros v; by apply ret_ok).
  assert (forall ex st', harts st' = harts st -> uart_ok (uart_ st') ->
    exists ex' st'', (Ok (ex, st') : res (Exit * Sbi)) = Ok (ex', st'') /\ sbi_ok st'' /\
      evolves park me RNone st st'') as Hsame.
  { intros ex st' E Hu. exists ex, st'. split; [done|]. split; [by eapply same_harts_ok|].
    apply evolves_same; [done | by intros ? ? ? []]. }
  match goal with |- exists ex st', ?c = Ok (ex, st') /\ _ =>
    assert (exists ex st', c = Ok (ex, st') /\ sbi_ok st' /\ evolves park me RNone st st') as Hrest;
      [|destruct Hrest as (ex & st' & E & H1 & H4); exists ex, st'; by split_and!] end.
  destruct (a7 =? 1).
  { assert (exists s, hart_get_status st (u32 x0) = Ok s) as [s ->].
    { unfold hart_get_status. destruct (Z.geb_spec (u32 x0) MAX_ALLOWABLE_HARTS); [by eexists|].
      destruct (sbi_get st (u32 x0) Hok) as (h1 & -> & _); [lia|]. by eexists. }
    cbn [res_bind]. destruct (Hret (status_code s)) as (st' & E & H). by exists Returns, st'. }
  destruct (a7 =? 4); [destruct (Hret (clint_get_time e)) as (st' & E & H); by exists Returns, st'|].
  destruct (a7 =? 5).
  { destruct (set_mtimecmp_ok park st (u32 x0) me x1 Hok) as (st' & -> & H); [lia|].
    by exists Returns, st'. }
  destruct (a7 =? 6).
  { destruct (set_mtimecmp_ok park st (u32 x0) me (u64 (clint_get_time e + x1)) Hok)
      as (st' & E & H); [lia|]. unfold clint_add_mtimecmp. rewrite E. by exists Returns, st'. }
  destruct (a7 =? 7).
  { destruct (quiet_ok park st me me (fun h => csr_writes
      [(mip, Z.land (csr h mip) (u64 (Z.lnot SIP_STIP)))] h) Hok Hme) as (st' & -> & H);
      [done..|]. by exists Returns, st'. }
  destruct (a7 =? 8); [destruct (Hret (rtc_get_time e)) as (st' & E & H); by exists Returns, st'|].
  destruct (a7 =? 9); [apply Hsame; [done|apply Hok]|].
  destruct (a7 =? 11); [destruct (Hret me) as (st' & E & H); by exists Returns, st'|].
  destruct (a7 =? 10).
  { destruct (uart_pop_spec (uart_ st)) as (v & u' & -> & Hu & _); [apply Hok|]. cbn [res_bind fst snd].
    destruct (ret_ok park RNone st (set_uart st u' (fifo st)) me v) as (st' & E & H);
      [|done| |done|done|by exists Returns, st'].
    - by eapply same_harts_ok.
    - apply evolves_same; [done | by intros ? ? ? []]. }
  destruct (a7 =? 12); apply Hsame; try done; apply Hok.
Qed.

Lemma trap_handler_ok park e st me mcause h :
  sbi_ok st -> 0 <= me < MAX_ALLOWABLE_HARTS -> get_hart st me = Ok h ->
  exists ex st', c_trap_handler park e st me mcause = Ok (ex, st') /\ sbi_ok st' /\
    evolves park me (request mcause (regs h)) st st'.
Proof.
  intros Hok Hme Hh. unfold c_trap_handler, request. rewrite Hh. cbn [res_bind].
  destruct (sbi_get_ok st me h Hok Hh) as [Hho _].
  destruct (MCAUSE_IS_ASYNC mcause).
  - destruct (MCAUSE_NUM mcause =? CAUSE_MSIP).
    { destruct (hart_handle_msip_spec st me Hok Hme) as (st' & E & H1 & H2 & _). by eexists _, st'. }
    destruct (MCAUSE_NUM mcause =? CAUSE_MTIP).
    { rewrite (upd_hart_ok st me h _ Hh). cbn [res_bind]. unfold clint_set_mtimecmp.
      replace (me >=? MAX_ALLOWABLE_HARTS) with false by lia.
      rewrite (upd_put st me h _ _ Hh). cbn [res_bind]. eexists _, _. split; [done|].
      split; [by apply sbi_put_ok|].
      apply (evolves_put _ _ _ st me h); [done | by apply hs_quiet; [intros []|..] | done | by intros ? ? ? ? []]. }
    destruct (MCAUSE_NUM mcause =? CAUSE_MEIP).
    { unfold plic_handle_irq. destruct (s32 (claim e) =? 10); cbn [res_bind].
      - destruct (uart_irq_ok (uart_ st) (fifo st)) as (u' & f' & -> & Hu); [apply Hok|].
        cbn [res_bind fst snd]. eexists _, _. split; [done|].
        split; [by apply (same_harts_ok st)|apply evolves_same; [done | by intros ? ? ? []]].
      - eexists _, _. split; [done|]. split; [apply (same_harts_ok st); try done; apply Hok|].
        apply evolves_same; [done | by intros ? ? ? []]. }
    eexists _, st. split; [done|]. split; [done|]. apply evolves_same; [done | by intros ? ? ? []].
  - destruct (MCAUSE_NUM mcause =? CAUSE_ECALL_S_MODE).
    + destruct (svcall_ok park e st me h Hok Hme Hh) as (ex & st1 & -> & Hok1 & He & Hex). cbn [res_bind].
      destruct ex; try (by eexists _, _).
      destruct (sbi_get st1 me Hok1 Hme) as (h1 & Hh1 & Hho1).
      rewrite (upd_hart_ok st1 me h1 _ Hh1). cbn [res_bind]. eexists _, _. split; [done|].
      split; [by apply sbi_put_ok|]. apply (evolves_quiet park me _ st st1 h1); try done.
      * unfold svcall_request. repeat case_match; discriminate.
      * intros Hr h0 Hh0. rewrite Hh in Hh0. injection Hh0 as <-. by apply Hex.
    + eexists _, st. split; [done|]. split; [done|]. apply evolves_same; [done | by intros ? ? ? []].
Qed.

(** ** Sequences of traps, on any harts *)

(** One trap: the hart, its cause, what the environment supplies, and the registers the
    hart had when it trapped. *)
Record Trap := mkTrap { t_hart : Z; t_cause : Z; t_env : Env; t_frame : list Z }.

Definition trap_step (park : Z) (st : Sbi) (t : Trap) : res Sbi :=
  let* st := upd_hart st (t_hart t) (set_regs (t_frame t)) in
  let* r := c_trap_handler park (t_env t) st (t_hart t) (t_cause t) in Ok (snd r).

Fixpoint trap_run (park : Z) (st : Sbi) (ts : list Trap) : res Sbi :=
  match ts with [] => Ok st | t :: ts' => let* st := trap_step park st t in trap_run park st ts' end.

Definition trap_ok (t : Trap) : Prop :=
  0 <= t_hart t < MAX_ALLOWABLE_HARTS /\ length (t_frame t) = 32%nat.

(** The trap is hart [i] taking its software interrupt. *)
Definition is_msi (i : Z) (t : Trap) : bool :=
  (t_hart t =? i) && (MCAUSE_IS_ASYNC (t_cause t) && (MCAUSE_NUM (t_cause t) =? CAUSE_MSIP)).

Definition starting (st : Sbi) (i t s p : Z) : Prop :=
  exists h, get_hart st i = Ok h /\ status (data h) = HS_STARTING /\
    target_address (data h) = t /\ scratch (data h) = s /\ satp_ (data h) = p.


Definition trap_request (t : Trap) : Request := request (t_cause t) (t_frame t).

Lemma trap_step_evolves park st t : sbi_ok st -> trap_ok t -> exists st',
  trap_step park st t = Ok st' /\ sbi_ok st' /\ evolves park (t_hart t) (trap_request t) st st'.
Proof.
  intros Hok [Hh Hf]. unfold trap_step, trap_request.
  destruct (sbi_get st (t_hart t) Hok Hh) as (h & Eh & Hl & Hr).
  rewrite (upd_hart_ok st _ h _ Eh). cbn [res_bind]. set (h1 := set_regs (t_frame t) h).
  assert (sbi_ok (put st (t_hart t) h1)) as Hok1 by (by apply sbi_put_ok).
  destruct (trap_handler_ok park (t_env t) _ (t_hart t) (t_cause t) h1 Hok1 Hh)
    as (ex & st2 & -> & Hok2 & He); [by eapply get_put_eq|].
  cbn [res_bind snd]. exists st2. split; [done|]. split; [done|]. intros j hj Hj.
  destruct (decide (t_hart t = j)) as [<-|Hne].
  - rewrite Eh in Hj. injection Hj as <-.
    destruct (He (t_hart t) h1) as (h' & E' & S & _); [by eapply get_put_eq|].
    exists h'. split; [done|]. split; [|done].
    by apply (hart_step_from _ _ _ _ h h1).
  - apply He. by rewrite get_put_ne by lia.
Qed.

Lemma trap_step_ok park st t : sbi_ok st -> trap_ok t -> exists st',
  trap_step park st t = Ok st' /\ sbi_ok st' /\
  forall i a s p, is_msi i t = false -> starting st i a s p -> starting st' i a s p.
Proof.
  intros Hok Ht. destruct (trap_step_evolves park st t Hok Ht) as (st' & E & Hok' & He).
  exists st'. split; [done|]. split; [done|]. intros i a s p Hm (h & Hg & Hst & Ha & Hs & Hp).
  destruct (He i h Hg) as (h' & Hg' & H & _). exists h'. split; [done|].
  assert (trap_request t = RMsi -> i = t_hart t -> False) as Hno.
  { unfold trap_request, request, svcall_request, is_msi in *. intros E2 ->. rewrite Z.eqb_refl in Hm.
    destruct (MCAUSE_IS_ASYNC (t_cause t)), (MCAUSE_NUM (t_cause t) =? CAUSE_MSIP);
      try discriminate; repeat case_match; discriminate. }
  destruct H as [_ Ed _ | | | |]; [|congruence|congruence|exfalso; auto|exfalso; auto].
  by rewrite Ed.
Qed.

Lemma trap_run_ok park ts : Forall trap_ok ts -> forall st, sbi_ok st ->
  exists st', trap_run park st ts = Ok st' /\ sbi_ok st'.
Proof.
  induction 1 as [|t ts Ht _ IH]; intros st Hok; [by exists st|]. cbn [trap_run].
  destruct (trap_step_evolves park st t Hok Ht) as (st1 & -> & Hok1 & _). by apply IH.
Qed.

(** (C3) A hart starts where it was asked to: once hart_start has answered true for a hart,
    whatever traps any harts then take, in any order and with any arguments, the next
    software interrupt of that hart returns with exactly the requested entry point,
    scratch value and page table loaded, its status STARTED and the interrupt cleared. *)
Theorem hart_start_delivers park st i t s p st1 ts e :
  sbi_ok st -> 0 <= i -> hart_start st i t s p = Ok (true, st1) ->
  Forall trap_ok ts -> Forall (fun x => is_msi i x = false) ts ->
  exists st2 st3 h, trap_run park st1 ts = Ok st2 /\
    c_trap_handler park e st2 i (2 ^ 63 + CAUSE_MSIP) = Ok (Mret, st3) /\
    get_hart st3 i = Ok h /\ status (data h) = HS_STARTED /\ msip h = 0 /\
    csr h mepc = t /\ csr h sscratch = s /\ csr h satp = p.
Proof.
  intros Hok Hi E Hts Hno.
  destruct (hart_start_spec st i t s p Hok Hi) as (b & st1' & E' & Hok1 & Hd & _).
  rewrite E in E'. injection E' as <- <-.
  destruct (Hd eq_refl) as (h0 & h1 & _ & Hg1 & Hd1).
  assert (starting st1 i t s p) as Hst by (exists h1; rewrite Hd1; done). clear E Hd Hd1 Hg1 h1 h0.
  assert (exists st2, trap_run park st1 ts = Ok st2 /\ sbi_ok st2 /\ starting st2 i t s p)
    as (st2 & Erun & Hok2 & h & Hg & Hs & Ht & Hsc & Hp).
  { revert st1 Hok1 Hst. induction Hts as [|x ts Hx _ IH]; intros st1 Hok1 Hst; [by exists st1|].
    apply Forall_cons in Hno as [Hx' Hno]. cbn [trap_run].
    destruct (trap_step_ok park st1 x Hok1 Hx) as (st' & -> & Hok' & Hk). cbn [res_bind].
    apply (IH Hno st' Hok'). by apply Hk. }
  exists st2. destruct (sbi_get_ok st2 i h Hok2 Hg) as [_ Hib].
  destruct (hart_handle_msip_spec st2 i Hok2 Hib) as (st3 & E3 & _ & _ & H3).
  destruct (H3 h Hg) as (h' & Hg' & Hm & Hst'). destruct (Hst' Hs) as (H4 & H5 & H6 & H7).
  exists st3, h'. split; [done|]. split; [|repeat split; congruence].
  unfold c_trap_handler. rewrite Hg. cbn [res_bind].
  change (MCAUSE_IS_ASYNC (2 ^ 63 + CAUSE_MSIP)) with true.
  change (MCAUSE_NUM (2 ^ 63 + CAUSE_MSIP) =? CAUSE_MSIP) with true. exact E3.
Qed.

(** (C21) The start protocol is a state machine: along any sequence of traps, whatever the
    harts pass in their registers, the monitor's handler finishes without touching
    memory out of bounds or blocking and leaves every lock free, and each trap of the
    sequence makes exactly the step its registers ask for. A call 2 of a hart for a STOPPED
    hart makes that one STARTING, with the target, scratch and table of the caller's
    registers and its software interrupt raised; the software interrupt of a STARTING
    hart makes it STARTED with exactly these in mepc, sscratch and satp and supervisor
    mode in mstatus; call 3 of a STARTED hart makes it STOPPED, in the wait loop, without
    a table and without a timer; an interrupt in another state is cleared; and every
    other hart keeps its start record and its software interrupt. No trap touches the
    control registers or the frame of a hart other than the one that trapped. *)
Theorem trap_state_machine park st ts : sbi_ok st -> Forall trap_ok ts ->
  (exists st', trap_run park st ts = Ok st' /\ sbi_ok st') /\
  forall ts1 t ts2, ts = ts1 ++ t :: ts2 -> exists st1 st2,
    trap_run park st ts1 = Ok st1 /\ trap_step park st1 t = Ok st2 /\ sbi_ok st2 /\
    evolves park (t_hart t) (trap_request t) st1 st2.
Proof.
  intros Hok Hts. split; [by apply trap_run_ok|]. intros ts1 t ts2 ->.
  apply Forall_app in Hts as [H1 [Ht _]%Forall_cons].
  destruct (trap_run_ok park ts1 H1 st Hok) as (st1 & E1 & Hok1).
  destruct (trap_step_evolves park st1 t Hok1 Ht) as (st2 & E2 & Hok2 & He). by exists st1, st2.
Qed.

(** ** Finding the operating system *)

(** find_os_addr returns the word after the first 8-aligned magic number of the search
    range, and 0 when the range holds none. *)
Theorem find_os_addr_correct m r (v : Z -> Z) :
  (forall k, 0 <= k <= 2088958 -> ld64 m (OS_TARGET_START + 8 * k) = Ok (v k)) ->
  ((forall k, 0 <= k <= 2088958 -> v k <> OS_TARGET_MAGIC) -> find_os_addr m = Ok 0) /\
  (forall k, 0 <= k <= 2088958 -> v k = OS_TARGET_MAGIC ->
     (forall j, 0 <= j < k -> v j <> OS_TARGET_MAGIC) ->
     ld64 m (OS_TARGET_START + 8 * k + 8) = Ok r -> find_os_addr m = Ok r).
Proof.
  intros Hv.
  set (body := fun s => if s <=? OS_TARGET_END then
                let* magic := ld64 m s in
                if magic =? OS_TARGET_MAGIC then let* a := ld64 m (s + 8) in Ok (Done a)
                else Ok (Next (s + OS_TARGET_ALIGNMENT))
              else Ok (Done 0)).
  assert (find_os_addr m = loop (Z.to_nat 2088960) body OS_TARGET_START) as ->.
  { unfold find_os_addr. replace ((OS_TARGET_END - OS_TARGET_START) / OS_TARGET_ALIGNMENT + 2)
      with 2088960 by reflexivity. reflexivity. }
  assert (forall k n, Z.of_nat k <= 2088959 ->
    (forall j, 0 <= j < Z.of_nat k -> v j <> OS_TARGET_MAGIC) -> (k <= n)%nat ->
    loop n body OS_TARGET_START = loop (n - k) body (OS_TARGET_START + 8 * Z.of_nat k)) as Hskip.
  { induction k as [|i IH]; intros n Hk Hno Hn.
    - rewrite Nat.sub_0_r. f_equal.
    - rewrite IH; [|lia|intros j Hj; apply Hno; lia|lia].
      replace (n - i)%nat with (S (n - S i)) by lia. rewrite loop_S. unfold body at 1.
      unfold OS_TARGET_START, OS_TARGET_END, OS_TARGET_ALIGNMENT in *.
      replace (_ <=? _) with true by lia. rewrite Hv by lia. cbn [res_bind].
      replace (v (Z.of_nat i) =? OS_TARGET_MAGIC) with false
        by (symmetry; apply Z.eqb_neq, Hno; lia).
      cbn [res_bind]. f_equal. lia. }
  split.
  - intros Hno. rewrite (Hskip (Z.to_nat 2088959)) by (try lia; intros; apply Hno; lia).
    replace (Z.to_nat 2088960 - Z.to_nat 2088959)%nat with 1%nat by lia. rewrite loop_S.
    rewrite Z2Nat.id by lia. unfold body, OS_TARGET_START, OS_TARGET_END.
    replace (_ <=? _) with false by lia. reflexivity.
  - intros k Hk Hm Hno Hr. rewrite (Hskip (Z.to_nat k)); [|lia|intros j Hj; apply Hno; lia|lia].
    replace (Z.to_nat 2088960 - Z.to_nat k)%nat with (S (Z.to_nat (2088959 - k))) by lia.
    rewrite loop_S, Z2Nat.id by lia. unfold body at 1. unfold OS_TARGET_START, OS_TARGET_END in *.
    replace (_ <=? _) with true by lia. rewrite Hv by lia. cbn [res_bind]. rewrite Hm.
    rewrite Z.eqb_refl, Hr. done.
Qed.

(** ** Concrete instances *)

Definition demo_hart : Hart :=
  mkHart (mkData HS_STOPPED HPM_MACHINE 0 0 0) MUTEX_UNLOCKED 0 0 (fun _ => 0) (replicate 32 0).
Definition demo_sbi : Sbi := mkSbi (replicate 8 demo_hart) demo_uart [] [] ∅ [].
Definition demo_env : Env := mkEnv 1000 0 0 10.

(** Hart 0 asks for hart 1 to be started, in a supervisor call. *)
Definition demo_trap : Trap :=
  mkTrap 0 CAUSE_ECALL_S_MODE demo_env
    (<[17%nat := 2]> (<[10%nat := 1]> (<[11%nat := 4096]> (replicate 32 0)))).

Lemma demo_sbi_ok : sbi_ok demo_sbi.
Proof.
  split; [done| |].
  - apply Forall_replicate. done.
  - split; [|done]. split; cbn; try lia; done.
Qed.

(** Hart 1 takes the interrupt after the call of hart 0. *)
Definition demo_msi : Trap := mkTrap 1 (2 ^ 63 + CAUSE_MSIP) demo_env (replicate 32 0).

Lemma trap_state_machine_witness :
  sbi_ok demo_sbi /\ exists st1 st2, trap_run 64 demo_sbi [demo_trap] = Ok st1 /\
    trap_step 64 st1 demo_msi = Ok st2 /\ sbi_ok st2 /\ evolves 64 1 RMsi st1 st2.
Proof.
  split; [exact demo_sbi_ok|].
  destruct (trap_state_machine 64 demo_sbi [demo_trap; demo_msi] demo_sbi_ok
    ltac:(repeat constructor; cbn; lia)) as [_ H].
  exact (H [demo_trap] demo_msi [] eq_refl).
Defined.

Lemma hart_start_delivers_witness :
  exists st1, hart_start demo_sbi 1 4096 7 9 = Ok (true, st1) /\
  exists st2 st3 h, trap_run 64 st1 [demo_trap] = Ok st2 /\
    c_trap_handler 64 demo_env st2 1 (2 ^ 63 + CAUSE_MSIP) = Ok (Mret, st3) /\
    get_hart st3 1 = Ok h /\ status (data h) = HS_STARTED /\ msip h = 0 /\
    csr h mepc = 4096 /\ csr h sscratch = 7 /\ csr h satp = 9.
Proof.
  eexists. split; [reflexivity|].
  apply (hart_start_delivers 64 demo_sbi 1 4096 7 9 _ [demo_trap] demo_env demo_sbi_ok).
  - lia.
  - reflexivity.
  - repeat constructor; cbn; lia.
  - repeat constructor.
Defined.

Lemma find_os_addr_correct_witness :
  let m := mem_const OS_TARGET_START (2 ^ 25) 0 in
  ((forall k, 0 <= k <= 2088958 -> 0 <> OS_TARGET_MAGIC) -> find_os_addr m = Ok 0) /\
  (forall k, 0 <= k <= 2088958 -> 0 = OS_TARGET_MAGIC ->
     (forall j, 0 <= j < k -> 0 <> OS_TARGET_MAGIC) ->
     ld64 m (OS_TARGET_START + 8 * k + 8) = Ok 5 -> find_os_addr m = Ok 5).
Proof.
  intros m. apply (find_os_addr_correct m 5 (fun _ => 0)). intros k Hk.
  apply ld_le_zero. intros b Hb. unfold m, OS_TARGET_START in *. rewrite mem_const_lookup.
  rewrite decide_True by lia. reflexivity.
Defined.
