(* ===== verification/SbiCalls.v ===== *)
(** The calls of the kernel into the monitor: src/src/sbi.c, one statement of assembly each,
    which loads a number and arguments into registers and executes [ecall], on the
    monitor of [Sbi], which takes the trap.

    [pc n] is the address of the [ecall] of call [n]; each trap has its own [Env]. The
    registers of the hart are those of its frame: the trap vector stores them there and loads
    them back. *)
From S2P Require Import Prelude Lock Ring Sbi.

Definition SBI_SVCALL_HART_STATUS : Z := 1.
Definition SBI_SVCALL_HART_START : Z := 2.
Definition SBI_SVCALL_HART_STOP : Z := 3.
Definition SBI_SVCALL_GET_TIME : Z := 4.
Definition SBI_SVCALL_SET_TIMECMP : Z := 5.
Definition SBI_SVCALL_ADD_TIMECMP : Z := 6.
Definition SBI_SVCALL_ACK_TIMER : Z := 7.
Definition SBI_SVCALL_RTC_GET_TIME : Z := 8.
Definition SBI_SVCALL_PUTCHAR : Z := 9.
Definition SBI_SVCALL_GETCHAR : Z := 10.
Definition SBI_SVCALL_WHOAMI : Z := 11.
Definition SBI_SVCALL_POWEROFF : Z := 12.

Section calls.
Context (park : Z) (pc : Z -> Z).

(** [mv a7, n], [mv a0, ...], [mv a1, ...] and so on. *)
Fixpoint load_args (i : nat) (args : list Z) (r : list Z) : list Z :=
  match args with [] => r | a :: args => load_args (S i) args (<[i := a]> r) end.

Definition load (n : Z) (args : list Z) (h : Hart) : Hart :=
  csr_writes [(mepc, pc n)] (set_regs (load_args XREG_A0 args (<[XREG_A7 := n]> (regs h))) h).

Definition ecall (e : Env) (hart n : Z) (args : list Z) (st : Sbi) : res (Exit * Z * Sbi) :=
  let* st := upd_hart st hart (load n args) in
  let* r := c_trap_handler park e st hart CAUSE_ECALL_S_MODE in
  let* h := get_hart (snd r) hart in
  Ok (fst r, default 0 (regs h !! XREG_A0), snd r).

(** A call that comes back leaves its result in A0. One that does not is no call of a
    function with a result. *)
Definition call (e : Env) (hart n : Z) (args : list Z) (st : Sbi) : res (Z * Sbi) :=
  let* r := ecall e hart n args st in
  match r with (Returns, a, st) => Ok (a, st) | _ => Hang end.

Definition sbi_putchar e hart (c : Z) st : res Sbi :=
  let* r := call e hart SBI_SVCALL_PUTCHAR [c] st in Ok (snd r).

Definition sbi_getchar e hart st : res (Z * Sbi) :=
  let* r := call e hart SBI_SVCALL_GETCHAR [] st in Ok (u8 (fst r), snd r).

Definition sbi_hart_get_status e hart (i : Z) st : res (Z * Sbi) :=
  let* r := call e hart SBI_SVCALL_HART_STATUS [i] st in Ok (s32 (fst r), snd r).

Definition sbi_hart_start e hart (i target scratch satp : Z) st : res (Z * Sbi) :=
  let* r := call e hart SBI_SVCALL_HART_START [i; target; scratch; satp] st in
  Ok (s32 (fst r), snd r).

(** [Returns] here is the hart in the [wfi] that follows. *)
Definition sbi_hart_stop e hart st : res (Exit * Sbi) :=
  let* r := ecall e hart SBI_SVCALL_HART_STOP [] st in
  let '(ex, _, st) := r in Ok (ex, st).

(** It does not come back: the store of the monitor ends the machine. *)
Definition sbi_poweroff e hart st : res (Exit * Sbi) :=
  let* r := ecall e hart SBI_SVCALL_POWEROFF [] st in
  let '(ex, _, st) := r in Ok (ex, st).

Definition sbi_get_time e hart st : res (Z * Sbi) := call e hart SBI_SVCALL_GET_TIME [] st.

Definition sbi_set_timer e hart (i val : Z) st : res Sbi :=
  let* r := call e hart SBI_SVCALL_SET_TIMECMP [i; val] st in Ok (snd r).

Definition sbi_add_timer e hart (i val : Z) st : res Sbi :=
  let* r := call e hart SBI_SVCALL_ADD_TIMECMP [i; val] st in Ok (snd r).

Definition sbi_ack_timer e hart st : res Sbi :=
  let* r := call e hart SBI_SVCALL_ACK_TIMER [] st in Ok (snd r).

Definition sbi_rtc_get_time e hart st : res (Z * Sbi) := call e hart SBI_SVCALL_RTC_GET_TIME [] st.

Definition sbi_whoami e hart st : res (Z * Sbi) :=
  let* r := call e hart SBI_SVCALL_WHOAMI [] st in Ok (s32 (fst r), snd r).

Definition sbi_num_harts e hart st : res (Z * Sbi) :=
  loop (S (Z.to_nat MAX_ALLOWABLE_HARTS))
    (fun '(i, num_harts, st) =>
       if i <? MAX_ALLOWABLE_HARTS then
         let* r := sbi_hart_get_status e hart i st in
         Ok (Next (i + 1, if fst r =? 0 then num_harts else num_harts + 1, snd r))
       else Ok (Done (num_harts, st))) (0, 0, st).

(** ** What a call leaves of the state *)

(** Two states of a hart that differ in the registers of arguments and in [mepc] only. *)
Record framed (h h' : Hart) : Prop := mkFramed {
  fr_data : data h' = data h;
  fr_lock : lock h' = lock h;
  fr_msip : msip h' = msip h;
  fr_mtimecmp : mtimecmp h' = mtimecmp h;
  fr_csr : forall c, c <> mepc -> csr h' c = csr h c;
  fr_regs : length (regs h') = length (regs h);
  fr_saved : forall i, (i < XREG_A0 \/ XREG_A7 < i)%nat -> regs h' !! i = regs h !! i
}.

#[export] Instance framed_preorder : PreOrder framed.
Proof.
  split; [by intros h|].
  intros a b c [D1 L1 M1 T1 C1 R1 S1] [D2 L2 M2 T2 C2 R2 S2]. split; try congruence.
  - intros x Hx. by rewrite C2, C1.
  - intros i Hi. by rewrite S2, S1.
Qed.

Definition only_frame (hart : Z) (st st' : Sbi) : Prop :=
  exists h h', get_hart st hart = Ok h /\ st' = put st hart h' /\ framed h h'.

(** The call of number [n] is over and the hart goes on behind its [ecall]. *)
Definition resumed (n hart : Z) (st st' : Sbi) : Prop :=
  only_frame hart st st' /\ exists h, get_hart st' hart = Ok h /\ csr h mepc = u64 (pc n + 4).

Lemma put_self st i h : get_hart st i = Ok h -> put st i h = st.
Proof.
  intros [_ E]%get_hart_Some. unfold put. rewrite list_insert_id by done. by destruct st.
Qed.

Lemma only_frame_refl hart st h : get_hart st hart = Ok h -> only_frame hart st st.
Proof. intros E. exists h, h. by rewrite put_self. Qed.

Lemma only_frame_trans hart a b c :
  only_frame hart a b -> only_frame hart b c -> only_frame hart a c.
Proof.
  intros (h & h1 & E1 & -> & F1) (h1' & h2 & E2 & -> & F2).
  rewrite (get_put_eq a hart h h1 E1) in E2. injection E2 as <-. rewrite put_put.
  exists h, h2. split_and!; [done | done | by etransitivity].
Qed.

Lemma only_frame_ok hart st st' : sbi_ok st -> only_frame hart st st' -> sbi_ok st'.
Proof.
  intros Hok (h & h' & E & -> & F). apply sbi_put_ok; [done|].
  destruct (sbi_get_ok st hart h Hok E) as [[H1 H2] _]. destruct F. split; congruence.
Qed.

Lemma only_frame_get hart st st' i h : only_frame hart st st' -> get_hart st i = Ok h ->
  exists h', get_hart st' i = Ok h' /\ framed h h'.
Proof.
  intros (h0 & h1 & E & -> & F) Ei. destruct (decide (hart = i)) as [<-|Hne].
  - exists h1. rewrite E in Ei. injection Ei as <-. split; [by eapply get_put_eq | done].
  - exists h. apply get_hart_Some in E as [H0 _]. by rewrite get_put_ne.
Qed.

Lemma put_comm st i j a b : i <> j -> 0 <= i -> 0 <= j -> put (put st i a) j b = put (put st j b) i a.
Proof. intros. unfold put. cbn. by rewrite list_insert_insert_ne by lia. Qed.

(** An operation on one hart does the same on both sides. *)
Lemma only_frame_put hart st st' i h h' f :
  only_frame hart st st' -> get_hart st i = Ok h -> get_hart st' i = Ok h' ->
  (framed h h' -> framed (f h) (f h')) -> only_frame hart (put st i (f h)) (put st' i (f h')).
Proof.
  intros Ho Ei Ei' Hf. pose proof Ho as (h0 & h1 & E & -> & F).
  pose proof (proj1 (proj1 (get_hart_Some st i h) Ei)) as Hi.
  pose proof (proj1 (proj1 (get_hart_Some st hart h0) E)) as Hh.
  destruct (decide (hart = i)) as [<-|Hne].
  - rewrite E in Ei. injection Ei as ->. rewrite (get_put_eq st hart h h1 E) in Ei'. injection Ei' as ->.
    exists (f h), (f h'). rewrite !put_put. split_and!; [by eapply get_put_eq | done | by apply Hf].
  - rewrite get_put_ne in Ei' by done. rewrite Ei in Ei'. injection Ei' as <-.
    exists h0, h1. rewrite get_put_ne by done. split_and!; [done | by apply put_comm | done].
Qed.

Lemma only_frame_status hart st st' i : only_frame hart st st' -> 0 <= i -> sbi_ok st ->
  hart_get_status st' i = hart_get_status st i.
Proof.
  intros Ho Hi Hok. unfold hart_get_status. destruct (Z.geb_spec i MAX_ALLOWABLE_HARTS); [done|].
  destruct (sbi_get st i Hok) as (h & E & _); [lia|].
  destruct (only_frame_get _ _ _ i h Ho E) as (h' & E' & F).
  rewrite E, E'. cbn [res_bind]. by rewrite (fr_data _ _ F).
Qed.

(** ** One call *)

Lemma length_load_args args : forall i r, length (load_args i args r) = length r.
Proof. induction args as [|a args IH]; intros i r; [done|]. cbn. by rewrite IH, length_insert. Qed.

Lemma load_args_before args : forall i j r, (j < i)%nat -> load_args i args r !! j = r !! j.
Proof.
  induction args as [|a args IH]; intros i j r Hj; [done|]. cbn.
  rewrite IH by lia. by rewrite list_lookup_insert_ne by lia.
Qed.

Lemma load_args_at args : forall i k r a, (i + length args <= length r)%nat -> args !! k = Some a ->
  load_args i args r !! (i + k)%nat = Some a.
Proof.
  induction args as [|b args IH]; intros i k r a Hl E; [done|]. cbn in *.
  destruct k as [|k].
  - injection E as ->. rewrite load_args_before by lia. rewrite Nat.add_0_r.
    apply list_lookup_insert_eq. lia.
  - rewrite Nat.add_succ_r. apply (IH (S i) k); [by rewrite length_insert; lia | done].
Qed.

Lemma load_args_after args : forall i j r, (i + length args <= j)%nat ->
  load_args i args r !! j = r !! j.
Proof.
  induction args as [|a args IH]; intros i j r Hj; [done|]. cbn in *.
  rewrite IH by lia. by rewrite list_lookup_insert_ne by lia.
Qed.

(** What the monitor reads in the frame of a call with up to seven arguments. *)
Lemma frame_number n args h : length (regs h) = 32%nat -> (length args <= 7)%nat ->
  default 0 (regs (load n args h) !! (XREG_A0 + 7)%nat) = n.
Proof.
  intros Hr Ha. cbn [load csr_writes set_regs regs]. rewrite load_args_after by (unfold XREG_A0; lia).
  change (XREG_A0 + 7)%nat with XREG_A7. by rewrite list_lookup_insert_eq by (rewrite Hr; unfold XREG_A7; lia).
Qed.

Lemma frame_arg n args h k a : length (regs h) = 32%nat -> (length args <= 7)%nat ->
  args !! k = Some a -> default 0 (regs (load n args h) !! (XREG_A0 + k)%nat) = a.
Proof.
  intros Hr Ha E. cbn [load csr_writes set_regs regs].
  rewrite (load_args_at _ _ _ _ a); [done| |done]. rewrite length_insert, Hr. unfold XREG_A0. lia.
Qed.

Lemma load_framed n args h : (length args <= 7)%nat -> framed h (load n args h).
Proof.
  intros Ha. split; try done.
  - intros c Hc. cbn. by rewrite decide_False.
  - cbn. by rewrite length_load_args, length_insert.
  - intros i Hi. cbn. destruct Hi as [Hi|Hi].
    + rewrite load_args_before by done. rewrite list_lookup_insert_ne; [done|].
      unfold XREG_A0, XREG_A7 in *. lia.
    + rewrite load_args_after by (unfold XREG_A0, XREG_A7 in *; lia).
      by rewrite list_lookup_insert_ne by lia.
Qed.

Lemma framed_a0 h h' v : framed h h' -> framed h (set_regs (<[XREG_A0 := v]> (regs h')) h').
Proof.
  intros [D L M T C R S]. split; try done.
  - cbn. by rewrite length_insert.
  - intros i Hi. cbn. rewrite list_lookup_insert_ne; [by apply S|].
    unfold XREG_A0, XREG_A7 in *. lia.
Qed.

Lemma framed_mepc h h' v : framed h h' -> framed h (csr_writes [(mepc, v)] h').
Proof.
  intros [D L M T C R S]. split; try done. intros c Hc. cbn. rewrite decide_False by done. by apply C.
Qed.

(** The call as the work of the monitor on the loaded frame. *)
Lemma ecall_returns e hart n args st st1 st2 h :
  get_hart st hart = Ok h ->
  svcall_handle park e (put st hart (load n args h)) hart = Ok (Returns, st2) ->
  only_frame hart st1 st2 ->
  exists h2 st', get_hart st2 hart = Ok h2 /\
    call e hart n args st = Ok (default 0 (regs h2 !! XREG_A0), st') /\ resumed n hart st1 st'.
Proof.
  intros E Es (h1 & h2 & E1 & -> & F).
  pose proof (get_put_eq st1 hart h1 h2 E1) as E2.
  exists h2, (put st1 hart (csr_writes [(mepc, u64 (pc n + 4))] h2)). split; [done|]. split.
  - unfold call, ecall. rewrite (upd_hart_ok st hart h _ E). cbn [res_bind]. unfold c_trap_handler.
    rewrite (get_put_eq st hart h _ E). cbn [res_bind].
    change (MCAUSE_IS_ASYNC CAUSE_ECALL_S_MODE) with false.
    change (MCAUSE_NUM CAUSE_ECALL_S_MODE =? CAUSE_ECALL_S_MODE) with true. cbv beta iota.
    rewrite Es. cbn [res_bind]. rewrite (upd_hart_ok _ hart h2 _ E2). cbn [res_bind fst snd].
    rewrite put_put, (get_put_eq st1 hart h1 _ E1). cbn [res_bind].
    by replace (csr (load n args h) mepc) with (pc n) by (cbn; by rewrite decide_True).
  - split.
    + exists h1. eexists. split_and!; [done | reflexivity | by apply framed_mepc].
    + eexists. split; [by eapply get_put_eq|]. cbn. by rewrite decide_True.
Qed.

Lemma ret_returns e hart n args st st1 X h v :
  get_hart st hart = Ok h -> length (regs h) = 32%nat ->
  svcall_handle park e (put st hart (load n args h)) hart =
    (let* s := set_a0 X hart v in Ok (Returns, s)) ->
  only_frame hart st1 X ->
  (forall h1, get_hart st1 hart = Ok h1 -> length (regs h1) = 32%nat) ->
  exists st', call e hart n args st = Ok (u64 v, st') /\ resumed n hart st1 st'.
Proof.
  intros E Hr Es Ho Hl. pose proof Ho as (h1 & hx & E1 & -> & F).
  pose proof (get_put_eq st1 hart h1 hx E1) as Ex. specialize (Hl h1 E1).
  assert (only_frame hart st1 (put st1 hart (set_regs (<[XREG_A0 := u64 v]> (regs hx)) hx))) as Ho'.
  { exists h1. eexists. split_and!; [done | reflexivity | by apply framed_a0]. }
  pose proof (fun Hs => ecall_returns e hart n args st st1 _ h E Hs Ho') as Hcall.
  destruct Hcall as (h2 & st' & E2 & Ec & Hres).
  - rewrite Es. unfold set_a0. by rewrite (upd_put st1 hart h1 hx _ E1).
  - rewrite (get_put_eq st1 hart h1 _ E1) in E2. injection E2 as <-. exists st'. split; [|done].
    rewrite Ec. cbn [set_regs regs]. rewrite list_lookup_insert_eq; [done|].
    rewrite (fr_regs _ _ F), Hl. unfold XREG_A0. lia.
Qed.

(** A hart that was asked to start. *)
Definition asked (t s p : Z) (h : Hart) : Hart :=
  set_msip 1 (set_data (mkData HS_STARTING (priv_mode (data h)) t s p) h).

Lemma hart_start_stopped st i h t s p : 0 <= i < MAX_ALLOWABLE_HARTS -> get_hart st i = Ok h ->
  lock h = MUTEX_UNLOCKED -> status (data h) = HS_STOPPED ->
  hart_start st i t s p = Ok (true, put st i (asked t s p h)).
Proof.
  intros Hi E Hl Hs. unfold hart_start. replace (i >=? MAX_ALLOWABLE_HARTS) with false by lia.
  rewrite E. cbn [res_bind]. rewrite Hl. change (mutex_trylock MUTEX_UNLOCKED) with (true, MUTEX_LOCKED).
  cbv beta iota. rewrite (upd_hart_ok st i h _ E). cbn [res_bind negb].
  rewrite decide_False by (by intros []). rewrite (upd_put st i h _ _ E). cbn [res_bind].
  unfold clint_set_msip. replace (i >=? MAX_ALLOWABLE_HARTS) with false by lia.
  rewrite !(upd_put st i h _ _ E). cbn [res_bind]. rewrite (upd_put st i h _ _ E). cbn [res_bind].
  destruct h; cbn in Hl; by subst.
Qed.

Lemma hart_start_refused st i h t s p : 0 <= i < MAX_ALLOWABLE_HARTS -> get_hart st i = Ok h ->
  lock h = MUTEX_UNLOCKED -> status (data h) <> HS_STOPPED -> hart_start st i t s p = Ok (false, st).
Proof.
  intros Hi E Hl Hs. unfold hart_start. replace (i >=? MAX_ALLOWABLE_HARTS) with false by lia.
  rewrite E. cbn [res_bind]. rewrite Hl. change (mutex_trylock MUTEX_UNLOCKED) with (true, MUTEX_LOCKED).
  cbv beta iota. rewrite (upd_hart_ok st i h _ E). cbn [res_bind negb].
  rewrite decide_True by done. cbn [res_bind]. rewrite (upd_put st i h _ _ E). cbn [res_bind].
  rewrite <- (put_self st i h E) at 2. destruct h; cbn in Hl; by subst.
Qed.

Section one.
Context (e : Env) (hart : Z) (st : Sbi) (h : Hart).
Hypothesis (Hok : sbi_ok st) (Hh : get_hart st hart = Ok h).

Lemma caller_regs : length (regs h) = 32%nat.
Proof. by destruct (sbi_get_ok st hart h Hok Hh) as [[_ ?] _]. Qed.

Lemma loaded_only_frame n args : (length args <= 7)%nat -> only_frame hart st (put st hart (load n args h)).
Proof. intros Ha. exists h. eexists. split_and!; [done | reflexivity | by apply load_framed]. Qed.

(** Device state of the monitor next to its harts. *)
Lemma only_frame_device n args (g : Sbi -> Sbi) : (length args <= 7)%nat ->
  (forall x i y, g (put x i y) = put (g x) i y) -> (forall x, harts (g x) = harts x) ->
  only_frame hart (g st) (g (put st hart (load n args h))).
Proof.
  intros Ha Hg Hs. exists h. eexists. split_and!; [|apply Hg | by apply load_framed].
  by rewrite get_hart_Some, Hs, <- get_hart_Some.
Qed.

Lemma caller_same_regs : forall h1, get_hart st hart = Ok h1 -> length (regs h1) = 32%nat.
Proof. intros h1 E. rewrite Hh in E. injection E as <-. exact caller_regs. Qed.

(** The handler on the loaded frame, with the number and the arguments read. *)
Ltac handler n args :=
  unfold svcall_handle; rewrite (get_put_eq st hart h _ Hh); cbn [res_bind]; cbv beta zeta;
  rewrite (frame_number n args h caller_regs) by (cbn; lia);
  unfold SBI_SVCALL_HART_STATUS, SBI_SVCALL_HART_START, SBI_SVCALL_HART_STOP, SBI_SVCALL_GET_TIME,
    SBI_SVCALL_SET_TIMECMP, SBI_SVCALL_ADD_TIMECMP, SBI_SVCALL_ACK_TIMER, SBI_SVCALL_RTC_GET_TIME,
    SBI_SVCALL_PUTCHAR, SBI_SVCALL_GETCHAR, SBI_SVCALL_WHOAMI, SBI_SVCALL_POWEROFF;
  cbn [Z.eqb Pos.eqb].

(** A call whose result is [v] and which does nothing else. *)
Lemma plain_answer_ok n args v : (length args <= 7)%nat ->
  svcall_handle park e (put st hart (load n args h)) hart =
    (let* s := set_a0 (put st hart (load n args h)) hart v in Ok (Returns, s)) ->
  exists st', call e hart n args st = Ok (u64 v, st') /\ resumed n hart st st'.
Proof.
  intros Ha Es.
  exact (ret_returns e hart n args st st _ h v Hh caller_regs Es (loaded_only_frame n args Ha) caller_same_regs).
Qed.

Lemma device_returns n args (g : Sbi -> Sbi) : (length args <= 7)%nat ->
  (forall x i y, g (put x i y) = put (g x) i y) -> (forall x, harts (g x) = harts x) ->
  svcall_handle park e (put st hart (load n args h)) hart = Ok (Returns, g (put st hart (load n args h))) ->
  exists a st', call e hart n args st = Ok (a, st') /\ resumed n hart (g st) st'.
Proof.
  intros Ha Hg Hs Es.
  destruct (ecall_returns e hart n args st (g st) _ h Hh Es (only_frame_device n args g Ha Hg Hs))
    as (h2 & st' & _ & E & Hr).
  by eexists _, st'.
Qed.

(** An operation on one hart. *)
Lemma hart_returns n args i hi f : (length args <= 7)%nat -> get_hart st i = Ok hi ->
  (forall a b, framed a b -> framed (f a) (f b)) ->
  svcall_handle park e (put st hart (load n args h)) hart =
    (let* s := upd_hart (put st hart (load n args h)) i f in Ok (Returns, s)) ->
  exists a st', call e hart n args st = Ok (a, st') /\ resumed n hart (put st i (f hi)) st'.
Proof.
  intros Ha Ei Hf Es. pose proof (loaded_only_frame n args Ha) as Ho.
  destruct (only_frame_get _ _ _ i hi Ho Ei) as (hi' & Ei' & F).
  rewrite (upd_hart_ok _ i hi' f Ei') in Es. cbn [res_bind] in Es.
  destruct (ecall_returns e hart n args st (put st i (f hi)) _ h Hh Es) as (h2 & st' & _ & E & Hr).
  - apply only_frame_put; [done.. | by intros; apply Hf].
  - by eexists _, st'.
Qed.

Lemma whoami_ok : exists st', sbi_whoami e hart st = Ok (hart, st') /\ resumed SBI_SVCALL_WHOAMI hart st st'.
Proof.
  destruct (plain_answer_ok SBI_SVCALL_WHOAMI [] hart) as (st' & E & Hr); [cbn; lia | by handler SBI_SVCALL_WHOAMI (@nil Z) |].
  exists st'. split; [|done]. unfold sbi_whoami. rewrite E. cbn [res_bind fst snd].
  destruct (sbi_get_ok st hart h Hok Hh) as [_ Hb]. unfold MAX_ALLOWABLE_HARTS in Hb.
  by rewrite u64_id, s32_id by lia.
Qed.

Lemma status_ok i : 0 <= i < 2 ^ 32 -> exists s st', hart_get_status st i = Ok s /\
  sbi_hart_get_status e hart i st = Ok (status_code s, st') /\ resumed SBI_SVCALL_HART_STATUS hart st st'.
Proof.
  intros Hi.
  assert (exists s, hart_get_status st i = Ok s) as [s Es].
  { unfold hart_get_status. destruct (Z.geb_spec i MAX_ALLOWABLE_HARTS); [by eexists|].
    destruct (sbi_get st i Hok) as (hi & -> & _); [lia|]. by eexists. }
  set (n := SBI_SVCALL_HART_STATUS).
  destruct (plain_answer_ok n [i] (status_code s)) as (st' & E & Hr).
  - cbn. lia.
  - handler n [i]. rewrite (frame_arg n [i] h 0 i caller_regs) by (cbn; auto; lia).
    rewrite u32_id by done.
    rewrite (only_frame_status hart st) by (done || lia || (apply loaded_only_frame; cbn; lia)).
    by rewrite Es.
  - exists s, st'. split_and!; [done | | done]. unfold sbi_hart_get_status. fold n. rewrite E.
    cbn [res_bind fst snd]. by destruct s.
Qed.

Lemma time_ok : 0 <= rdtime e < 2 ^ 64 -> exists st',
  sbi_get_time e hart st = Ok (rdtime e, st') /\ resumed SBI_SVCALL_GET_TIME hart st st'.
Proof.
  intros Ht. destruct (plain_answer_ok SBI_SVCALL_GET_TIME [] (rdtime e)) as (st' & E & Hr).
  - cbn. lia.
  - by handler SBI_SVCALL_GET_TIME (@nil Z).
  - exists st'. by rewrite u64_id in E.
Qed.

Lemma rtc_ok : 0 <= rtc_low e < 2 ^ 32 -> 0 <= rtc_high e < 2 ^ 32 -> exists st',
  sbi_rtc_get_time e hart st = Ok (rtc_high e * 2 ^ 32 + rtc_low e, st') /\
  resumed SBI_SVCALL_RTC_GET_TIME hart st st'.
Proof.
  intros Hlo Hhi. destruct (plain_answer_ok SBI_SVCALL_RTC_GET_TIME [] (rtc_get_time e)) as (st' & E & Hr).
  - cbn. lia.
  - by handler SBI_SVCALL_RTC_GET_TIME (@nil Z).
  - exists st'. split; [|done]. unfold sbi_rtc_get_time. rewrite E. repeat f_equal.
    unfold rtc_get_time. rewrite Z.shiftl_mul_pow2 by lia.
    pose proof (Z.add_lor_land (rtc_high e * 2 ^ 32) (rtc_low e)) as Hadd.
    replace (Z.land (rtc_high e * 2 ^ 32) (rtc_low e)) with 0 in Hadd; [rewrite u64_id; lia|].
    symmetry. rewrite <- Z.shiftl_mul_pow2 by lia. apply Z.bits_inj'. intros b Hb.
    rewrite Z.land_spec, Z.bits_0, Z.shiftl_spec by lia. destruct (Z.ltb_spec b 32).
    + by rewrite Z.testbit_neg_r by lia.
    + by rewrite <- (Z.mod_small (rtc_low e) (2 ^ 32)), Z.mod_pow2_bits_high, andb_false_r by lia.
Qed.

Lemma putchar_ok c : exists st',
  sbi_putchar e hart c st = Ok st' /\ resumed SBI_SVCALL_PUTCHAR hart (uart_put st c) st'.
Proof.
  set (n := SBI_SVCALL_PUTCHAR).
  destruct (device_returns n [c] (fun s => uart_put s c)) as (a & st' & E & Hr).
  - cbn. lia.
  - done.
  - done.
  - handler n [c].
    by rewrite (frame_arg n [c] h 0 c caller_regs) by (cbn; auto; lia).
  - exists st'. unfold sbi_putchar. fold n. by rewrite E.
Qed.

(** The trap of a call as the work of the monitor, whether it comes back or not. *)
Lemma ecall_leaves n args ex st2 h2 : ex <> Returns ->
  svcall_handle park e (put st hart (load n args h)) hart = Ok (ex, st2) ->
  get_hart st2 hart = Ok h2 -> ecall e hart n args st = Ok (ex, default 0 (regs h2 !! XREG_A0), st2).
Proof.
  intros Hex Es E2. unfold ecall. rewrite (upd_hart_ok st hart h _ Hh). cbn [res_bind].
  unfold c_trap_handler. rewrite (get_put_eq st hart h _ Hh). cbn [res_bind].
  change (MCAUSE_IS_ASYNC CAUSE_ECALL_S_MODE) with false.
  change (MCAUSE_NUM CAUSE_ECALL_S_MODE =? CAUSE_ECALL_S_MODE) with true. cbv beta iota.
  rewrite Es. destruct ex; try done; cbn [res_bind fst snd]; by rewrite E2.
Qed.

Lemma poweroff_ok : exists st', sbi_poweroff e hart st = Ok (PoweredOff, st') /\
  test_device st' = 0x5555 :: test_device st /\ only_frame hart (poweroff st) st'.
Proof.
  set (n := SBI_SVCALL_POWEROFF). pose proof (get_put_eq st hart h (load n [] h) Hh) as E.
  exists (poweroff (put st hart (load n [] h))). split; [|split; [done|]].
  - unfold sbi_poweroff. fold n.
    rewrite (ecall_leaves n [] PoweredOff (poweroff (put st hart (load n [] h))) (load n [] h));
      [done | done | by handler n (@nil Z) | exact E].
  - apply (only_frame_device n [] poweroff); [cbn; lia | done | done].
Qed.

(** The byte that waits longest, 255 when none does. *)
Lemma getchar_ok : Forall byte_ok (contents (uart_as_ring (uart_ st))) -> exists u st',
  sbi_getchar e hart st = Ok (default 0xff (head (contents (uart_as_ring (uart_ st)))), st') /\
  uart_ok u /\ contents (uart_as_ring u) = tail (contents (uart_as_ring (uart_ st))) /\
  resumed SBI_SVCALL_GETCHAR hart (set_uart st u (fifo st)) st'.
Proof.
  intros Hb. destruct (uart_pop_spec (uart_ st) (so_uart _ Hok)) as (v & u & E & Hu & Hv & Ht).
  set (n := SBI_SVCALL_GETCHAR). set (g := fun s : Sbi => set_uart s u (fifo st)).
  destruct (ret_returns e hart n [] st (g st) (g (put st hart (load n [] h))) h v Hh caller_regs)
    as (st' & Ec & Hr).
  - handler n (@nil Z). change (uart_ (put st hart (load n [] h))) with (uart_ st). by rewrite E.
  - apply only_frame_device; [cbn; lia | done | done].
  - intros h1. unfold get_hart. change (harts (g st)) with (harts st). exact (caller_same_regs h1).
  - exists u, st'. split_and!; [|done..]. unfold sbi_getchar. fold n. rewrite Ec. cbn [res_bind fst snd].
    rewrite Hv. destruct (contents (uart_as_ring (uart_ st))) as [|c r]; [done|]. cbn.
    apply Forall_cons in Hb as [Hb _]. unfold byte_ok in Hb. by rewrite u64_id, u8_id by lia.
Qed.

Lemma framed_mtimecmp v a b : framed a b -> framed (set_mtimecmp v a) (set_mtimecmp v b).
Proof. by intros [D L M T C R S]. Qed.

Lemma set_timer_ok i v hi : 0 <= i < MAX_ALLOWABLE_HARTS -> get_hart st i = Ok hi -> exists st',
  sbi_set_timer e hart i v st = Ok st' /\
  resumed SBI_SVCALL_SET_TIMECMP hart (put st i (set_mtimecmp v hi)) st'.
Proof.
  intros Hi Ei. set (n := SBI_SVCALL_SET_TIMECMP).
  destruct (hart_returns n [i; v] i hi (set_mtimecmp v)) as (a & st' & E & Hr).
  - cbn. lia.
  - done.
  - apply framed_mtimecmp.
  - handler n [i; v]. rewrite (frame_arg n [i; v] h 0 i caller_regs) by (cbn; auto; lia).
    rewrite (frame_arg n [i; v] h 1 v caller_regs) by (cbn; auto; lia).
    unfold MAX_ALLOWABLE_HARTS in *. rewrite u32_id by lia. unfold clint_set_mtimecmp, MAX_ALLOWABLE_HARTS.
    by replace (i >=? 8) with false by lia.
  - exists st'. unfold sbi_set_timer. fold n. by rewrite E.
Qed.

Lemma add_timer_ok i v hi : 0 <= i < MAX_ALLOWABLE_HARTS -> get_hart st i = Ok hi -> exists st',
  sbi_add_timer e hart i v st = Ok st' /\
  resumed SBI_SVCALL_ADD_TIMECMP hart (put st i (set_mtimecmp (u64 (rdtime e + v)) hi)) st'.
Proof.
  intros Hi Ei. set (n := SBI_SVCALL_ADD_TIMECMP).
  destruct (hart_returns n [i; v] i hi (set_mtimecmp (u64 (rdtime e + v)))) as (a & st' & E & Hr).
  - cbn. lia.
  - done.
  - apply framed_mtimecmp.
  - handler n [i; v]. rewrite (frame_arg n [i; v] h 0 i caller_regs) by (cbn; auto; lia).
    rewrite (frame_arg n [i; v] h 1 v caller_regs) by (cbn; auto; lia).
    unfold MAX_ALLOWABLE_HARTS in *. rewrite u32_id by lia.
    unfold clint_add_mtimecmp, clint_get_time, clint_set_mtimecmp, MAX_ALLOWABLE_HARTS.
    by replace (i >=? 8) with false by lia.
  - exists st'. unfold sbi_add_timer. fold n. by rewrite E.
Qed.

(** The pending timer interrupt of the supervisor is cleared. *)
Definition clear_stip (h : Hart) : Hart :=
  csr_writes [(mip, Z.land (csr h mip) (u64 (Z.lnot SIP_STIP)))] h.

Lemma ack_ok : exists st',
  sbi_ack_timer e hart st = Ok st' /\ resumed SBI_SVCALL_ACK_TIMER hart (put st hart (clear_stip h)) st'.
Proof.
  set (n := SBI_SVCALL_ACK_TIMER).
  destruct (hart_returns n [] hart h clear_stip) as (a & st' & E & Hr).
  - cbn. lia.
  - done.
  - intros a b [D L M T C R S]. split; try done. intros c Hc. cbn.
    rewrite (C mip) by done. case_decide; [done | by apply C].
  - by handler n (@nil Z).
  - exists st'. unfold sbi_ack_timer. fold n. by rewrite E.
Qed.

Lemma start_call i t s p (b : bool) st1 :
  let n := SBI_SVCALL_HART_START in let X := put st hart (load n [i; t; s; p] h) in
  0 <= i < 2 ^ 32 ->
  (exists X1, hart_start X i t s p = Ok (b, X1) /\ only_frame hart st1 X1) ->
  (forall h1, get_hart st1 hart = Ok h1 -> length (regs h1) = 32%nat) ->
  exists st', sbi_hart_start e hart i t s p st = Ok (Z.b2z b, st') /\ resumed n hart st1 st'.
Proof.
  intros n X Hi (X1 & Es & Ho) Hl.
  destruct (ret_returns e hart n [i; t; s; p] st st1 X1 h (Z.b2z b) Hh caller_regs) as (st' & E & Hr);
    [|done..|].
  - handler n [i; t; s; p].
    rewrite (frame_arg n [i; t; s; p] h 0 i caller_regs), (frame_arg n [i; t; s; p] h 1 t caller_regs),
      (frame_arg n [i; t; s; p] h 2 s caller_regs), (frame_arg n [i; t; s; p] h 3 p caller_regs)
      by (cbn; auto; lia).
    rewrite u32_id by done. fold X. by rewrite Es.
  - exists st'. split; [|done]. unfold sbi_hart_start. fold n. rewrite E. cbn [res_bind fst snd]. by destruct b.
Qed.

Lemma start_stopped_ok i hi t s p : get_hart st i = Ok hi -> status (data hi) = HS_STOPPED ->
  exists st', sbi_hart_start e hart i t s p st = Ok (1, st') /\
    resumed SBI_SVCALL_HART_START hart (put st i (asked t s p hi)) st'.
Proof.
  intros Ei Hs. destruct (sbi_get_ok st i hi Hok Ei) as [[Hl Hr] Hi].
  set (n := SBI_SVCALL_HART_START).
  pose proof (loaded_only_frame n [i; t; s; p] ltac:(cbn; lia)) as Ho.
  destruct (only_frame_get _ _ _ i hi Ho Ei) as (hi' & Ei' & F). pose proof F as [Fd Fl _ _ _ _ _].
  apply (start_call i t s p true).
  - unfold MAX_ALLOWABLE_HARTS in Hi. lia.
  - eexists. split; [apply (hart_start_stopped _ i hi'); [done | done | congruence | by rewrite Fd] |].
    apply (only_frame_put hart _ _ i hi hi' (asked t s p)); [done.. |].
    intros [D L M T C R S]. unfold asked. by split; cbn; rewrite ?D.
  - intros h1. destruct (decide (hart = i)) as [<-|Hne].
    + rewrite (get_put_eq st hart hi _ Ei). by intros [= <-].
    + rewrite get_put_ne by (done || lia). apply caller_same_regs.
Qed.

(** A hart that is not stopped, or that does not exist, is left alone. *)
Lemma start_refused_ok i s0 t s p : 0 <= i < 2 ^ 32 -> hart_get_status st i = Ok s0 -> s0 <> HS_STOPPED ->
  exists st', sbi_hart_start e hart i t s p st = Ok (0, st') /\
    resumed SBI_SVCALL_HART_START hart st st'.
Proof.
  intros Hi Es Hs. set (n := SBI_SVCALL_HART_START).
  pose proof (loaded_only_frame n [i; t; s; p] ltac:(cbn; lia)) as Ho.
  apply (start_call i t s p false); [done| |exact caller_same_regs].
  eexists. split; [|exact Ho]. unfold hart_get_status in Es.
  destruct (Z.geb_spec i MAX_ALLOWABLE_HARTS) as [Hge|Hlt].
  - unfold hart_start. by replace (i >=? MAX_ALLOWABLE_HARTS) with true by lia.
  - destruct (sbi_get st i Hok) as (hi & Ei & Hl & Hr); [lia|]. rewrite Ei in Es. injection Es as <-.
    destruct (only_frame_get _ _ _ i hi Ho Ei) as (hi' & Ei' & [Fd Fl _ _ _ _ _]).
    apply (hart_start_refused _ i hi'); [lia | done | congruence | by rewrite Fd].
Qed.

(** A hart that does not run is refused, and goes on. *)
Lemma stop_refused_ok : status (data h) <> HS_STARTED -> exists st',
  sbi_hart_stop e hart st = Ok (Returns, st') /\ resumed SBI_SVCALL_HART_STOP hart st st'.
Proof.
  intros Hs. destruct (sbi_get_ok st hart h Hok Hh) as [[Hl Hr] Hi]. unfold MAX_ALLOWABLE_HARTS in Hi.
  set (n := SBI_SVCALL_HART_STOP).
  destruct (plain_answer_ok n [] 0) as (st' & E & Hres); [cbn; lia | |].
  - handler n (@nil Z). rewrite (u32_id hart) by lia. unfold hart_stop, MAX_ALLOWABLE_HARTS.
    replace (hart >=? 8) with false by lia. rewrite (get_put_eq st hart h _ Hh). cbn [res_bind].
    change (lock (load n [] h)) with (lock h). rewrite Hl.
    change (mutex_trylock MUTEX_UNLOCKED) with (true, MUTEX_LOCKED). cbv beta iota.
    rewrite (upd_put st hart h _ _ Hh). cbn [res_bind negb]. rewrite decide_True by done.
    rewrite (upd_put st hart h _ _ Hh). cbn [res_bind]. unfold set_a0.
    rewrite !(upd_put st hart h _ _ Hh). cbn [res_bind]. change (Z.b2z false) with 0. do 3 f_equal.
    unfold set_lock, load, set_regs, csr_writes. cbn. by rewrite Hl.
  - exists st'. split; [|done]. unfold call in E. unfold sbi_hart_stop. fold n.
    destruct (ecall e hart n [] st) as [[[ex a] s]| | |]; try done. cbn [res_bind] in *.
    destruct ex; try done. by injection E as _ ->.
Qed.

(** A hart that runs stops: it goes to the wait loop of the monitor and has no timer. *)
Lemma stop_ok : status (data h) = HS_STARTED -> exists h',
  sbi_hart_stop e hart st = Ok (Mret, put st hart h') /\
  data h' = mkData HS_STOPPED (priv_mode (data h)) (target_address (data h)) (Sbi.scratch (data h)) (satp_ (data h)) /\
  csr h' mepc = park /\ mtimecmp h' = CLINT_MTIMECMP_INFINITE /\ lock h' = MUTEX_UNLOCKED.
Proof.
  intros Hs. destruct (sbi_get_ok st hart h Hok Hh) as [[Hl Hr] Hi].
  set (n := SBI_SVCALL_HART_STOP). set (x := load n [] h). unfold MAX_ALLOWABLE_HARTS in Hi.
  assert (lock x = MUTEX_UNLOCKED) as Hlx by done.
  assert (status (data x) = HS_STARTED) as Hsx by done.
  unfold sbi_hart_stop, ecall. fold n. rewrite (upd_hart_ok st hart h _ Hh). fold x. cbn [res_bind].
  unfold c_trap_handler. pose proof (get_put_eq st hart h x Hh) as Ex. rewrite Ex. cbn [res_bind].
  change (MCAUSE_IS_ASYNC CAUSE_ECALL_S_MODE) with false.
  change (MCAUSE_NUM CAUSE_ECALL_S_MODE =? CAUSE_ECALL_S_MODE) with true. cbv beta iota.
  unfold x at 1. handler n (@nil Z). fold x. change (n =? 1) with false. change (n =? 2) with false. change (n =? 3) with true. cbv beta iota. rewrite (u32_id hart) by lia.
  unfold hart_stop, clint_set_mtimecmp, MAX_ALLOWABLE_HARTS. replace (hart >=? 8) with false by lia.
  rewrite Ex. cbn [res_bind]. rewrite Hlx. change (mutex_trylock MUTEX_UNLOCKED) with (true, MUTEX_LOCKED).
  cbv beta iota. rewrite (upd_put st hart h x _ Hh). cbn [res_bind negb].
  rewrite decide_False by (intros Hc; by apply Hc).
  repeat (rewrite (upd_put st hart h _ _ Hh); cbn [res_bind fst snd]).
  rewrite (get_put_eq st hart h _ Hh). cbn [res_bind]. eexists. by split_and!.
Qed.

End one.

(** ** sbi_num_harts *)

Definition is_present (h : Hart) : bool := bool_decide (status (data h) <> HS_INVALID).

Definition present (l : list Hart) : Z := Z.of_nat (length (filter is_present l)).

Lemma num_harts_loop e hart st0 : sbi_ok st0 -> forall m i num st, i + Z.of_nat m = MAX_ALLOWABLE_HARTS ->
  0 <= i -> only_frame hart st0 st ->
  exists st', loop (S m)
    (fun '(i, num_harts, st) =>
       if i <? MAX_ALLOWABLE_HARTS then
         let* r := sbi_hart_get_status e hart i st in
         Ok (Next (i + 1, if fst r =? 0 then num_harts else num_harts + 1, snd r))
       else Ok (Done (num_harts, st))) (i, num, st) =
    Ok (num + present (drop (Z.to_nat i) (harts st0)), st') /\ only_frame hart st0 st'.
Proof.
  intros Hok0. induction m as [|m IH]; intros i num st Him Hi Ho; rewrite loop_S.
  - replace (i <? MAX_ALLOWABLE_HARTS) with false by lia. exists st. cbn [res_bind]. split; [|done].
    rewrite drop_ge by (rewrite (so_harts _ Hok0); lia). unfold present. cbn. by rewrite Z.add_0_r.
  - replace (i <? MAX_ALLOWABLE_HARTS) with true by lia.
    destruct (sbi_get st0 i Hok0) as (hi & Ei & _); [lia|].
    pose proof (only_frame_ok _ _ _ Hok0 Ho) as Hok.
    destruct Ho as (h0 & h1 & E0 & Est & F).
    assert (get_hart st hart = Ok h1) as E1 by (rewrite Est; by eapply get_put_eq).
    destruct (status_ok e hart st h1 Hok E1 i) as (s & st' & Es & -> & Hr & _).
    { unfold MAX_ALLOWABLE_HARTS in Him. lia. }
    assert (only_frame hart st0 st) as Ho by (by exists h0, h1).
    cbn [res_bind fst snd].
    destruct (IH (i + 1) (if status_code s =? 0 then num else num + 1) st') as (st2 & E2 & Ho2);
      [lia | lia | by eapply only_frame_trans |].
    exists st2. split; [|done]. rewrite E2. do 2 f_equal.
    rewrite (only_frame_status hart st0) in Es by done. unfold hart_get_status in Es.
    replace (i >=? MAX_ALLOWABLE_HARTS) with false in Es by lia. rewrite Ei in Es. injection Es as <-.
    apply get_hart_Some in Ei as [_ Ei]. rewrite (drop_S _ hi (Z.to_nat i)) by done.
    replace (Z.to_nat (i + 1)) with (S (Z.to_nat i)) by lia. unfold present. rewrite filter_cons.
    destruct (decide (is_present hi)) as [Hp|Hp]; cbn [length]; unfold is_present in Hp;
      destruct (status (data hi)); cbn in Hp |- *; try lia; by destruct Hp.
Qed.

(** sbi_num_harts asks the monitor for the status of every hart there may be and
    counts those that are present. It changes nothing but the argument registers. *)
Lemma num_harts_ok e hart st h : sbi_ok st -> get_hart st hart = Ok h ->
  exists st', sbi_num_harts e hart st = Ok (present (harts st), st') /\ only_frame hart st st'.
Proof.
  intros Hok Hh. apply (num_harts_loop e hart st Hok 8 0 0 st); [done | done |].
  by eapply only_frame_refl.
Qed.

(** (C28) Each call of the kernel is answered by the monitor. The number is
    the one the monitor knows, the arguments arrive, the result is the one of the call, the
    hart goes on behind its ecall, and of its state only the argument registers have
    changed: besides them a call changes the one thing it is for. Two calls do not come
    back: a running hart that stops is in the wait loop of the monitor, and sbi_poweroff
    ends with the key in the test device, which turns the machine off. sbi_ack_timer
    clears STIP, the pending timer interrupt of the supervisor. sbi_num_harts counts the
    harts that are present. *)
Theorem sbi_calls_correct e hart st h : sbi_ok st -> get_hart st hart = Ok h ->
  Forall byte_ok (contents (uart_as_ring (uart_ st))) -> 0 <= rdtime e < 2 ^ 64 ->
  0 <= rtc_low e < 2 ^ 32 -> 0 <= rtc_high e < 2 ^ 32 ->
  (exists st', sbi_whoami e hart st = Ok (hart, st') /\ resumed SBI_SVCALL_WHOAMI hart st st') /\
  (exists st', sbi_get_time e hart st = Ok (rdtime e, st') /\ resumed SBI_SVCALL_GET_TIME hart st st') /\
  (exists st', sbi_rtc_get_time e hart st = Ok (rtc_high e * 2 ^ 32 + rtc_low e, st') /\
     resumed SBI_SVCALL_RTC_GET_TIME hart st st') /\
  (forall c, exists st', sbi_putchar e hart c st = Ok st' /\
     resumed SBI_SVCALL_PUTCHAR hart (uart_put st c) st') /\
  (exists u st', sbi_getchar e hart st = Ok (default 0xff (head (contents (uart_as_ring (uart_ st)))), st') /\
     uart_ok u /\ contents (uart_as_ring u) = tail (contents (uart_as_ring (uart_ st))) /\
     resumed SBI_SVCALL_GETCHAR hart (set_uart st u (fifo st)) st') /\
  (exists st', sbi_ack_timer e hart st = Ok st' /\
     resumed SBI_SVCALL_ACK_TIMER hart (put st hart (clear_stip h)) st') /\
  (exists st', sbi_poweroff e hart st = Ok (PoweredOff, st') /\
     test_device st' = 0x5555 :: test_device st /\ only_frame hart (poweroff st) st') /\
  (forall i, 0 <= i < 2 ^ 32 -> exists s st', hart_get_status st i = Ok s /\
     (MAX_ALLOWABLE_HARTS <= i -> s = HS_INVALID) /\
     (forall hi, get_hart st i = Ok hi -> s = status (data hi)) /\
     sbi_hart_get_status e hart i st = Ok (status_code s, st') /\
     resumed SBI_SVCALL_HART_STATUS hart st st') /\
  (exists st', sbi_num_harts e hart st = Ok (present (harts st), st') /\ only_frame hart st st') /\
  (forall i hi v, get_hart st i = Ok hi ->
     (exists st', sbi_set_timer e hart i v st = Ok st' /\
        resumed SBI_SVCALL_SET_TIMECMP hart (put st i (set_mtimecmp v hi)) st') /\
     (exists st', sbi_add_timer e hart i v st = Ok st' /\
        resumed SBI_SVCALL_ADD_TIMECMP hart (put st i (set_mtimecmp (u64 (rdtime e + v)) hi)) st')) /\
  (forall i t s p hi, get_hart st i = Ok hi ->
     (status (data hi) = HS_STOPPED -> exists st', sbi_hart_start e hart i t s p st = Ok (1, st') /\
        resumed SBI_SVCALL_HART_START hart (put st i (asked t s p hi)) st') /\
     (status (data hi) <> HS_STOPPED -> exists st', sbi_hart_start e hart i t s p st = Ok (0, st') /\
        resumed SBI_SVCALL_HART_START hart st st')) /\
  (status (data h) = HS_STARTED -> exists h', sbi_hart_stop e hart st = Ok (Mret, put st hart h') /\
     data h' = mkData HS_STOPPED (priv_mode (data h)) (target_address (data h)) (Sbi.scratch (data h)) (satp_ (data h)) /\
     csr h' mepc = park /\ mtimecmp h' = CLINT_MTIMECMP_INFINITE /\ lock h' = MUTEX_UNLOCKED) /\
  (status (data h) <> HS_STARTED -> exists st', sbi_hart_stop e hart st = Ok (Returns, st') /\
     resumed SBI_SVCALL_HART_STOP hart st st').
Proof.
  intros Hok Hh Hb Ht Hlo Hhi.
  split; [by eapply whoami_ok|]. split; [by eapply time_ok|]. split; [by eapply rtc_ok|].
  split; [by intros; eapply putchar_ok|].
  split; [by eapply getchar_ok|]. split; [by eapply ack_ok|]. split; [by eapply poweroff_ok|].
  split; [|split; [by eapply num_harts_ok | split; [|split; [|split; [by eapply stop_ok | by eapply stop_refused_ok]]]]].
  - intros i Hi. destruct (status_ok e hart st h Hok Hh i Hi) as (s & st' & Es & E & Hr).
    exists s, st'. split_and!; try done; unfold hart_get_status in Es.
    + intros Hge. replace (i >=? MAX_ALLOWABLE_HARTS) with true in Es by lia. by injection Es as <-.
    + intros hi Ei. destruct (sbi_get_ok st i hi Hok Ei) as [_ Hm].
      replace (i >=? MAX_ALLOWABLE_HARTS) with false in Es by lia. rewrite Ei in Es. by injection Es as <-.
  - intros i hi v Ei. destruct (sbi_get_ok st i hi Hok Ei) as [_ Hi].
    split; [by eapply set_timer_ok | by eapply add_timer_ok].
  - intros i t s p hi Ei. destruct (sbi_get_ok st i hi Hok Ei) as [_ Hi].
    split; intros Hs; [by eapply start_stopped_ok|].
    eapply (start_refused_ok e hart st h Hok Hh i (status (data hi))); [| |done].
    + unfold MAX_ALLOWABLE_HARTS in Hi. lia.
    + unfold hart_get_status. replace (i >=? MAX_ALLOWABLE_HARTS) with false by lia. by rewrite Ei.
Qed.

End calls.

(** ** Concrete instances *)

Lemma sbi_calls_correct_witness : sbi_ok demo_sbi /\
  exists st', sbi_hart_start 64 (fun n => 4096 + 8 * n) demo_env 0 1 4096 7 9 demo_sbi = Ok (1, st') /\
    resumed (fun n => 4096 + 8 * n) 2 0 (put demo_sbi 1 (asked 4096 7 9 demo_hart)) st'.
Proof.
  split; [exact demo_sbi_ok|].
  destruct (sbi_calls_correct 64 (fun n => 4096 + 8 * n) demo_env 0 demo_sbi demo_hart demo_sbi_ok)
    as (_ & _ & _ & _ & _ & _ & _ & _ & _ & _ & Hs & _).
  - reflexivity.
  - vm_compute. constructor.
  - split; [discriminate | reflexivity].
  - split; [discriminate | reflexivity].
  - split; [discriminate | reflexivity].
  - destruct (Hs 1 4096 7 9 demo_hart eq_refl) as [Hs' _]. exact (Hs' eq_refl).
Defined.
