(* ===== verification/Uaccess.v ===== *)
(** Copies between the kernel and a process, src/src/uaccess.c, over the page tables of
    [Mmu]. The kernel's own addresses are physical (the identity map). *)
From S2P Require Import Prelude Mem Util Lock Page Mmu.

(** [MIN(ALIGN_UP_POT(phys + 1, PAGE_SIZE) - phys, size - copied)] *)
Definition chunk_size (phys size bytes_copied : Z) : Z :=
  s32 (Z.min (u64 (ALIGN_UP_POT (u64 (phys + 1)) PAGE_SIZE - phys)) (u64 (size - bytes_copied))).

(** One loop serves both directions: [itr] walks the user range, [ptr] the kernel
    buffer; [copy m phys ptr n] moves one chunk. *)
Definition user_copy (copy : mem -> Z -> Z -> Z -> res mem) (perms : Z)
    (m : mem) (ptr tab itr size : Z) : res (Z * mem) :=
  loop (S (Z.to_nat size))
    (fun '(itr, ptr, bytes_copied, m) =>
       if bytes_copied <? size then
         let* ok := mmu_access_ok m tab itr perms in
         if negb ok then Ok (Done (bytes_copied, m))
         else
           let* phys := mmu_translate m tab itr in
           if phys =? MMU_TRANSLATE_PAGE_FAULT then Ok (Done (bytes_copied, m))
           else
             let n := chunk_size phys size bytes_copied in
             let* m := copy m phys ptr n in
             Ok (Next (u64 (itr + n), u64 (ptr + n), u64 (bytes_copied + n), m))
       else Ok (Done (bytes_copied, m))) (itr, ptr, 0, m).

(** [required_perms]: user and read, user and write. *)
Definition copy_from (m : mem) (dst from_table from size : Z) : res (Z * mem) :=
  user_copy (fun m phys ptr n => memcpy m ptr phys n) 0x12 m dst from_table from size.

Definition copy_to (m : mem) (to to_table src size : Z) : res (Z * mem) :=
  user_copy (fun m phys ptr n => memcpy m phys ptr n) 0x14 m src to_table to size.

(** ** What a process can reach *)

(** The physical address of [v] for an access that needs [perms]. *)
Definition user_pa (m : mem) (tab perms v : Z) : option Z :=
  match walk 2 m tab v with
  | Ok (Some (l, e)) => if Z.land e perms =? perms then Some (leaf_pa l e v) else None
  | _ => None
  end.

Lemma vpn_page v v' l : 0 <= l <= 2 -> v / 4096 = v' / 4096 -> vpn v l = vpn v' l.
Proof.
  intros Hl E. rewrite !vpn_eq. assert (l = 0 \/ l = 1 \/ l = 2) as [-> | [-> | ->]] by lia; cbn.
  all: dlia.
Qed.

Lemma walk_page m v v' : v / 4096 = v' / 4096 -> forall l t, (l <= 2)%nat ->
  walk l m t v = walk l m t v'.
Proof.
  intros E. induction l as [|l IH]; intros t Hl; cbn [walk];
    rewrite (vpn_page v v') by (try lia; done); [done|].
  destruct (ld_entry _ _ _); cbn [res_bind]; [|done..]. by rewrite (IH (pte_table a)) by lia.
Qed.

(** A leaf address is the frame plus the offset. *)
Lemma leaf_pa_offset l e v : 0 <= l <= 2 -> exists f, 0 <= f /\
  leaf_pa l e v = f * 2 ^ (12 + 9 * l) + v mod 2 ^ (12 + 9 * l) /\
  forall v', leaf_pa l e v' = f * 2 ^ (12 + 9 * l) + v' mod 2 ^ (12 + 9 * l).
Proof.
  intros Hl. unfold leaf_pa, ADDR_0_BIT, ADDR_1_BIT, ADDR_2_BIT.
  change 0x3FFFFFFF with (Z.ones 30). change 0x1FFFFF with (Z.ones 21). change 0xFFF with (Z.ones 12).
  assert (forall k, 0 <= pte_ppn e k) as Hp.
  { intros k. rewrite pte_ppn_eq. destruct (k =? 0), (k =? 1); dlia. }
  assert (forall A n v, 0 <= n -> Z.lor (Z.shiftl A n) (Z.land v (Z.ones n)) = A * 2 ^ n + v mod 2 ^ n) as Hone.
  { intros A n w Hn. rewrite Z.land_ones by done. rewrite lor_shiftl_add; try lia.
    apply Z.mod_pos_bound. lia. }
  assert (forall a b, 0 <= a -> 0 <= b -> 0 <= Z.lor a b) as Hlor by (intros; by apply Z.lor_nonneg).
  assert (l = 0 \/ l = 1 \/ l = 2) as [-> | [-> | ->]] by lia; cbn [Z.eqb Pos.eqb Z.mul Z.add];
    change (12 + 9 * 0) with 12; change (12 + 9 * 1) with 21; change (12 + 9 * 2) with 30.
  - exists (Z.lor (Z.lor (Z.shiftl (pte_ppn e 2) 18) (Z.shiftl (pte_ppn e 1) 9)) (pte_ppn e 0)).
    split; [repeat apply Hlor; try apply Z.shiftl_nonneg; apply Hp|].
    split; [|intros v']; rewrite <- Hone by lia;
      rewrite !Z.shiftl_lor, !Z.shiftl_shiftl by lia; done.
  - exists (Z.lor (Z.shiftl (pte_ppn e 2) 9) (pte_ppn e 1)).
    split; [repeat apply Hlor; try apply Z.shiftl_nonneg; apply Hp|].
    split; [|intros v']; rewrite <- Hone by lia;
      rewrite !Z.shiftl_lor, !Z.shiftl_shiftl by lia; done.
  - exists (pte_ppn e 2). split; [apply Hp|]. split; [|intros v']; by rewrite <- Hone by lia.
Qed.

Lemma leaf_pa_bound l e v : 0 <= l <= 2 -> 0 <= leaf_pa l e v < 2 ^ 56.
Proof.
  intros Hl. unfold leaf_pa, ADDR_0_BIT, ADDR_1_BIT, ADDR_2_BIT.
  assert (forall k, 0 <= k < 2 -> 0 <= pte_ppn e k < 512) as H01.
  { intros k Hk. rewrite pte_ppn_eq. assert (k = 0 \/ k = 1) as [-> | ->] by lia; cbn; dlia. }
  assert (0 <= pte_ppn e 2 < 2 ^ 26) as H2 by (rewrite pte_ppn_eq; cbn; dlia).
  pose proof (H01 0 ltac:(lia)). pose proof (H01 1 ltac:(lia)).
  change 0x3FFFFFFF with (Z.ones 30). change 0x1FFFFF with (Z.ones 21). change 0xFFF with (Z.ones 12).
  assert (l = 0 \/ l = 1 \/ l = 2) as [-> | [-> | ->]] by lia; cbn [Z.eqb Pos.eqb];
    repeat apply lor_range; try lia; rewrite ?Z.land_ones, ?Z.shiftl_mul_pow2 by lia; dlia.
Qed.

Lemma walk_level m v : forall l t r e, walk l m t v = Ok (Some (r, e)) -> 0 <= r <= Z.of_nat l.
Proof.
  induction l as [|l IH]; intros t r e; cbn [walk]; destruct (ld_entry _ _ _); try done;
    cbn [res_bind]; destruct (valid a); try done; cbn [negb]; destruct (is_leaf a); try done.
  - intros [= <- <-]. lia.
  - intros [= <- <-]. lia.
  - intros H%IH. lia.
Qed.

(** Addresses of one page are contiguous. *)
Lemma user_pa_page m tab perms v pa k : user_pa m tab perms v = Some pa -> 0 <= v ->
  0 <= k < 4096 - v mod 4096 ->
  user_pa m tab perms (v + k) = Some (pa + k) /\ pa mod 4096 = v mod 4096 /\ 0 <= pa < 2 ^ 56.
Proof.
  intros H Hv Hk. unfold user_pa in *.
  rewrite <- (walk_page m v (v + k)) by (try dlia; lia).
  destruct (walk 2 m tab v) as [[[l e]|]| | |] eqn:Ew; try done.
  pose proof (walk_level _ _ _ _ _ _ Ew) as Hl. destruct (Z.land e perms =? perms); [|done].
  injection H as <-. destruct (leaf_pa_offset l e v Hl) as (f & Hf & E & E').
  rewrite (E' (v + k)), E. pose proof (leaf_pa_bound l e v Hl) as Hb. rewrite E in Hb.
  assert (l = 0 \/ l = 1 \/ l = 2) as [-> | [-> | ->]] by lia;
    [change (12 + 9 * 0) with 12 in *|change (12 + 9 * 1) with 21 in *|change (12 + 9 * 2) with 30 in *];
    (split; [f_equal; dlia|]); (split; [dlia|done]).
Qed.

Section copy.
Context {St : Type} `{!PageAllocator St} `{!PageAllocatorLaws St}.
Context (s : St) (tab : Z) (L : gmap Z nat) (Ht : tree_ok s tab L).

Notation M0 := (pa_mem s).

(** A memory that agrees with [M0] on the tables. *)
Definition tables_kept (m : mem) : Prop :=
  forall t l a, L !! t = Some l -> t <= a < t + 4096 -> m !! a = M0 !! a.

Lemma walk_kept m v : tables_kept m -> forall l t, L !! t = Some l ->
  walk l m t v = walk l M0 t v.
Proof.
  intros Hk. induction l as [|l IH]; intros t Hl; cbn [walk];
    assert (forall i, 0 <= i < 512 -> ld_entry m t i = ld_entry M0 t i) as He by
      (intros i Hi; apply ld_le_ext; intros b Hb; apply (Hk t _ b Hl); lia);
    rewrite He by apply vpn_range; [done|].
  destruct (ld_entry M0 t _) as [e| | |] eqn:E; try done. cbn [res_bind].
  destruct (valid e) eqn:Ev; [|done]. cbn [negb]. destruct (is_leaf e) eqn:El; [done|].
  destruct (tr_child _ _ _ Ht t (S l) _ e Hl (vpn_range _ _) E) as (l' & [= <-] & Hl'); [done|].
  by apply IH.
Qed.

Lemma user_pa_kept m perms v : tables_kept m -> user_pa m tab perms v = user_pa M0 tab perms v.
Proof. intros Hk. unfold user_pa. by rewrite (walk_kept m v Hk 2 tab (tr_root _ _ _ Ht)). Qed.

(** The two checks of the loop, on any memory that kept the tables. *)
Lemma user_checks m perms v : tables_kept m ->
  match user_pa M0 tab perms v with
  | None => mmu_access_ok m tab v perms = Ok false
  | Some pa => mmu_access_ok m tab v perms = Ok true /\ mmu_translate m tab v = Ok pa
  end.
Proof.
  intros Hk. pose proof (tree_root_nonzero _ _ _ Ht) as H0.
  rewrite access_walk, translate_walk, (walk_kept m v Hk) by (try done; apply Ht).
  destruct (walk_ok _ _ _ v 2 tab Ht (tr_root _ _ _ Ht)) as [w Ew]. unfold user_pa.
  rewrite Ew. cbn [res_bind]. destruct w as [[l e]|]; [|done]. cbn [access_of_walk pa_of_walk].
  by destruct (Z.land e perms =? perms).
Qed.

Lemma chunk_size_eq pa size c : 0 <= pa < 2 ^ 56 -> 0 <= c < size -> size < 2 ^ 64 ->
  chunk_size pa size c = Z.min (4096 - pa mod 4096) (size - c).
Proof.
  intros Hp Hc Hs. unfold chunk_size, PAGE_SIZE. change 4096 with (2 ^ 12).
  rewrite (u64_id (pa + 1)) by lia. rewrite align_up_pot by lia.
  assert ((pa + 1 + 2 ^ 12 - 1) / 2 ^ 12 * 2 ^ 12 - pa = 2 ^ 12 - pa mod 2 ^ 12) as -> by dlia.
  rewrite !u64_id by dlia. apply s32_id. dlia.
Qed.

Context (perms ptr itr size : Z).
Context (Hitr : 0 <= itr) (Hitr' : itr + size < 2 ^ 64) (Hptr : 0 <= ptr) (Hptr' : ptr + size < 2 ^ 64)
        (Hsize : 0 <= size).

(** The loop, over what one chunk does: [P c m] says the first [c] bytes are there. *)
Lemma user_copy_ok copy (P : Z -> mem -> Prop) :
  P 0 M0 -> (forall c m, P c m -> tables_kept m) ->
  (forall c m pa n, P c m -> 0 <= c -> 0 < n -> c + n <= size ->
     (forall k, 0 <= k < n -> user_pa M0 tab perms (itr + c + k) = Some (pa + k)) ->
     exists m', copy m pa (ptr + c) n = Ok m' /\ P (c + n) m') ->
  exists n m', user_copy copy perms M0 ptr tab itr size = Ok (n, m') /\ 0 <= n <= size /\ P n m' /\
    (forall i, 0 <= i < n -> is_Some (user_pa M0 tab perms (itr + i))) /\
    (n = size \/ user_pa M0 tab perms (itr + n) = None).
Proof.
  intros HP0 HPk Hcopy. unfold user_copy.
  edestruct (loop_total (fun '(i, p, c, m) => i = itr + c /\ p = ptr + c /\ 0 <= c <= size /\
      P c m /\ forall k, 0 <= k < c -> is_Some (user_pa M0 tab perms (itr + k)))
    (fun '(_, _, c, _) => Z.to_nat (size - c))
    (fun '(n, m') => 0 <= n <= size /\ P n m' /\
      (forall i, 0 <= i < n -> is_Some (user_pa M0 tab perms (itr + i))) /\
      (n = size \/ user_pa M0 tab perms (itr + n) = None)))
    as ([n m'] & E & HQ); [| | |exists n, m'; split; [exact E|exact HQ]].
  - intros [[[i p] c] m] (-> & -> & Hc & HP & Hpre). cbn beta iota.
    destruct (Z.ltb_spec c size); [|right; eexists; split; [done|]; split; [done|];
      split; [done|]; split; [done|]; left; lia].
    pose proof (user_checks m perms (itr + c) (HPk c m HP)) as Hch.
    destruct (user_pa M0 tab perms (itr + c)) as [pa|] eqn:Epa.
    2: { rewrite Hch. cbn [res_bind negb]. right. eexists. split; [done|]. repeat (split; [done|]). by right. }
    destruct Hch as [-> ->]. cbn [res_bind negb].
    destruct (user_pa_page M0 tab perms _ _ 0 Epa) as (_ & Hmod & Hpa); [lia|dlia|].
    change MMU_TRANSLATE_PAGE_FAULT with (2 ^ 64 - 1).
    replace (pa =? 2 ^ 64 - 1) with false by lia.
    rewrite (chunk_size_eq pa size c Hpa) by lia.
    pose proof (Z.mod_pos_bound pa 4096 ltac:(lia)).
    set (n := Z.min (4096 - pa mod 4096) (size - c)).
    assert (0 < n /\ c + n <= size /\ n <= 4096 - pa mod 4096) as (Hn & Hcn & Hnp) by lia.
    assert (forall k, 0 <= k < n -> user_pa M0 tab perms (itr + c + k) = Some (pa + k)) as Hall.
    { intros k Hk. apply (user_pa_page M0 tab perms _ _ k Epa); lia. }
    destruct (Hcopy c m pa n HP) as (m' & -> & HP'); try done; try lia.
    cbn [res_bind]. left. eexists. split; [done|]. wid. split; [|lia].
    split; [lia|]. split; [lia|]. split; [lia|]. split; [done|].
    intros k Hk. destruct (decide (k < c)); [apply Hpre; lia|].
    replace (itr + k) with (itr + c + (k - c)) by lia. rewrite Hall by lia. eauto.
  - split; [lia|]. split; [lia|]. split; [lia|]. split; [done|]. intros; lia.
  - cbn beta iota. lia.
Qed.

(** The physical addresses of the user range are backed by memory, and neither they nor
    the tables meet the kernel buffer. *)
Context (Hback : forall i pa, 0 <= i < size -> user_pa M0 tab perms (itr + i) = Some pa ->
  is_Some (M0 !! pa) /\ ~ (ptr <= pa < ptr + size)).
Context (Hbuf : mapped M0 ptr size).

Lemma chunk_apart c n pa : 0 <= c -> 0 < n -> c + n <= size ->
  (forall k, 0 <= k < n -> user_pa M0 tab perms (itr + c + k) = Some (pa + k)) ->
  mapped M0 pa n /\ (pa < ptr + c -> pa + n <= ptr + c) /\ (ptr + c < pa -> ptr + c + n <= pa) /\
  forall k, 0 <= k < n -> ~ (ptr <= pa + k < ptr + size).
Proof.
  intros Hc Hn Hcn Hall.
  assert (forall k, 0 <= k < n -> is_Some (M0 !! (pa + k)) /\ ~ (ptr <= pa + k < ptr + size)) as Hk.
  { intros k Hk. apply (Hback (c + k)); [lia|]. rewrite Z.add_assoc. by apply Hall. }
  split; [intros k Hk0; by apply Hk|]. split; [|split; [|intros k Hk0; by apply Hk]].
  - intros Hlt. destruct (decide (pa + n <= ptr + c)); [done|].
    destruct (Hk (ptr + c - pa)) as [_ Hno]; lia.
  - intros Hlt. destruct (decide (ptr + c + n <= pa)); [done|].
    destruct (Hk 0) as [_ Hno]; lia.
Qed.

(** *** Into the kernel *)

Definition copied_in (c : Z) (m : mem) : Prop :=
  stored M0 m ptr size /\
  forall i pa, 0 <= i < c -> user_pa M0 tab perms (itr + i) = Some pa -> m !! (ptr + i) = M0 !! pa.

Lemma copied_in_step c m pa n : copied_in c m -> 0 <= c -> 0 < n -> c + n <= size ->
  (forall k, 0 <= k < n -> user_pa M0 tab perms (itr + c + k) = Some (pa + k)) ->
  exists m', memcpy m (ptr + c) pa n = Ok m' /\ copied_in (c + n) m'.
Proof.
  intros [Hs Hc0] Hc Hn Hcn Hall.
  destruct (chunk_apart c n pa Hc Hn Hcn Hall) as (Hm & H1 & _ & Hno).
  destruct (memcpy_spec m (ptr + c) pa n) as (m' & E & Hst & Hcp); [| lia | | | done |].
  - apply (stored_ok _ _ _ _ Hs), pa_inv_ok, Ht.
  - eapply stored_mapped; [exact Hs|]. eapply mapped_mono; [exact Hbuf|lia|lia].
  - by eapply stored_mapped.
  - exists m'. split; [exact E|]. split.
    + eapply stored_trans; [exact Hs|]. eapply stored_mono; [exact Hst|lia|lia].
    + intros i q Hi Hq. destruct (decide (i < c)).
      * rewrite (stored_out _ _ _ _ Hst) by lia. apply (Hc0 i q); [lia|done].
      * specialize (Hall (i - c) ltac:(lia)). replace (itr + c + (i - c)) with (itr + i) in Hall by lia.
        rewrite Hall in Hq. injection Hq as <-.
        replace (ptr + i) with (ptr + c + (i - c)) by lia. rewrite Hcp by lia.
        apply (stored_out _ _ _ _ Hs). apply Hno. lia.
Qed.

(** *** Out to the process *)

Definition copied_out (c : Z) (m : mem) : Prop :=
  dom m = dom M0 /\ mem_ok m /\
  (forall a, (forall i, 0 <= i < c -> user_pa M0 tab perms (itr + i) <> Some a) -> m !! a = M0 !! a) /\
  (forall i pa, 0 <= i < c -> user_pa M0 tab perms (itr + i) = Some pa -> m !! pa = M0 !! (ptr + i)).

Lemma copied_out_step c m pa n :
  (forall i j pa, 0 <= i < size -> 0 <= j < size -> user_pa M0 tab perms (itr + i) = Some pa ->
     user_pa M0 tab perms (itr + j) = Some pa -> i = j) ->
  copied_out c m -> 0 <= c -> 0 < n -> c + n <= size ->
  (forall k, 0 <= k < n -> user_pa M0 tab perms (itr + c + k) = Some (pa + k)) ->
  exists m', memcpy m pa (ptr + c) n = Ok m' /\ copied_out (c + n) m'.
Proof.
  intros Hinj (Hd & Hok & Hout & Hin) Hc Hn Hcn Hall.
  destruct (chunk_apart c n pa Hc Hn Hcn Hall) as (Hm & _ & H2 & Hno).
  assert (forall i, c <= i < c + n -> user_pa M0 tab perms (itr + i) = Some (pa + (i - c))) as Hall'.
  { intros i Hi. rewrite <- Hall by lia. f_equal. lia. }
  destruct (memcpy_spec m pa (ptr + c) n) as (m' & E & Hst & Hcp); [done | lia | | | done |].
  - by eapply mapped_dom.
  - eapply mapped_dom; [done|]. eapply mapped_mono; [exact Hbuf|lia|lia].
  - exists m'. split; [exact E|]. split; [|split; [|split]].
    + rewrite (stored_dom _ _ _ _ Hst). done.
    + by apply (stored_ok _ _ _ _ Hst).
    + intros a Ha. rewrite (stored_out _ _ _ _ Hst); [apply Hout; intros i Hi; apply Ha; lia|].
      intros Hpa. apply (Ha (c + (a - pa))); [lia|]. rewrite Hall' by lia. f_equal. lia.
    + intros i q Hi Hq. destruct (decide (i < c)).
      * rewrite (stored_out _ _ _ _ Hst); [apply (Hin i q); [lia|done]|].
        intros Hpa. assert (i = c + (q - pa)); [|lia]. apply (Hinj i _ q); try lia; [done|].
        rewrite Hall' by lia. f_equal. lia.
      * rewrite Hall' in Hq by lia. injection Hq as <-. rewrite Hcp by lia.
        replace (ptr + c + (i - c)) with (ptr + i) by lia. apply Hout.
        intros j Hj Ej. destruct (Hback j _ ltac:(lia) Ej) as [_ Hb]. lia.
Qed.

End copy.

Lemma copy_from_ok {St} `{PageAllocatorLaws St} (s : St) dst tab L from size :
  tree_ok s tab L -> 0 <= from -> from + size < 2 ^ 64 -> 0 <= dst -> dst + size < 2 ^ 64 ->
  0 <= size -> mapped (pa_mem s) dst size ->
  (forall t l, L !! t = Some l -> dst + size <= t \/ t + 4096 <= dst) ->
  (forall i pa, 0 <= i < size -> user_pa (pa_mem s) tab 0x12 (from + i) = Some pa ->
     is_Some (pa_mem s !! pa) /\ ~ (dst <= pa < dst + size)) ->
  exists n m', copy_from (pa_mem s) dst tab from size = Ok (n, m') /\ 0 <= n <= size /\
    (n = size \/ user_pa (pa_mem s) tab 0x12 (from + n) = None) /\
    stored (pa_mem s) m' dst size /\
    forall i, 0 <= i < n -> exists pa, user_pa (pa_mem s) tab 0x12 (from + i) = Some pa /\
      m' !! (dst + i) = pa_mem s !! pa.
Proof.
  intros Ht Hf Hf' Hd Hd' Hs Hbuf Htab Hback.
  destruct (user_copy_ok s tab L Ht 0x12 dst from size Hf Hf' Hd Hd' Hs
    (fun m phys ptr n => memcpy m ptr phys n) (copied_in s tab 0x12 dst from size))
    as (n & m' & E & Hn & [Hst Hcp] & Hall & Hend).
  - split; [apply stored_refl|]. intros; lia.
  - intros c m [Hst _] t l a Hl Ha. apply (stored_out _ _ _ _ Hst).
    destruct (Htab t l Hl); lia.
  - intros c m pa n. by apply (copied_in_step s tab L Ht).
  - exists n, m'. split; [exact E|]. do 3 (split; [done|]). intros i Hi.
    destruct (Hall i Hi) as [pa Epa]. exists pa. split; [done|]. by apply Hcp.
Qed.

(** copy_from copies exactly what the process may read: it returns the number of bytes
    before the first address that is not mapped readable for the user (or all of them),
    the buffer holds those bytes as the page tables map them, page by page, and no
    other memory changes. *)
Theorem copy_from_correct {St} `{PageAllocatorLaws St} (s : St) dst tab L from size :
  tree_ok s tab L -> 0 <= from -> from + size < 2 ^ 64 -> 0 <= dst -> dst + size < 2 ^ 64 ->
  0 <= size -> mapped (pa_mem s) dst size ->
  (forall t l, L !! t = Some l -> dst + size <= t \/ t + 4096 <= dst) ->
  (forall i pa, 0 <= i < size -> user_pa (pa_mem s) tab 0x12 (from + i) = Some pa ->
     is_Some (pa_mem s !! pa) /\ ~ (dst <= pa < dst + size)) ->
  exists n m', copy_from (pa_mem s) dst tab from size = Ok (n, m') /\ 0 <= n <= size /\
    (n = size \/ user_pa (pa_mem s) tab 0x12 (from + n) = None) /\
    stored (pa_mem s) m' dst size /\
    forall i, 0 <= i < n -> exists pa, user_pa (pa_mem s) tab 0x12 (from + i) = Some pa /\
      m' !! (dst + i) = pa_mem s !! pa.
Proof. apply (copy_from_ok s dst tab L from size). Qed.

Lemma copy_to_ok {St} `{PageAllocatorLaws St} (s : St) to tab L src size :
  tree_ok s tab L -> 0 <= to -> to + size < 2 ^ 64 -> 0 <= src -> src + size < 2 ^ 64 ->
  0 <= size -> mapped (pa_mem s) src size ->
  (forall i pa, 0 <= i < size -> user_pa (pa_mem s) tab 0x14 (to + i) = Some pa ->
     is_Some (pa_mem s !! pa) /\ ~ (src <= pa < src + size) /\
     forall t l, L !! t = Some l -> ~ (t <= pa < t + 4096)) ->
  (forall i j pa, 0 <= i < size -> 0 <= j < size ->
     user_pa (pa_mem s) tab 0x14 (to + i) = Some pa ->
     user_pa (pa_mem s) tab 0x14 (to + j) = Some pa -> i = j) ->
  exists n m', copy_to (pa_mem s) to tab src size = Ok (n, m') /\ 0 <= n <= size /\
    (n = size \/ user_pa (pa_mem s) tab 0x14 (to + n) = None) /\
    (forall a, (forall i, 0 <= i < n -> user_pa (pa_mem s) tab 0x14 (to + i) <> Some a) ->
       m' !! a = pa_mem s !! a) /\
    forall i, 0 <= i < n -> exists pa, user_pa (pa_mem s) tab 0x14 (to + i) = Some pa /\
      m' !! pa = pa_mem s !! (src + i).
Proof.
  intros Ht Hf Hf' Hd Hd' Hs Hbuf Hback Hinj.
  destruct (user_copy_ok s tab L Ht 0x14 src to size Hf Hf' Hd Hd' Hs
    (fun m phys ptr n => memcpy m phys ptr n)
    (fun c m => c <= size /\ copied_out s tab 0x14 src to c m))
    as (n & m' & E & Hn & (_ & _ & _ & Hout & Hin) & Hall & Hend).
  - split; [lia|]. split; [done|]. split; [apply pa_inv_ok, Ht|]. split; [done|]. intros; lia.
  - intros c m (Hc & _ & _ & Hout & _) t l a Hl Ha. apply Hout. intros i Hi Ei.
    destruct (Hback i a ltac:(lia) Ei) as (_ & _ & Hno). by apply (Hno t l Hl).
  - intros c m pa n [_ Hc] H0 Hn Hcn Hall.
    destruct (copied_out_step s tab 0x14 src to size) with (c := c) (m := m) (pa := pa) (n := n)
      as (m' & E & Hc'); try done; [|by exists m'].
    intros i q Hi Eq. destruct (Hback i q Hi Eq) as (? & ? & _). done.
  - exists n, m'. split; [exact E|]. do 3 (split; [done|]). intros i Hi.
    destruct (Hall i Hi) as [pa Epa]. exists pa. split; [done|]. by apply Hin.
Qed.

(** (C7) copy_to writes exactly where the process may write: it returns the number of bytes
    before the first address that is not mapped writable for the user (or all of them),
    those bytes are at the physical addresses of the user range, and no other memory
    changes, whatever pages the range crosses. *)
Theorem copy_to_correct {St} `{PageAllocatorLaws St} (s : St) to tab L src size :
  tree_ok s tab L -> 0 <= to -> to + size < 2 ^ 64 -> 0 <= src -> src + size < 2 ^ 64 ->
  0 <= size -> mapped (pa_mem s) src size ->
  (forall i pa, 0 <= i < size -> user_pa (pa_mem s) tab 0x14 (to + i) = Some pa ->
     is_Some (pa_mem s !! pa) /\ ~ (src <= pa < src + size) /\
     forall t l, L !! t = Some l -> ~ (t <= pa < t + 4096)) ->
  (forall i j pa, 0 <= i < size -> 0 <= j < size ->
     user_pa (pa_mem s) tab 0x14 (to + i) = Some pa ->
     user_pa (pa_mem s) tab 0x14 (to + j) = Some pa -> i = j) ->
  exists n m', copy_to (pa_mem s) to tab src size = Ok (n, m') /\ 0 <= n <= size /\
    (n = size \/ user_pa (pa_mem s) tab 0x14 (to + n) = None) /\
    (forall a, (forall i, 0 <= i < n -> user_pa (pa_mem s) tab 0x14 (to + i) <> Some a) ->
       m' !! a = pa_mem s !! a) /\
    forall i, 0 <= i < n -> exists pa, user_pa (pa_mem s) tab 0x14 (to + i) = Some pa /\
      m' !! pa = pa_mem s !! (src + i).
Proof. apply (copy_to_ok s to tab L src size). Qed.

(** ** A concrete process: the heap of [Mmu], whose root table maps the first GiB of
    physical memory at 0x40000000, readable and writable for the user *)

#[local] Existing Instances demo_alloc demo_laws.

Definition user_mem : mem := <[8200 := 31]> demo_mem.
Definition user_state : page_state := mkPages user_mem MUTEX_UNLOCKED.

Lemma demo_root_owned : page_owned 4096 24576 demo_tree 8192.
Proof.
  exists 1. split; [done|]. change (num_pages 4096 24576) with 5.
  change (num_pages_bk 4096 24576) with 1. split; [lia|]. cbn [pmem demo_tree].
  rewrite !demo_bits by lia. done.
Qed.

Lemma user_stored : stored demo_mem user_mem 8200 1.
Proof.
  eapply (st8_stored _ _ 31). unfold st8. rewrite demo_lookup by lia. exact eq_refl.
Qed.

Lemma user_lookup a : 4096 < a < 24576 -> user_mem !! a = Some (if a =? 8200 then 31 else 0).
Proof.
  intros Ha. unfold user_mem. destruct (Z.eqb_spec a 8200) as [->|].
  - by rewrite lookup_insert_eq.
  - rewrite lookup_insert_ne by done. by apply demo_lookup.
Qed.

#[local] Opaque user_mem demo_mem.

(** A root table whose only valid entry is that leaf. *)
Definition one_leaf (m : mem) : Prop := forall i, 0 <= i < 512 ->
  ld_entry m 8192 i = Ok (if i =? 1 then 31 else 0).

Lemma one_leaf_tree_ok {St} `{PageAllocatorLaws St} (s : St) : pa_inv s -> pa_owned s 8192 ->
  one_leaf (pa_mem s) -> tree_ok s 8192 {[ 8192 := 2%nat ]}.
Proof.
  intros Hi Hown Hl.
  assert (forall t l i e, ({[ 8192 := 2%nat ]} : gmap Z nat) !! t = Some l -> 0 <= i < 512 ->
    ld_entry (pa_mem s) t i = Ok e -> ~ branch e) as Hno.
  { intros t l i e [<- _]%lookup_singleton_Some Hr E. rewrite Hl in E by done. injection E as <-.
    unfold branch. destruct (i =? 1); vm_compute; intros [? ?]; discriminate. }
  split.
  - exact Hi.
  - apply lookup_singleton_eq.
  - intros t l [<- _]%lookup_singleton_Some. exact Hown.
  - intros t l i e E Hr Ee Hb. destruct (Hno t l i e E Hr Ee Hb).
  - intros t1 t2 l1 l2 i1 i2 e1 e2 E1 _ H1 _ D1 _ Hb. destruct (Hno t1 l1 i1 e1 E1 H1 D1 Hb).
Qed.

Lemma one_leaf_pa m perms k : one_leaf m -> Z.land 31 perms = perms -> 0 <= k < 2 ^ 30 ->
  user_pa m 8192 perms (0x40000000 + k) = Some k.
Proof.
  intros Hl Hp Hk. assert (vpn (0x40000000 + k) (Z.of_nat 2) = 1) as Ev
    by (rewrite vpn_eq; change (Z.of_nat 2) with 2; cbn [Z.eqb Pos.eqb]; dlia).
  assert (walk 2 m 8192 (0x40000000 + k) = Ok (Some (2, 31))) as Ew
    by (cbn [walk]; rewrite Ev, Hl by lia; done).
  unfold user_pa. rewrite Ew, Hp, Z.eqb_refl.
  destruct (leaf_pa_offset 2 31 0x40000000 ltac:(lia)) as (f & Hf & E0 & E).
  change (leaf_pa 2 31 0x40000000) with 0 in E0. rewrite (E (0x40000000 + k)).
  change (12 + 9 * 2) with 30 in *. f_equal. assert (f = 0) as -> by dlia. dlia.
Qed.

Lemma user_entry : one_leaf user_mem.
Proof.
  intros i Hi. unfold ld_entry, ld64. cbn [ld_le]. unfold ld8.
  rewrite !user_lookup by lia. cbn [deref res_bind].
  destruct (Z.eqb_spec i 1) as [->|]; [done|].
  repeat match goal with |- context [?a =? 8200] => replace (a =? 8200) with false by lia end. done.
Qed.

Lemma user_state_inv : pa_inv user_state /\ pa_owned user_state 8192.
Proof.
  destruct (pa_write_law demo_tree 8192 user_mem 8200 1) as (Hi & _ & Hown & _).
  - split; [apply demo_tree_inv|apply demo_mapped].
  - exact demo_root_owned.
  - exact user_stored.
  - lia.
  - lia.
  - split; [exact Hi|exact (Hown 8192 demo_root_owned)].
Qed.

Lemma user_state_mem : pa_mem user_state = user_mem.
Proof. exact eq_refl. Qed.

Lemma user_tree_ok : tree_ok user_state 8192 {[ 8192 := 2%nat ]}.
Proof.
  destruct user_state_inv as [Hi Hown]. apply one_leaf_tree_ok; [done | done |].
  rewrite user_state_mem. exact user_entry.
Qed.

Lemma user_pa_demo perms k : Z.land 31 perms = perms -> 0 <= k < 4096 ->
  user_pa user_mem 8192 perms (0x40003000 + k) = Some (12288 + k).
Proof.
  intros Hp Hk. replace (0x40003000 + k) with (0x40000000 + (12288 + k)) by lia.
  apply one_leaf_pa; [exact user_entry | exact Hp | lia].
Qed.

Lemma demo_page_backed p : 8193 <= p <= 24572 -> mapped user_mem p 4.
Proof. intros Hp i Hi. rewrite user_lookup by lia. eauto. Qed.

Lemma copy_from_correct_witness :
  exists n m', copy_from user_mem 16384 8192 0x40003000 4 = Ok (n, m') /\ 0 <= n <= 4 /\
    (n = 4 \/ user_pa user_mem 8192 0x12 (0x40003000 + n) = None) /\
    stored user_mem m' 16384 4 /\
    forall i, 0 <= i < n -> exists pa, user_pa user_mem 8192 0x12 (0x40003000 + i) = Some pa /\
      m' !! (16384 + i) = user_mem !! pa.
Proof.
  rewrite <- user_state_mem.
  apply (copy_from_correct user_state 16384 8192 _ 0x40003000 4 user_tree_ok); rewrite ?user_state_mem; try lia.
  - apply demo_page_backed. lia.
  - intros t l [<- _]%lookup_singleton_Some. lia.
  - intros i pa Hi E. rewrite (user_pa_demo 0x12 i) in E by (try reflexivity; lia). injection E as <-.
    rewrite user_lookup by lia. split; [eauto|lia].
Defined.

Lemma copy_to_correct_witness :
  exists n m', copy_to user_mem 0x40003000 8192 16384 4 = Ok (n, m') /\ 0 <= n <= 4 /\
    (n = 4 \/ user_pa user_mem 8192 0x14 (0x40003000 + n) = None) /\
    (forall a, (forall i, 0 <= i < n -> user_pa user_mem 8192 0x14 (0x40003000 + i) <> Some a) ->
       m' !! a = user_mem !! a) /\
    forall i, 0 <= i < n -> exists pa, user_pa user_mem 8192 0x14 (0x40003000 + i) = Some pa /\
      m' !! pa = user_mem !! (16384 + i).
Proof.
  rewrite <- user_state_mem.
  apply (copy_to_correct user_state 0x40003000 8192 {[ 8192 := 2%nat ]} 16384 4 user_tree_ok);
    rewrite ?user_state_mem; try lia.
  - apply demo_page_backed. lia.
  - intros i pa Hi E. rewrite (user_pa_demo 0x14 i) in E by (try reflexivity; lia).
    injection E as <-. rewrite user_lookup by lia. split; [eauto|]. split; [lia|].
    intros t l [<- _]%lookup_singleton_Some. lia.
  - intros i j pa Hi Hj Ei Ej. rewrite user_pa_demo in Ei, Ej by (try reflexivity; lia). 
    injection Ei as <-. injection Ej. lia.
Defined.
