(* ===== verification/Process.v ===== *)
(** Processes, src/src/process.c, and the kernel state the scheduler and the system calls
    share.

    The process control blocks are records in a map from their addresses; the lists they
    own live in the pointer heap of [DList]; pages and page tables go through the
    allocator interface of [Mmu]. The addresses [kmalloc] will return are the oracle
    [fresh] (0 once it is used up); what is handed to [kfree] is recorded in [freed],
    except the nodes of the lists, which leave the pointer heap. *)
From S2P Require Import Prelude Mem Lock Page Mmu RBTree DList.

Inductive process_mode := PM_USER | PM_SUPERVISOR.

#[export] Instance process_mode_eq_dec : EqDecision process_mode.
Proof. solve_decision. Defined.

Inductive process_state := PS_DEAD | PS_WAITING | PS_SLEEPING | PS_RUNNING.

#[export] Instance process_state_eq_dec : EqDecision process_state.
Proof. solve_decision. Defined.

Definition HART_NONE : Z := 2 ^ 32 - 1.

Record trap_frame := mkFrame {
  xregs : list Z;
  sepc : Z;
  sstatus : Z;
  sie : Z;
  satp : Z;
  sscratch : Z;
  stvec : Z;
  trap_satp : Z;
  trap_stack : Z
}.

(** The fields of [struct process] the kernel uses; lists and vectors by address. *)
Record Process := mkProcess {
  frame : trap_frame;
  state : process_state;
  image_pages : Z;
  heap_pages : Z;
  vruntime : Z;
  pid : Z;
  hart : Z;
  sleep_until_ : Z;
  ran_at : Z;
  quantum : Z;
  ptable : Z;
  pages : Z;
  fds : Z
}.

Definition set_frame (f : trap_frame) (p : Process) : Process :=
  mkProcess f (state p) (image_pages p) (heap_pages p) (vruntime p) (pid p) (hart p)
    (sleep_until_ p) (ran_at p) (quantum p) (ptable p) (pages p) (fds p).
Definition set_state (s : process_state) (p : Process) : Process :=
  mkProcess (frame p) s (image_pages p) (heap_pages p) (vruntime p) (pid p) (hart p)
    (sleep_until_ p) (ran_at p) (quantum p) (ptable p) (pages p) (fds p).
Definition set_hart (h : Z) (p : Process) : Process :=
  mkProcess (frame p) (state p) (image_pages p) (heap_pages p) (vruntime p) (pid p) h
    (sleep_until_ p) (ran_at p) (quantum p) (ptable p) (pages p) (fds p).
Definition set_sleep (t : Z) (p : Process) : Process :=
  mkProcess (frame p) PS_SLEEPING (image_pages p) (heap_pages p) (vruntime p) (pid p) (hart p)
    t (ran_at p) (quantum p) (ptable p) (pages p) (fds p).
Definition set_vruntime (v : Z) (p : Process) : Process :=
  mkProcess (frame p) (state p) (image_pages p) (heap_pages p) v (pid p) (hart p)
    (sleep_until_ p) (ran_at p) (quantum p) (ptable p) (pages p) (fds p).
Definition set_ran_at (v : Z) (p : Process) : Process :=
  mkProcess (frame p) (state p) (image_pages p) (heap_pages p) (vruntime p) (pid p) (hart p)
    (sleep_until_ p) v (quantum p) (ptable p) (pages p) (fds p).

Definition set_sepc (v : Z) (f : trap_frame) : trap_frame :=
  mkFrame (xregs f) v (sstatus f) (sie f) (satp f) (sscratch f) (stvec f) (trap_satp f)
    (trap_stack f).
Definition set_trap_stack (v : Z) (f : trap_frame) : trap_frame :=
  mkFrame (xregs f) (sepc f) (sstatus f) (sie f) (satp f) (sscratch f) (stvec f) (trap_satp f) v.

(** What the kernel asks of the monitor, in order. *)
Inductive Event :=
  | AddTimer (hart val : Z)
  | RunHere (p : Z)           (* process_asm_run on the calling hart *)
  | StartHart (hart p : Z).   (* sbi_hart_start *)

(** The vector of file descriptors in memory: [struct Vector] of src/util/src/vector.c,
    whose elements are a block of their own. The kernel stores nothing in it. *)
Record FdVector := mkFds { fd_size : Z; fd_capacity : Z; fd_values : Z }.

Record Kernel (St : Type) := mkKernel {
  pa : St;
  lists : lheap;
  procs : gmap Z Process;
  fresh : list Z;
  freed : list Z;
  pid_c : Z;
  kernel_mmu_table : Z;
  g_processes : Z;
  curr_list_elem : Z;
  idle_process : Z;
  tree_lock : Mutex;
  trap_stack_vaddr : Z;
  g_runnable_procs : RBTree;
  events : list Event;
  vectors : gmap Z FdVector
}.
Arguments mkKernel {St}.
Arguments pa {St}. Arguments lists {St}. Arguments procs {St}. Arguments fresh {St}.
Arguments freed {St}. Arguments pid_c {St}. Arguments kernel_mmu_table {St}.
Arguments g_processes {St}. Arguments curr_list_elem {St}. Arguments idle_process {St}.
Arguments tree_lock {St}. Arguments trap_stack_vaddr {St}. Arguments g_runnable_procs {St}.
Arguments events {St}. Arguments vectors {St}.

Section kernel.
Context {St : Type}.
Implicit Type k : Kernel St.

Definition set_pa k (v : St) := mkKernel v (lists k) (procs k) (fresh k) (freed k) (pid_c k)
  (kernel_mmu_table k) (g_processes k) (curr_list_elem k) (idle_process k) (tree_lock k)
  (trap_stack_vaddr k) (g_runnable_procs k) (events k) (vectors k).
Definition set_lists k v := mkKernel (pa k) v (procs k) (fresh k) (freed k) (pid_c k)
  (kernel_mmu_table k) (g_processes k) (curr_list_elem k) (idle_process k) (tree_lock k)
  (trap_stack_vaddr k) (g_runnable_procs k) (events k) (vectors k).
Definition set_procs k v := mkKernel (pa k) (lists k) v (fresh k) (freed k) (pid_c k)
  (kernel_mmu_table k) (g_processes k) (curr_list_elem k) (idle_process k) (tree_lock k)
  (trap_stack_vaddr k) (g_runnable_procs k) (events k) (vectors k).
Definition set_fresh k v := mkKernel (pa k) (lists k) (procs k) v (freed k) (pid_c k)
  (kernel_mmu_table k) (g_processes k) (curr_list_elem k) (idle_process k) (tree_lock k)
  (trap_stack_vaddr k) (g_runnable_procs k) (events k) (vectors k).
Definition set_freed k v := mkKernel (pa k) (lists k) (procs k) (fresh k) v (pid_c k)
  (kernel_mmu_table k) (g_processes k) (curr_list_elem k) (idle_process k) (tree_lock k)
  (trap_stack_vaddr k) (g_runnable_procs k) (events k) (vectors k).
Definition set_pid_c k v := mkKernel (pa k) (lists k) (procs k) (fresh k) (freed k) v
  (kernel_mmu_table k) (g_processes k) (curr_list_elem k) (idle_process k) (tree_lock k)
  (trap_stack_vaddr k) (g_runnable_procs k) (events k) (vectors k).
Definition set_sched k gp cle idle ts := mkKernel (pa k) (lists k) (procs k) (fresh k) (freed k)
  (pid_c k) (kernel_mmu_table k) gp cle idle (tree_lock k) ts (g_runnable_procs k) (events k)
  (vectors k).
Definition set_curr k v := set_sched k (g_processes k) v (idle_process k) (trap_stack_vaddr k).
Definition set_tree_lock k v := mkKernel (pa k) (lists k) (procs k) (fresh k) (freed k) (pid_c k)
  (kernel_mmu_table k) (g_processes k) (curr_list_elem k) (idle_process k) v
  (trap_stack_vaddr k) (g_runnable_procs k) (events k) (vectors k).
Definition set_runnable k v := mkKernel (pa k) (lists k) (procs k) (fresh k) (freed k) (pid_c k)
  (kernel_mmu_table k) (g_processes k) (curr_list_elem k) (idle_process k) (tree_lock k)
  (trap_stack_vaddr k) v (events k) (vectors k).
Definition set_vectors k v := mkKernel (pa k) (lists k) (procs k) (fresh k) (freed k) (pid_c k)
  (kernel_mmu_table k) (g_processes k) (curr_list_elem k) (idle_process k) (tree_lock k)
  (trap_stack_vaddr k) (g_runnable_procs k) (events k) v.
Definition emit k e := mkKernel (pa k) (lists k) (procs k) (fresh k) (freed k) (pid_c k)
  (kernel_mmu_table k) (g_processes k) (curr_list_elem k) (idle_process k) (tree_lock k)
  (trap_stack_vaddr k) (g_runnable_procs k) (events k ++ [e]) (vectors k).

Definition proc k p : res Process := deref (procs k !! p).

Definition upd_proc k p (f : Process -> Process) : res (Kernel St) :=
  let* x := proc k p in Ok (set_procs k (<[p := f x]> (procs k))).

(** [kmalloc]: the next address of the oracle. *)
Definition kalloc k : Z * Kernel St :=
  match fresh k with [] => (0, k) | a :: r => (a, set_fresh k r) end.

(** [kfree]: the block is gone, whichever structure it held. *)
Definition kfree_ k a : Kernel St :=
  if a =? 0 then k
  else set_freed (set_vectors (set_procs k (delete a (procs k))) (delete a (vectors k)))
         (a :: freed k).

Definition new_list k : res (Z * Kernel St) :=
  let '(a, k) := kalloc k in
  let* r := list_new (lists k) a in Ok (fst r, set_lists k (snd r)).

(** [vector_new_with_capacity] and [vector_free]: two blocks, the vector and its values. *)
Definition fd_vector_new k (capacity : Z) : Z * Kernel St :=
  let '(vec, k) := kalloc k in
  if vec =? 0 then (0, k)
  else
    let '(values, k) := kalloc k in
    (vec, set_vectors k (<[vec := mkFds 0 capacity values]> (vectors k))).

Definition fd_vector_free k vec : res (Kernel St) :=
  let* v := deref (vectors k !! vec) in
  let k := kfree_ k (fd_values v) in
  let* v := deref (vectors k !! vec) in
  let k := set_vectors k (<[vec := mkFds 0 0 (fd_values v)]> (vectors k)) in
  Ok (kfree_ k vec).

Definition add_to_list k lst v : res (Kernel St) :=
  let '(a, k) := kalloc k in
  let* h := list_add (lists k) lst a v in Ok (set_lists k h).
End kernel.

(** ** process_new *)

Definition STACK_PAGES : Z := 2.
Definition STACK_SIZE : Z := STACK_PAGES * PAGE_SIZE.
Definition STACK_TOP : Z := 0xfffffffc0ffee000.
Definition KERNEL_ASID : Z := 0xFFFF.

Definition SATP (table asid : Z) : Z :=
  Z.lor (Z.lor (Z.shiftl 8 60) (Z.land (Z.shiftr table 12) 0xFFFFFFFFFFF))
        (Z.shiftl (Z.land asid 0xFFFF) 44).

Definition SSTATUS_SPP_BOOL (x : process_mode) : Z :=
  Z.shiftl (match x with PM_USER => 0 | PM_SUPERVISOR => 1 end) 8.
Definition SSTATUS_FS_INITIAL : Z := Z.shiftl 1 13.
Definition SSTATUS_SPIE : Z := Z.shiftl 1 5.
Definition SIE_ALL : Z := Z.lor (Z.lor (Z.shiftl 1 9) (Z.shiftl 1 1)) (Z.shiftl 1 5).

Section process.
Context {St : Type} `{!PageAllocator St}.
Context (trampoline_thread_start trampoline_trap_start : Z).
Implicit Type k : Kernel St.

Definition map_in k tab vaddr paddr bits : res (bool * Kernel St) :=
  let* r := mmu_map (pa k) tab vaddr paddr MMU_LEVEL_4K bits in
  Ok (fst r, set_pa k (snd r)).

Definition zalloc_page k : res (Z * Kernel St) :=
  let* r := pa_zalloc (pa k) in Ok (default 0 (fst r), set_pa k (snd r)).

(** A kernel page mapped into the table of a process at the same address. *)
Definition map_kernel_page k tab vaddr bits : res (Kernel St) :=
  let* phys := mmu_translate (pa_mem (pa k)) (kernel_mmu_table k) vaddr in
  let* r := map_in k tab vaddr phys bits in Ok (snd r).

(** The frame is the first field: [&p->frame] is [p]. The result of [mmu_map] for the
    stack pages only decides whether a message is printed. *)
Definition process_new k (mode : process_mode) : res (Z * Kernel St) :=
  let '(p, k) := kalloc k in
  if p =? 0 then Ub
  else
    let* r := mmu_table_create (pa k) in
    let tab := default 0 (fst r) in
    let k := set_pa k (snd r) in
    let id := pid_c k in
    let k := set_pid_c k (u16 (id + 1)) in
    let '(fds, k) := fd_vector_new k 5 in
    let* r := new_list k in let '(pages, k) := r in
    let* r := new_list k in let '(image, k) := r in
    let* r := new_list k in let '(heap, k) := r in
    let xregs := <[31%nat := p]> (<[2%nat := u64 (STACK_TOP + STACK_SIZE)]> (replicate 32 0)) in
    let f := mkFrame xregs 0
      (Z.lor (Z.lor (SSTATUS_SPP_BOOL mode) SSTATUS_FS_INITIAL) SSTATUS_SPIE) SIE_ALL
      (SATP tab id) p trampoline_trap_start (SATP (kernel_mmu_table k) KERNEL_ASID) 0 in
    let k := set_procs k (<[p := mkProcess f PS_WAITING image heap 0 id HART_NONE 0 0 1 tab
                                           pages fds]> (procs k)) in
    let user := if decide (mode = PM_USER) then PB_USER else 0 in
    let* k := for_up (Z.to_nat STACK_PAGES) 0
      (fun i k =>
         let* r := zalloc_page k in let '(stack, k) := r in
         let* k := add_to_list k pages stack in
         let* r := map_in k tab (u64 (STACK_TOP + PAGE_SIZE * i)) stack
                     (Z.lor (Z.lor user PB_READ) PB_WRITE) in
         Ok (snd r)) k in
    let* trans_start := mmu_translate (pa_mem (pa k)) (kernel_mmu_table k) trampoline_thread_start in
    let* trans_trap := mmu_translate (pa_mem (pa k)) (kernel_mmu_table k) trampoline_trap_start in
    let* r := map_in k tab trampoline_thread_start trans_start (Z.lor PB_READ PB_EXECUTE) in
    let* r := map_in (snd r) tab trampoline_trap_start trans_trap (Z.lor PB_READ PB_EXECUTE) in
    let k := snd r in
    let rwx := Z.lor (Z.lor PB_READ PB_WRITE) PB_EXECUTE in
    let page_upper_bound := ALIGN_UP_POT p PAGE_SIZE in
    let page_bound_diff := u64 (page_upper_bound - p) in
    let* k := if negb (page_bound_diff =? 0) && (page_bound_diff <? PAGE_SIZE)
              then map_kernel_page k tab page_upper_bound rwx else Ok k in
    let* k := map_kernel_page k tab p rwx in
    Ok (p, k).

(** ** process_free *)

(** [list_for_each(l, e) page_free(list_elem_value_ptr(e)); list_free(l);] *)
Definition free_page_list k lst : res (Kernel St) :=
  if lst =? 0 then Ok k
  else
    let* hd := elem (lists k) lst in
    let* s := loop (list_fuel (lists k))
      (fun '(e, s) =>
         if list_elem_valid lst e then
           let* x := elem (lists k) e in
           let* s := pa_free s (value x) in Ok (Next (prev x, s))
         else Ok (Done s)) (prev hd, pa k) in
    let* h := list_free (lists k) lst in
    Ok (set_lists (set_pa k s) h).

Definition process_free k p : res (Z * Kernel St) :=
  if p =? 0 then Ok (-1, k)
  else
    let* x := proc k p in
    if negb (hart x =? HART_NONE) then Ok (-1, k)
    else
      let k := kfree_ k (trap_stack (frame x)) in
      let* s := if negb (ptable x =? 0) then mmu_free 3 (pa k) (ptable x) else Ok (pa k) in
      let k := set_pa k s in
      let* k := free_page_list k (pages x) in
      let* k := free_page_list k (image_pages x) in
      let* k := free_page_list k (heap_pages x) in
      let* k := if negb (fds x =? 0) then fd_vector_free k (fds x) else Ok k in
      Ok (0, kfree_ k p).

(** [me] is the calling hart and [stat] what the monitor answers. *)
Definition process_run k p (hart me : Z) (stat : bool) : res (bool * Kernel St) :=
  let* _ := proc k p in
  if me =? hart then Ok (false, emit k (RunHere p)) else Ok (stat, emit k (StartHart hart p)).

End process.
