(* ===== verification/Sched.v ===== *)
(** The scheduler, src/src/sched.c: the round-robin scheduler the kernel runs, and the
    completely fair one over the red-black tree, which is written but not called.

    Time, the calling hart, its sepc and the monitor's answers are arguments. *)
From S2P Require Import Prelude Mem Lock Page Mmu RBTree DList Process.

Definition VIRT_TIMER_FREQ : Z := 10000000.
Definition CONTEXT_SWITCH_TIMER : Z := VIRT_TIMER_FREQ / 200.

(** What one invocation of the scheduler reads from the machine. *)
Record Machine := mkMachine { now : Z; whoami : Z; sepc_csr : Z; started : bool }.

Section sched.
Context {St : Type} `{!PageAllocator St}.
Context (trampoline_thread_start trampoline_trap_start idle_proc : Z).
Implicit Type k : Kernel St.

(** [sched_init]: the idle process runs a copy of the page of [idle_proc]. *)
Definition sched_init (copy : St -> Z -> Z -> Z -> res St) k : res (Kernel St) :=
  let '(ts, k) := kalloc k in
  let* r := new_list k in
  let k := set_sched (snd r) (fst r) (curr_list_elem k) (idle_process k) ts in
  let* r := process_new trampoline_thread_start trampoline_trap_start k PM_SUPERVISOR in
  let '(idle, k) := r in
  let k := set_sched k (g_processes k) (curr_list_elem k) idle (trap_stack_vaddr k) in
  let* k := upd_proc k idle (fun p =>
    let f := set_sepc idle_proc (frame p) in
    set_frame (mkFrame (<[10%nat := idle + 8 * 2]> (xregs f)) (sepc f) (sstatus f) (sie f) (satp f)
                 (sscratch f) (stvec f) (trap_satp f) (trap_stack f)) p) in
  let* r := zalloc_page k in let '(image_page, k) := r in
  let* s := copy (pa k) image_page (ALIGN_DOWN_POT idle_proc PAGE_SIZE) 4096 in
  let k := set_pa k s in
  let* x := proc k idle in
  let* k := add_to_list k (image_pages x) image_page in
  let* r := map_in k (ptable x) (ALIGN_DOWN_POT idle_proc PAGE_SIZE) image_page
              (Z.lor (Z.lor PB_WRITE PB_READ) PB_EXECUTE) in
  Ok (set_curr (snd r) 0).

Definition sched_add k p : res (Kernel St) := add_to_list k (g_processes k) p.

(** The first process of the list, oldest first, whose record [f] accepts; 0 if none. *)
Definition find_proc k (f : Process -> bool) : res Z :=
  let* hd := elem (lists k) (g_processes k) in
  loop (list_fuel (lists k))
    (fun e => if list_elem_valid (g_processes k) e then
                let* x := elem (lists k) e in
                let* p := proc k (value x) in
                if f p then Ok (Done (value x)) else Ok (Next (prev x))
              else Ok (Done 0)) (prev hd).

Definition get_proc_on_hart k (h : Z) : res Z := find_proc k (fun p => hart p =? h).

(** A sleeping process whose time has come runs again. *)
Definition awaken (t : Z) (p : Process) : Process :=
  if bool_decide (state p = PS_SLEEPING) && (sleep_until_ p <=? t) then set_state PS_RUNNING p
  else p.

Definition awaken_sleeping_procs (t : Z) k : res (Kernel St) :=
  let* hd := elem (lists k) (g_processes k) in
  loop (list_fuel (lists k))
    (fun '(e, k) =>
       if list_elem_valid (g_processes k) e then
         let* x := elem (lists k) e in
         let* k := upd_proc k (value x) (awaken t) in Ok (Next (prev x, k))
       else Ok (Done k)) (prev hd, k).

(** The loop of [round_robin] that looks for the next process, from [curr]: the list
    element it stops at and the process found, if any. *)
Definition next_runnable k (curr prev_elem : Z) : res (Z * option Z) :=
  loop (list_fuel (lists k))
    (fun curr =>
       if negb (curr =? prev_elem) then
         let* curr := if negb (list_elem_valid (g_processes k) curr) then
                        let* hd := elem (lists k) (g_processes k) in Ok (prev hd)
                      else let* x := elem (lists k) curr in Ok (next x) in
         let* x := elem (lists k) curr in
         let* p := proc k (value x) in
         if decide (state p = PS_RUNNING) then Ok (Done (curr, Some (value x)))
         else Ok (Next curr)
       else Ok (Done (curr, None))) curr.

(** [round_robin] up to the choice: the process to run next. *)
Definition choose (mc : Machine) k (h : Z) : res (Z * Kernel St) :=
  let* k := awaken_sleeping_procs (now mc) k in
  let* hd := elem (lists k) (g_processes k) in
  let k := if curr_list_elem k =? 0 then set_curr k (next hd) else k in
  let* p := get_proc_on_hart k h in
  let* p := if p =? 0 then
              let* i := proc k (idle_process k) in
              Ok (if hart i =? h then idle_process k else 0)
            else Ok p in
  let* k := if negb (p =? 0) then
              upd_proc k p (fun x => set_hart HART_NONE (set_frame (set_sepc (sepc_csr mc) (frame x)) x))
            else Ok k in
  let prev_list_elem := curr_list_elem k in
  let* x := elem (lists k) prev_list_elem in
  let k := set_curr k (next x) in
  let* n := list_size (lists k) (g_processes k) in
  let* r := if negb (n =? 0) then next_runnable k (curr_list_elem k) prev_list_elem
            else Ok (curr_list_elem k, None) in
  let k := set_curr k (fst r) in
  let p := default p (snd r) in
  Ok (if p =? 0 then idle_process k else p, k).

Definition round_robin (mc : Machine) k (h : Z) : res (Kernel St) :=
  let* l := mutex_spinlock (tree_lock k) in
  let k := set_tree_lock k l in
  let* r := choose mc k h in
  let '(p, k) := r in
  let* k := upd_proc k p (set_hart h) in
  let* trap_stack_paddr :=
    mmu_translate (pa_mem (pa k)) (kernel_mmu_table k) (trap_stack_vaddr k) in
  let* x := proc k p in
  let* r := map_in k (ptable x) (trap_stack_vaddr k) trap_stack_paddr
              (Z.lor (Z.lor PB_READ PB_WRITE) PB_EXECUTE) in
  let k := snd r in
  let* k := upd_proc k p (fun x => set_frame (set_trap_stack (trap_stack_vaddr k) (frame x)) x) in
  let k := emit k (AddTimer h (u64 (CONTEXT_SWITCH_TIMER * quantum x))) in
  let* k := upd_proc k p (fun x => set_vruntime (u64 (vruntime x + 1)) x) in
  let k := set_tree_lock k (mutex_unlock (tree_lock k)) in
  let* r := process_run k p h (whoami mc) (started mc) in
  Ok (snd r).

Definition sched_invoke : Machine -> Kernel St -> Z -> res (Kernel St) := round_robin.

Definition sched_remove k p : res (Kernel St) :=
  let* l := mutex_spinlock (tree_lock k) in
  let k := set_tree_lock k l in
  let* r := list_remove (lists k) (g_processes k) p in
  let k := set_lists k (snd r) in
  Ok (set_tree_lock k (mutex_unlock (tree_lock k))).

(** ** The fair scheduler *)

(** [mutex_spinlock] without an unlock on the path that refuses. *)
Definition sleep_until (mc : Machine) k p (time : Z) : res (bool * Kernel St) :=
  let* l := mutex_spinlock (tree_lock k) in
  let k := set_tree_lock k l in
  let* x := proc k p in
  if negb (hart x =? HART_NONE) then Ok (false, k)
  else
    let* k := upd_proc k p (set_sleep (u64 (now mc + time))) in
    Ok (true, set_tree_lock k (mutex_unlock (tree_lock k))).

(** [rb_insert] with the node at the next address; the key is an [int]. *)
Definition insert_runnable k (key : Z) p : res (Kernel St) :=
  let '(a, k) := kalloc k in
  let* t := rb_insert (g_runnable_procs k) a (s32 key) p in Ok (set_runnable k t).

Definition jettison_proc_from_hart (mc : Machine) k p : res (Kernel St) :=
  let* k := upd_proc k p (fun x =>
    set_hart HART_NONE (set_vruntime (u64 (vruntime x + (now mc - ran_at x))) x)) in
  let* x := proc k p in
  if decide (state x = PS_RUNNING) then insert_runnable k (vruntime x) p
  else if decide (state x = PS_DEAD) then
    let* r := list_remove (lists k) (g_processes k) p in
    let* r := process_free (set_lists k (snd r)) p in Ok (snd r)
  else Ok k.

Definition schedule_proc k : res (Z * Kernel St) :=
  let* r := rb_min_val (g_runnable_procs k) in
  match r with
  | None => Ok (0, k)
  | Some p =>
      let* x := proc k p in
      let* t := rb_delete (g_runnable_procs k) (s32 (vruntime x)) in
      Ok (p, set_runnable k t)
  end.

(** With nothing to run, the code passes the address of the function [idle_proc] where a
    process is expected. *)
Definition cfs (mc : Machine) k (h : Z) : res (Kernel St) :=
  let* k := awaken_sleeping_procs (now mc) k in
  let* curr_proc := get_proc_on_hart k h in
  let* k := if negb (curr_proc =? 0) then jettison_proc_from_hart mc k curr_proc else Ok k in
  let* r := schedule_proc k in
  let '(next_proc, k) := r in
  if negb (next_proc =? 0) then
    let* x := proc k next_proc in
    let k := emit k (AddTimer h (u64 (CONTEXT_SWITCH_TIMER * quantum x))) in
    let* k := upd_proc k next_proc (set_ran_at (now mc)) in
    let* r := process_run k next_proc h (whoami mc) (started mc) in Ok (snd r)
  else let* r := process_run k idle_proc h (whoami mc) (started mc) in Ok (snd r).

Definition sched_add_proc k p : res (bool * Kernel St) :=
  if (p =? 0) || (g_processes k =? 0) then Ok (false, k)
  else
    let* k := upd_proc k p (set_vruntime 0) in
    let* k := add_to_list k (g_processes k) p in
    let* l := mutex_spinlock (tree_lock k) in
    let k := set_tree_lock k l in
    let* x := proc k p in
    let* k := if decide (state x = PS_RUNNING) then insert_runnable k (vruntime x) p else Ok k in
    Ok (true, set_tree_lock k (mutex_unlock (tree_lock k))).

Definition sched_cfs_init k : res (Kernel St) :=
  let* r := new_list k in
  let '(a, k) := kalloc (snd r) in
  let* r' := process_new trampoline_thread_start trampoline_trap_start
               (set_runnable k rb_new) PM_USER in
  Ok (set_sched (snd r') (fst r) (curr_list_elem k) (fst r') (trap_stack_vaddr k)).

Definition sched_remove_proc_rb k (v_runtime : Z) : res (Kernel St) :=
  let* l := mutex_spinlock (tree_lock k) in
  let k := set_tree_lock k l in
  let* t := rb_delete (g_runnable_procs k) (s32 v_runtime) in
  let k := set_runnable k t in
  Ok (set_tree_lock k (mutex_unlock (tree_lock k))).

End sched.

(** ** Well-formed scheduler states *)

Section proofs.
Context {St : Type} `{!PageAllocator St}.
Implicit Type k : Kernel St.

(** [ps] are the elements of the process list, oldest first. The head of the list is
    not an element: its value field is whatever the allocator left there, and not the
    address of a process. *)
Record sched_ok k (ps : list Z) : Prop := mkSchedOk {
  sk_list : dlist (lists k) (g_processes k) ps;
  sk_procs : forall v, v ∈ vals (lists k) ps -> v <> 0 /\ is_Some (procs k !! v);
  sk_distinct : NoDup (vals (lists k) ps);
  sk_head : procs k !! val_at (lists k) (g_processes k) = None;
  sk_idle : idle_process k <> 0 /\ is_Some (procs k !! idle_process k);
  sk_size : Z.of_nat (length ps) < 2 ^ 64
}.

(** The list facts every walk uses. *)
Lemma list_head h lst ps : dlist h lst ps -> exists hd, elem h lst = Ok hd /\
  prev hd = after_of ps lst /\ next hd = before_of lst ps /\ value hd = val_at h lst.
Proof.
  intros Hd. destruct (prevf_elem h lst) as (x & E & _ & Ep & En & Ev);
    [eapply dlist_elem; [done | left]|]. exists x.
  rewrite (path_first _ _ _ _ (dl_path _ _ _ Hd)) in Ep. injection Ep as <-.
  rewrite (path_last _ _ _ _ (dl_path _ _ _ Hd)) in En. injection En as <-. done.
Qed.

Lemma list_node h lst ps1 e ps2 : dlist h lst (ps1 ++ e :: ps2) -> exists x, elem h e = Ok x /\
  prev x = after_of ps2 lst /\ next x = before_of lst ps1 /\ value x = val_at h e /\
  e <> 0 /\ e <> lst.
Proof.
  intros Hd. destruct (Hd) as [Hnd Hnn Hpath].
  assert (e ∈ ps1 ++ e :: ps2) as He by (apply elem_of_app; right; left).
  destruct (prevf_elem h e) as (x & E & _ & Ep & En & Ev);
    [eapply dlist_elem; [done | by right]|]. exists x.
  apply path_app in Hpath as [P1 P2].
  rewrite (path_first _ _ _ _ P2) in Ep. injection Ep as <-.
  rewrite (path_last _ _ _ _ P1) in En. injection En as <-.
  repeat split; try done.
  - intros ->. apply Hnn. by right.
  - intros ->. by apply NoDup_cons in Hnd as [? _].
Qed.

Lemma valid_elem lst e : e <> 0 -> e <> lst -> list_elem_valid lst e = true.
Proof. intros. unfold list_elem_valid. lia. Qed.

Lemma valid_head lst : list_elem_valid lst lst = false.
Proof. unfold list_elem_valid. lia. Qed.

(** The search for a process: the first one [f] accepts, or 0. *)
Lemma find_loop k (f : Process -> bool) : forall ps2 ps1 n, dlist (lists k) (g_processes k) (ps1 ++ ps2) ->
  (forall v, v ∈ vals (lists k) ps2 -> v <> 0 /\ is_Some (procs k !! v)) ->
  (length ps2 < n)%nat ->
  exists r, loop n (fun e => if list_elem_valid (g_processes k) e then
                let* x := elem (lists k) e in
                let* p := proc k (value x) in
                if f p then Ok (Done (value x)) else Ok (Next (prev x))
              else Ok (Done 0)) (after_of ps2 (g_processes k)) = Ok r /\
   ((r = 0 /\ forall v x, v ∈ vals (lists k) ps2 -> procs k !! v = Some x -> f x = false) \/
    (r ∈ vals (lists k) ps2 /\ exists x, procs k !! r = Some x /\ f x = true)).
Proof.
  induction ps2 as [|a ps2 IH]; intros ps1 n Hd Hp Hn; (destruct n as [|n]; [cbn in Hn; lia|]);
    rewrite loop_S.
  - change (after_of [] (g_processes k)) with (g_processes k). rewrite valid_head.
    exists 0. split; [done|]. left. split; [done|]. intros v x []%elem_of_nil.
  - change (after_of (a :: ps2) (g_processes k)) with a.
    destruct (list_node _ _ _ _ _ Hd) as (x & -> & Epx & _ & Evx & H0 & H1).
    rewrite (valid_elem _ _ H0 H1). cbn [res_bind]. rewrite Epx, Evx.
    destruct (Hp (val_at (lists k) a)) as (Hv & p & Ep); [by left|].
    unfold proc at 1. rewrite Ep. cbn [deref res_bind].
    destruct (f p) eqn:Ef; cbn [res_bind].
    + eexists. split; [done|]. right. split; [by left|]. by exists p.
    + destruct (IH (ps1 ++ [a]) n) as (r & Er & Hr).
      * by rewrite <- app_assoc.
      * intros v Hin. apply Hp. by right.
      * cbn in Hn. lia.
      * exists r. split; [exact Er|]. destruct Hr as [[-> Hr]|[Hr Hx]].
        -- left. split; [done|]. intros v y [->|Hin]%elem_of_cons Ey; [|by eapply Hr].
           rewrite Ep in Ey. by injection Ey as <-.
        -- right. split; [by right|done].
Qed.

Lemma get_proc_ok k ps h : sched_ok k ps ->
  exists r, get_proc_on_hart k h = Ok r /\
   ((r = 0 /\ forall v x, v ∈ vals (lists k) ps -> procs k !! v = Some x -> hart x <> h) \/
    (r ∈ vals (lists k) ps /\ exists x, procs k !! r = Some x /\ hart x = h)).
Proof.
  intros Hk. unfold get_proc_on_hart, find_proc.
  destruct (list_head _ _ _ (sk_list k ps Hk)) as (hd & -> & Ehd & _). cbn [res_bind]. rewrite Ehd.
  destruct (find_loop k (fun p => hart p =? h) ps [] (list_fuel (lists k)))
    as (r & E & Hr); [apply Hk|apply Hk| |].
  - pose proof (dlist_size _ _ _ (sk_list k ps Hk)). unfold list_fuel. lia.
  - exists r. split; [exact E|]. destruct Hr as [[-> Hr]|[Hr (x & Ex & Hx)]].
    + left. split; [done|]. intros v x Hv Ex. specialize (Hr v x Hv Ex). lia.
    + right. split; [done|]. exists x. split; [done|]. lia.
Qed.

(** Waking changes nothing but states, and only of processes in the list. *)
Definition awoken (t : Z) k (l : list Z) k' : Prop :=
  exists P, k' = set_procs k P /\
    forall v, P !! v = (if bool_decide (v ∈ l) then awaken t else id) <$> procs k !! v.

Lemma awaken_idem t x : awaken t (awaken t x) = awaken t x.
Proof.
  unfold awaken at 2 3. destruct (bool_decide _ && _) eqn:E; [|unfold awaken; by rewrite E].
  unfold awaken. by rewrite bool_decide_false.
Qed.

Lemma awaken_loop t k0 l : (forall v, v ∈ l -> is_Some (procs k0 !! v)) ->
  forall ps2 ps1 n k, dlist (lists k0) (g_processes k0) (ps1 ++ ps2) ->
  l = vals (lists k0) (ps1 ++ ps2) -> awoken t k0 (vals (lists k0) ps1) k ->
  (length ps2 < n)%nat ->
  exists k', loop n (fun '(e, k) =>
       if list_elem_valid (g_processes k) e then
         let* x := elem (lists k) e in
         let* k := upd_proc k (value x) (awaken t) in Ok (Next (prev x, k))
       else Ok (Done k)) (after_of ps2 (g_processes k0), k) = Ok k' /\ awoken t k0 l k'.
Proof.
  intros Hl. induction ps2 as [|a ps2 IH]; intros ps1 n k Hd El Hk Hn;
    (destruct n as [|n]; [cbn in Hn; lia|]); rewrite loop_S; destruct (Hk) as (P & -> & HP);
    cbn [g_processes set_procs lists].
  - change (after_of [] (g_processes k0)) with (g_processes k0). rewrite valid_head.
    eexists. split; [done|]. subst l. by rewrite app_nil_r.
  - change (after_of (a :: ps2) (g_processes k0)) with a.
    destruct (list_node _ _ _ _ _ Hd) as (x & -> & Epx & _ & Evx & H0 & H1).
    rewrite (valid_elem _ _ H0 H1). cbn [res_bind]. rewrite Epx, Evx. set (v := val_at (lists k0) a).
    assert (vals (lists k0) (ps1 ++ a :: ps2) = vals (lists k0) ps1 ++ v :: vals (lists k0) ps2)
      as Ev by (unfold vals; by rewrite fmap_app).
    assert (v ∈ l) as Hv by (subst l; rewrite Ev; apply elem_of_app; right; left).
    destruct (Hl v Hv) as [y Ey]. unfold upd_proc, proc. cbn [procs set_procs].
    rewrite HP, Ey. cbn [fmap option_fmap option_map deref res_bind].
    apply (IH (ps1 ++ [a])); [by rewrite <- app_assoc|by rewrite <- app_assoc| |cbn in Hn; lia].
    eexists. split; [done|]. cbn [procs set_procs]. intros w. unfold vals. rewrite fmap_app.
    fold (vals (lists k0) ps1). destruct (decide (w = v)) as [->|Hne].
    + rewrite lookup_insert_eq, Ey, (bool_decide_true (v ∈ _ ++ _)) by (apply elem_of_app; right; left).
      cbn. f_equal. case_bool_decide; [by rewrite awaken_idem|done].
    + rewrite lookup_insert_ne, HP by done.
      rewrite (bool_decide_ext (w ∈ _ ++ _) (w ∈ vals (lists k0) ps1)); [done|].
      rewrite elem_of_app. cbn. rewrite list_elem_of_singleton. tauto.
Qed.

Lemma awaken_ok t k ps : sched_ok k ps -> exists k', awaken_sleeping_procs t k = Ok k' /\
  awoken t k (vals (lists k) ps) k'.
Proof.
  intros Hk. unfold awaken_sleeping_procs.
  destruct (list_head _ _ _ (sk_list k ps Hk)) as (hd & -> & Ehd & _). cbn [res_bind]. rewrite Ehd.
  apply (awaken_loop t k (vals (lists k) ps)) with (ps1 := []); try done.
  - intros v Hv. by apply (sk_procs k ps Hk).
  - apply Hk.
  - exists (procs k). split; [by destruct k|]. intros v. rewrite bool_decide_false by apply not_elem_of_nil.
    by rewrite option_fmap_id.
  - pose proof (dlist_size _ _ _ (sk_list k ps Hk)). unfold list_fuel. lia.
Qed.

Lemma awoken_ok t k ps k' : sched_ok k ps -> awoken t k (vals (lists k) ps) k' -> sched_ok k' ps.
Proof.
  intros Hk (P & -> & HP). destruct Hk as [H1 H2 H3 H4 H5 H7].
  split; cbn [lists g_processes procs set_procs idle_process tree_lock]; try done.
  - intros v Hv. destruct (H2 v Hv) as (H0 & x & Ex). split; [done|]. rewrite HP, Ex. by eexists.
  - by rewrite HP, H4.
  - destruct H5 as (H0 & x & Ex). split; [done|]. rewrite HP, Ex. by eexists.
Qed.

(** Saving the process that leaves the hart keeps the state well-formed. *)
Lemma upd_proc_ok k ps p f : sched_ok k ps -> is_Some (procs k !! p) ->
  exists k', upd_proc k p f = Ok k' /\ sched_ok k' ps /\ lists k' = lists k /\
    g_processes k' = g_processes k /\ curr_list_elem k' = curr_list_elem k /\
    idle_process k' = idle_process k /\
    forall v, procs k' !! v = if decide (v = p) then f <$> procs k !! p else procs k !! v.
Proof.
  intros Hk [x Ex]. unfold upd_proc, proc. rewrite Ex. cbn [deref res_bind].
  eexists. split; [done|]. cbn [lists g_processes curr_list_elem procs set_procs idle_process].
  assert (forall v, <[p:=f x]> (procs k) !! v = if decide (v = p) then Some (f x) else procs k !! v) as Hl.
  { intros v. destruct (decide (v = p)) as [->|]; [by rewrite lookup_insert_eq|].
    by rewrite lookup_insert_ne. }
  repeat (split; [|try done]); try done. destruct Hk as [H1 H2 H3 H4 H5 H7].
  split; cbn [lists g_processes procs set_procs idle_process tree_lock]; try done.
  - intros v Hv. destruct (H2 v Hv) as [H0 Hs]. split; [done|]. rewrite Hl. case_decide; eauto.
  - rewrite Hl. case_decide as E; [|done]. rewrite E in H4. congruence.
  - destruct H5 as [H0 Hs]. split; [done|]. rewrite Hl. case_decide; eauto.
Qed.

(** Everything [choose] does before it looks for the next process, from the element
    [e] of the process that ran last. [q] is the process it falls back on. *)
Lemma choose_prefix mc k h ps1 e ps2 : sched_ok k (ps1 ++ e :: ps2) -> curr_list_elem k = e ->
  exists k1 p0, let q := if p0 =? 0 then idle_process k else p0 in
    sched_ok k1 (ps1 ++ e :: ps2) /\ lists k1 = lists k /\ g_processes k1 = g_processes k /\
    (forall v, v ∈ vals (lists k) (ps1 ++ e :: ps2) -> exists x x1, procs k !! v = Some x /\
       procs k1 !! v = Some x1 /\ state x1 = state (awaken (now mc) x)) /\
    ((q ∈ vals (lists k) (ps1 ++ e :: ps2) /\ exists x, procs k !! q = Some x /\ hart x = h) \/
     (q = idle_process k /\ forall v x, v ∈ vals (lists k) (ps1 ++ e :: ps2) ->
        procs k !! v = Some x -> hart x <> h)) /\
    choose mc k h =
      let* r := next_runnable k1 (before_of (g_processes k) ps1) e in
      let p := default p0 (snd r) in
      Ok (if p =? 0 then idle_process k else p, set_curr k1 (fst r)).
Proof.
  intros Hk He. destruct (awaken_ok (now mc) k _ Hk) as (k0 & Ea & Haw).
  pose proof (awoken_ok _ _ _ _ Hk Haw) as Hk0. destruct Haw as (P & -> & HP).
  set (k0 := set_procs k P) in *.
  destruct (list_head _ _ _ (sk_list _ _ Hk0)) as (hd & Ehd & _).
  destruct (list_node _ _ _ _ _ (sk_list _ _ Hk0)) as (xe & Exe & _ & Enx & _ & He0 & _).
  destruct (get_proc_ok k0 _ h Hk0) as (g & Eg & Hg).
  change (lists k0) with (lists k) in *. change (g_processes k0) with (g_processes k) in *.
  assert (forall v x, procs k !! v = Some x -> exists x0, procs k0 !! v = Some x0 /\
    hart x0 = hart x /\
    (v ∈ vals (lists k) (ps1 ++ e :: ps2) -> state x0 = state (awaken (now mc) x))) as Hfwd.
  { intros v x Ex. change (procs k0) with P. rewrite HP, Ex. eexists. split; [done|].
    unfold awaken, set_state. split; [by repeat case_match|]. intros Hv.
    by rewrite bool_decide_true. }
  destruct (sk_idle _ _ Hk0) as (Hi0 & xi & Exi).
  change (idle_process k0) with (idle_process k) in *.
  (* the process taken off the hart, and the one fallen back on *)
  set (p := if g =? 0 then if hart xi =? h then idle_process k else 0 else g).
  set (q := if p =? 0 then idle_process k else p).
  assert (exists k1, (if negb (p =? 0) then
      upd_proc k0 p (fun x => set_hart HART_NONE (set_frame (set_sepc (sepc_csr mc) (frame x)) x))
    else Ok k0) = Ok k1 /\ sched_ok k1 (ps1 ++ e :: ps2) /\ lists k1 = lists k /\
      g_processes k1 = g_processes k /\ curr_list_elem k1 = e /\ idle_process k1 = idle_process k /\
      forall v x, procs k0 !! v = Some x -> exists x1, procs k1 !! v = Some x1 /\ state x1 = state x)
    as (k1 & Eu & Hk1 & El1 & Eg1 & Ec1 & Ei1 & Hs1).
  { destruct (Z.eqb_spec p 0) as [Ep|Ep]; cbn [negb].
    - exists k0. repeat (split; [done|]). intros v x Ex. by exists x.
    - assert (is_Some (procs k0 !! p)) as Hp.
      { unfold p in *. destruct (Z.eqb_spec g 0) as [->|].
        - destruct (hart xi =? h); [by eexists|done].
        - destruct Hg as [[-> _]|(_ & x & Ex & _)]; [done|by eexists]. }
      destruct (upd_proc_ok k0 _ p (fun x => set_hart HART_NONE
        (set_frame (set_sepc (sepc_csr mc) (frame x)) x)) Hk0 Hp)
        as (k1 & E & H1 & H2 & H3 & H4 & H5 & H6).
      exists k1. split; [exact E|]. split; [done|]. split; [done|]. split; [done|].
      split; [by rewrite H4|]. split; [done|]. intros v x Ex. rewrite H6. case_decide as D.
      + subst v. rewrite Ex. by eexists.
      + by exists x. }
  exists (set_curr k1 (before_of (g_processes k) ps1)), p. fold q.
 
  split; [by destruct Hk1; split|]. split; [done|]. split; [done|].
  split; [|split].
  - intros v Hv. destruct (sk_procs _ _ Hk v Hv) as (_ & x & Ex).
    destruct (Hfwd v x Ex) as (x0 & Ex0 & _ & Est). destruct (Hs1 v x0 Ex0) as (x1 & Ex1 & Est1).
    exists x, x1. split; [done|]. split; [done|]. by rewrite Est1, Est.
  - unfold q, p. destruct (Z.eqb_spec g 0) as [->|Hg0].
    + right. split; [destruct (hart xi =? h); [by destruct (idle_process k =? 0)|done]|].
      intros v x Hv Ex. destruct (Hfwd v x Ex) as (x0 & Ex0 & <- & _).
      destruct Hg as [[_ Hno]|[Hin _]]; [by apply (Hno v x0)|].
      by destruct (sk_procs _ _ Hk 0 Hin).
    + replace (g =? 0) with false by lia. left.
      destruct Hg as [[-> _]|(Hin & x0 & Ex0 & Hh)]; [done|]. split; [done|].
      destruct (sk_procs _ _ Hk g Hin) as (_ & x & Ex). exists x. split; [done|].
      destruct (Hfwd g x Ex) as (x0' & Ex0' & Eh & _). congruence.
  - unfold choose. rewrite Ea. cbn [res_bind].
    change (lists k0) with (lists k). change (g_processes k0) with (g_processes k).
    rewrite Ehd. cbn [res_bind]. change (curr_list_elem k0) with (curr_list_elem k). rewrite He.
    replace (e =? 0) with false by lia. fold k0. rewrite Eg. cbn [res_bind].
    assert ((if g =? 0 then let* i := proc k0 (idle_process k0) in
               Ok (if hart i =? h then idle_process k0 else 0) else Ok g) = Ok p) as ->.
    { unfold p, proc. change (idle_process k0) with (idle_process k). rewrite Exi.
      by destruct (g =? 0). }
    cbn [res_bind]. rewrite Eu. cbn [res_bind]. rewrite El1, Ec1, Exe. cbn [res_bind].
    rewrite Enx. cbn [lists g_processes set_curr set_sched curr_list_elem].
    rewrite El1, Eg1.
    rewrite (list_size_ok _ _ _ (sk_list _ _ Hk) (sk_size _ _ Hk)). cbn [res_bind].
    replace (Z.of_nat (length (ps1 ++ e :: ps2)) =? 0) with false
      by (rewrite length_app; cbn; lia). cbn [negb].
    rewrite <- Ei1. reflexivity.
Qed.

(** The round-robin scheduler does not go round: from the oldest process of the list,
    whatever processes follow it, the oldest one is chosen again whenever it can run
    (sleeping processes whose time has come included), and the scheduler's position does
    not move. When it cannot run, the choice is the process that was running on this
    hart, even when that one just went to sleep or waits, or else the idle process:
    no other process is ever looked at. *)
Theorem round_robin_starves mc k h e rest : sched_ok k (e :: rest) -> curr_list_elem k = e ->
  exists p k' x, choose mc k h = Ok (p, k') /\ curr_list_elem k' = e /\
    procs k !! val_at (lists k) e = Some x /\
    if decide (state (awaken (now mc) x) = PS_RUNNING) then p = val_at (lists k) e
    else (p ∈ vals (lists k) (e :: rest) /\ exists y, procs k !! p = Some y /\ hart y = h) \/
         (p = idle_process k /\ forall v y, v ∈ vals (lists k) (e :: rest) ->
            procs k !! v = Some y -> hart y <> h).
Proof.
  intros Hk He.
  destruct (choose_prefix mc k h [] e rest Hk He) as (k1 & p0 & Hk1 & El & Eg & Hst & Hq & ->).
  change (before_of (g_processes k) []) with (g_processes k). cbn [app] in *.
  destruct (list_head _ _ _ (sk_list _ _ Hk1)) as (hd & Ehd & Ephd & _).
  destruct (list_node _ _ [] e rest (sk_list _ _ Hk1)) as (xe & Exe & _ & _ & Eve & He0 & Hne).
  rewrite El, Eg in *.
  destruct (Hst (val_at (lists k) e)) as (x & x1 & Ex & Ex1 & Es); [by left|].
  assert (2 <= size (lists k))%nat as Hsz.
  { pose proof (dlist_size _ _ _ (sk_list _ _ Hk)) as H. cbn in H. lia. }
  unfold next_runnable, list_fuel. rewrite El, Eg.
  destruct (size (lists k)) as [|n] eqn:En; [lia|]. rewrite loop_S.
  replace (g_processes k =? e) with false by lia. cbn [negb]. rewrite valid_head. cbn [negb].
  rewrite Ehd. cbn [res_bind]. rewrite Ephd.
  change (after_of (e :: rest) (g_processes k)) with e.
  rewrite Exe. cbn [res_bind]. unfold proc. rewrite Eve, Ex1. cbn [deref res_bind]. rewrite Es.
  destruct (decide (state (awaken (now mc) x) = PS_RUNNING)) as [Hr|Hr]; cbn [res_bind fst snd default id].
  - destruct (sk_procs _ _ Hk (val_at (lists k) e)) as [Hv0 _]; [by left|].
    replace (val_at (lists k) e =? 0) with false by lia. eexists _, _, x. split; [done|]. split; [done|]. split; [exact Ex|by rewrite ?decide_True by done].
  - destruct n as [|n]; [lia|]. rewrite loop_S, Z.eqb_refl. cbn [negb res_bind fst snd default].
    eexists _, _, x. repeat (split; [done|]). rewrite decide_False by done. exact Hq.
Qed.

(** From the second oldest process the scheduler reads the head of the list as if it
    were a process: with two processes that is the very first time it runs. *)
Theorem round_robin_reads_list_head mc k h e1 e2 rest :
  sched_ok k (e1 :: e2 :: rest) -> curr_list_elem k = e2 -> choose mc k h = Ub.
Proof.
  intros Hk He.
  destruct (choose_prefix mc k h [e1] e2 rest Hk He) as (k1 & p0 & Hk1 & El & Eg & _ & _ & ->).
  change (before_of (g_processes k) [e1]) with e1. cbn [app] in *.
  destruct (list_head _ _ _ (sk_list _ _ Hk1)) as (hd & Ehd & _ & _ & Evhd).
  destruct (list_node _ _ [] e1 (e2 :: rest) (sk_list _ _ Hk1)) as (x1 & Ex1 & _ & En1 & _ & H10 & H1).
  pose proof (sk_head _ _ Hk1) as Hhead.
  assert (e1 <> e2) as Hne.
  { intros ->. pose proof (dl_nodup _ _ _ (sk_list _ _ Hk)) as Hnd.
    rewrite !NoDup_cons in Hnd. destruct Hnd as (_ & Hnd & _). apply Hnd. by left. }
  unfold next_runnable, list_fuel. rewrite loop_S.
  replace (e1 =? e2) with false by lia. cbn [negb]. rewrite (valid_elem _ _ H10 H1). cbn [negb].
  rewrite Ex1. cbn [res_bind]. rewrite En1. change (before_of _ []) with (g_processes k1).
  rewrite Ehd. cbn [res_bind]. unfold proc. by rewrite Evhd, Hhead.
Qed.

End proofs.

(** ** Concrete instances: two processes, the older one sleeping for long *)

Definition demo_frame : trap_frame := mkFrame (replicate 32 0) 0 0 0 0 0 0 0 0.
Definition demo_proc (s : process_state) (h : Z) : Process :=
  mkProcess demo_frame s 0 0 0 10000 h 5000 0 1 0 0 0.
Definition demo_plist : lheap :=
  <[16 := mkElem 0 48 32]> (<[32 := mkElem 1000 16 48]> (<[48 := mkElem 2000 32 16]> ∅)).
Definition demo_kernel {St} (s : St) (curr : Z) : Kernel St :=
  mkKernel s demo_plist
    (<[1000 := demo_proc PS_SLEEPING 0]> (<[2000 := demo_proc PS_RUNNING HART_NONE]>
      (<[3000 := demo_proc PS_WAITING HART_NONE]> ∅)))
    [] [] 10002 0 16 curr 3000 MUTEX_UNLOCKED 0 rb_new [] ∅.
Definition demo_machine : Machine := mkMachine 100 0 4096 true.

Lemma demo_kernel_ok {St} (s : St) curr : sched_ok (demo_kernel s curr) [32; 48].
Proof.
  split.
  - split; [by apply (bool_decide_unpack _); vm_compute|by apply (bool_decide_unpack _); vm_compute|].
    by repeat split.
  - intros v Hv. change (vals _ [32; 48]) with [1000; 2000] in Hv.
    apply elem_of_cons in Hv as [->|[->|[]%elem_of_nil]%elem_of_cons]; split; try done; by eexists.
  - by apply (bool_decide_unpack _); vm_compute.
  - reflexivity.
  - split; [done|by eexists].
  - cbn. lia.
Qed.

Lemma round_robin_starves_witness :
  sched_ok (demo_kernel tt 32) [32; 48] /\
  exists p k' x, choose demo_machine (demo_kernel tt 32) 0 = Ok (p, k') /\ curr_list_elem k' = 32 /\
    procs (demo_kernel tt 32) !! val_at demo_plist 32 = Some x /\
    if decide (state (awaken (now demo_machine) x) = PS_RUNNING) then p = val_at demo_plist 32
    else (p ∈ vals demo_plist [32; 48] /\
            exists y, procs (demo_kernel tt 32) !! p = Some y /\ hart y = 0) \/
         (p = 3000 /\ forall v y, v ∈ vals demo_plist [32; 48] ->
            procs (demo_kernel tt 32) !! v = Some y -> hart y <> 0).
Proof.
  split; [exact (demo_kernel_ok tt 32)|].
  exact (round_robin_starves demo_machine (demo_kernel tt 32) 0 32 [48] (demo_kernel_ok tt 32) eq_refl).
Defined.

(** The sleeping process is the one that runs next. *)
Example sleep_does_not_yield :
  fst <$> match choose demo_machine (demo_kernel tt 32) 0 with Ok r => Some r | _ => None end
    = Some 1000.
Proof. vm_compute. reflexivity. Qed.

Lemma round_robin_reads_list_head_witness :
  sched_ok (demo_kernel tt 48) [32; 48] /\ choose demo_machine (demo_kernel tt 48) 0 = Ub.
Proof.
  split; [exact (demo_kernel_ok tt 48)|].
  exact (round_robin_reads_list_head demo_machine (demo_kernel tt 48) 0 32 48 [] (demo_kernel_ok tt 48)
           eq_refl).
Defined.
