(* ===== verification/Syscall.v ===== *)
(** The system calls of src/src/syscall.c that reach neither the file system nor the GPU;
    the others and the dispatch table are in [SyscallFile].

    A handler works on the kernel, the input devices and the saved registers of the
    calling process (32 words; [XREG] reads them as signed). *)
From S2P Require Import Prelude Mem Lock Util Page Mmu Uaccess Input RBTree DList Process Sched.

Record Sys := mkSys {
  kern : Kernel page_state;
  keydev : InputDevice;
  tabdev : InputDevice;
  console : list Z  (* bytes given to sbi_putchar, last one first *)
}.

Definition set_kern (s : Sys) (k : Kernel page_state) : Sys :=
  mkSys k (keydev s) (tabdev s) (console s).

(** What one trap finds in the machine, beyond what the scheduler reads: a character
    waiting in the monitor, the size of the display, and a free place of the stack. *)
Record Context_ := mkContext { mc : Machine; inchar : Z; width : Z; height : Z; stack : Z }.

Definition XREG (scratch : list Z) (i : nat) : Z := s64 (default 0 (scratch !! i)).
Definition set_xreg (scratch : list Z) (i : nat) (v : Z) : list Z := <[i := u64 v]> scratch.

Definition A0 : nat := 10.
Definition A7 : nat := 17.

Section syscall.
Context (heap_start heap_end : Z).
#[local] Instance the_allocator : PageAllocator page_state := page_allocator heap_start heap_end.

Definition handler : Type := Context_ -> Z -> Sys -> list Z -> res (Sys * list Z).

Definition syscall_exit : handler := fun c hart s scratch =>
  let* p := get_proc_on_hart (kern s) (u32 hart) in
  let* r := process_free (kern s) p in
  let* k := sched_remove (snd r) p in
  let* k := sched_invoke (mc c) k (u32 hart) in
  Ok (set_kern s k, scratch).

Definition syscall_putchar : handler := fun c hart s scratch =>
  Ok (mkSys (kern s) (keydev s) (tabdev s) (u8 (XREG scratch A0) :: console s), scratch).

Definition syscall_getchar : handler := fun c hart s scratch =>
  Ok (s, set_xreg scratch A0 (u8 (inchar c))).

Definition syscall_yield : handler := fun c hart s scratch =>
  let* k := sched_invoke (mc c) (kern s) (u32 hart) in Ok (set_kern s k, scratch).

Definition syscall_sleep : handler := fun c hart s scratch =>
  let* p := get_proc_on_hart (kern s) (u32 hart) in
  let* k := if p =? 0 then Ok (kern s)
            else upd_proc (kern s) p
                   (set_sleep (u64 (now (mc c) +
                      Z.quot (s64 (XREG scratch A0 * VIRT_TIMER_FREQ)) 1000))) in
  let* k := sched_invoke (mc c) k (u32 hart) in
  Ok (set_kern s k, scratch).

Definition syscall_get_keyboard : handler := fun c hart s scratch =>
  let* r := get_keyboard (keydev s) in
  Ok (mkSys (kern s) (snd r) (tabdev s) (console s), set_xreg scratch A0 (fst r)).

(** The coordinates are built on the kernel stack and copied out. *)
Definition syscall_get_cursor : handler := fun c hart s scratch =>
  let* p := get_proc_on_hart (kern s) (u32 hart) in
  let* r := get_cursor (width c) (height c) (tabdev s) in
  let '(x, y, dev) := r in
  let k := kern s in
  let* m := st_le 4 (pa_mem (pa k)) (stack c) x in
  let* m := st_le 4 m (stack c + 4) y in
  let* pr := proc k p in
  let* r := copy_to m (u64 (XREG scratch A0)) (ptable pr) (stack c) 8 in
  Ok (mkSys (set_pa k (pa_set (pa k) (snd r))) (keydev s) dev (console s), scratch).

(** [int amt]: the size is cut to 32 bits. The result of [page_znalloc] is used as it is,
    NULL included. *)
Definition syscall_malloc : handler := fun c hart s scratch =>
  let k := kern s in
  let* p := get_proc_on_hart k (u32 hart) in
  let amt := s32 (ALIGN_UP_POT (u64 (XREG scratch A0)) PAGE_SIZE) in
  let* r := page_znalloc heap_start heap_end (pa k) (Z.quot amt PAGE_SIZE) in
  let heap_page := default 0 (fst r) in
  let k := set_pa k (snd r) in
  let* k := loop (S (Z.to_nat (u32 amt / PAGE_SIZE + 1)))
    (fun '(i, k) =>
       if i <? u32 amt then
         let* pr := proc k p in
         let* k := add_to_list k (heap_pages pr) (u64 (heap_page + i)) in
         let* r := map_in k (ptable pr) (u64 (heap_page + i)) (u64 (heap_page + i))
                     (Z.lor (Z.lor PB_USER PB_READ) PB_WRITE) in
         Ok (Next (u32 (i + PAGE_SIZE), snd r))
       else Ok (Done k)) (0, k) in
  Ok (set_kern s k, set_xreg scratch A0 heap_page).

Definition syscall_free : handler := fun c hart s scratch =>
  let k := kern s in
  let* p := get_proc_on_hart k (u32 hart) in
  let* pr := proc k p in
  let* phys := mmu_translate (pa_mem (pa k)) (ptable pr) (u64 (XREG scratch A0)) in
  Ok (set_kern s (kfree_ k phys), scratch).

Definition syscall_fstat : handler := fun c hart s scratch => Ok (s, scratch).

(** ** Exit *)

(** A process that exits while it is the scheduler's current one: its list element is
    freed and then followed. *)
Lemma relink_val (h : lheap) p e e' a : elem h p = Ok e -> value e' = value e ->
  val_at (<[p := e']> h) a = val_at h a.
Proof.
  unfold elem, val_at. intros E Ev. destruct (h !! p) as [x|] eqn:Ex; [|done].
  injection E as ->. destruct (decide (a = p)) as [->|].
  - by rewrite lookup_insert_eq, Ex; cbn.
  - by rewrite lookup_insert_ne by done.
Qed.

Lemma remove_elem_val h p h' a : list_remove_elem h p = Ok h' -> a <> p ->
  val_at h' a = val_at h a.
Proof.
  unfold list_remove_elem, set_prev, set_next. intros H Ha. inv_ok.
  rewrite (proj2 (proj2 (delete_fields _ p a Ha))).
  erewrite relink_val; [|eassumption|reflexivity]. erewrite relink_val; [|eassumption|reflexivity]. done.
Qed.

Lemma exit_removes (k : Kernel page_state) ps1 e ps2 : sched_ok k (ps1 ++ e :: ps2) ->
  tree_lock k = MUTEX_UNLOCKED ->
  exists k', sched_remove k (val_at (lists k) e) = Ok k' /\ sched_ok k' (ps1 ++ ps2) /\
    lists k' !! e = None /\ curr_list_elem k' = curr_list_elem k /\ tree_lock k' = MUTEX_UNLOCKED.
Proof.
  intros Hk Hlk. unfold sched_remove. rewrite Hlk.
  change (mutex_spinlock MUTEX_UNLOCKED) with (Ok MUTEX_LOCKED). cbn [res_bind].
  cbn [lists g_processes set_tree_lock]. set (v := val_at (lists k) e).
  destruct (find_elem_ok (lists k) (g_processes k) v _ (sk_list _ _ Hk))
    as [[_ Hno]|(qs1 & e' & qs2 & Eps & Ef & He0 & Ev & Hno)].
  { exfalso. apply Hno. unfold vals. rewrite fmap_app. apply elem_of_app. right. by left. }
  assert (qs1 = ps1 /\ e' = e /\ qs2 = ps2) as (-> & -> & ->).
  { pose proof (sk_distinct _ _ Hk) as Hnd.
    assert (length qs1 = length ps1) as Hl.
    { pose proof (f_equal (fun l => vals (lists k) l) Eps) as Evs. unfold vals in Evs, Hnd.
      apply (NoDup_lookup _ (length qs1) (length ps1) v Hnd).
      - change (vals (lists k) (ps1 ++ e :: ps2) !! length qs1 = Some v). unfold vals.
        rewrite Evs, fmap_app, lookup_app_r; rewrite length_fmap; [|done].
        rewrite Nat.sub_diag. cbn. by rewrite Ev.
      - rewrite fmap_app, lookup_app_r; rewrite length_fmap; [|done].
        by rewrite Nat.sub_diag. }
    apply app_inj_1 in Eps as [-> [= -> ->]]; done. }
  unfold list_remove. rewrite Ef. cbn [res_bind]. replace (e =? 0) with false by lia.
  destruct (remove_elem_ok _ _ _ _ _ (sk_list _ _ Hk)) as (h' & Hrem & Hd' & Hnone & Hv').
  rewrite Hrem. cbn [res_bind snd]. eexists. split; [done|]. split; [|done].
  destruct Hk as [H1 H2 H3 H4 H5 H7].
  assert (forall w, w ∈ vals h' (ps1 ++ ps2) -> w ∈ vals (lists k) (ps1 ++ e :: ps2)) as Hsub.
  { intros w. rewrite Hv'. unfold vals. rewrite !fmap_app, fmap_cons, !elem_of_app, elem_of_cons.
    tauto. }
  split; cbn [lists g_processes procs set_tree_lock set_lists idle_process tree_lock]; try done.
  - intros w Hw. by apply H2, Hsub.
  - rewrite Hv'. unfold vals in *. rewrite fmap_app in *. rewrite fmap_cons in H3.
    rewrite <- Permutation_middle in H3. by apply NoDup_cons in H3 as [_ H3].
  - rewrite (remove_elem_val _ _ _ _ Hrem); [done|].
    destruct (list_node _ _ _ _ _ H1) as (_ & _ & _ & _ & _ & _ & Hne). congruence.
  - rewrite length_app in *. cbn in H7. lia.
Qed.

(** With a freed element as its position the scheduler cannot choose. *)
Lemma choose_freed m (k : Kernel page_state) h ps : sched_ok k ps -> curr_list_elem k <> 0 ->
  lists k !! curr_list_elem k = None -> choose m k h = Ub.
Proof.
  intros Hk Hc Hn. unfold choose.
  destruct (awaken_ok (now m) k _ Hk) as (k0 & -> & Haw). cbn [res_bind].
  pose proof (awoken_ok _ _ _ _ Hk Haw) as Hk0. destruct Haw as (P & -> & HP).
  destruct (list_head _ _ _ (sk_list _ _ Hk0)) as (hd & -> & _). cbn [res_bind].
  cbn [curr_list_elem set_procs]. replace (curr_list_elem k =? 0) with false by lia.
  destruct (get_proc_ok _ _ h Hk0) as (g & -> & Hg). cbn [res_bind].
  destruct (sk_idle _ _ Hk0) as (Hi0 & xi & Exi). unfold proc at 1. rewrite Exi. cbn [deref res_bind].
  set (k0 := set_procs k P) in *.
  set (p := if g =? 0 then if hart xi =? h then idle_process k0 else 0 else g).
  assert ((if g =? 0 then Ok (if hart xi =? h then idle_process k0 else 0) else Ok g) = Ok p) as ->
    by (unfold p; by destruct (g =? 0)).
  cbn [res_bind].
  assert (exists k1, (if negb (p =? 0) then
      upd_proc k0 p (fun x => set_hart HART_NONE (set_frame (set_sepc (sepc_csr m) (frame x)) x))
    else Ok k0) = Ok k1 /\ lists k1 = lists k /\ curr_list_elem k1 = curr_list_elem k)
    as (k1 & -> & El & Ec).
  { destruct (Z.eqb_spec p 0) as [Ep|Ep]; cbn [negb]; [by exists k0|].
    assert (is_Some (procs k0 !! p)) as Hp.
    { unfold p in *. destruct (Z.eqb_spec g 0) as [->|].
      - destruct (hart xi =? h); [by eexists|done].
      - destruct Hg as [[-> _]|(_ & x & Ex & _)]; [done|by eexists]. }
    destruct (upd_proc_ok k0 _ p (fun x => set_hart HART_NONE
      (set_frame (set_sepc (sepc_csr m) (frame x)) x)) Hk0 Hp) as (k1 & E & _ & H2 & _ & H4 & _).
    by exists k1. }
  cbn [res_bind]. rewrite El, Ec. unfold elem. by rewrite Hn.
Qed.

(** (C39) The exit system call uses freed memory: when the process that exits is the one the
    scheduler last chose, process_free refuses it because it is still on its hart (so
    nothing it owns is released), its list element is freed, and the scheduler that
    must choose the next process follows the freed element. *)
Theorem exit_use_after_free c hart0 s scratch ps1 e ps2 x :
  sched_ok (kern s) (ps1 ++ e :: ps2) -> tree_lock (kern s) = MUTEX_UNLOCKED ->
  curr_list_elem (kern s) = e ->
  0 <= hart0 < HART_NONE -> procs (kern s) !! val_at (lists (kern s)) e = Some x ->
  hart x = hart0 ->
  (forall v y, v ∈ vals (lists (kern s)) (ps1 ++ e :: ps2) -> procs (kern s) !! v = Some y ->
     hart y = hart0 -> v = val_at (lists (kern s)) e) ->
  process_free (kern s) (val_at (lists (kern s)) e) = Ok (-1, kern s) /\
  syscall_exit c hart0 s scratch = Ub.
Proof.
  intros Hk Hlk He Hh Ex Hx Honly. set (v := val_at (lists (kern s)) e) in *.
  assert (v ∈ vals (lists (kern s)) (ps1 ++ e :: ps2)) as Hv.
  { unfold vals. rewrite fmap_app. apply elem_of_app. right. by left. }
  destruct (sk_procs _ _ Hk v Hv) as [Hv0 _].
  assert (process_free (kern s) v = Ok (-1, kern s)) as Hfree.
  { unfold process_free, proc. replace (v =? 0) with false by lia. rewrite Ex. cbn [deref res_bind].
    replace (hart x =? HART_NONE) with false by lia. done. }
  split; [exact Hfree|]. unfold syscall_exit, HART_NONE in *. rewrite u32_id by lia.
  destruct (get_proc_ok (kern s) _ hart0 Hk) as (g & -> & Hg). cbn [res_bind].
  assert (g = v) as ->.
  { destruct Hg as [[_ Hno]|(Hin & y & Ey & Hy)]; [by destruct (Hno v x Hv Ex)|].
    by apply (Honly g y). }
  rewrite Hfree. cbn [res_bind snd].
  destruct (exit_removes (kern s) ps1 e ps2 Hk Hlk) as (k' & Er & Hk' & Hn & Hc & Hl').
  fold v in Er. rewrite Er. cbn [res_bind]. unfold sched_invoke, round_robin.
  rewrite Hl'. change (mutex_spinlock MUTEX_UNLOCKED) with (Ok MUTEX_LOCKED). cbn [res_bind].
  destruct (list_node _ _ _ _ _ (sk_list _ _ Hk)) as (_ & _ & _ & _ & _ & He0 & _).
  rewrite (choose_freed (mc c) (set_tree_lock k' MUTEX_LOCKED) hart0 (ps1 ++ ps2)); [done| | |].
  - by destruct Hk'; split.
  - cbn. rewrite Hc, He. done.
  - cbn. rewrite Hc, He. done.
Qed.

End syscall.

(** ** A concrete exit: the process at 1000 runs on hart 0 and is the current one *)

Definition demo_device : InputDevice := mkInput demo_virtio empty_events.
Definition demo_sys : Sys :=
  mkSys (demo_kernel (mkPages ∅ MUTEX_UNLOCKED) 32) demo_device demo_device [].
Definition demo_context : Context_ := mkContext demo_machine 0 640 480 0.

Lemma exit_use_after_free_witness :
  @process_free page_state (the_allocator 4096 24576) (kern demo_sys) 1000 = Ok (-1, kern demo_sys) /\
  syscall_exit 4096 24576 demo_context 0 demo_sys (replicate 32 0) = Ub.
Proof.
  apply (exit_use_after_free 4096 24576 demo_context 0 demo_sys (replicate 32 0) [] 32 [48]
    (demo_proc PS_SLEEPING 0)).
  - exact (demo_kernel_ok _ 32).
  - reflexivity.
  - reflexivity.
  - unfold HART_NONE. lia.
  - reflexivity.
  - reflexivity.
  - intros v y Hv Ey Hy. change (vals _ _) with [1000; 2000] in Hv.
    apply elem_of_cons in Hv as [->|[->|[]%elem_of_nil]%elem_of_cons]; [reflexivity|].
    change (Some (demo_proc PS_RUNNING HART_NONE) = Some y) in Ey. injection Ey as <-.
    unfold demo_proc, HART_NONE in Hy. discriminate Hy.
Defined.
