(* ===== verification/Elf.v ===== *)
(** The ELF loader, src/src/elf.c: the file is read from memory, the segments are copied
    to fresh pages and mapped into the process. *)
From S2P Require Import Prelude Mem Lock Util Page Mmu RBTree DList Process.

Definition ELFMAG : list Z := [0x7f; 69; 76; 70].
Definition ET_EXEC : Z := 2.
Definition EM_RISCV : Z := 243.
Definition EV_CURRENT : Z := 1.
Definition PT_LOAD : Z := 1.
Definition PF_X : Z := 1.
Definition PF_W : Z := 2.
Definition PF_R : Z := 4.

(** The fields of [Elf64_Ehdr] and [Elf64_Phdr] the loader reads, at their offsets. *)
Definition e_type (m : mem) (h : Z) : res Z := ld_le 2 m (h + 16).
Definition e_machine (m : mem) (h : Z) : res Z := ld_le 2 m (h + 18).
Definition e_version (m : mem) (h : Z) : res Z := ld_le 4 m (h + 20).
Definition e_entry (m : mem) (h : Z) : res Z := ld64 m (h + 24).
Definition e_phoff (m : mem) (h : Z) : res Z := ld64 m (h + 32).
Definition e_phnum (m : mem) (h : Z) : res Z := ld_le 2 m (h + 56).

Definition sizeof_Phdr : Z := 56.
Definition p_type (m : mem) (ph : Z) : res Z := ld_le 4 m ph.
Definition p_flags_ (m : mem) (ph : Z) : res Z := ld_le 4 m (ph + 4).
Definition p_offset (m : mem) (ph : Z) : res Z := ld64 m (ph + 8).
Definition p_vaddr (m : mem) (ph : Z) : res Z := ld64 m (ph + 16).
Definition p_memsz (m : mem) (ph : Z) : res Z := ld64 m (ph + 40).

(** [memcmp(ident, ELFMAG, SELFMAG)] against the constant. *)
Fixpoint magic_ok (m : mem) (a : Z) (magic : list Z) : res bool :=
  match magic with
  | [] => Ok true
  | c :: cs => let* b := ld8 m a in if b =? c then magic_ok m (a + 1) cs else Ok false
  end.

Definition elf_valid (m : mem) (ehdr : Z) : res bool :=
  let* ok := magic_ok m ehdr ELFMAG in
  if negb ok then Ok false
  else
    let* t := e_type m ehdr in
    if negb (t =? ET_EXEC) then Ok false
    else
      let* a := e_machine m ehdr in
      if negb (a =? EM_RISCV) then Ok false
      else let* v := e_version m ehdr in Ok (v =? EV_CURRENT).

Section elf.
Context {St : Type} `{!PageAllocator St}.
Implicit Type k : Kernel St.

(** One page of a segment: a zeroed page, the bytes copied to its start, the page recorded
    and mapped. The page is not checked for NULL, nor [mmu_map] for failure. *)
Definition load_page k (x : Process) (src vaddr n p_flags : Z) : res (Kernel St) :=
  let* r := zalloc_page k in
  let '(image_page, k) := r in
  let* m := memcpy (pa_mem (pa k)) image_page src n in
  let k := set_pa k (pa_set (pa k) m) in
  let* k := add_to_list k (image_pages x) image_page in
  let* r := map_in k (ptable x) vaddr image_page (Z.lor PB_USER p_flags) in
  Ok (snd r).

(** The copy loop: [j] is 32 bits wide, [p_memsz] 64. *)
Definition load_segment k (x : Process) (elf off vaddr memsz p_flags : Z) : res (Kernel St) :=
  loop (S (Z.to_nat (memsz / PAGE_SIZE + 1)))
    (fun '(j, k) =>
       if j <? memsz then
         let* k := load_page k x (elf + off + j) (u64 (vaddr + j)) (Z.min PAGE_SIZE (memsz - j)) p_flags in
         Ok (Next (u32 (j + PAGE_SIZE), k))
       else Ok (Done k)) (0, k).

(** The permissions accumulate over the segments. *)
Definition add_flags (flags p_flags : Z) : Z :=
  let f := if negb (Z.land flags PF_R =? 0) then Z.lor p_flags PB_READ else p_flags in
  let f := if negb (Z.land flags PF_W =? 0) then Z.lor f PB_WRITE else f in
  if negb (Z.land flags PF_X =? 0) then Z.lor f PB_EXECUTE else f.

Definition load_header k (x : Process) (elf ph p_flags : Z) : res (Z * Kernel St) :=
  let m := pa_mem (pa k) in
  let* t := p_type m ph in
  if negb (t =? PT_LOAD) then Ok (p_flags, k)
  else
    let* sz := p_memsz m ph in
    if sz =? 0 then Ok (p_flags, k)
    else
      let* fl := p_flags_ m ph in
      let p_flags := add_flags fl p_flags in
      let* off := p_offset m ph in
      let* va := p_vaddr m ph in
      let* k := load_segment k x elf off va sz p_flags in
      Ok (p_flags, k).

Definition elf_load k p elf : res (bool * Kernel St) :=
  let* ok := elf_valid (pa_mem (pa k)) elf in
  if negb ok then Ok (false, k)
  else
    let* off := e_phoff (pa_mem (pa k)) elf in
    let* num := e_phnum (pa_mem (pa k)) elf in
    let* x := proc k p in
    let* r := for_up (Z.to_nat num) 0
      (fun i '(p_flags, k) => load_header k x elf (elf + off + sizeof_Phdr * i) p_flags) (0, k) in
    let k := snd r in
    let* entry := e_entry (pa_mem (pa k)) elf in
    let* k := upd_proc k p (fun x => set_frame (set_sepc entry (frame x)) x) in
    let* phys := mmu_translate (pa_mem (pa k)) (ptable x) entry in
    let* r := map_in k (kernel_mmu_table k) entry phys (Z.lor PB_READ PB_EXECUTE) in
    Ok (true, snd r).

(** ** Properties *)

(** The bytes of a valid header. *)
Definition header_ok (m : mem) (h : Z) : Prop :=
  (forall i c, ELFMAG !! i = Some c -> m !! (h + Z.of_nat i) = Some c) /\
  e_type m h = Ok ET_EXEC /\ e_machine m h = Ok EM_RISCV /\ e_version m h = Ok EV_CURRENT.

Lemma magic_ok_spec m magic : forall a, mapped m a (Z.of_nat (length magic)) ->
  exists b, magic_ok m a magic = Ok b /\
    (b = true <-> forall i c, magic !! i = Some c -> m !! (a + Z.of_nat i) = Some c).
Proof.
  induction magic as [|c magic IH]; intros a Ha; cbn [magic_ok].
  { exists true. split; [done|]. split; [by intros _ i c H|done]. }
  destruct (Ha 0) as [b Eb]; [cbn; lia|]. rewrite Z.add_0_r in Eb. unfold ld8. rewrite Eb.
  cbn [deref res_bind]. destruct (Z.eqb_spec b c) as [->|Hne].
  - destruct (IH (a + 1)) as (r & Er & Hr).
    { intros i Hi. replace (a + 1 + i) with (a + (i + 1)) by lia. apply Ha. cbn [length]. lia. }
    exists r. split; [done|]. rewrite Hr. split.
    + intros H [|i] d Hd; [cbn in Hd; injection Hd as <-; by rewrite Z.add_0_r|].
      replace (a + Z.of_nat (S i)) with (a + 1 + Z.of_nat i) by lia. by apply H.
    + intros H i d Hd. replace (a + 1 + Z.of_nat i) with (a + Z.of_nat (S i)) by lia. by apply (H (S i)).
  - exists false. split; [done|]. split; [done|]. intros H. specialize (H 0%nat c eq_refl).
    rewrite Z.add_0_r in H. congruence.
Qed.

(** elf_load refuses everything that is not a RISC-V executable, without a trace: the
    check decides the header and nothing has changed when it fails. *)
Lemma elf_rejects_invalid k p elf : mem_ok (pa_mem (pa k)) -> mapped (pa_mem (pa k)) elf 64 ->
  (elf_valid (pa_mem (pa k)) elf = Ok true <-> header_ok (pa_mem (pa k)) elf) /\
  (~ header_ok (pa_mem (pa k)) elf -> elf_load k p elf = Ok (false, k)).
Proof.
  intros Hm Ha. set (m := pa_mem (pa k)) in *.
  destruct (magic_ok_spec m ELFMAG elf) as (b & Eb & Hb).
  { eapply mapped_mono; [exact Ha|lia|cbn; lia]. }
  assert (forall n o, 0 <= o -> o + Z.of_nat n <= 64 -> exists v, ld_le n m (elf + o) = Ok v) as Hld.
  { intros n o Ho Hn. destruct (ld_le_ok n m (elf + o) Hm) as (v & E & _); [|by exists v].
    eapply mapped_mono; [exact Ha|lia|lia]. }
  destruct (Hld 2%nat 16) as [t Et]; [lia..|]. destruct (Hld 2%nat 18) as [a Ea]; [lia..|].
  destruct (Hld 4%nat 20) as [v Ev]; [lia..|].
  assert (exists r, elf_valid m elf = Ok r /\ (r = true <-> header_ok m elf)) as (r & Er & Hr).
  { unfold elf_valid, header_ok, e_type, e_machine, e_version. rewrite Eb, Et, Ea, Ev.
    cbn [res_bind]. destruct b; cbn [negb].
    2: { eexists. split; [done|]. split; [done|]. intros [H _]. by apply Hb in H. }
    destruct (Z.eqb_spec t ET_EXEC), (Z.eqb_spec a EM_RISCV), (Z.eqb_spec v EV_CURRENT);
      cbn [negb]; eexists; (split; [done|]); (split; [|intros (_ & ? & ? & ?)]); try congruence.
    intros _. split; [by apply Hb|]. split; [|split]; congruence. }
  split; [|].
  - rewrite Er, <- Hr. split; congruence.
  - intros Hno. unfold elf_load. fold m. rewrite Er. cbn [res_bind].
    destruct r; [by destruct Hno; apply Hr|done].
Qed.
End elf.
