(* ===== verification/Disk.v ===== *)
(** What the file system needs of the block device, and the little-endian encodings of
    what it keeps there.

    [Disk] is the interface the code of src/src/minix3.c uses: [block_read_wrapper] and
    [block_write_wrapper] of src/src/block.c, seen as transfers of byte lists. Its laws
    say what a working device of [capacity] bytes promises; outside them a transfer may
    do anything. *)
From S2P Require Import Prelude.

(** ** Encodings *)

Fixpoint le_dec (l : list Z) : Z :=
  match l with
  | [] => 0
  | b :: l' => b + 256 * le_dec l'
  end.

Fixpoint le_enc (n : nat) (z : Z) : list Z :=
  match n with
  | O => []
  | S n' => z mod 256 :: le_enc n' (z / 256)
  end.

(** The [i]-th 32-bit word of a buffer. *)
Definition word (l : list Z) (i : Z) : Z := le_dec (take 4 (drop (Z.to_nat (4 * i)) l)).

(** The buffer with its [i]-th word set. *)
Definition set_word (l : list Z) (i v : Z) : list Z :=
  take (Z.to_nat (4 * i)) l ++ le_enc 4 v ++ drop (Z.to_nat (4 * i) + 4) l.

Lemma le_enc_length n z : length (le_enc n z) = n.
Proof. revert z. induction n as [|n IH]; intros z; cbn; [done | by rewrite IH]. Qed.

Lemma le_dec_enc n : forall z, le_dec (le_enc n z) = z mod 256 ^ Z.of_nat n.
Proof.
  induction n as [|n IH]; intros z; cbn [le_enc le_dec].
  - by rewrite Z.mod_1_r.
  - rewrite IH, Nat2Z.inj_succ, Z.pow_succ_r by lia. rewrite Z.rem_mul_r by lia. lia.
Qed.

Lemma le_enc_ok n : forall z, Forall byte_ok (le_enc n z).
Proof.
  induction n as [|n IH]; intros z; cbn [le_enc]; constructor; [|apply IH].
  apply Z.mod_pos_bound. lia.
Qed.

Lemma le_dec_range l : Forall byte_ok l -> 0 <= le_dec l < 256 ^ Z.of_nat (length l).
Proof.
  induction 1 as [|b l Hb _ IH]; cbn [le_dec length].
  - change (256 ^ Z.of_nat 0) with 1. lia.
  - rewrite Nat2Z.inj_succ, Z.pow_succ_r by lia. unfold byte_ok in Hb. nia.
Qed.

Lemma le_enc_dec l : Forall byte_ok l -> le_enc (length l) (le_dec l) = l.
Proof.
  induction 1 as [|b l Hb _ IH]; cbn [le_dec length le_enc]; [done|].
  unfold byte_ok in Hb. f_equal; [dlia|].
  replace ((b + 256 * le_dec l) / 256) with (le_dec l) by dlia. done.
Qed.

Lemma set_word_length l i v : 0 <= i -> 4 * i + 4 <= Z.of_nat (length l) ->
  length (set_word l i v) = length l.
Proof.
  intros Hi Hl. unfold set_word.
  rewrite !length_app, length_take, length_drop, le_enc_length. lia.
Qed.

Lemma word_set_word_eq l i v : 0 <= i -> 4 * i + 4 <= Z.of_nat (length l) ->
  word (set_word l i v) i = u32 v.
Proof.
  intros Hi Hl. unfold word, set_word. rewrite drop_app_length' by (rewrite length_take; lia).
  rewrite take_app_length' by (by rewrite le_enc_length). rewrite le_dec_enc. done.
Qed.

Lemma word_set_word_ne l i j v : 0 <= i -> 0 <= j -> i <> j ->
  4 * i + 4 <= Z.of_nat (length l) -> word (set_word l i v) j = word l j.
Proof.
  intros Hi Hj Hne Hl. unfold word. f_equal. apply list_eq. intros k.
  destruct (decide (k < 4)%nat) as [Hk|]; [|by rewrite !lookup_take_ge by lia].
  rewrite !lookup_take_lt, !lookup_drop by lia. unfold set_word.
  destruct (decide (j < i)).
  - rewrite lookup_app_l by (rewrite length_take; lia). apply lookup_take_lt. lia.
  - rewrite lookup_app_r, lookup_app_r by (rewrite ?le_enc_length, ?length_take; lia).
    rewrite lookup_drop, le_enc_length, length_take. f_equal. lia.
Qed.

(** ** Disks *)

Class Disk (D : Type) := {
  block_read_wrapper : D -> Z -> Z -> option (list Z);
  block_write_wrapper : D -> Z -> list Z -> bool * D
}.

Class DiskLaws (D : Type) `{!Disk D} := {
  capacity : D -> Z;
  content : D -> Z -> Z;
  capacity_bound d : capacity d <= 2 ^ 32;
  content_ok d a : byte_ok (content d a);
  read_law d a n : 0 <= a -> 0 <= n -> a + n <= capacity d ->
    block_read_wrapper d a n = Some (content d <$> seqZ a n);
  write_law d a l : 0 <= a -> a + Z.of_nat (length l) <= capacity d -> Forall byte_ok l ->
    exists d', block_write_wrapper d a l = (true, d') /\ capacity d' = capacity d /\
      forall b, content d' b =
        if decide (a <= b < a + Z.of_nat (length l))
        then default 0 (l !! Z.to_nat (b - a)) else content d b
}.

Section disk.
Context {D : Type} `{!Disk D} `{!DiskLaws D}.

Definition bytes_at (d : D) (a n : Z) : list Z := content d <$> seqZ a n.

Lemma bytes_at_length d a n : 0 <= n -> Z.of_nat (length (bytes_at d a n)) = n.
Proof. intros. unfold bytes_at. rewrite length_fmap, length_seqZ. lia. Qed.

Lemma bytes_at_ok d a n : Forall byte_ok (bytes_at d a n).
Proof.
  apply Forall_forall. intros b (i & -> & _)%list_elem_of_fmap. apply content_ok.
Qed.

Lemma bytes_at_lookup d a n i : 0 <= i < n ->
  bytes_at d a n !! Z.to_nat i = Some (content d (a + i)).
Proof.
  intros Hi. unfold bytes_at. rewrite list_lookup_fmap, lookup_seqZ_lt by lia.
  cbn. do 2 f_equal. lia.
Qed.

Lemma bytes_at_ext d d' a n : (forall b, a <= b < a + n -> content d' b = content d b) ->
  bytes_at d' a n = bytes_at d a n.
Proof.
  intros H. unfold bytes_at. apply list_fmap_ext. intros i b Hb.
  apply lookup_seqZ in Hb. apply H. lia.
Qed.

Lemma bytes_at_app d a n k : 0 <= n -> 0 <= k ->
  bytes_at d a (n + k) = bytes_at d a n ++ bytes_at d (a + n) k.
Proof. intros. unfold bytes_at. by rewrite <- fmap_app, <- seqZ_app by lia. Qed.

(** What was written is read back, and nothing else has changed. *)
Lemma write_read d a l : 0 <= a -> a + Z.of_nat (length l) <= capacity d ->
  Forall byte_ok l ->
  exists d', block_write_wrapper d a l = (true, d') /\ capacity d' = capacity d /\
    bytes_at d' a (Z.of_nat (length l)) = l /\
    (forall b, ~ (a <= b < a + Z.of_nat (length l)) -> content d' b = content d b).
Proof.
  intros Ha Hc Hl. destruct (write_law d a l Ha Hc Hl) as (d' & E & Ec & Hd).
  exists d'. split; [done|]. split; [done|]. split.
  - apply list_eq. intros i. destruct (decide (i < length l)%nat).
    + rewrite <- (Nat2Z.id i) at 1. rewrite bytes_at_lookup by lia.
      rewrite Hd, decide_True by lia. replace (Z.to_nat _) with i by lia.
      destruct (lookup_lt_is_Some_2 l i) as [b ->]; done.
    + rewrite !lookup_ge_None_2; [done | lia |].
      pose proof (bytes_at_length d' a (Z.of_nat (length l))). lia.
  - intros b Hb. rewrite Hd. by rewrite decide_False.
Qed.

End disk.

(** ** A disk in memory *)

Abbreviation ramdisk := (list Z) (only parsing).

#[export] Instance ramdisk_disk : Disk ramdisk := {
  block_read_wrapper d a n :=
    if (a <? 0) || (Z.of_nat (length d) <? a + n) then None
    else Some (u8 <$> take (Z.to_nat n) (drop (Z.to_nat a) d));
  block_write_wrapper d a l :=
    if (a <? 0) || (Z.of_nat (length d) <? a + Z.of_nat (length l)) then (false, d)
    else (true, take (Z.to_nat a) d ++ l ++ drop (Z.to_nat a + length l) d)
}.

#[export] Program Instance ramdisk_laws : DiskLaws ramdisk := {
  capacity d := Z.min (Z.of_nat (length d)) (2 ^ 32);
  content d a := if decide (a < 0) then 0 else u8 (default 0 (d !! Z.to_nat a))
}.
Next Obligation. intros d. apply Z.le_min_r. Qed.
Next Obligation. intros d a. cbn. case_decide; [done | apply u8_range]. Qed.
Next Obligation.
  intros d a n Ha Hn Hc. cbn in *. destruct (Z.ltb_spec a 0); [lia|].
  destruct (Z.ltb_spec (Z.of_nat (length d)) (a + n)); [lia|]. cbn. f_equal. apply list_eq. intros i.
  rewrite !list_lookup_fmap. destruct (decide (i < Z.to_nat n)%nat).
  - rewrite lookup_take_lt, lookup_drop, lookup_seqZ_lt by lia. cbn.
    rewrite decide_False, Z2Nat.inj_add, Nat2Z.id by lia.
    destruct (lookup_lt_is_Some_2 d (Z.to_nat a + i)) as [b Eb]; [lia|]. by rewrite Eb.
  - rewrite lookup_take_ge, lookup_seqZ_ge by lia. done.
Qed.
Next Obligation.
  intros d a l Ha Hc Hl. cbn in *. destruct (Z.ltb_spec a 0); [lia|].
  destruct (Z.ltb_spec (Z.of_nat (length d)) (a + Z.of_nat (length l))); [lia|].
  cbn. eexists. split; [done|]. split.
  - rewrite !length_app, length_take, length_drop. f_equal. lia.
  - intros b. destruct (decide (a <= b < a + Z.of_nat (length l))).
    + rewrite decide_False by lia.
      rewrite lookup_app_r, lookup_app_l by (rewrite length_take; lia).
      rewrite length_take. replace (Z.to_nat b - _)%nat with (Z.to_nat (b - a)) by lia.
      destruct (lookup_lt_is_Some_2 l (Z.to_nat (b - a))) as [c Ec]; [lia|]. rewrite Ec. cbn.
      apply u8_id. rewrite Forall_forall in Hl.
      apply (Hl c). by eapply list_elem_of_lookup_2.
    + case_decide; [done|]. do 2 f_equal. destruct (decide (b < a)).
      * rewrite lookup_app_l by (rewrite length_take; lia). apply lookup_take_lt. lia.
      * rewrite !lookup_app_r by (rewrite ?length_take; lia).
        rewrite lookup_drop, length_take. f_equal. lia.
Qed.
