(* ===== verification/Pci.v ===== *)
(** PCI enumeration, src/src/pci.c.

    A function's BARs are hardware: the class [Bars] reads and writes them, and its laws
    [BarLaws] are those of PCI: an absent register reads 0, and one that decodes [2^k]
    bytes keeps of a store the address bits above them, and its type bits. What answers at
    an address of the configuration space is a map; whether a bus is reached at all,
    which depends on the bridges, is the argument [answers]. *)
From S2P Require Import Prelude.

Definition PCI_ECAM_ADDRESS_START : Z := 0x30000000.
Definition PCI_MMIO_ADDRESS_START : Z := 0x40000000.
Definition VIRTIO_PCI_VENDOR_ID : Z := 0x1AF4.
Definition COMMAND_REG_MMIO : Z := 2.

Definition pci_get_ecam (bus device function reg : Z) : Z :=
  let bus64 := Z.land bus 0xff in
  let device64 := Z.land device 0x1f in
  let function64 := Z.land function 0x7 in
  let reg64 := Z.land reg 0x3ff in
  Z.lor (Z.lor (Z.lor (Z.lor PCI_ECAM_ADDRESS_START (Z.shiftl bus64 20)) (Z.shiftl device64 15))
    (Z.shiftl function64 12)) (Z.shiftl reg64 2).

(** ** Functions *)

(** The registers of a bridge, [type1]. *)
Record bridge := mkBridge {
  primary_bus_no : Z; secondary_bus_no : Z; subordinate_bus_no : Z;
  memory_base : Z; memory_limit : Z; prefetch_memory_base : Z; prefetch_memory_limit : Z
}.

Class Bars (H : Type) := { read_bar : H -> Z -> Z; write_bar : H -> Z -> Z -> H }.

Section pci.
Context {H : Type} `{!Bars H}.

(** [type0.bar] is [bars]. [space] are the bytes of the configuration space that the
    drivers read through pointers to capabilities. *)
Record pci_ecam := mkEcam {
  vendor_id : Z; device_id : Z; command_reg : Z; header_type : Z; capes_pointer : Z;
  space : Z -> Z; bars : H; type1 : bridge
}.

Definition with_bars (e : pci_ecam) (command : Z) (h : H) : pci_ecam :=
  mkEcam (vendor_id e) (device_id e) command (header_type e) (capes_pointer e) (space e) h
    (type1 e).

Definition with_bridge (e : pci_ecam) (command : Z) (b : bridge) : pci_ecam :=
  mkEcam (vendor_id e) (device_id e) command (header_type e) (capes_pointer e) (space e) (bars e)
    b.

(** [sbn] is static: the number of the next secondary bus. *)
Definition setup_pci_bridge (sbn : Z) (ecam : pci_ecam) (bus : Z) : Z * pci_ecam :=
  let address_start := Z.lor PCI_MMIO_ADDRESS_START (Z.shiftl sbn 20) in
  let address_end := address_start + (2 ^ 20 - 1) in
  (u8 (sbn + 1),
   with_bridge ecam COMMAND_REG_MMIO
     (mkBridge (u8 bus) sbn sbn (u16 (Z.shiftr address_start 16)) (u16 (Z.shiftr address_end 16))
        (u16 (Z.shiftr address_start 16)) (u16 (Z.shiftr address_end 16)))).

(** The size a BAR that holds [v] after a store of ones decodes. *)
Definition bar_size (v : Z) : Z := u32 (- Z.land v 0xFFFFFFF0).

Definition is_64_bit (v : Z) : bool := Z.land (Z.shiftr v 1) 3 =? 2.

(** The loop over the six BARs. *)
Definition assign_step : Z * H * Z -> res (ctl (Z * H * Z) (H * Z)) :=
  fun '(bar_num, h, current_addr) =>
    if bar_num <? 6 then
      let h := write_bar h bar_num (2 ^ 32 - 1) in
      let v := read_bar h bar_num in
      if v =? 0 then Ok (Next (bar_num + 1, h, current_addr))
      else if is_64_bit v then
        let current_addr := ALIGN_UP_POT current_addr (bar_size v) in
        let h := write_bar (write_bar h bar_num (u32 current_addr)) (bar_num + 1)
                   (current_addr / 2 ^ 32) in
        Ok (Next (bar_num + 2, h, u64 (current_addr + bar_size v)))
      else
        Ok (Next (bar_num + 1, write_bar h bar_num (u32 current_addr),
                  u64 (current_addr + bar_size v)))
    else Ok (Done (h, current_addr)).

Definition assign_bars (h : H) (current_addr : Z) : res (H * Z) :=
  loop 7 assign_step (0, h, current_addr).

(** Where the addresses of a device begin. *)
Definition device_window (ecam : Z) : Z :=
  Z.lor (Z.lor PCI_MMIO_ADDRESS_START (Z.land ecam (Z.shiftl 0xf 20))) (Z.land ecam (Z.shiftl 0x1f 15)).

Definition setup_pci_device (addr : Z) (ecam : pci_ecam) : res pci_ecam :=
  let command := Z.land (command_reg ecam) (u16 (Z.lnot 3)) in
  let* (h, _) := assign_bars (bars ecam) (device_window addr) in
  Ok (with_bars ecam (Z.lor command COMMAND_REG_MMIO) h).

(** [PciDevice]. What pci_init knows of the machine: what answers at an address of the
    configuration space ([functions]), [sbn], and the list of virtio devices, last one
    first as [list_add] makes it. *)
Record PciDevice := mkPci { ecam : Z; irq : Z }.

Record pci_state := mkPciState {
  functions : gmap Z pci_ecam; sbn : Z; g_virtio_devices : list PciDevice
}.

(** Whether a bus is reached at all, which depends on the bridges. *)
Context (answers : gmap Z pci_ecam -> Z -> bool).

Definition probe (s : pci_state) (bus a : Z) : option pci_ecam :=
  if answers (functions s) bus then functions s !! a else None.

(** One turn of the loops of [pci_init]; [None] is the vendor 0xFFFF. *)
Definition pci_probe (bus device : Z) (s : pci_state) : res pci_state :=
  if (bus =? 0) && (device =? 0) then Ok s
  else
    let a := pci_get_ecam bus device 0 0 in
    match probe s bus a with
    | None => Ok s
    | Some e =>
        let* (n, e) := (if header_type e =? 0 then let* e := setup_pci_device a e in Ok (sbn s, e)
                        else if header_type e =? 1 then Ok (setup_pci_bridge (sbn s) e bus)
                        else Ok (sbn s, e)) in
        Ok (mkPciState (<[a := e]> (functions s)) n
              (if vendor_id e =? VIRTIO_PCI_VENDOR_ID
               then mkPci a (32 + (bus + device) mod 4) :: g_virtio_devices s
               else g_virtio_devices s))
    end.

Definition pci_init (machine : gmap Z pci_ecam) : res pci_state :=
  for_up 16 0 (fun bus => for_up 32 0 (fun device => pci_probe bus device))
    (mkPciState machine 1 []).

(** The address a BAR holds, as virtio.c works it out. *)
Definition MMIO_addr (h : H) (bar : Z) : Z :=
  let lo := read_bar h bar in
  let hi := read_bar h (bar + 1) in
  Z.land (if is_64_bit lo then Z.land (lo + 2 ^ 32 * hi) (u64 (Z.lnot 0xf)) else lo) (u64 (Z.lnot 0xf)).

End pci.

Arguments pci_ecam : clear implicits.
Arguments pci_state : clear implicits.

(** ** What a BAR is *)

(** A register is absent, or is a BAR of [2^k] bytes with its type bits, or the upper
    half of the one before. *)
Inductive bar_kind := Absent | Mem32 (k flags : Z) | Mem64 (k flags : Z) | Upper.

(** What it keeps of a store. *)
Definition kept (b : bar_kind) (v : Z) : Z :=
  match b with
  | Absent => 0
  | Mem32 k f | Mem64 k f => u32 v / 2 ^ k * 2 ^ k + f
  | Upper => u32 v
  end.

Class BarLaws (H : Type) `{!Bars H} := {
  kind : H -> Z -> bar_kind;
  kind_write h i v j : kind (write_bar h i v) j = kind h j;
  read_written h i v : read_bar (write_bar h i v) i = kept (kind h i) v;
  read_other h i v j : i <> j -> read_bar (write_bar h i v) j = read_bar h j
}.

Definition size_ok (k : Z) : Prop := 4 <= k <= 31.

(** Bits 1 and 2 are the width, bit 3 is set when the memory can be prefetched. *)
Definition kind_ok (b next : bar_kind) : Prop :=
  match b with
  | Mem32 k f => size_ok k /\ f ∈ [0; 8] /\ next <> Upper
  | Mem64 k f => size_ok k /\ f ∈ [4; 12] /\ next = Upper
  | Absent | Upper => next <> Upper
  end.

(** The pairs of registers are inside the six. *)
Definition bars_ok `{BarLaws H} (h : H) : Prop :=
  kind h 0 <> Upper /\ kind h 6 <> Upper /\
  forall i, 0 <= i < 6 -> kind_ok (kind h i) (kind h (i + 1)).

Lemma all_ones k f : size_ok k -> f ∈ [0; 8; 4; 12] ->
  let v := kept (Mem32 k f) (2 ^ 32 - 1) in
  v <> 0 /\ bar_size v = 2 ^ k /\ is_64_bit v = is_64_bit f.
Proof.
  intros Hk Hf.
  assert (forallb (fun k => forallb (fun f =>
    let v := kept (Mem32 k f) (2 ^ 32 - 1) in
    negb (v =? 0) && (bar_size v =? 2 ^ k) && eqb (is_64_bit v) (is_64_bit f)) [0; 8; 4; 12])
    (seqZ 4 28) = true) as E by (vm_compute; reflexivity).
  rewrite forallb_forall in E. specialize (E k). rewrite <- list_elem_of_In, elem_of_seqZ in E.
  specialize (E ltac:(unfold size_ok in Hk; lia)). rewrite forallb_forall in E. specialize (E f).
  rewrite <- list_elem_of_In in E. specialize (E Hf).
  apply andb_prop in E as [[E1 E2]%andb_prop E3]. apply negb_true_iff, Z.eqb_neq in E1.
  apply Z.eqb_eq in E2. apply eqb_prop in E3. done.
Qed.

(** ** Where the BARs go *)

Section bars.
Context {H : Type} `{BarLaws H}.

(** The windows (register, address, size) given from register [i] and address [cur] on. *)
Fixpoint windows (n : nat) (h : H) (i cur : Z) : list (Z * Z * Z) :=
  match n with
  | O => []
  | S n' =>
      match kind h i with
      | Absent | Upper => windows n' h (i + 1) cur
      | Mem32 k _ => (i, cur, 2 ^ k) :: windows n' h (i + 1) (cur + 2 ^ k)
      | Mem64 k _ =>
          let a := ALIGN_UP_POT cur (2 ^ k) in
          (i, a, 2 ^ k) :: windows n' h (i + 1) (a + 2 ^ k)
      end
  end.

(** The registers of the BAR [i] hold the address [a]. *)
Definition bar_holds (h : H) (i a : Z) : Prop :=
  match kind h i with
  | Mem64 _ _ => read_bar h i = kept (kind h i) a /\ read_bar h (i + 1) = a / 2 ^ 32
  | _ => read_bar h i = kept (kind h i) a
  end.

Definition same_kinds (h h' : H) : Prop := forall j, kind h' j = kind h j.

Lemma windows_kinds n h h' : same_kinds h h' -> forall i cur, windows n h' i cur = windows n h i cur.
Proof.
  intros Hk. induction n as [|n IH]; intros i cur; cbn [windows]; [done|].
  rewrite Hk. destruct (kind h i); by rewrite ?IH.
Qed.

Lemma bars_ok_kinds h h' : same_kinds h h' -> bars_ok h -> bars_ok h'.
Proof.
  intros Hk (Hb0 & Hb6 & Hb). split; [by rewrite Hk|]. split; [by rewrite Hk|].
  intros i Hi. rewrite !Hk. by apply Hb.
Qed.

Lemma read_writes h i v j : read_bar (write_bar h i v) j =
  if decide (i = j) then kept (kind h i) v else read_bar h j.
Proof. destruct (decide (i = j)) as [<-|]; [apply read_written | by apply read_other]. Qed.

Lemma kept_u32 b v : kept b (u32 v) = kept b v.
Proof. destruct b; cbn [kept]; unfold u32; by rewrite ?Z.mod_mod. Qed.

Lemma align_room cur k : size_ok k -> 0 <= cur < 2 ^ 40 ->
  cur <= ALIGN_UP_POT cur (2 ^ k) < cur + 2 ^ 31 /\ ALIGN_UP_POT cur (2 ^ k) mod 2 ^ k = 0.
Proof.
  intros Hk Hc. assert (2 ^ k <= 2 ^ 31) by (unfold size_ok in Hk; apply Z.pow_le_mono_r; lia).
  destruct (align_up_bounds cur k) as [Hb Hm]; unfold size_ok in Hk; [lia | lia | lia |].
  split; [lia | done].
Qed.

(** One turn, by the kind of the register. *)
Lemma assign_absent h i cur : 0 <= i < 6 -> kind h i = Absent ->
  assign_step (i, h, cur) = Ok (Next (i + 1, write_bar h i (2 ^ 32 - 1), cur)).
Proof.
  intros Hi Hk. unfold assign_step. rewrite (proj2 (Z.ltb_lt i 6)) by lia.
  rewrite read_written, Hk. done.
Qed.

Lemma assign_32 h i cur k f : 0 <= i < 6 -> kind h i = Mem32 k f -> size_ok k -> f ∈ [0; 8] ->
  0 <= cur < 2 ^ 40 ->
  assign_step (i, h, cur) = Ok (Next (i + 1,
    write_bar (write_bar h i (2 ^ 32 - 1)) i (u32 cur), cur + 2 ^ k)).
Proof.
  intros Hi Hk Hs Hf Hc. unfold assign_step. rewrite (proj2 (Z.ltb_lt i 6)) by lia.
  rewrite read_written, Hk.
  destruct (all_ones k f) as (Hv & Hz & H64); [done | set_solver |].
  rewrite (proj2 (Z.eqb_neq _ _) Hv), H64, Hz.
  assert (is_64_bit f = false) as -> by (apply list_elem_of_In in Hf; cbn in Hf;
    destruct Hf as [<-|[<-|[]]]; done).
  assert (2 ^ k <= 2 ^ 31) by (unfold size_ok in Hs; apply Z.pow_le_mono_r; lia).
  rewrite u64_id by (assert (0 < 2 ^ k) by (unfold size_ok in Hs; lia); lia). done.
Qed.

Lemma assign_64 h i cur k f : 0 <= i < 6 -> kind h i = Mem64 k f -> size_ok k -> f ∈ [4; 12] ->
  0 <= cur < 2 ^ 40 ->
  let a := ALIGN_UP_POT cur (2 ^ k) in
  assign_step (i, h, cur) = Ok (Next (i + 2,
    write_bar (write_bar (write_bar h i (2 ^ 32 - 1)) i (u32 a)) (i + 1) (a / 2 ^ 32), a + 2 ^ k)).
Proof.
  intros Hi Hk Hs Hf Hc a. unfold assign_step. rewrite (proj2 (Z.ltb_lt i 6)) by lia.
  rewrite read_written, Hk.
  destruct (all_ones k f) as (Hv & Hz & H64); [done | set_solver |].
  change (kept (Mem64 k f)) with (kept (Mem32 k f)).
  rewrite (proj2 (Z.eqb_neq _ _) Hv), H64, Hz.
  assert (is_64_bit f = true) as -> by (apply list_elem_of_In in Hf; cbn in Hf;
    destruct Hf as [<-|[<-|[]]]; done).
  destruct (align_room cur k Hs Hc) as [Ha _].
  assert (2 ^ k <= 2 ^ 31) by (unfold size_ok in Hs; apply Z.pow_le_mono_r; lia).
  fold a. rewrite u64_id by (assert (0 < 2 ^ k) by (unfold size_ok in Hs; lia); lia). done.
Qed.

Lemma size_bounds k : size_ok k -> 16 <= 2 ^ k <= 2 ^ 31.
Proof.
  unfold size_ok. intros Hk. change 16 with (2 ^ 4). split; apply Z.pow_le_mono_r; lia.
Qed.

Definition held (h : H) (i : Z) : Z * Z * Z -> Prop :=
  fun '(j, a, _) => i <= j /\ bar_holds h j a.

Lemma held_mono h i j ws : i <= j -> Forall (held h j) ws -> Forall (held h i) ws.
Proof. intros Hij Hw. eapply Forall_impl; [exact Hw|]. intros [[b a] s] [Hj Hh]. split; [lia | done]. Qed.

Lemma assign_from fuel : forall n h i cur, bars_ok h -> kind h i <> Upper ->
  i + Z.of_nat n = 6 -> 0 <= i -> (n < fuel)%nat -> 0 <= cur < 2 ^ 31 + i * 2 ^ 32 ->
  exists h' cur', loop fuel assign_step (i, h, cur) = Ok (h', cur') /\ same_kinds h h' /\
    (forall j, j < i -> read_bar h' j = read_bar h j) /\ Forall (held h' i) (windows n h i cur).
Proof.
  induction fuel as [|fuel IH]; intros n h i cur Hok Hu Hi Hi0 Hf Hc; [lia|]. rewrite loop_S.
  destruct n as [|n].
  { exists h, cur. unfold assign_step. rewrite (proj2 (Z.ltb_ge i 6)) by lia. by repeat split. }
  destruct Hok as (Hb0 & Hb6 & Hb). pose proof (Hb i ltac:(lia)) as Hki. cbn [windows].
  destruct (kind h i) as [|k f|k f|] eqn:Ek; cbn [kind_ok] in Hki; [| | |done].
  - rewrite assign_absent by (done || lia). cbn [res_bind].
    set (h1 := write_bar h i _).
    assert (same_kinds h h1) as Hk1 by (intros j; apply kind_write).
    destruct (IH n h1 (i + 1) cur) as (h' & c' & E & Hk' & Hrd & Hw);
      [by eapply bars_ok_kinds | by rewrite Hk1 | lia | lia | lia | lia |].
    exists h', c'. split; [done|]. split; [intros j; by rewrite Hk', Hk1|].
    split; [intros j Hj; rewrite Hrd by lia; apply read_other; lia|].
    rewrite (windows_kinds _ _ _ Hk1) in Hw. eapply held_mono; [|done]. lia.
  - destruct Hki as (Hs & Hfl & Hn). pose proof (size_bounds k Hs).
    rewrite (assign_32 _ _ _ k f) by (done || lia). cbn [res_bind].
    set (h1 := write_bar (write_bar h i _) i _).
    assert (same_kinds h h1) as Hk1 by (intros j; unfold h1; by rewrite !kind_write).
    destruct (IH n h1 (i + 1) (cur + 2 ^ k)) as (h' & c' & E & Hk' & Hrd & Hw);
      [by eapply bars_ok_kinds | by rewrite Hk1 | lia | lia | lia | lia |].
    exists h', c'. split; [done|]. split; [intros j; by rewrite Hk', Hk1|].
    split; [intros j Hj; rewrite Hrd by lia; unfold h1; by rewrite !read_other by lia|].
    rewrite (windows_kinds _ _ _ Hk1) in Hw. constructor; [|eapply held_mono; [|done]; lia].
    split; [lia|]. unfold bar_holds. rewrite Hk', Hk1, Ek, Hrd by lia. unfold h1.
    by rewrite read_written, kind_write, Ek, kept_u32.
  - destruct Hki as (Hs & Hfl & Hn). pose proof (size_bounds k Hs).
    destruct (align_room cur k Hs ltac:(lia)) as [Ha Hm].
    rewrite (assign_64 _ _ _ k f) by (done || lia). cbn [res_bind].
    set (a := ALIGN_UP_POT cur (2 ^ k)) in *. set (h1 := write_bar (write_bar _ i _) _ _).
    assert (same_kinds h h1) as Hk1 by (intros j; unfold h1; by rewrite !kind_write).
    destruct n as [|n]; [replace (i + 1) with 6 in Hn by lia; done|].
    pose proof (Hb (i + 1) ltac:(lia)) as Hki. rewrite Hn in Hki.
    replace (i + 1 + 1) with (i + 2) in Hki by lia. cbn [kind_ok] in Hki.
    cbn [windows]. rewrite Hn. replace (i + 1 + 1) with (i + 2) by lia.
    destruct (IH n h1 (i + 2) (a + 2 ^ k)) as (h' & c' & E & Hk' & Hrd & Hw);
      [by eapply bars_ok_kinds | by rewrite Hk1 | lia | lia | lia | lia |].
    exists h', c'. split; [done|]. split; [intros j; by rewrite Hk', Hk1|].
    split; [intros j Hj; rewrite Hrd by lia; unfold h1; by rewrite !read_other by lia|].
    rewrite (windows_kinds _ _ _ Hk1) in Hw. constructor; [|eapply held_mono; [|done]; lia].
    split; [lia|]. unfold bar_holds. rewrite Hk', Hk1, Ek, !Hrd by lia. unfold h1. split.
    + rewrite read_other by lia. by rewrite read_written, kind_write, Ek, kept_u32.
    + rewrite read_written, !kind_write, Hn. cbn [kept]. apply u32_id.
      split; [apply Z.div_pos; lia | apply Z.div_lt_upper_bound; lia].
Qed.

(** What a driver works out of the registers is the address, if it is aligned. *)
Lemma is_64_low q f : 0 <= f < 16 -> is_64_bit (16 * q + f) = is_64_bit f.
Proof.
  intros Hf. unfold is_64_bit. change 3 with (Z.ones 2).
  rewrite !land_ones_field by lia. f_equal. change (2 ^ 1) with 2. change (2 ^ 2) with 4. dlia.
Qed.

Lemma land_not15 x : 0 <= x < 2 ^ 64 -> Z.land x (u64 (Z.lnot 0xf)) = x / 16 * 16.
Proof. intros Hx. apply (land_neg_pow2 x 4); lia. Qed.

Lemma MMIO_addr_holds h i a k :
  (exists f, f ∈ [0; 8] /\ kind h i = Mem32 k f) \/ (exists f, f ∈ [4; 12] /\ kind h i = Mem64 k f) ->
  size_ok k -> 0 <= a < 2 ^ 32 -> bar_holds h i a -> MMIO_addr h i = a / 2 ^ k * 2 ^ k.
Proof.
  intros Hk Hs Ha Hh. pose proof (size_bounds k Hs). unfold bar_holds in Hh. unfold MMIO_addr.
  assert (exists q, a / 2 ^ k * 2 ^ k = 16 * q) as [q Hq].
  { exists (a / 2 ^ k * 2 ^ (k - 4)). unfold size_ok in Hs.
    replace (2 ^ k) with (2 ^ (k - 4) * 2 ^ 4) at 2
      by (rewrite <- Z.pow_add_r by lia; f_equal; lia). lia. }
  assert (0 <= a / 2 ^ k * 2 ^ k <= a).
  { pose proof (Z.div_mod a (2 ^ k)). pose proof (Z.mod_pos_bound a (2 ^ k)).
    pose proof (Z.div_pos a (2 ^ k)). nia. }
  destruct Hk as [(f & Hf & Hk)|(f & Hf & Hk)]; rewrite Hk in Hh; cbn [kept] in Hh.
  - rewrite (u32_id a), Hq in Hh by lia. rewrite Hh.
    assert (0 <= f < 16 /\ is_64_bit f = false) as [? Hw].
    { apply list_elem_of_In in Hf. cbn in Hf. destruct Hf as [<-|[<-|[]]]; (split; [lia | done]). }
    rewrite is_64_low, Hw by done. rewrite Hq, land_not15 by lia. dlia.
  - destruct Hh as [Hlo Hhi]. rewrite (u32_id a), Hq in Hlo by lia. rewrite Hlo, Hhi.
    rewrite (Z.div_small a (2 ^ 32)) by lia.
    assert (0 <= f < 16 /\ is_64_bit f = true) as [? Hw].
    { apply list_elem_of_In in Hf. cbn in Hf. destruct Hf as [<-|[<-|[]]]; (split; [lia | done]). }
    rewrite is_64_low, Hw by done. rewrite Hq, !land_not15 by (try rewrite land_not15; dlia). dlia.
Qed.

(** One window after the other. *)
Fixpoint in_order (lo : Z) (ws : list (Z * Z * Z)) (hi : Z) : Prop :=
  match ws with
  | [] => lo <= hi
  | (_, a, s) :: ws' => lo <= a /\ 0 < s /\ in_order (a + s) ws' hi
  end.

Definition window_end (lo : Z) (ws : list (Z * Z * Z)) : Z :=
  fold_left (fun _ '(_, a, s) => a + s) ws lo.

Definition is_32 (h : H) (i : Z) : bool := match kind h i with Mem32 _ _ => true | _ => false end.

(** The code does not align the BARs of 32 bits: each must come at a multiple of its size. *)
Definition aligned_32 (h : H) : Z * Z * Z -> Prop :=
  fun '(i, a, s) => is_32 h i = true -> a mod s = 0.

(** What each window of a list is for a register that exists. *)
Definition window_ok (h : H) : Z * Z * Z -> Prop :=
  fun '(i, a, s) => exists k, size_ok k /\ s = 2 ^ k /\ (is_32 h i = false -> a mod s = 0) /\
    ((exists f, f ∈ [0; 8] /\ kind h i = Mem32 k f) \/ (exists f, f ∈ [4; 12] /\ kind h i = Mem64 k f)).

Lemma windows_ok n h : bars_ok h -> forall i cur, 0 <= i -> i + Z.of_nat n = 6 ->
  0 <= cur < 2 ^ 31 + i * 2 ^ 32 ->
  in_order cur (windows n h i cur) (window_end cur (windows n h i cur)) /\
  Forall (window_ok h) (windows n h i cur).
Proof.
  intros (Hb0 & Hb6 & Hb). induction n as [|n IH]; intros i cur Hi0 Hi Hc; cbn [windows].
  { split; [cbn; lia | done]. }
  pose proof (Hb i ltac:(lia)) as Hki. destruct (kind h i) as [|k f|k f|] eqn:Ek; cbn [kind_ok] in Hki.
  1, 4: apply IH; lia.
  - destruct Hki as (Hs & Hfl & _). pose proof (size_bounds k Hs).
    destruct (IH (i + 1) (cur + 2 ^ k)) as [Ho Hw]; [lia | lia | lia |].
    split; [cbn; repeat split; lia || done|]. constructor; [|done]. exists k.
    split; [done|]. split; [done|]. split; [unfold is_32; by rewrite Ek|]. left. by exists f.
  - destruct Hki as (Hs & Hfl & _). pose proof (size_bounds k Hs).
    destruct (align_room cur k Hs ltac:(lia)) as [Ha Hm].
    destruct (IH (i + 1) (ALIGN_UP_POT cur (2 ^ k) + 2 ^ k)) as [Ho Hw]; [lia | lia | lia |].
    split; [cbn; repeat split; lia || done|]. constructor; [|done]. exists k.
    split; [done|]. split; [done|]. split; [done|]. right. by exists f.
Qed.

Lemma in_order_le lo ws hi : in_order lo ws hi -> lo <= hi.
Proof.
  revert lo. induction ws as [|[[i a] s] ws IH]; intros lo Ho; cbn in Ho; [done|].
  destruct Ho as (? & ? & Ho). apply IH in Ho. lia.
Qed.

Lemma in_order_hi lo ws hi hi' : hi <= hi' -> in_order lo ws hi -> in_order lo ws hi'.
Proof.
  intros Hh. revert lo. induction ws as [|[[i a] s] ws IH]; intros lo Ho; cbn in *; [lia|].
  destruct Ho as (? & ? & Ho). auto.
Qed.

Lemma in_order_elem lo ws hi i a s : in_order lo ws hi -> (i, a, s) ∈ ws ->
  lo <= a /\ 0 < s /\ a + s <= hi.
Proof.
  revert lo. induction ws as [|[[j b] t] ws IH]; intros lo Ho Hin; [by apply elem_of_nil in Hin|].
  cbn in Ho. destruct Ho as (? & ? & Ho). apply elem_of_cons in Hin as [[= -> -> ->]|Hin].
  - apply in_order_le in Ho. lia.
  - destruct (IH _ Ho Hin). lia.
Qed.

(** Every BAR answers at its window: the windows are aligned to their sizes, one after
    the other, between [lo] and [hi]. *)
Definition placed (h : H) (lo : Z) (ws : list (Z * Z * Z)) (hi : Z) : Prop :=
  in_order lo ws hi /\ Forall (fun '(i, a, s) => MMIO_addr h i = a /\ a mod s = 0) ws.

(** A device whose BARs fit in its share of the bus, 32 KB. *)
Definition fits (h : H) (lo : Z) : Prop :=
  let ws := windows 6 h 0 lo in
  window_end lo ws <= lo + 2 ^ 15 /\ Forall (aligned_32 h) ws.

Lemma assign_bars_ok h lo : bars_ok h -> 0 <= lo < 2 ^ 31 -> fits h lo ->
  exists h' cur, assign_bars h lo = Ok (h', cur) /\
    placed h' lo (windows 6 h 0 lo) (lo + 2 ^ 15).
Proof.
  intros Hok Hlo [Hend Hal]. pose proof Hok as (Hb0 & _).
  destruct (assign_from 7 6 h 0 lo Hok Hb0) as (h' & cur & E & Hk & _ & Hh); [lia.. |].
  exists h', cur. split; [done|]. destruct (windows_ok 6 h Hok 0 lo) as [Ho Hw]; [lia.. |].
  apply (in_order_hi _ _ _ _ Hend) in Ho. split; [done|].
  apply Forall_forall. intros [[i a] s] Hin.
  rewrite Forall_forall in Hal, Hh, Hw. specialize (Hal _ Hin). specialize (Hh _ Hin).
  specialize (Hw _ Hin). cbn [aligned_32 held window_ok] in *.
  destruct (in_order_elem _ _ _ _ _ _ Ho Hin) as (? & ? & ?).
  destruct Hw as (k & Hs & -> & H64 & Hkd). destruct Hh as [_ Hh].
  assert (a mod 2 ^ k = 0) as Hm by (destruct (is_32 h i); auto).
  split; [|done]. rewrite (MMIO_addr_holds _ _ a k); [| |done|lia|done].
  - pose proof (size_bounds k Hs). pose proof (Z.div_mod a (2 ^ k)). lia.
  - by rewrite Hk.
Qed.

End bars.

(** ** The slots of the configuration space

    The slot [n] is device [n mod 32] of bus [n / 32]. *)

Definition slot (n : Z) : Z := PCI_ECAM_ADDRESS_START + n * 2 ^ 15.

(** The addresses of a function begin at a multiple of 32 KB. *)
Definition share (n : Z) : Z := PCI_MMIO_ADDRESS_START + n * 2 ^ 15.

Lemma slot_inj i j : slot i = slot j -> i = j.
Proof. unfold slot. lia. Qed.

Lemma pci_get_ecam_slot bus device : 0 <= bus < 16 -> 0 <= device < 32 ->
  pci_get_ecam bus device 0 0 = slot (32 * bus + device) /\
  device_window (slot (32 * bus + device)) = share (32 * bus + device).
Proof.
  intros Hb Hd.
  assert (forallb (fun b => forallb (fun d =>
    (pci_get_ecam b d 0 0 =? slot (32 * b + d)) &&
    (device_window (slot (32 * b + d)) =? share (32 * b + d))) (seqZ 0 32)) (seqZ 0 16) = true)
    as E by (vm_compute; reflexivity).
  rewrite forallb_forall in E. specialize (E bus). rewrite <- list_elem_of_In, elem_of_seqZ in E.
  specialize (E ltac:(lia)). rewrite forallb_forall in E. specialize (E device).
  rewrite <- list_elem_of_In, elem_of_seqZ in E. specialize (E ltac:(lia)).
  apply andb_prop in E as [E1%Z.eqb_eq E2%Z.eqb_eq]. done.
Qed.

(** The registers of the bridge to bus [n]: it passes on the megabyte of that bus. *)
Definition bridge_to (n : Z) : bridge :=
  let lo := share (32 * n) / 2 ^ 16 in
  let hi := (share (32 * (n + 1)) - 1) / 2 ^ 16 in
  mkBridge 0 n n lo hi lo hi.

Section machine.
Context {H : Type} `{BarLaws H}.
Context (answers : gmap Z (pci_ecam H) -> Z -> bool).
Notation ecams := (gmap Z (pci_ecam H)).

Lemma setup_pci_bridge_ok n (e : pci_ecam H) : 0 <= n < 255 ->
  setup_pci_bridge n e 0 = (n + 1, with_bridge e COMMAND_REG_MMIO (bridge_to n)).
Proof.
  intros Hn.
  assert (forallb (fun n =>
    let a := Z.lor PCI_MMIO_ADDRESS_START (Z.shiftl n 20) in
    (u16 (Z.shiftr a 16) =? share (32 * n) / 2 ^ 16) &&
    (u16 (Z.shiftr (a + (2 ^ 20 - 1)) 16) =? (share (32 * (n + 1)) - 1) / 2 ^ 16)) (seqZ 0 255) = true)
    as E by (vm_compute; reflexivity).
  rewrite forallb_forall in E. specialize (E n). rewrite <- list_elem_of_In, elem_of_seqZ in E.
  specialize (E ltac:(lia)). apply andb_prop in E as [E1%Z.eqb_eq E2%Z.eqb_eq].
  unfold setup_pci_bridge, bridge_to. cbv zeta in *. rewrite E1, E2, u8_id by lia. done.
Qed.

(** The bridges and the virtio functions in the slots [1 .. n - 1]. *)
Definition is_bridge (fs : ecams) (n : Z) : bool :=
  match fs !! slot n with Some e => header_type e =? 1 | None => false end.

Definition is_virtio (fs : ecams) (n : Z) : bool :=
  match fs !! slot n with Some e => vendor_id e =? VIRTIO_PCI_VENDOR_ID | None => false end.

Definition bus_behind (fs : ecams) (n : Z) : Z :=
  1 + Z.of_nat (length (filter (fun j => is_bridge fs j = true) (seqZ 1 (n - 1)))).

Definition virtio_devices (fs : ecams) (n : Z) : list PciDevice :=
  rev (map (fun j => mkPci (slot j) (32 + (j / 32 + j mod 32) mod 4))
         (filter (fun j => is_virtio fs j = true) (seqZ 1 (n - 1)))).

Lemma seqZ_snoc n : 1 <= n -> seqZ 1 (n + 1 - 1) = seqZ 1 (n - 1) ++ [n].
Proof.
  intros Hn. replace (n + 1 - 1) with (n - 1 + 1) by lia. rewrite seqZ_app by lia.
  replace (1 + (n - 1)) with n by lia. unfold seqZ.
  change (seq 0 (Z.to_nat 1)) with [0%nat]. cbn [fmap list_fmap]. by rewrite Z.add_0_l.
Qed.

Lemma bus_behind_next fs n : 1 <= n ->
  bus_behind fs (n + 1) = bus_behind fs n + (if is_bridge fs n then 1 else 0).
Proof.
  intros Hn. unfold bus_behind. rewrite seqZ_snoc, filter_app, length_app by done.
  rewrite filter_cons, filter_nil. destruct (is_bridge fs n); cbn [decide length];
    [rewrite decide_True by done | rewrite decide_False by done]; cbn [length]; lia.
Qed.

Lemma virtio_devices_next fs n : 1 <= n ->
  virtio_devices fs (n + 1) =
  if is_virtio fs n then mkPci (slot n) (32 + (n / 32 + n mod 32) mod 4) :: virtio_devices fs n
  else virtio_devices fs n.
Proof.
  intros Hn. unfold virtio_devices. rewrite seqZ_snoc, filter_app, map_app, rev_app_distr by done.
  rewrite filter_cons, filter_nil. destruct (is_virtio fs n);
    [by rewrite decide_True | by rewrite decide_False].
Qed.

Lemma bus_behind_range fs n : 1 <= n -> 1 <= bus_behind fs n <= n.
Proof.
  intros Hn. unfold bus_behind.
  pose proof (length_filter (fun j => is_bridge fs j = true) (seqZ 1 (n - 1))) as Hl.
  rewrite length_seqZ in Hl. lia.
Qed.

(** A function after pci_init. *)
Definition configured (fs : ecams) (n : Z) (e e' : pci_ecam H) : Prop :=
  if header_type e =? 0 then
    exists h, e' = with_bars e (Z.lor (Z.land (command_reg e) (u16 (Z.lnot 3))) COMMAND_REG_MMIO) h /\
      placed h (share n) (windows 6 (bars e) 0 (share n)) (share (n + 1))
  else if header_type e =? 1 then
    e' = with_bridge e COMMAND_REG_MMIO (bridge_to (bus_behind fs n))
  else e' = e.

(** The machine: each function is in a slot other than 0, devices fit in their share, and
    bridges are on bus 0; a function on another bus is behind a bridge. *)
Record machine_ok (fs : ecams) : Prop := mkMachine {
  in_slots a : is_Some (fs !! a) -> exists n, 1 <= n < 512 /\ a = slot n;
  devices_fit n e : fs !! slot n = Some e -> header_type e = 0 -> bars_ok (bars e) /\ fits (bars e) (share n);
  bridges_on_root n : is_bridge fs n = true -> n < 32;
  behind n : is_Some (fs !! slot n) -> n / 32 = 0 \/ exists j, 1 <= j /\ is_bridge fs j = true /\
    bus_behind fs j = n / 32
}.

(** Bus 0 answers, and so does the bus behind a bridge that is set up. *)
Record routes : Prop := mkRoutes {
  routes_root fs : answers fs 0 = true;
  routes_behind fs j e bus : 1 <= j < 32 -> fs !! slot j = Some e -> header_type e = 1 ->
    command_reg e = COMMAND_REG_MMIO -> type1 e = bridge_to bus -> answers fs bus = true
}.

(** After the slots below [n]. *)
Record scanned (fs : ecams) (n : Z) (s : pci_state H) : Prop := mkScanned {
  sc_sbn : sbn s = bus_behind fs n;
  sc_devices : g_virtio_devices s = virtio_devices fs n;
  sc_dom a : fs !! a = None -> functions s !! a = None;
  sc_done j e : j < n -> fs !! slot j = Some e ->
    exists e', functions s !! slot j = Some e' /\ configured fs j e e';
  sc_left j : n <= j -> functions s !! slot j = fs !! slot j
}.

Lemma no_slot fs n : machine_ok fs -> ~ (1 <= n < 512) -> fs !! slot n = None.
Proof.
  intros Hm Hn. destruct (fs !! slot n) eqn:E; [|done].
  destruct (in_slots _ Hm (slot n)) as (j & Hj & Hs); [by rewrite E|]. apply slot_inj in Hs. lia.
Qed.

Lemma scanned_start fs : machine_ok fs -> scanned fs 1 (mkPciState fs 1 []).
Proof.
  intros Hm. split; [done | done | done | | done]. intros j e Hj He.
  rewrite (no_slot fs j Hm) in He by lia. done.
Qed.

(** A slot with nothing in it. *)
Lemma scanned_empty fs n s : 1 <= n -> fs !! slot n = None -> scanned fs n s -> scanned fs (n + 1) s.
Proof.
  intros Hn He [Hs Hd Ho Hf Hl]. split.
  - rewrite bus_behind_next by done. unfold is_bridge. rewrite He. lia.
  - rewrite virtio_devices_next by done. unfold is_virtio. by rewrite He.
  - done.
  - intros j e Hj Hj'. apply Hf; [|done]. assert (j <> n) by (intros ->; congruence). lia.
  - intros j Hj. apply Hl. lia.
Qed.

(** A slot whose function [e] has become [e']. *)
Lemma scanned_next fs n s e e' m : 1 <= n -> fs !! slot n = Some e -> scanned fs n s ->
  configured fs n e e' -> vendor_id e' = vendor_id e ->
  m = sbn s + (if header_type e =? 1 then 1 else 0) ->
  scanned fs (n + 1) (mkPciState (<[slot n := e']> (functions s)) m
    (if vendor_id e' =? VIRTIO_PCI_VENDOR_ID
     then mkPci (slot n) (32 + (n / 32 + n mod 32) mod 4) :: g_virtio_devices s
     else g_virtio_devices s)).
Proof.
  intros Hn He [Hs Hd Ho Hf Hl] Hc Hv ->. split; cbn.
  - rewrite bus_behind_next, Hs by done. unfold is_bridge. by rewrite He.
  - rewrite virtio_devices_next, Hv, Hd by done. unfold is_virtio. by rewrite He.
  - intros a Ha. rewrite lookup_insert_ne by congruence. auto.
  - intros j f Hj Hjf. destruct (decide (j = n)) as [->|Hne].
    + rewrite lookup_insert_eq. exists e'. split; [done|]. congruence.
    + rewrite lookup_insert_ne by (intros E; apply slot_inj in E; lia). apply Hf; [lia | done].
  - intros j Hj. rewrite lookup_insert_ne by (intros E; apply slot_inj in E; lia). apply Hl. lia.
Qed.

(** A function answers when its turn comes: the bridge to its bus has been set up. *)
Lemma bus_answers fs n s : machine_ok fs -> routes -> scanned fs n s -> is_Some (fs !! slot n) ->
  answers (functions s) (n / 32) = true.
Proof.
  intros Hm [Hr Hb] Hsc Hn. destruct (behind _ Hm n Hn) as [->|(j & Hj & Hjb & Hbus)]; [done|].
  pose proof (bridges_on_root _ Hm j Hjb) as Hj32.
  pose proof (bus_behind_range fs j Hj) as Hrange. rewrite Hbus in Hrange.
  pose proof Hjb as Hjb'. unfold is_bridge in Hjb'. destruct (fs !! slot j) as [e|] eqn:E; [|done].
  apply Z.eqb_eq in Hjb'.
  destruct (sc_done _ _ _ Hsc j e) as (e' & E' & Hc); [|done|].
  { assert (32 <= n) by dlia. lia. }
  unfold configured in Hc. rewrite Hjb' in Hc. cbn in Hc. subst e'.
  eapply (Hb _ j); [lia | exact E' | done | done | by rewrite <- Hbus].
Qed.

Lemma probe_slot fs n s : machine_ok fs -> routes -> 1 <= n < 512 -> scanned fs n s ->
  exists s', pci_probe answers (n / 32) (n mod 32) s = Ok s' /\ scanned fs (n + 1) s'.
Proof.
  intros Hm Hr Hn Hsc. unfold pci_probe.
  assert ((n / 32 =? 0) && (n mod 32 =? 0) = false) as ->.
  { apply andb_false_iff. rewrite !Z.eqb_neq. dlia. }
  destruct (pci_get_ecam_slot (n / 32) (n mod 32)) as [-> Hw]; [dlia | dlia |].
  replace (32 * (n / 32) + n mod 32) with n in * by dlia. unfold probe.
  rewrite (sc_left _ _ _ Hsc n) by lia.
  destruct (fs !! slot n) as [e|] eqn:E.
  2: { exists s. split; [by destruct (answers _ _) | apply scanned_empty; [lia | done | done]]. }
  rewrite (bus_answers fs n s) by (done || by rewrite E).
  destruct (Z.eqb_spec (header_type e) 0) as [H0'|H0'].
  - destruct (devices_fit _ Hm n e E H0') as [Hok Hfit].
    destruct (assign_bars_ok (bars e) (share n)) as (h & cur & Ea & Hp); [done | unfold share, PCI_MMIO_ADDRESS_START; lia | done |].
    unfold setup_pci_device. rewrite Hw, Ea. cbn [res_bind].
    eexists. split; [done|]. apply (scanned_next fs n s e); [lia | done | done | | done |].
    + unfold configured. rewrite H0'. cbn. exists h. split; [done|].
      replace (share (n + 1)) with (share n + 2 ^ 15) by (unfold share; lia). done.
    + rewrite H0'. cbn. lia.
  - destruct (Z.eqb_spec (header_type e) 1) as [H1|H1]; cbn [res_bind].
    + assert (n < 32) by (apply (bridges_on_root _ Hm); unfold is_bridge; rewrite E; by apply Z.eqb_eq).
      assert (n / 32 = 0) as Hz by dlia. pose proof (bus_behind_range fs n ltac:(lia)).
      pose proof (sc_sbn _ _ _ Hsc) as Hsbn.
      assert (setup_pci_bridge (sbn s) e (n / 32) =
        (sbn s + 1, with_bridge e COMMAND_REG_MMIO (bridge_to (sbn s)))) as ->
        by (rewrite Hz; apply setup_pci_bridge_ok; lia).
      eexists. split; [done|]. apply (scanned_next fs n s e); [lia | done | done | | done |].
      * unfold configured. rewrite H1. cbn. by rewrite Hsbn.
      * rewrite H1. done.
    + eexists. split; [done|]. apply (scanned_next fs n s e); [lia | done | done | | done |].
      * unfold configured. by rewrite (proj2 (Z.eqb_neq _ _) H0'), (proj2 (Z.eqb_neq _ _) H1).
      * rewrite (proj2 (Z.eqb_neq _ _) H1). lia.
Qed.

(** (C22) pci_init sets up what there is: every device has its BARs in its own share of the
    addresses, every bridge passes on the megabyte of the bus it got, and the list holds
    the virtio functions with their interrupts. *)
Theorem pci_init_correct fs : machine_ok fs -> routes ->
  exists s, pci_init answers fs = Ok s /\
    (forall n e, fs !! slot n = Some e ->
       exists e', functions s !! slot n = Some e' /\ configured fs n e e') /\
    (forall a, fs !! a = None -> functions s !! a = None) /\
    g_virtio_devices s = virtio_devices fs 512.
Proof.
  intros Hm Hr. unfold pci_init.
  destruct (for_up_total (fun b s => scanned fs (Z.max 1 (32 * b)) s)
    (fun bus => for_up 32 0 (fun device => pci_probe answers bus device)) 16 0
    (mkPciState fs 1 [])) as (s & -> & Hs).
  - by apply scanned_start.
  - intros bus s Hb Hs.
    destruct (for_up_total (fun d s => scanned fs (Z.max 1 (32 * bus + d)) s)
      (fun device => pci_probe answers bus device) 32 0 s) as (s' & -> & Hs').
    + by rewrite Z.add_0_r.
    + intros d s1 Hd Hs1. destruct (decide (32 * bus + d = 0)) as [Hz|Hz].
      { exists s1. assert (bus = 0 /\ d = 0) as [-> ->] by lia. done. }
      destruct (probe_slot fs (32 * bus + d) s1 Hm Hr) as (s2 & E & Hs2); [lia | |].
      { replace (32 * bus + d) with (Z.max 1 (32 * bus + d)) by lia. done. }
      replace ((32 * bus + d) / 32) with bus in E by dlia.
      replace ((32 * bus + d) mod 32) with d in E by dlia.
      exists s2. split; [done|]. by replace (Z.max 1 (32 * bus + (d + 1))) with (32 * bus + d + 1) by lia.
    + exists s'. split; [done|].
      by replace (Z.max 1 (32 * (bus + 1))) with (Z.max 1 (32 * bus + (0 + Z.of_nat 32))) by lia.
  - change (Z.max 1 (32 * (0 + Z.of_nat 16))) with 512 in Hs. exists s. split; [done|].
    split; [|split; [apply (sc_dom _ _ _ Hs) | apply (sc_devices _ _ _ Hs)]].
    intros n e He. apply (sc_done _ _ _ Hs); [|done].
    destruct (decide (n < 512)); [done|]. rewrite (no_slot fs n Hm) in He by lia. done.
Qed.

(** The code aligns the BARs of 64 bits only: a larger BAR of 32 bits after a smaller one
    drops the low bits of its address, and answers where the smaller one does. *)
Theorem bars_32_overlap (h : H) lo j k f g : bars_ok h ->
  kind h 0 = Mem32 j f -> kind h 1 = Mem32 k g -> j < k ->
  0 <= lo < 2 ^ 31 -> lo mod 2 ^ k = 0 ->
  exists h' cur, assign_bars h lo = Ok (h', cur) /\ MMIO_addr h' 0 = lo /\ MMIO_addr h' 1 = lo.
Proof.
  intros Hok Hj Hk Hjk Hlo Hm. pose proof Hok as (Hb0 & _ & Hb).
  pose proof (Hb 0 ltac:(lia)) as K0. pose proof (Hb 1 ltac:(lia)) as K1.
  rewrite Hj in K0. rewrite Hk in K1. destruct K0 as (Hsj & Hf & _), K1 as (Hsk & Hg & _).
  destruct (assign_from 7 6 h 0 lo Hok Hb0) as (h' & cur & E & Hkd & _ & Hh); [lia.. |].
  exists h', cur. split; [done|]. cbn [windows] in Hh. rewrite Hj in Hh.
  change (0 + 1) with 1 in Hh. rewrite Hk in Hh.
  apply Forall_cons in Hh as [[_ H0'] Hh]. apply Forall_cons in Hh as [[_ H1'] _].
  pose proof (size_bounds j Hsj). pose proof (size_bounds k Hsk).
  assert (2 ^ j < 2 ^ k) by (unfold size_ok in *; apply Z.pow_lt_mono_r; lia).
  assert (lo = 2 ^ k * (lo / 2 ^ k)) as Hq by (pose proof (Z.div_mod lo (2 ^ k)); lia).
  split.
  - rewrite (MMIO_addr_holds _ _ lo j); [| |done|lia|done].
    + assert (lo mod 2 ^ j = 0); [|pose proof (Z.div_mod lo (2 ^ j)); lia].
      replace k with (k - j + j) in Hq by lia. unfold size_ok in *.
      rewrite Z.pow_add_r in Hq by lia. rewrite Hq.
      replace (2 ^ (k - j) * 2 ^ j * (lo / (2 ^ (k - j) * 2 ^ j)))
        with (2 ^ (k - j) * (lo / (2 ^ (k - j) * 2 ^ j)) * 2 ^ j) by lia.
      apply Z.mod_mul. lia.
    + left. exists f. by rewrite Hkd.
  - rewrite (MMIO_addr_holds _ _ (lo + 2 ^ j) k); [| |done|lia|done].
    + replace ((lo + 2 ^ j) / 2 ^ k) with (lo / 2 ^ k); [lia|].
      apply (Z.div_unique _ _ _ (2 ^ j)); lia.
    + left. exists g. by rewrite Hkd.
Qed.

End machine.

(** ** A machine: a bridge with a virtio device behind it, and one on the root bus *)

Module Demo.

Record bar_file := mkFile { kinds : list bar_kind; regs : gmap Z Z }.

Definition kind_at (h : bar_file) (i : Z) : bar_kind :=
  if i <? 0 then Absent else default Absent (kinds h !! Z.to_nat i).

#[export] Instance demo_bars : Bars bar_file := {
  read_bar h i := default 0 (regs h !! i);
  write_bar h i v := mkFile (kinds h) (<[i := kept (kind_at h i) v]> (regs h))
}.

#[export, refine] Instance demo_bar_laws : BarLaws bar_file := { kind := kind_at }.
Proof.
  - done.
  - intros h i v. cbn. by rewrite lookup_insert_eq.
  - intros h i v j Hij. cbn. by rewrite lookup_insert_ne.
Defined.

Definition no_bridge : bridge := mkBridge 0 0 0 0 0 0 0.

(** What QEMU gives a virtio function: 4 KB of 32 bits and 16 KB of 64. *)
Definition virtio_bars : bar_file :=
  mkFile [Absent; Mem32 12 0; Absent; Absent; Mem64 14 12; Upper] ∅.

Definition virtio_function (id : Z) : pci_ecam bar_file :=
  mkEcam VIRTIO_PCI_VENDOR_ID id 0 0 0x84 (fun _ => 0) virtio_bars no_bridge.

Definition a_bridge : pci_ecam bar_file :=
  mkEcam 0x1b36 0xc 0 1 0 (fun _ => 0) (mkFile [] ∅) no_bridge.

Definition machine : gmap Z (pci_ecam bar_file) :=
  <[slot 1 := a_bridge]> (<[slot 2 := virtio_function 0x1050]>
    (<[slot 35 := virtio_function 0x1042]> ∅)).

Definition answers (fs : gmap Z (pci_ecam bar_file)) (bus : Z) : bool :=
  (bus =? 0) ||
  existsb (fun j => match fs !! slot j with
                    | Some e => (header_type e =? 1) && (secondary_bus_no (type1 e) =? bus)
                    | None => false
                    end) (seqZ 1 31).

Lemma answers_routes : routes answers.
Proof.
  split; [done|]. intros fs j e bus Hj He H1 _ Hb. unfold answers. apply orb_true_iff. right.
  apply existsb_exists. exists j. split; [apply list_elem_of_In, elem_of_seqZ; lia|].
  by rewrite He, H1, Hb, !Z.eqb_refl.
Qed.

Lemma virtio_bars_ok : bars_ok virtio_bars.
Proof.
  split; [done|]. split; [done|]. intros i Hi.
  assert (i = 0 \/ i = 1 \/ i = 2 \/ i = 3 \/ i = 4 \/ i = 5) as [-> | [-> | [-> | [-> | [-> | ->]]]]]
    by lia; cbn; try done; (split; [unfold size_ok; lia | split; [set_solver | done]]).
Qed.

Lemma machine_slots n e : machine !! slot n = Some e ->
  n = 1 /\ e = a_bridge \/ n = 2 /\ e = virtio_function 0x1050 \/
  n = 35 /\ e = virtio_function 0x1042.
Proof.
  unfold machine. intros He.
  repeat (apply lookup_insert_Some in He as [[Hs He]|[_ He]]; [apply slot_inj in Hs; intuition congruence|]).
  done.
Qed.

Lemma demo_machine_ok : machine_ok machine.
Proof.
  split.
  - intros a [e He]. unfold machine in He.
    repeat (apply lookup_insert_Some in He as [[<- _]|[_ He]]; [by eexists; split; [|done]; lia|]).
    done.
  - intros n e [[-> ->]|[[-> ->]|[-> ->]]]%machine_slots Ht; [done | |];
      (split; [apply virtio_bars_ok | split; [vm_compute; done|]]);
      repeat constructor; intros _; vm_compute; reflexivity.
  - intros n Hn. unfold is_bridge in Hn. destruct (machine !! slot n) eqn:E; [|done].
    apply machine_slots in E as [[-> ->]|[[-> ->]|[-> ->]]]; done.
  - intros n [e E]. apply machine_slots in E as [[-> ->]|[[-> ->]|[-> ->]]]; [by left.. |].
    right. exists 1. split; [lia|]. split; reflexivity.
Qed.

Lemma pci_init_correct_witness :
  exists s, pci_init answers machine = Ok s /\
    map irq (g_virtio_devices s) = [32; 34] /\
    (exists e, functions s !! slot 35 = Some e /\ MMIO_addr (bars e) 4 = 0x4011C000).
Proof.
  destruct (pci_init_correct answers machine demo_machine_ok answers_routes) as (s & E & Hf & _ & Hv).
  exists s. split; [done|]. split; [rewrite Hv; vm_compute; reflexivity|].
  destruct (Hf 35 (virtio_function 0x1042)) as (e & He & h & -> & Hp); [reflexivity|].
  eexists. split; [done|]. destruct Hp as [_ Hp]. rewrite Forall_forall in Hp.
  apply (Hp (4, 0x4011C000, 2 ^ 14)). vm_compute. do 2 constructor.
Defined.

(** A BAR of 4 KB and one of 16 KB, both of 32 bits. *)
Lemma bars_32_overlap_witness :
  exists h' cur, assign_bars (mkFile [Mem32 12 0; Mem32 14 0] ∅) 0x40100000 = Ok (h', cur) /\
    MMIO_addr h' 0 = MMIO_addr h' 1.
Proof.
  destruct (bars_32_overlap (mkFile [Mem32 12 0; Mem32 14 0] ∅) 0x40100000 12 14 0 0)
    as (h' & cur & E & E0 & E1); [| done | done | lia | lia | reflexivity |
      exists h', cur; split; [done | by rewrite E0, E1]].
  split; [done|]. split; [done|]. intros i Hi.
  assert (i = 0 \/ i = 1 \/ i = 2 \/ i = 3 \/ i = 4 \/ i = 5) as [-> | [-> | [-> | [-> | [-> | ->]]]]]
    by lia; cbn; try done; (split; [unfold size_ok; lia | split; [set_solver | done]]).
Defined.

End Demo.
