(* ===== verification/Virtio.v ===== *)
(** The virtqueue as the drivers of the kernel use it (block.c, rng.c and gpu.c of
    src/src): a chain of descriptors is filled in, its head is put in the driver ring, and
    the device is notified.

    All the drivers write the same code with one, two or three descriptors: [post_chain]
    is that code for a list of buffers. The device is not part of the program: the class
    [Device] says what happens between the notification and the end of the wait, and its
    laws that the device reads the chain in the new entry of the ring ([new_request]),
    serves it and counts it as used. *)
From S2P Require Import Prelude Mem Lock.

(** ** Data of virtio.h *)

Record VirtioDescriptor := mkDesc { addr : Z; len : Z; flags : Z; next : Z }.

Definition VIRTQ_DESC_F_NEXT : Z := 1.
Definition VIRTQ_DESC_F_WRITE : Z := 2.
Definition VIRTIO_F_DRIVER_OK : Z := 4.

(** [VirtioDevice] and the rings it points to: [desc] is the table of descriptors, [ring]
    and [drv_idx] are driver->ring and driver->idx, [used_idx] is device->idx, and
    [queue_interrupt] the bit of isr. *)
Record VirtioDevice := mkVdev {
  device_status : Z;
  queue_size : Z;
  desc : list VirtioDescriptor;
  ring : list Z;
  drv_idx : Z;
  used_idx : Z;
  queue_interrupt : bool;
  vlock : Mutex;
  driver_idx : Z;
  device_idx : Z
}.

Definition set_queue (v : VirtioDevice) (d : list VirtioDescriptor) (r : list Z) (i j : Z)
    (l : Mutex) : VirtioDevice :=
  mkVdev (device_status v) (queue_size v) d r i (used_idx v) (queue_interrupt v) l j
    (device_idx v).

Definition set_device_idx (v : VirtioDevice) (i : Z) : VirtioDevice :=
  mkVdev (device_status v) (queue_size v) (desc v) (ring v) (drv_idx v) (used_idx v)
    (queue_interrupt v) (vlock v) (driver_idx v) i.

(** ** The driver *)

(** A buffer of a chain: its physical address, its length and its flags. *)
Abbreviation buffer := (Z * Z * Z)%type (only parsing).

(** [descriptors[i] = d] *)
Definition st_desc (t : list VirtioDescriptor) (i : Z) (d : VirtioDescriptor) :
    res (list VirtioDescriptor) :=
  if (0 <=? i) && (i <? Z.of_nat (length t)) then Ok (<[Z.to_nat i := d]> t) else Ub.

(** The index of the [k]-th descriptor of a chain that starts at [at_idx]. *)
Definition nth_idx (at_idx q k : Z) : Z := if k =? 0 then at_idx else (at_idx + k) mod q.

(** The [next] of the last descriptor is 0. *)
Fixpoint put_chain (t : list VirtioDescriptor) (at_idx q k : Z) (ds : list buffer) :
    res (list VirtioDescriptor) :=
  match ds with
  | [] => Ok t
  | (a, l, f) :: ds' =>
      let n := match ds' with [] => 0 | _ => (at_idx + (k + 1)) mod q end in
      let* t := st_desc t (nth_idx at_idx q k) (mkDesc a l f n) in
      put_chain t at_idx q (k + 1) ds'
  end.

(** From [at_idx = driver_idx] to [mutex_unlock]. *)
Definition post_chain (v : VirtioDevice) (ds : list buffer) : res VirtioDevice :=
  let at_idx := driver_idx v in
  let q_size := queue_size v in
  let* l := mutex_spinlock (vlock v) in
  if q_size =? 0 then Ub
  else
    let* d := put_chain (desc v) at_idx q_size 0 ds in
    let slot := drv_idx v mod q_size in
    if Z.of_nat (length (ring v)) <=? slot then Ub
    else Ok (set_queue v d (<[Z.to_nat slot := at_idx]> (ring v)) (u16 (drv_idx v + 1))
               ((driver_idx v + 1) mod q_size) (mutex_unlock l)).

(** [while (device_idx != device->idx) device_idx += 1;] *)
Definition catch_up (v : VirtioDevice) : res VirtioDevice :=
  let* i := loop (S (Z.to_nat (u16 (used_idx v - device_idx v))))
              (fun i => if i =? used_idx v then Ok (Done i) else Ok (Next (u16 (i + 1))))
              (device_idx v) in
  Ok (set_device_idx v i).

(** ** The device *)

(** The chain from descriptor [i] on, as a device follows it. *)
Fixpoint read_chain (n : nat) (t : list VirtioDescriptor) (i : Z) : option (list buffer) :=
  match n with
  | O => None
  | S n' =>
      d ← t !! Z.to_nat i;
      if Z.testbit (flags d) 0 then
        ds ← read_chain n' t (next d); Some ((addr d, len d, flags d) :: ds)
      else Some [(addr d, len d, flags d)]
  end.

(** The one entry of the driver ring the device has not seen. *)
Definition new_request (v : VirtioDevice) : option (list buffer) :=
  if drv_idx v =? u16 (used_idx v + 1) then
    head ← ring v !! Z.to_nat (used_idx v mod queue_size v);
    read_chain (length (desc v)) (desc v) head
  else None.

Definition completed (v : VirtioDevice) : VirtioDevice :=
  mkVdev (device_status v) (queue_size v) (desc v) (ring v) (drv_idx v) (u16 (used_idx v + 1))
    false (vlock v) (driver_idx v) (device_idx v).

(** [notified b v m]: what the device, in state [b], leaves when the wait of the driver that
    notified it is over. *)
Class Device (B : Type) := {
  notified : B -> VirtioDevice -> mem -> B * VirtioDevice * mem
}.

Class DeviceLaws (B : Type) `{!Device B} := {
  serves : B -> list buffer -> mem -> B * mem;
  notified_law b v m ds : new_request v = Some ds ->
    notified b v m = let '(b', m') := serves b ds m in (b', completed v, m')
}.

(** ** The queue between two requests *)

Record idle (v : VirtioDevice) : Prop := mkIdle {
  idle_lock : vlock v = MUTEX_UNLOCKED;
  idle_used : used_idx v = drv_idx v;
  idle_idx : 0 <= drv_idx v < 2 ^ 16;
  idle_size : 3 <= queue_size v < 2 ^ 16;
  idle_desc : Z.of_nat (length (desc v)) = queue_size v;
  idle_ring : Z.of_nat (length (ring v)) = queue_size v;
  idle_at : 0 <= driver_idx v < queue_size v;
  idle_seen : 0 <= device_idx v < 2 ^ 16
}.

(** Every buffer but the last says that another follows. *)
Fixpoint chained (ds : list buffer) : Prop :=
  match ds with
  | [] => False
  | [(_, _, f)] => Z.testbit f 0 = false
  | (_, _, f) :: ds' => Z.testbit f 0 = true /\ chained ds'
  end.

Lemma st_desc_ok t i d : 0 <= i < Z.of_nat (length t) ->
  st_desc t i d = Ok (<[Z.to_nat i := d]> t).
Proof. intros. unfold st_desc. by rewrite (proj2 (Z.leb_le _ _)), (proj2 (Z.ltb_lt _ _)) by lia. Qed.

Lemma nth_idx_range a q k : 0 < q -> 0 <= a < q -> 0 <= nth_idx a q k < q.
Proof. intros. unfold nth_idx. destruct (k =? 0); [done | by apply Z.mod_pos_bound]. Qed.

Lemma nth_idx_mod a q k : 0 < q -> 0 <= a < q -> nth_idx a q k = (a + k) mod q.
Proof.
  intros. unfold nth_idx. destruct (Z.eqb_spec k 0) as [->|]; [|done].
  by rewrite Z.add_0_r, Z.mod_small.
Qed.

Lemma nth_idx_inj a q j k : 0 <= a < q -> 0 <= j < q -> 0 <= k < q ->
  nth_idx a q j = nth_idx a q k -> j = k.
Proof.
  intros Ha Hj Hk. rewrite !nth_idx_mod by lia. intros E.
  pose proof (Z.div_mod (a + j) q ltac:(lia)). pose proof (Z.div_mod (a + k) q ltac:(lia)).
  assert ((a + j) / q = (a + k) / q \/ (a + j) / q = (a + k) / q + 1 \/
          (a + k) / q = (a + j) / q + 1) as [?|[?|?]]; [|nia|nia|nia].
  pose proof (Z.mod_pos_bound (a + j) q ltac:(lia)). nia.
Qed.

Section chain.
Context (a q : Z) (Ha : 0 <= a < q).

Lemma put_chain_ok ds : forall t k, Z.of_nat (length t) = q -> 0 <= k ->
  k + Z.of_nat (length ds) <= q ->
  exists t', put_chain t a q k ds = Ok t' /\ length t' = length t /\
    (forall j, 0 <= j < k -> t' !! Z.to_nat (nth_idx a q j) = t !! Z.to_nat (nth_idx a q j)) /\
    (chained ds -> forall n, (length ds <= n)%nat -> read_chain n t' (nth_idx a q k) = Some ds).
Proof.
  induction ds as [|[[x l] f] ds IH]; intros t k Hl Hk Hds; [by exists t|].
  cbn [put_chain length] in *. pose proof (nth_idx_range a q k ltac:(lia) Ha) as Hi.
  rewrite st_desc_ok by lia. cbn [res_bind]. set (d := mkDesc x l f _).
  destruct (IH (<[Z.to_nat (nth_idx a q k) := d]> t) (k + 1)) as (t' & -> & Hl' & Hold & Hrd);
    [by rewrite length_insert | lia | lia |].
  exists t'. split; [done|]. split; [by rewrite Hl', length_insert|]. split.
  - intros j Hj. rewrite Hold by lia. apply list_lookup_insert_ne. intros E.
    apply Z2Nat.inj in E; [|lia|apply nth_idx_range; lia].
    apply nth_idx_inj in E; lia.
  - intros Hc n Hn. destruct n as [|n]; [lia|]. cbn [read_chain].
    rewrite Hold by lia. rewrite list_lookup_insert_eq by lia. cbn [mbind option_bind].
    subst d. destruct ds as [|d2 ds].
    + cbn in Hc |- *. by rewrite Hc.
    + destruct Hc as [Hf Hc]. cbn [flags addr len next]. rewrite Hf.
      assert ((a + (k + 1)) mod q = nth_idx a q (k + 1)) as ->
        by (unfold nth_idx; by rewrite (proj2 (Z.eqb_neq (k + 1) 0)) by lia).
      rewrite Hrd by (done || lia). done.
Qed.

End chain.

(** What is offered is what the device sees, and the queue is idle again after it. *)
Lemma post_chain_ok v ds : idle v -> chained ds -> Z.of_nat (length ds) <= queue_size v ->
  exists v', post_chain v ds = Ok v' /\ new_request v' = Some ds /\ idle (completed v') /\
    device_status v' = device_status v /\ queue_size v' = queue_size v.
Proof.
  intros [Hlk Hu Hi Hq Hd Hr Ha Hs] Hc Hl. unfold post_chain. rewrite Hlk.
  change (mutex_spinlock MUTEX_UNLOCKED) with (Ok MUTEX_LOCKED). cbn [res_bind].
  rewrite (proj2 (Z.eqb_neq _ _)) by lia.
  destruct (put_chain_ok (driver_idx v) (queue_size v) Ha ds (desc v) 0 Hd) as
    (t & -> & Ht & _ & Hrd); [lia | lia |]. cbn [res_bind].
  pose proof (Z.mod_pos_bound (drv_idx v) (queue_size v) ltac:(lia)) as Hslot.
  rewrite (proj2 (Z.leb_gt _ _)) by lia. eexists. split; [done|].
  split; [|split; [|done]].
  - unfold new_request. cbn [drv_idx used_idx set_queue ring queue_size desc].
    rewrite Hu, Z.eqb_refl, list_lookup_insert_eq by lia. cbn [mbind option_bind].
    change (driver_idx v) with (nth_idx (driver_idx v) (queue_size v) 0) at 1.
    apply Hrd; [done|]. rewrite Ht. lia.
  - split; cbn; try done; try lia.
    + by rewrite Hu.
    + apply u16_range.
    + by rewrite length_insert.
    + apply Z.mod_pos_bound. lia.
Qed.

Lemma catch_up_ok v : 0 <= used_idx v < 2 ^ 16 -> 0 <= device_idx v < 2 ^ 16 ->
  catch_up v = Ok (set_device_idx v (used_idx v)).
Proof.
  intros Hu Hd. unfold catch_up.
  destruct (loop_total (fun i => 0 <= i < 2 ^ 16) (fun i => Z.to_nat (u16 (used_idx v - i)))
    (fun i => i = used_idx v)
    (fun i => if i =? used_idx v then Ok (Done i) else Ok (Next (u16 (i + 1)))))
    with (n := S (Z.to_nat (u16 (used_idx v - device_idx v)))) (s := device_idx v)
    as (i & -> & ->); [|done|lia|done].
  intros i Hi. destruct (Z.eqb_spec i (used_idx v)) as [->|]; [right; eauto|]. left.
  eexists. split; [done|]. split; [apply u16_range|].
  unfold u16. assert (0 < (used_idx v - i) mod 2 ^ 16) by dlia. dlia.
Qed.

Lemma idle_seen_up v : idle v -> idle (set_device_idx v (used_idx v)).
Proof. intros [? Hu ? ? ? ? ? ?]. split; cbn; try done. by rewrite Hu. Qed.

(** ** The memory of a device *)

(** [l] stored from [a] on by a device. *)
Fixpoint dma (m : mem) (a : Z) (l : list Z) : mem :=
  match l with
  | [] => m
  | c :: l' => dma (<[a := c]> m) (a + 1) l'
  end.

Lemma dma_lookup l : forall m a b,
  dma m a l !! b = if decide (a <= b < a + Z.of_nat (length l)) then l !! Z.to_nat (b - a) else m !! b.
Proof.
  induction l as [|c l IH]; intros m a b; cbn [dma length].
  - by rewrite decide_False by lia.
  - rewrite IH. destruct (decide (b = a)) as [->|].
    + rewrite decide_False, decide_True by lia. rewrite lookup_insert_eq, Z.sub_diag. done.
    + rewrite lookup_insert_ne by done. destruct (decide (a + 1 <= b < _)).
      * rewrite decide_True by lia. replace (Z.to_nat (b - a)) with (S (Z.to_nat (b - (a + 1)))) by lia.
        done.
      * by rewrite decide_False by lia.
Qed.

Lemma dma_ok m a l : mem_ok m -> Forall byte_ok l -> mem_ok (dma m a l).
Proof.
  revert m a. induction l as [|c l IH]; intros m a Hm Hl; cbn [dma]; [done|].
  apply Forall_cons in Hl as [Hc Hl]. apply IH; [by apply mem_ok_insert | done].
Qed.

Lemma dma_dom l : forall m a, mapped m a (Z.of_nat (length l)) -> dom (dma m a l) = dom m.
Proof.
  induction l as [|c l IH]; intros m a H; cbn [dma length] in *; [done|].
  assert (is_Some (m !! a)) as Ha by (apply (mapped_lookup _ _ _ _ H); lia).
  rewrite IH, dom_insert_is_Some; [done | done |].
  eapply mapped_dom; [by apply dom_insert_is_Some|]. eapply mapped_mono; [exact H | lia | lia].
Qed.

(** Two ranges of memory have no byte in common. *)
Definition apart (a n b k : Z) : Prop := a + n <= b \/ b + k <= a.

Section buffers.
Context (phys : Z -> Z).

(** [kzalloc(n)], which returned [tmp]. *)
Definition kzalloc (m : mem) (tmp n : Z) : res mem :=
  if tmp =? 0 then Ok m else fill (Z.to_nat (s32 n)) m (phys tmp) 0.

(** [n] bytes from the address [a] on are next to each other, and there. *)
Definition buffer_ok (m : mem) (a n : Z) : Prop :=
  mapped m (phys a) n /\ forall i, 0 <= i < n -> phys (a + i) = phys a + i.

Lemma buffer_ok_dom m m' a n : dom m' = dom m -> buffer_ok m a n -> buffer_ok m' a n.
Proof. intros Hd [Hm Hp]. split; [by eapply mapped_dom | done]. Qed.

Lemma buffer_part m a n k l : buffer_ok m a n -> 0 <= k -> 0 < l -> k + l <= n ->
  phys (a + k) = phys a + k /\ mapped m (phys a + k) l.
Proof. intros [Hm Hp] Hk Hl Hn. split; [apply Hp; lia | eapply mapped_mono; [exact Hm | lia | lia]]. Qed.

End buffers.
