(* ===== verification/Transport.v ===== *)
(** The set-up of a virtio device over PCI, src/src/virtio.c: the walk along the
    capabilities of the function, the registers of its common configuration, and the
    queue the drivers find.

    Device registers are memory-mapped: the class [Mmio] loads and stores them. What the
    program relies on of a device is [common_device], for the address at which its
    common configuration lies. [phys] is mmu_translate of the kernel's table, and the
    addresses kmalloc returns are a list, [heap]. *)
From S2P Require Import Prelude Mem Lock Pci Virtio.

Class Mmio (M : Type) := {
  mmio_ld : M -> Z -> Z -> Z * M;      (* width in bytes, address *)
  mmio_st : M -> Z -> Z -> Z -> M      (* width, address, value *)
}.

(** ** virtio.h *)

Definition VIRTIO_CAP_VENDOR : Z := 9.
Definition VIRTIO_PCI_CAP_COMMON_CFG : Z := 1.
Definition VIRTIO_PCI_CAP_NOTIFY_CFG : Z := 2.
Definition VIRTIO_PCI_CAP_ISR_CFG : Z := 3.
Definition VIRTIO_PCI_CAP_DEVICE_CFG : Z := 4.

Definition VIRTIO_F_RESET : Z := 0.
Definition VIRTIO_F_ACKNOWLEDGE : Z := 1.
Definition VIRTIO_F_DRIVER : Z := 2.
Definition VIRTIO_F_FEATURES_OK : Z := 8.
Definition VIRTIO_QUEUE_ENABLE : Z := 1.

Definition VIRTIO_DESCRIPTOR_TABLE_BYTES (qsize : Z) : Z := 16 * qsize.
Definition VIRTIO_DRIVER_TABLE_BYTES (qsize : Z) : Z := 6 + 2 * qsize.
Definition VIRTIO_DEVICE_TABLE_BYTES (qsize : Z) : Z := 6 + 8 * qsize.

(** The fields of [VirtioPciCommonCfg]. *)
Inductive VirtioPciCommonCfg :=
| device_feature_select | device_feature | driver_feature_select | driver_feature
| msix_config | num_queues | cfg_device_status | config_generation
| queue_select | cfg_queue_size | queue_msix_vector | queue_enable | queue_notify_off
| queue_desc | queue_driver | queue_device.

#[export] Instance common_eq_dec : EqDecision VirtioPciCommonCfg.
Proof. solve_decision. Defined.

(** Offset and width in bytes. *)
Definition reg_offset (r : VirtioPciCommonCfg) : Z :=
  match r with
  | device_feature_select => 0 | device_feature => 4
  | driver_feature_select => 8 | driver_feature => 12
  | msix_config => 16 | num_queues => 18 | cfg_device_status => 20 | config_generation => 21
  | queue_select => 22 | cfg_queue_size => 24 | queue_msix_vector => 26 | queue_enable => 28
  | queue_notify_off => 30 | queue_desc => 32 | queue_driver => 40 | queue_device => 48
  end.

Definition reg_width (r : VirtioPciCommonCfg) : Z :=
  match r with
  | device_feature_select | device_feature | driver_feature_select | driver_feature => 4
  | cfg_device_status | config_generation => 1
  | queue_desc | queue_driver | queue_device => 8
  | _ => 2
  end.

(** [VirtioDevice]: [notify_cap] is where in the configuration space the capability is.
    [desc], [driver] and [device] are pointers; the indices of the rings start at 0. *)
Record viodev := mkViodev {
  common_cfg : Z; notify : Z; notify_cap : Z; isr : Z; dev_config : Z;
  desc_table : Z; driver_ring : Z; device_ring : Z; notifymult : Z; ready : bool
}.

(** What kzalloc leaves. *)
Definition new_viodev : viodev := mkViodev 0 0 0 0 0 0 0 0 0 false.

Section transport.
Context {M : Type} `{!Mmio M} {H : Type} `{!Bars H}.
Context (phys : Z -> Z).

Record vstate := mkState { hw : M; kmem : mem; heap : list Z; vdev : viodev }.

Definition set_hw (s : vstate) (m : M) : vstate := mkState m (kmem s) (heap s) (vdev s).
Definition set_vdev (s : vstate) (v : viodev) : vstate := mkState (hw s) (kmem s) (heap s) v.

Definition ld_cfg (b : Z) (r : VirtioPciCommonCfg) (m : M) : Z * M :=
  mmio_ld m (reg_width r) (b + reg_offset r).
Definition st_cfg (b : Z) (r : VirtioPciCommonCfg) (v : Z) (m : M) : M :=
  mmio_st m (reg_width r) (b + reg_offset r) v.

(** [device_status |= bit] *)
Definition or_status (b bit : Z) (m : M) : M :=
  let '(v, m) := ld_cfg b cfg_device_status m in st_cfg b cfg_device_status (Z.lor v bit) m.

(** A field of a capability, little-endian. *)
Definition cap_word (e : pci_ecam H) (a : Z) : Z :=
  space e a + 2 ^ 8 * space e (a + 1) + 2 ^ 16 * space e (a + 2) + 2 ^ 24 * space e (a + 3).

(** [VirtioCapability] and [VirtioPciNotifyCap], at [p] in the configuration space. *)
Definition cap_id (e : pci_ecam H) (p : Z) : Z := space e p.
Definition cap_next (e : pci_ecam H) (p : Z) : Z := space e (p + 1).
Definition cap_type (e : pci_ecam H) (p : Z) : Z := space e (p + 3).
Definition cap_bar (e : pci_ecam H) (p : Z) : Z := space e (p + 4).
Definition cap_offset (e : pci_ecam H) (p : Z) : Z := cap_word e (p + 8).
Definition notify_off_multiplier (e : pci_ecam H) (p : Z) : Z := cap_word e (p + 16).

(** [MMIO_addr + offset] *)
Definition cap_addr (e : pci_ecam H) (p : Z) : Z :=
  u64 (MMIO_addr (bars e) (cap_bar e p) + cap_offset e p).

(** [kzalloc(n)] *)
Definition zalloc (s : vstate) (n : Z) : res (Z * vstate) :=
  let a := match heap s with [] => 0 | a :: _ => a end in
  let* m := kzalloc phys (kmem s) a n in
  Ok (a, mkState (hw s) m (tail (heap s)) (vdev s)).

(** The three tables, and where the device is told they are. *)
Definition queue_tables (b qsize : Z) (s : vstate) : res vstate :=
  let* (d, s) := zalloc s (VIRTIO_DESCRIPTOR_TABLE_BYTES qsize) in
  let* (r, s) := zalloc s (VIRTIO_DRIVER_TABLE_BYTES qsize) in
  let* (u, s) := zalloc s (VIRTIO_DEVICE_TABLE_BYTES qsize) in
  let v := vdev s in
  let s := set_vdev s (mkViodev (common_cfg v) (notify v) (notify_cap v) (isr v) (dev_config v)
                         d r u (notifymult v) (ready v)) in
  Ok (set_hw s (st_cfg b queue_device (phys u) (st_cfg b queue_driver (phys r)
                  (st_cfg b queue_desc (phys d) (hw s))))).

(** The status and the features. *)
Definition negotiate (b : Z) (m : M) : M :=
  let m := st_cfg b cfg_device_status VIRTIO_F_RESET m in
  let m := st_cfg b cfg_device_status VIRTIO_F_ACKNOWLEDGE m in
  let m := or_status b VIRTIO_F_DRIVER m in
  let '(w, m) := ld_cfg b device_feature_select m in
  let m := st_cfg b driver_feature_select w m in
  let '(f, m) := ld_cfg b device_feature m in
  let m := st_cfg b driver_feature f m in
  or_status b VIRTIO_F_FEATURES_OK m.

Definition virtio_init_common (e : pci_ecam H) (p : Z) (s : vstate) : res vstate :=
  let b := cap_addr e p in
  let v := vdev s in
  let s := set_vdev s (mkViodev b (notify v) (notify_cap v) (isr v) (dev_config v) (desc_table v)
                         (driver_ring v) (device_ring v) (notifymult v) (ready v)) in
  let m := negotiate b (hw s) in
  let m := st_cfg b queue_select 0 m in
  let '(qsize, m) := ld_cfg b cfg_queue_size m in
  let* s := queue_tables b qsize (set_hw s m) in
  Ok (set_hw s (st_cfg b queue_enable VIRTIO_QUEUE_ENABLE (hw s))).

Definition virtio_init_notify (e : pci_ecam H) (p : Z) (s : vstate) : vstate :=
  let v := vdev s in
  set_vdev s (mkViodev (common_cfg v) (cap_addr e p) p (isr v) (dev_config v) (desc_table v)
                (driver_ring v) (device_ring v) (u16 (notify_off_multiplier e p)) (ready v)).

Definition virtio_init_isr (e : pci_ecam H) (p : Z) (s : vstate) : vstate :=
  let v := vdev s in
  set_vdev s (mkViodev (common_cfg v) (notify v) (notify_cap v) (cap_addr e p) (dev_config v)
                (desc_table v) (driver_ring v) (device_ring v) (notifymult v) (ready v)).

Definition virtio_set_dev_config (e : pci_ecam H) (p : Z) (s : vstate) : vstate :=
  let v := vdev s in
  set_vdev s (mkViodev (common_cfg v) (notify v) (notify_cap v) (isr v) (cap_addr e p)
                (desc_table v) (driver_ring v) (device_ring v) (notifymult v) (ready v)).

(** The body of the walk. *)
Definition init_cap (e : pci_ecam H) (p : Z) (s : vstate) : res vstate :=
  if (cap_id e p =? VIRTIO_CAP_VENDOR) && (cap_type e p <=? 4) then
    if cap_type e p =? VIRTIO_PCI_CAP_COMMON_CFG then virtio_init_common e p s
    else if cap_type e p =? VIRTIO_PCI_CAP_NOTIFY_CFG then Ok (virtio_init_notify e p s)
    else if cap_type e p =? VIRTIO_PCI_CAP_ISR_CFG then Ok (virtio_init_isr e p s)
    else if cap_type e p =? VIRTIO_PCI_CAP_DEVICE_CFG then Ok (virtio_set_dev_config e p s)
    else Ok s
  else Ok s.

(** Pointers are bytes: a walk of more than 255 capabilities goes round in circles. *)
Definition walk_caps (e : pci_ecam H) (s : vstate) : res vstate :=
  loop 256
    (fun '(capes_next, s) =>
       if capes_next =? 0 then Ok (Done s)
       else let* s := init_cap e capes_next s in Ok (Next (cap_next e capes_next, s)))
    (capes_pointer e, s).

(** A null [common_cfg] is dereferenced. *)
Definition virtio_device_init (e : pci_ecam H) (s : vstate) : res vstate :=
  let* s := walk_caps e s in
  let v := vdev s in
  if common_cfg v =? 0 then Ub
  else
    Ok (mkState (or_status (common_cfg v) VIRTIO_F_DRIVER_OK (hw s)) (kmem s) (heap s)
          (mkViodev (common_cfg v) (notify v) (notify_cap v) (isr v) (dev_config v) (desc_table v)
             (driver_ring v) (device_ring v) (notifymult v) true)).

(** The 16-bit store that tells the device about a queue. *)
Definition virtio_notify (e : pci_ecam H) (which_queue : Z) (s : vstate) : vstate :=
  let v := vdev s in
  let '(off, m) := ld_cfg (common_cfg v) queue_notify_off (hw s) in
  let queue_addr := u64 (MMIO_addr (bars e) (cap_bar e (notify_cap v)) +
                           u32 (cap_offset e (notify_cap v) + off * notify_off_multiplier e (notify_cap v))) in
  set_hw s (mmio_st m 2 queue_addr which_queue).

(** ** The queue in memory, as the drivers see it *)

Definition read_desc (m : mem) (a : Z) : res VirtioDescriptor :=
  let* x := ld_le 8 m (phys a) in
  let* l := ld_le 4 m (phys (a + 8)) in
  let* f := ld_le 2 m (phys (a + 12)) in
  let* n := ld_le 2 m (phys (a + 14)) in
  Ok (mkDesc x l f n).

(** [f 0 .. f (n - 1)] *)
Fixpoint collect {A} (n : nat) (f : Z -> res A) (i : Z) : res (list A) :=
  match n with
  | O => Ok []
  | S n' => let* a := f i in let* l := collect n' f (i + 1) in Ok (a :: l)
  end.

(** [q] is the size of the queue, [status] and [pending] what the device's registers say. *)
Definition queue_view (v : viodev) (q status : Z) (pending : bool) (m : mem) : res VirtioDevice :=
  let* d := collect (Z.to_nat q) (fun i => read_desc m (desc_table v + 16 * i)) 0 in
  let* r := collect (Z.to_nat q) (fun i => ld_le 2 m (phys (driver_ring v + 4 + 2 * i))) 0 in
  let* di := ld_le 2 m (phys (driver_ring v + 2)) in
  let* ui := ld_le 2 m (phys (device_ring v + 2)) in
  Ok (mkVdev status q d r di ui pending MUTEX_UNLOCKED 0 0).

(** ** What the program relies on of a device

    Some registers change when another one is written. *)

Definition is_queue_reg (r : VirtioPciCommonCfg) : bool :=
  match r with
  | cfg_queue_size | queue_msix_vector | queue_enable | queue_notify_off
  | queue_desc | queue_driver | queue_device => true
  | _ => false
  end.

Definition touches (r : VirtioPciCommonCfg) (v : Z) (r' : VirtioPciCommonCfg) : bool :=
  bool_decide (r' = r) ||
  match r with
  | cfg_device_status => v =? 0
  | device_feature_select => bool_decide (r' = device_feature)
  | driver_feature_select => bool_decide (r' = driver_feature)
  | queue_select => is_queue_reg r'
  | _ => false
  end.

(** Registers that keep what is written to them. *)
Definition keeps_value (r : VirtioPciCommonCfg) : bool :=
  match r with
  | driver_feature_select | queue_select | queue_enable | queue_desc | queue_driver | queue_device => true
  | _ => false
  end.

Definition starts_over (r : VirtioPciCommonCfg) (v : Z) : bool :=
  bool_decide (r = cfg_device_status) && (v =? 0).

(** The common configuration of a device at [b]. It offers features in windows of 32 bits
    and remembers those the driver accepts; [features_ok] is whether it can work with
    these. Its queue 0 has [qmax] entries. *)
Record common_device (b : Z) := mkCommon {
  reg : M -> VirtioPciCommonCfg -> Z;
  offered : Z -> Z;
  accepted : M -> Z -> Z;
  features_ok : M -> bool;
  qmax : Z;
  cd_ld m r : ld_cfg b r m = (reg m r, m);
  cd_range m r : 0 <= reg m r < 2 ^ (8 * reg_width r);
  cd_other m r v r' : touches r v r' = false -> reg (st_cfg b r v m) r' = reg m r';
  cd_kept m r v : keeps_value r = true -> 0 <= v < 2 ^ (8 * reg_width r) -> reg (st_cfg b r v m) r = v;
  cd_status m v : 0 <= v < 256 -> reg (st_cfg b cfg_device_status v m) cfg_device_status =
    if Z.testbit v 3 && negb (features_ok m) then v - 8 else v;
  cd_offered m : reg m device_feature = offered (reg m device_feature_select);
  cd_accepted m r v w : accepted (st_cfg b r v m) w =
    if starts_over r v then 0
    else if bool_decide (r = driver_feature) && (w =? reg m driver_feature_select) then v
    else accepted m w;
  cd_features_ok m r v : starts_over r v = false -> r <> driver_feature ->
    features_ok (st_cfg b r v m) = features_ok m;
  cd_queue m : reg (st_cfg b queue_select 0 m) cfg_queue_size = qmax
}.

(** ** The negotiation *)

Section device.
Context (b : Z) (D : common_device b).
Notation reg := (reg b D).
Notation accepted := (accepted b D).
Notation features_ok := (features_ok b D).

(** What is settled of a device: its status and the features it may use. *)
Definition agreed (status : bool -> Z) (w : Z) (m : M) : Prop :=
  reg m cfg_device_status = status (features_ok m) /\
  forall i, accepted m i = if i =? w then offered b D w else 0.

Lemma agreed_store st w m r v : starts_over r v = false -> r <> driver_feature ->
  r <> cfg_device_status -> agreed st w m -> agreed st w (st_cfg b r v m).
Proof.
  intros H0' H1 H2 [Hs Ha]. split.
  - rewrite (cd_other b D), (cd_features_ok b D); [done | done | done |].
    unfold touches. rewrite bool_decide_eq_false_2 by congruence. destruct r; try done.
  - intros i. rewrite (cd_accepted b D), H0', bool_decide_eq_false_2 by done. apply Ha.
Qed.

Lemma or_status_eq bit m : or_status b bit m =
  st_cfg b cfg_device_status (Z.lor (reg m cfg_device_status) bit) m.
Proof. unfold or_status. by rewrite (cd_ld b D). Qed.

(** A bit of the status set: [FEATURES_OK] stays only if the device agrees. *)
Lemma agreed_status st st' bit w m : agreed st w m ->
  (forall ok, 0 < Z.lor (st ok) bit < 256) ->
  (forall ok, st' ok = if Z.testbit (Z.lor (st ok) bit) 3 && negb ok then Z.lor (st ok) bit - 8
                       else Z.lor (st ok) bit) ->
  agreed st' w (or_status b bit m).
Proof.
  intros [Hs Ha] Hr Hst. rewrite or_status_eq, Hs. pose proof (Hr (features_ok m)) as Hv.
  assert (starts_over cfg_device_status (Z.lor (st (features_ok m)) bit) = false) as Hso.
  { unfold starts_over. cbn. apply Z.eqb_neq. lia. }
  split.
  - rewrite (cd_status b D), (cd_features_ok b D), Hst by (done || lia). done.
  - intros i. rewrite (cd_accepted b D), Hso. apply Ha.
Qed.

Definition after_features (ok : bool) : Z := if ok then 11 else 3.
Definition after_driver_ok (ok : bool) : Z := if ok then 15 else 7.

Lemma negotiate_ok m : exists w, agreed after_features w (negotiate b m).
Proof.
  unfold negotiate. set (m1 := st_cfg b cfg_device_status VIRTIO_F_ACKNOWLEDGE _).
  assert (reg m1 cfg_device_status = 1) as H1 by (unfold m1; by rewrite (cd_status b D)).
  assert (forall i, accepted m1 i = 0) as A1.
  { intros i. unfold m1. rewrite !(cd_accepted b D). done. }
  rewrite or_status_eq, H1. change (Z.lor 1 VIRTIO_F_DRIVER) with 3.
  set (m2 := st_cfg b cfg_device_status 3 m1).
  assert (reg m2 cfg_device_status = 3) as H2 by (unfold m2; by rewrite (cd_status b D)).
  assert (forall i, accepted m2 i = 0) as A2.
  { intros i. unfold m2. rewrite (cd_accepted b D). apply A1. }
  rewrite (cd_ld b D). set (w := reg m2 device_feature_select).
  pose proof (cd_range b D m2 device_feature_select) as Hw. fold w in Hw.
  set (m3 := st_cfg b driver_feature_select w m2). rewrite (cd_ld b D).
  assert (reg m3 device_feature = offered b D w) as ->.
  { rewrite (cd_offered b D). unfold m3. by rewrite (cd_other b D). }
  assert (reg m3 driver_feature_select = w) as Hsel by (apply (cd_kept b D); done).
  set (m4 := st_cfg b driver_feature _ m3). exists w.
  apply (agreed_status (fun _ => 3)); [|done|by intros []].
  split.
  - unfold m4, m3. by rewrite !(cd_other b D).
  - intros i. unfold m4. rewrite (cd_accepted b D), Hsel. cbn.
    destruct (i =? w); [done|]. unfold m3. rewrite (cd_accepted b D). apply A2.
Qed.

End device.

(** ** The tables *)

Definition zeroed (m : mem) (a n : Z) : Prop :=
  forall i, 0 <= i < n -> m !! (phys a + i) = Some 0.

Lemma zalloc_ok s a rest n : heap s = a :: rest -> a <> 0 -> 0 <= n < 2 ^ 31 ->
  buffer_ok phys (kmem s) a n ->
  exists m, zalloc s n = Ok (a, mkState (hw s) m rest (vdev s)) /\
    stored (kmem s) m (phys a) n /\ zeroed m a n.
Proof.
  intros Hh Ha Hn [Hm Hp]. unfold zalloc, kzalloc. rewrite Hh, (proj2 (Z.eqb_neq _ _) Ha), s32_id by lia.
  destruct (fill_spec (Z.to_nat n) (kmem s) (phys a) 0) as (m & -> & Hs & Hz);
    rewrite ?Z2Nat.id by lia; [done|].
  rewrite Z2Nat.id in Hs, Hz by lia. exists m. split; [done|]. split; [done|].
  intros i Hi. rewrite Hz by lia. done.
Qed.

Lemma zeroed_kept m m' a n c k : stored m m' c k -> apart (phys a) n c k ->
  zeroed m a n -> zeroed m' a n.
Proof.
  intros Hs Ha Hz i Hi. rewrite (stored_out _ _ _ _ Hs) by (unfold apart in Ha; lia). by apply Hz.
Qed.

Lemma ld_zeroed m a n k w : (forall i, 0 <= i < n -> phys (a + i) = phys a + i) -> zeroed m a n ->
  0 <= k -> k < n -> k + Z.of_nat w <= n -> ld_le w m (phys (a + k)) = Ok 0.
Proof.
  intros Hp Hz Hk Hkn Hw. rewrite Hp by lia. apply ld_le_zero. intros c Hc.
  replace c with (phys a + (c - phys a)) by lia. apply Hz. lia.
Qed.

Lemma collect_const {A} n (f : Z -> res A) c : forall i,
  (forall j, i <= j < i + Z.of_nat n -> f j = Ok c) -> collect n f i = Ok (replicate n c).
Proof.
  induction n as [|n IH]; intros i Hf; cbn [collect replicate]; [done|].
  rewrite Hf by lia. cbn [res_bind]. rewrite IH; [done|]. intros j Hj. apply Hf. lia.
Qed.

(** Memory for the tables of a queue of [q] entries. *)
Record room_for (m : mem) (d r u q : Z) : Prop := mkRoom {
  room_desc : d <> 0 /\ buffer_ok phys m d (VIRTIO_DESCRIPTOR_TABLE_BYTES q);
  room_driver : r <> 0 /\ buffer_ok phys m r (VIRTIO_DRIVER_TABLE_BYTES q);
  room_device : u <> 0 /\ buffer_ok phys m u (VIRTIO_DEVICE_TABLE_BYTES q);
  room_dr : apart (phys d) (VIRTIO_DESCRIPTOR_TABLE_BYTES q) (phys r) (VIRTIO_DRIVER_TABLE_BYTES q);
  room_du : apart (phys d) (VIRTIO_DESCRIPTOR_TABLE_BYTES q) (phys u) (VIRTIO_DEVICE_TABLE_BYTES q);
  room_ru : apart (phys r) (VIRTIO_DRIVER_TABLE_BYTES q) (phys u) (VIRTIO_DEVICE_TABLE_BYTES q)
}.

(** An empty queue in memory is idle. *)
Lemma view_zeroed m v q status pending : 3 <= q < 2 ^ 16 ->
  room_for m (desc_table v) (driver_ring v) (device_ring v) q ->
  zeroed m (desc_table v) (VIRTIO_DESCRIPTOR_TABLE_BYTES q) ->
  zeroed m (driver_ring v) (VIRTIO_DRIVER_TABLE_BYTES q) ->
  zeroed m (device_ring v) (VIRTIO_DEVICE_TABLE_BYTES q) ->
  exists x, queue_view v q status pending m = Ok x /\ idle x /\ device_status x = status /\
    queue_size x = q /\ drv_idx x = 0 /\ driver_idx x = 0.
Proof.
  unfold VIRTIO_DESCRIPTOR_TABLE_BYTES, VIRTIO_DRIVER_TABLE_BYTES, VIRTIO_DEVICE_TABLE_BYTES.
  intros Hq [[_ [_ Hd]] [_ [_ Hr]] [_ [_ Hu]] _ _ _] Zd Zr Zu. unfold queue_view.
  unfold VIRTIO_DESCRIPTOR_TABLE_BYTES, VIRTIO_DRIVER_TABLE_BYTES, VIRTIO_DEVICE_TABLE_BYTES in *.
  rewrite (collect_const _ _ (mkDesc 0 0 0 0)).
  2: { intros j Hj. unfold read_desc. rewrite <- !Z.add_assoc.
       rewrite !(ld_zeroed m _ (16 * q)) by (done || lia). done. }
  cbn [res_bind]. rewrite (collect_const _ _ 0).
  2: { intros j Hj. rewrite <- !Z.add_assoc. by rewrite (ld_zeroed m _ (6 + 2 * q)) by (done || lia). }
  cbn [res_bind]. rewrite (ld_zeroed m _ (6 + 2 * q)) by (done || lia). cbn [res_bind].
  rewrite (ld_zeroed m _ (6 + 8 * q)) by (done || lia). cbn [res_bind].
  eexists. split; [done|]. split; [|done].
  split; cbn; rewrite ?length_replicate; try done; lia.
Qed.

(** ** The common configuration *)

(** The queue is set up: the tables are empty and the device knows where they are. *)
Definition queue_set (b : Z) (D : common_device b) (d r u : Z) (v : viodev) (m : M) (k : mem) : Prop :=
  desc_table v = d /\ driver_ring v = r /\ device_ring v = u /\
  reg b D m queue_desc = phys d /\ reg b D m queue_driver = phys r /\
  reg b D m queue_device = phys u /\ reg b D m queue_select = 0 /\
  room_for k d r u (qmax b D) /\
  zeroed k d (VIRTIO_DESCRIPTOR_TABLE_BYTES (qmax b D)) /\
  zeroed k r (VIRTIO_DRIVER_TABLE_BYTES (qmax b D)) /\
  zeroed k u (VIRTIO_DEVICE_TABLE_BYTES (qmax b D)).

Lemma room_stored m m' d r u q a n : stored m m' a n -> room_for m d r u q -> room_for m' d r u q.
Proof.
  intros Hs [[? ?] [? ?] [? ?] ? ? ?]. pose proof (stored_dom _ _ _ _ Hs).
  split; (split; [done|by eapply buffer_ok_dom]) || done.
Qed.

Section common.
Context (b : Z) (D : common_device b).
Context (Hphys : forall a, 0 <= phys a < 2 ^ 64).
Notation q := (qmax b D).

Lemma three_stores m d r u :
  let m' := st_cfg b queue_device (phys u) (st_cfg b queue_driver (phys r)
              (st_cfg b queue_desc (phys d) m)) in
  reg b D m' queue_desc = phys d /\ reg b D m' queue_driver = phys r /\
  reg b D m' queue_device = phys u /\ reg b D m' queue_select = reg b D m queue_select.
Proof.
  cbv zeta. repeat split.
  - rewrite !(cd_other b D _ _ _ queue_desc) by done. apply (cd_kept b D); [done | apply Hphys].
  - rewrite (cd_other b D _ _ _ queue_driver) by done. apply (cd_kept b D); [done | apply Hphys].
  - apply (cd_kept b D); [done | apply Hphys].
  - by rewrite !(cd_other b D).
Qed.

Lemma queue_tables_ok s d r u rest : 0 <= q < 2 ^ 16 -> heap s = d :: r :: u :: rest ->
  room_for (kmem s) d r u q -> reg b D (hw s) queue_select = 0 ->
  exists s', queue_tables b q s = Ok s' /\ heap s' = rest /\
    queue_set b D d r u (vdev s') (hw s') (kmem s') /\
    hw s' = st_cfg b queue_device (phys u) (st_cfg b queue_driver (phys r)
              (st_cfg b queue_desc (phys d) (hw s))) /\
    common_cfg (vdev s') = common_cfg (vdev s).
Proof.
  intros Hq Hh Hrm Hsel. pose proof Hrm as [[Hd Bd] [Hr Br] [Hu Bu] Adr Adu Aru].
  unfold queue_tables.
  destruct (zalloc_ok s d (r :: u :: rest) (VIRTIO_DESCRIPTOR_TABLE_BYTES q)) as (m1 & -> & S1 & Z1);
    [done | done | unfold VIRTIO_DESCRIPTOR_TABLE_BYTES; lia | done |]. cbn [res_bind].
  set (s1 := mkState (hw s) m1 _ _).
  destruct (zalloc_ok s1 r (u :: rest) (VIRTIO_DRIVER_TABLE_BYTES q)) as (m2 & -> & S2 & Z2);
    [done | done | unfold VIRTIO_DRIVER_TABLE_BYTES; lia | |].
  { eapply buffer_ok_dom; [apply (stored_dom _ _ _ _ S1) | done]. }
  cbn [res_bind]. set (s2 := mkState (hw s1) m2 _ _).
  destruct (zalloc_ok s2 u rest (VIRTIO_DEVICE_TABLE_BYTES q)) as (m3 & -> & S3 & Z3);
    [done | done | unfold VIRTIO_DEVICE_TABLE_BYTES; lia | |].
  { eapply buffer_ok_dom; [etransitivity; [apply (stored_dom _ _ _ _ S2) | apply (stored_dom _ _ _ _ S1)] | done]. }
  cbn [res_bind]. eexists. split; [done|]. split; [done|].
  split; [|done]. destruct (three_stores (hw s) d r u) as (E1 & E2 & E3 & E4).
  cbn. do 3 (split; [done|]). split; [exact E1|]. split; [exact E2|]. split; [exact E3|].
  split; [by rewrite E4|].
  split; [eapply room_stored, room_stored, room_stored; done|].
  split; [eapply zeroed_kept, zeroed_kept; done|]. split; [eapply zeroed_kept; done | done].
Qed.

Lemma virtio_init_common_ok e p s d r u rest : cap_addr e p = b -> 0 <= q < 2 ^ 16 ->
  heap s = d :: r :: u :: rest -> room_for (kmem s) d r u q ->
  exists s' w, virtio_init_common e p s = Ok s' /\ heap s' = rest /\
    queue_set b D d r u (vdev s') (hw s') (kmem s') /\ agreed b D after_features w (hw s') /\
    reg b D (hw s') queue_enable = 1 /\ common_cfg (vdev s') = b.
Proof.
  intros Hb Hq Hh Hrm. unfold virtio_init_common. rewrite Hb.
  destruct (negotiate_ok b D (hw s)) as [w Ha]. cbn [hw set_vdev].
  set (m := st_cfg b queue_select 0 (negotiate b (hw s))). rewrite (cd_ld b D).
  assert (reg b D m cfg_queue_size = q) as -> by apply (cd_queue b D).
  apply (agreed_store b D _ _ _ queue_select 0) in Ha; [|done..]. fold m in Ha.
  set (s0 := set_hw _ m).
  destruct (queue_tables_ok s0 d r u rest Hq Hh Hrm) as (s' & -> & Hrest & Hqs & Ehw & Hc);
    [by apply (cd_kept b D)|].
  cbn [res_bind]. set (m' := st_cfg b queue_enable _ (hw s')).
  exists (set_hw s' m'), w. split; [done|]. split; [done|].
  assert (reg b D m' queue_enable = 1) as Hen by (by apply (cd_kept b D)).
  split; [|split; [|split; [done | exact Hc]]].
  - destruct Hqs as (? & ? & ? & E1 & E2 & E3 & E4 & Hrest').
    repeat (split; [done || (cbn; unfold m'; by rewrite (cd_other b D))|]). done.
  - cbn. unfold m'. apply agreed_store; [done..|]. rewrite Ehw.
    do 3 (apply agreed_store; [done..|]). exact Ha.
Qed.

End common.

(** ** The walk *)

(** The capabilities from [p] on, up to the null pointer. *)
Fixpoint cap_chain (e : pci_ecam H) (p : Z) (l : list Z) : Prop :=
  match l with
  | [] => p = 0
  | c :: l' => p = c /\ p <> 0 /\ cap_chain e (cap_next e p) l'
  end.

Fixpoint init_caps (e : pci_ecam H) (l : list Z) (s : vstate) : res vstate :=
  match l with
  | [] => Ok s
  | p :: l' => let* s := init_cap e p s in init_caps e l' s
  end.

Lemma walk_init_caps e l : forall n p s s', cap_chain e p l -> (length l < n)%nat ->
  init_caps e l s = Ok s' ->
  loop n (fun '(capes_next, s) =>
    if capes_next =? 0 then Ok (Done s)
    else let* s := init_cap e capes_next s in Ok (Next (cap_next e capes_next, s))) (p, s) = Ok s'.
Proof.
  induction l as [|c l IH]; intros [|n] p s s' Hc Hn Hs; cbn [length] in Hn; try lia; rewrite loop_S.
  - cbn in Hc, Hs. by rewrite Hc.
  - cbn [cap_chain init_caps] in Hc, Hs. destruct Hc as (-> & Hp & Hc).
    rewrite (proj2 (Z.eqb_neq _ _) Hp). inv_ok. rewrite E. cbn [res_bind]. apply IH; [done | lia | done].
Qed.

Definition is_cap (e : pci_ecam H) (t p : Z) : bool :=
  (cap_id e p =? VIRTIO_CAP_VENDOR) && (cap_type e p =? t).

(** [p] is the one capability of type [t] in the list. *)
Definition only (e : pci_ecam H) (t : Z) (l : list Z) (p : Z) : Prop :=
  exists l1 l2, l = l1 ++ p :: l2 /\ is_cap e t p = true /\
    Forall (fun c => is_cap e t c = false) l1 /\ Forall (fun c => is_cap e t c = false) l2.

Lemma init_caps_app e l1 : forall l2 s,
  init_caps e (l1 ++ l2) s = let* s := init_caps e l1 s in init_caps e l2 s.
Proof.
  induction l1 as [|p l1 IH]; intros l2 s; cbn; [done|]. destruct (init_cap e p s); cbn; auto.
Qed.

Lemma is_cap_type e t p : is_cap e t p = true -> cap_id e p = 9 /\ cap_type e p = t.
Proof. intros [?%Z.eqb_eq ?%Z.eqb_eq]%andb_prop. done. Qed.

(** A capability of another type leaves the hardware and the queue alone. *)
Definition same_queue (s s' : vstate) : Prop :=
  hw s' = hw s /\ kmem s' = kmem s /\ heap s' = heap s /\
  common_cfg (vdev s') = common_cfg (vdev s) /\ desc_table (vdev s') = desc_table (vdev s) /\
  driver_ring (vdev s') = driver_ring (vdev s) /\ device_ring (vdev s') = device_ring (vdev s).

Lemma init_cap_other e p s : is_cap e VIRTIO_PCI_CAP_COMMON_CFG p = false ->
  exists s', init_cap e p s = Ok s' /\ same_queue s s'.
Proof.
  intros Hp. unfold init_cap. destruct (cap_id e p =? VIRTIO_CAP_VENDOR) eqn:Ei; cbn [andb];
    [|by exists s].
  unfold is_cap in Hp. rewrite Ei in Hp. cbn [andb] in Hp. rewrite Hp.
  destruct (cap_type e p <=? 4); [|by exists s].
  repeat (match goal with |- context [if ?b then _ else _] => destruct b end; [by eexists|]).
  by exists s.
Qed.

Lemma init_caps_other e l : Forall (fun c => is_cap e VIRTIO_PCI_CAP_COMMON_CFG c = false) l ->
  forall s, exists s', init_caps e l s = Ok s' /\ same_queue s s'.
Proof.
  induction 1 as [|p l Hp _ IH]; intros s; cbn [init_caps]; [by exists s|].
  destruct (init_cap_other e p s Hp) as (s1 & -> & H1). cbn [res_bind].
  destruct (IH s1) as (s2 & -> & H2). exists s2. split; [done|].
  unfold same_queue in *. intuition congruence.
Qed.

(** What the last capability of a type stored stays. *)
Lemma field_stays {A} (f : viodev -> A) e t l : Forall (fun c => is_cap e t c = false) l ->
  (forall p s s', is_cap e t p = false -> init_cap e p s = Ok s' -> f (vdev s') = f (vdev s)) ->
  forall s s', init_caps e l s = Ok s' -> f (vdev s') = f (vdev s).
Proof.
  intros Hl Hf. induction Hl as [|p l Hp _ IH]; intros s s' Hs; cbn [init_caps] in Hs; inv_ok; [done|].
  rewrite (IH _ _ Hs). by eapply Hf.
Qed.

Lemma zalloc_vdev s n a s' : zalloc s n = Ok (a, s') -> vdev s' = vdev s.
Proof. unfold zalloc. intros E. inv_ok. done. Qed.

Lemma common_fields e p s s' : virtio_init_common e p s = Ok s' ->
  notify (vdev s') = notify (vdev s) /\ notify_cap (vdev s') = notify_cap (vdev s) /\
  isr (vdev s') = isr (vdev s) /\ dev_config (vdev s') = dev_config (vdev s) /\
  notifymult (vdev s') = notifymult (vdev s).
Proof.
  unfold virtio_init_common, queue_tables. destruct (ld_cfg _ _ _) as [q m]. intros E.
  repeat (inv_ok; match goal with x : (Z * vstate)%type |- _ => destruct x end). inv_ok.
  repeat match goal with E : zalloc _ _ = Ok _ |- _ => apply zalloc_vdev in E end.
  cbn in *. repeat match goal with E : vdev _ = _ |- _ => rewrite E; clear E end. done.
Qed.

(** The fields a capability of type [t] sets, and what to. *)
Definition fields (t : Z) (v : viodev) : list Z :=
  if t =? VIRTIO_PCI_CAP_NOTIFY_CFG then [notify v; notify_cap v; notifymult v]
  else if t =? VIRTIO_PCI_CAP_ISR_CFG then [isr v] else [dev_config v].

Definition given (e : pci_ecam H) (t p : Z) : list Z :=
  if t =? VIRTIO_PCI_CAP_NOTIFY_CFG then [cap_addr e p; p; u16 (notify_off_multiplier e p)]
  else [cap_addr e p].

Definition points (t : Z) : Prop := t = 2 \/ t = 3 \/ t = 4.

Lemma init_cap_fields e t p s s' : points t -> is_cap e t p = false -> init_cap e p s = Ok s' ->
  fields t (vdev s') = fields t (vdev s).
Proof.
  intros Ht Hp. unfold init_cap, is_cap in *. destruct (cap_id e p =? VIRTIO_CAP_VENDOR); cbn [andb] in *;
    [|intros E; inv_ok; done].
  destruct (cap_type e p <=? 4); [|intros E; inv_ok; done].
  destruct (Z.eqb_spec (cap_type e p) VIRTIO_PCI_CAP_COMMON_CFG).
  { intros (En & Enc & Ei & Ed & Em)%common_fields. unfold fields. by rewrite En, Enc, Ei, Ed, Em. }
  repeat match goal with |- context [cap_type e p =? ?c] => destruct (Z.eqb_spec (cap_type e p) c) as [Hc|] end;
    intros E; inv_ok; try done; rewrite Hc in Hp; destruct Ht as [-> | [-> | ->]]; done.
Qed.

Lemma init_cap_given e t p s s' : points t -> is_cap e t p = true -> init_cap e p s = Ok s' ->
  fields t (vdev s') = given e t p.
Proof.
  intros Ht [Hi Hc]%is_cap_type. unfold init_cap. rewrite Hi, Hc.
  destruct Ht as [-> | [-> | ->]]; intros E; cbn in E; inv_ok; done.
Qed.

Lemma init_caps_fields e t l p s s' : points t -> only e t l p -> init_caps e l s = Ok s' ->
  fields t (vdev s') = given e t p.
Proof.
  intros Ht (l1 & l2 & -> & Hp & _ & Hl2). rewrite init_caps_app. cbn [init_caps]. intros E. inv_ok.
  rewrite (field_stays (fields t) e t l2 Hl2 (fun q s s' => init_cap_fields e t q s s' Ht) _ _ E).
  by eapply init_cap_given.
Qed.

(** ** A device that is live *)

(** A function whose capabilities are well formed, and memory for its queue. *)
Record can_init (e : pci_ecam H) (l : list Z) (p d r u : Z) (rest : list Z)
    (D : common_device (cap_addr e p)) (s : vstate) : Prop := mkCanInit {
  ci_chain : cap_chain e (capes_pointer e) l;
  ci_length : (length l < 256)%nat;
  ci_common : only e VIRTIO_PCI_CAP_COMMON_CFG l p;
  ci_mapped : cap_addr e p <> 0;
  ci_queue : 3 <= qmax _ D < 2 ^ 16;
  ci_heap : heap s = d :: r :: u :: rest;
  ci_room : room_for (kmem s) d r u (qmax _ D)
}.

Context (Hphys : forall a, 0 <= phys a < 2 ^ 64).

Lemma caps_common e l p d r u rest D s : can_init e l p d r u rest D s ->
  exists s' w, init_caps e l s = Ok s' /\ heap s' = rest /\
    queue_set _ D d r u (vdev s') (hw s') (kmem s') /\ agreed _ D after_features w (hw s') /\
    reg _ D (hw s') queue_enable = 1 /\ common_cfg (vdev s') = cap_addr e p.
Proof.
  intros [_ _ (l1 & l2 & -> & Hp & Hl1 & Hl2) _ Hq Hh Hrm]. rewrite init_caps_app.
  destruct (init_caps_other e l1 Hl1 s) as (s1 & -> & E1 & E2 & E3 & _). cbn [res_bind init_caps].
  destruct (virtio_init_common_ok _ D Hphys e p s1 d r u rest) as (s2 & w & Ec & Hr & Hqs & Ha & Hen & Hcc);
    [done | lia | by rewrite E3 | by rewrite E2 |].
  apply is_cap_type in Hp as [Hid Htp]. unfold init_cap at 1. rewrite Hid, Htp.
  change (virtio_init_common e p s1) with (virtio_init_common e p s1) in Ec. cbn. rewrite Ec.
  cbn [res_bind]. destruct (init_caps_other e l2 Hl2 s2) as (s3 & -> & F1 & F2 & F3 & F4 & F5 & F6 & F7).
  exists s3, w. rewrite F1, F2, F3, F4. unfold queue_set in *. rewrite F5, F6, F7. done.
Qed.

(** (C26) virtio_device_init finds the structures of the device along its capabilities,
    makes the device live with the features of one window accepted, and leaves it an
    empty queue in memory that is idle, as the drivers expect it. *)
Theorem virtio_device_init_correct e l p d r u rest D s : can_init e l p d r u rest D s ->
  exists s' w, virtio_device_init e s = Ok s' /\ ready (vdev s') = true /\ heap s' = rest /\
    agreed _ D after_driver_ok w (hw s') /\
    queue_set _ D d r u (vdev s') (hw s') (kmem s') /\ reg _ D (hw s') queue_enable = 1 /\
    (forall t c, points t -> only e t l c -> fields t (vdev s') = given e t c) /\
    forall pending, exists v,
      queue_view (vdev s') (qmax _ D) (reg _ D (hw s') cfg_device_status) pending (kmem s') = Ok v /\
      idle v /\ queue_size v = qmax _ D /\ drv_idx v = 0 /\ driver_idx v = 0 /\
      Z.testbit (device_status v) 2 = true.
Proof.
  intros Hi. pose proof Hi as [Hch Hln _ Hnz Hq _ _].
  destruct (caps_common _ _ _ _ _ _ _ _ _ Hi) as (s1 & w & E & Hr & Hqs & Ha & Hen & Hcc).
  unfold virtio_device_init, walk_caps.
  rewrite (walk_init_caps e l 256 _ s s1) by done. cbn [res_bind]. rewrite Hcc, (proj2 (Z.eqb_neq _ _) Hnz).
  assert (agreed _ D after_driver_ok w (or_status (cap_addr e p) VIRTIO_F_DRIVER_OK (hw s1))) as Ha'.
  { eapply agreed_status; [exact Ha | |]; intros []; (split; reflexivity) || reflexivity. }
  assert (forall x, x <> cfg_device_status -> reg _ D (or_status (cap_addr e p) VIRTIO_F_DRIVER_OK (hw s1)) x
            = reg _ D (hw s1) x) as Hreg.
  { intros x Hx. rewrite (or_status_eq _ D). apply (cd_other _ D). unfold touches.
    rewrite bool_decide_eq_false_2 by done. apply Z.eqb_neq. destruct Ha as [-> _].
    by destruct (features_ok _ D (hw s1)). }
  eexists _, w. split; [done|]. cbn. split; [done|]. split; [done|]. split; [done|].
  split; [unfold queue_set in *; cbn; by rewrite !Hreg|]. split; [by rewrite Hreg|].
  split.
  - intros t c Ht Hc. rewrite <- (init_caps_fields e t l c s s1 Ht Hc E).
    destruct Ht as [-> | [-> | ->]]; reflexivity.
  - intros pending. destruct Hqs as (E1 & E2 & E3 & _ & _ & _ & _ & Hrm & Zd & Zr & Zu).
    destruct (view_zeroed (kmem s1) (vdev s1) (qmax _ D)
      (reg _ D (or_status (cap_addr e p) VIRTIO_F_DRIVER_OK (hw s1)) cfg_device_status) pending)
      as (v & Ev & Hid & Hst & Hsz & Hi0 & Hi1); rewrite ?E1, ?E2, ?E3; [done.. |].
    exists v. split; [unfold queue_view in *; cbn; by rewrite E1, E2, E3 in Ev|].
    do 4 (split; [done|]). rewrite Hst. destruct Ha' as [-> _].
    by destruct (features_ok _ _ _).
Qed.

End transport.

(** ** A device with a queue of eight entries *)

Module Demo.
Import Pci.Demo.

Definition base : Z := 0x40118000.

Record machine := mkMachine { regs : VirtioPciCommonCfg -> Z; acc : Z -> Z }.

Definition value (m : machine) (r : VirtioPciCommonCfg) : Z :=
  match r with
  | device_feature => (0x30000000 + regs m device_feature_select) mod 2 ^ 32
  | cfg_queue_size => 8
  | _ => regs m r mod 2 ^ (8 * reg_width r)
  end.

Definition set (m : machine) (r : VirtioPciCommonCfg) (v : Z) : machine :=
  mkMachine (fun x => if bool_decide (x = r) then v else regs m x) (acc m).

Definition write (m : machine) (r : VirtioPciCommonCfg) (v : Z) : machine :=
  match r with
  | cfg_device_status => if v =? 0 then mkMachine (fun _ => 0) (fun _ => 0) else set m r v
  | driver_feature =>
      mkMachine (regs m) (fun w => if w =? value m driver_feature_select then v else acc m w)
  | _ => set m r v
  end.

Definition all_regs : list VirtioPciCommonCfg :=
  [device_feature_select; device_feature; driver_feature_select; driver_feature; msix_config;
   num_queues; cfg_device_status; config_generation; queue_select; cfg_queue_size;
   queue_msix_vector; queue_enable; queue_notify_off; queue_desc; queue_driver; queue_device].

Definition reg_at (w a : Z) : option VirtioPciCommonCfg :=
  find (fun r => (reg_width r =? w) && (base + reg_offset r =? a)) all_regs.

#[export] Instance demo_mmio : Mmio machine := {
  mmio_ld m w a := (match reg_at w a with Some r => value m r | None => 0 end, m);
  mmio_st m w a v := match reg_at w a with Some r => write m r v | None => m end
}.

Lemma reg_at_reg r : reg_at (reg_width r) (base + reg_offset r) = Some r.
Proof. destruct r; vm_compute; reflexivity. Qed.

Lemma st_write r v m : st_cfg base r v m = write m r v.
Proof. unfold st_cfg, mmio_st, demo_mmio. by rewrite reg_at_reg. Qed.

Lemma value_set m r v r' : r' <> r -> (r = device_feature_select -> r' <> device_feature) ->
  value (set m r v) r' = value m r'.
Proof.
  intros Hr Hs. destruct r'; cbn [value set regs]; try done;
    try (by rewrite bool_decide_eq_false_2 by congruence).
  rewrite bool_decide_eq_false_2; [done|]. intros <-. by apply Hs.
Qed.

Definition demo_device : common_device (M := machine) base.
Proof.
  refine (mkCommon base value (fun w => (0x30000000 + w) mod 2 ^ 32) acc (fun _ => true) 8
    _ _ _ _ _ _ _ _ _).
  - intros m r. unfold ld_cfg, mmio_ld, demo_mmio. by rewrite reg_at_reg.
  - intros m r. destruct r; cbn [value]; try (apply Z.mod_pos_bound; reflexivity); by split.
  - intros m r v r' Ht. rewrite st_write. unfold touches in Ht. apply orb_false_iff in Ht as [Hr Ht].
    apply bool_decide_eq_false in Hr.
    destruct r; cbn [write]; try (rewrite value_set; [done | done | discriminate]).
    + apply bool_decide_eq_false in Ht. by rewrite value_set.
    + by destruct r'.
    + rewrite Ht. by rewrite value_set.
  - intros m r v Hk Hv. rewrite st_write. destruct r; try done; cbn [write value set regs];
      rewrite bool_decide_eq_true_2 by done; by apply Z.mod_small.
  - intros m v Hv. rewrite st_write, andb_false_r. cbn [write]. destruct (Z.eqb_spec v 0) as [->|]; [done|].
    cbn. by apply Z.mod_small.
  - intros m. cbn. by rewrite Z.add_mod_idemp_r by done.
  - intros m r v w. rewrite st_write. unfold starts_over.
    destruct r; cbn [write bool_decide]; try done; cbn; by destruct (v =? 0).
  - done.
  - done.
Defined.

(** A capability: the vendor's, its successor, type, BAR 4, offset, multiplier. *)
Definition cap (nxt type off : Z) : list Z :=
  [9; nxt; 16; type; 4; 0; 0; 0; off mod 256; off / 256; 0; 0; 0; 16; 0; 0; 4; 0; 0; 0].

Definition config_space (a : Z) : Z :=
  if a <? 0x40 then 0
  else if a <? 0x54 then default 0 (cap 0 1 0 !! Z.to_nat (a - 0x40))
  else if a <? 0x68 then default 0 (cap 0x40 3 0x1000 !! Z.to_nat (a - 0x54))
  else if a <? 0x7c then default 0 (cap 0x54 4 0x2000 !! Z.to_nat (a - 0x68))
  else if a <? 0x90 then default 0 (cap 0x68 2 0x3000 !! Z.to_nat (a - 0x7c))
  else default 0 (cap 0x7c 5 0 !! Z.to_nat (a - 0x90)).

(** After pci_init: the BAR is at [base]. *)
Definition live_bars : bar_file :=
  mkFile [Absent; Absent; Absent; Absent; Mem64 14 12; Upper] (<[4 := base + 12]> (<[5 := 0]> ∅)).

Definition function : pci_ecam bar_file :=
  mkEcam VIRTIO_PCI_VENDOR_ID 0x1042 2 0 0x90 config_space live_bars no_bridge.

Definition caps : list Z := [0x90; 0x7c; 0x68; 0x54; 0x40].

Definition start : vstate (M := machine) :=
  mkState (mkMachine (fun _ => 5) (fun _ => 1)) (mem_const 4096 256 0xAA) [4096; 4224; 4256; 0]
    new_viodev.

Lemma demo_tables_room : room_for u64 (kmem start) 4096 4224 4256 8.
Proof.
  assert (forall a n, 4096 <= a -> a + n <= 4352 -> buffer_ok u64 (kmem start) a n) as Hb.
  { intros a n Ha Hn. split.
    - destruct (decide (0 < n)) as [Hp|]; [|intros i Hi; lia].
      rewrite u64_id by lia. eapply mapped_mono; [apply mem_const_mapped | lia | lia].
    - intros i Hi. rewrite !u64_id by lia. done. }
  generalize dependent (kmem start). intros k Hb.
  split; unfold apart, VIRTIO_DESCRIPTOR_TABLE_BYTES, VIRTIO_DRIVER_TABLE_BYTES,
    VIRTIO_DEVICE_TABLE_BYTES; rewrite ?u64_id by lia; try lia; (split; [lia | apply Hb; lia]).
Qed.

Lemma demo_only t c : forallb (fun x => negb (is_cap function t x) || (x =? c)) caps = true ->
  is_cap function t c = true -> NoDup caps -> c ∈ caps -> only function t caps c.
Proof.
  intros Hall Hc Hnd (l1 & l2 & E)%list_elem_of_split. exists l1, l2. split; [done|]. split; [done|].
  rewrite forallb_forall in Hall. rewrite E in Hnd. apply NoDup_app in Hnd as (_ & H1 & H2).
  apply NoDup_cons in H2 as [H2 _].
  assert (forall x, x ∈ caps -> x <> c -> is_cap function t x = false) as Hx.
  { intros x Hx Hne. specialize (Hall x). rewrite <- list_elem_of_In in Hall.
    apply Hall in Hx. rewrite (proj2 (Z.eqb_neq _ _) Hne), orb_false_r in Hx.
    by apply negb_true_iff. }
  split; apply Forall_forall; intros x Hin; apply Hx.
  - rewrite E. set_solver.
  - intros ->. apply (H1 c Hin). set_solver.
  - rewrite E. set_solver.
  - by intros ->.
Qed.

Lemma demo_can_init :
  can_init u64 function caps 0x40 4096 4224 4256 [0] demo_device start.
Proof.
  split.
  - vm_compute. repeat split; done.
  - cbn. lia.
  - apply demo_only; [reflexivity | reflexivity | |].
    + by apply (bool_decide_unpack (NoDup caps)).
    + set_solver.
  - done.
  - cbn. lia.
  - done.
  - apply demo_tables_room.
Qed.

Lemma virtio_device_init_correct_witness :
  exists s' v, virtio_device_init u64 function start = Ok s' /\ ready (vdev s') = true /\
    fields VIRTIO_PCI_CAP_NOTIFY_CFG (vdev s') = [base + 0x3000; 0x7c; 4] /\
    queue_view u64 (vdev s') 8 15 false (kmem s') = Ok v /\ idle v.
Proof.
  destruct (virtio_device_init_correct _ u64_range _ _ _ _ _ _ _ _ _ demo_can_init)
    as (s' & w & E & Hr & _ & [Hst _] & _ & _ & Hf & Hv).
  destruct (Hv false) as (v & Ev & Hid & _). exists s', v. split; [done|]. split; [done|].
  split.
  - rewrite (Hf VIRTIO_PCI_CAP_NOTIFY_CFG 0x7c).
    + vm_compute; reflexivity.
    + by left.
    + apply demo_only; [reflexivity | reflexivity | |].
      * by apply (bool_decide_unpack (NoDup caps)).
      * apply (bool_decide_unpack (0x7c ∈ caps)); vm_compute; exact I.
  - rewrite Hst in Ev. split; [exact Ev | exact Hid].
Defined.

End Demo.
