(* ===== verification/Devices.v ===== *)
(** The drivers' side of the set-up and of the interrupts: src/src/virtio.c (virtio_init),
    block_init, gpu_init and input_init of src/src/block.c, gpu.c and input.c, and
    pci_dispatch_irq and plic_handle_irq of src/src/pci.c and plic.c.

    Which driver does what with a device that is live is an argument of [virtio_init]. The
    interrupt controller's claim register is the argument [irq] of [plic_handle_irq]. *)
From S2P Require Import Prelude Mem Lock Plic Pci Virtio Transport.

(** ** The configuration structure of a device *)

Section config.
Context {H : Type} `{!Bars H}.

(** The walk of block_init and gpu_init; the result is the [v_cap] they go on with. The
    capability it looks at is the next one each time. *)
Definition config_step (e : pci_ecam H) : Z * Z -> res (ctl (Z * Z) Z) :=
  fun '(capes_next, v_cap) =>
    if capes_next =? 0 then Ok (Done v_cap)
    else
      let v_cap := cap_next e v_cap in
      if cap_type e v_cap =? VIRTIO_PCI_CAP_DEVICE_CFG then Ok (Done v_cap)
      else Ok (Next (cap_next e v_cap, v_cap)).

Definition find_config (e : pci_ecam H) : res Z :=
  loop 257 (config_step e) (capes_pointer e, capes_pointer e).

(** The address kept in the new BlockDevice or GpuDevice, which is put in front of the
    list of its kind. *)
Record driver_dev := mkDriver { dcfg : Z; of_function : Z }.

Definition block_init (e : pci_ecam H) (a : Z) (g_block_devices : list driver_dev) :
    res (list driver_dev) :=
  let* c := find_config e in Ok (mkDriver (cap_addr e c) a :: g_block_devices).

Definition gpu_init (e : pci_ecam H) (a : Z) (g_gpu_devices : list driver_dev) :
    res (list driver_dev) :=
  let* c := find_config e in Ok (mkDriver (cap_addr e c) a :: g_gpu_devices).

(** The first of the type in a list, or the last of all. *)
Fixpoint pick (e : pci_ecam H) (l : list Z) (d : Z) : Z :=
  match l with
  | [] => d
  | c :: l' => if cap_type e c =? VIRTIO_PCI_CAP_DEVICE_CFG then c else pick e l' c
  end.

Lemma config_loop e l : forall n v, cap_chain e (cap_next e v) l -> (length l < n)%nat ->
  loop n (config_step e) (cap_next e v, v) = Ok (pick e l v).
Proof.
  induction l as [|c l IH]; intros [|n] v Hc Hn; cbn [length] in Hn; try lia; rewrite loop_S;
    cbn [cap_chain pick] in *; cbn [config_step].
  - by rewrite Hc.
  - destruct Hc as (Ec & Hz & Hc). rewrite (proj2 (Z.eqb_neq _ _) Hz), Ec in *.
    destruct (cap_type e c =? _); [done|]. cbn [res_bind]. apply IH; [done | lia].
Qed.

Lemma pick_ok e l : forall d, l <> [] ->
  pick e l d ∈ l /\ (cap_type e (pick e l d) = 4 <-> Exists (fun c => cap_type e c = 4) l).
Proof.
  induction l as [|c l IH]; intros d Hl; [done|]. cbn [pick].
  destruct (Z.eqb_spec (cap_type e c) VIRTIO_PCI_CAP_DEVICE_CFG) as [Hc|Hc].
  - split; [constructor|]. split; [intros _; by constructor | done].
  - rewrite Exists_cons. destruct l as [|c' l].
    + cbn [pick]. split; [constructor|]. split; [done|]. intros [?|Hx]; [done | by inversion Hx].
    + destruct (IH c) as [Hin Hty]; [done|]. split; [by constructor|]. rewrite Hty.
      split; [by right | by intros [?|?]].
Qed.

(** The configuration structure a driver goes on with is one of the capabilities
    after the first, and the right one exactly if there is a device configuration among
    them: one that comes first is missed, and another structure is taken instead. *)
Theorem find_config_correct e p l : cap_chain e (capes_pointer e) (p :: l) -> l <> [] ->
  (length l < 256)%nat ->
  exists c, find_config e = Ok c /\ c ∈ l /\
    (cap_type e c = VIRTIO_PCI_CAP_DEVICE_CFG <->
     Exists (fun c => cap_type e c = VIRTIO_PCI_CAP_DEVICE_CFG) l).
Proof.
  intros (Hp & Hz & Hc) Hl Hn. exists (pick e l p).
  destruct (pick_ok e l p Hl) as [Hin Hty]. split; [|by split].
  rewrite Hp in *. destruct l as [|c l]; [done|]. cbn [cap_chain] in Hc. destruct Hc as (Ec & Hcz & Hc).
  unfold find_config. rewrite loop_S. cbn [config_step]. rewrite Hp, (proj2 (Z.eqb_neq _ _) Hz), Ec. cbn [pick].
  destruct (cap_type e c =? _); [done|]. cbn [res_bind]. rewrite Ec in Hc.
  apply (config_loop e l); [done | cbn [length] in Hn; lia].
Qed.

End config.

(** ** Interrupts *)

Section interrupts.
Context {M : Type} `{!Mmio M}.

(** What pci_dispatch_irq reads of an element of g_virtio_devices: its interrupt and the
    address of its ISR register, null until the device is set up. *)
Record irq_source := mkSource { source_irq : Z; isr_addr : Z }.

(** Reading the register acknowledges the interrupt; what follows (rng_finish) is empty. *)
Fixpoint pci_dispatch_irq (irq : Z) (g_virtio_devices : list irq_source) (m : M) : M :=
  match g_virtio_devices with
  | [] => m
  | d :: ds =>
      if source_irq d =? irq then
        if isr_addr d =? 0 then pci_dispatch_irq irq ds m
        else pci_dispatch_irq irq ds (snd (mmio_ld m 4 (isr_addr d)))
      else pci_dispatch_irq irq ds m
  end.

(** [irq] is what plic_claim returned. *)
Definition plic_handle_irq (hart irq : Z) (devices : list irq_source) (s : plic * M) : plic * M :=
  let '(p, m) := s in
  let m := if (irq =? PLIC_PCI_INTA) || (irq =? PLIC_PCI_INTB) || (irq =? PLIC_PCI_INTC) ||
              (irq =? PLIC_PCI_INTD) then pci_dispatch_irq irq devices m else m in
  (plic_complete PLIC_MODE_SUPERVISOR p hart irq, m).

(** The interrupt of a device is pending until its ISR register is read. *)
Class IsrLaws := {
  pending : M -> Z -> bool;
  ack_clears m a : pending (snd (mmio_ld m 4 a)) a = false;
  ack_other m a b : a <> b -> pending (snd (mmio_ld m 4 a)) b = pending m b
}.
Context `{!IsrLaws}.

Definition acknowledged (irq : Z) (ds : list irq_source) (a : Z) : bool :=
  existsb (fun d => (source_irq d =? irq) && (isr_addr d =? a)) ds && negb (a =? 0).

Lemma dispatch_pending irq ds : forall m a,
  pending (pci_dispatch_irq irq ds m) a = negb (acknowledged irq ds a) && pending m a.
Proof.
  unfold acknowledged. induction ds as [|d ds IH]; intros m a; cbn [pci_dispatch_irq existsb]; [done|].
  destruct (source_irq d =? irq); cbn [andb orb]; [|apply IH].
  destruct (Z.eqb_spec (isr_addr d) 0) as [Hz|Hz].
  - rewrite IH, Hz. destruct (Z.eqb_spec a 0) as [->|]; [by rewrite !andb_false_r|].
    by rewrite (proj2 (Z.eqb_neq 0 a)) by congruence.
  - rewrite IH. destruct (Z.eqb_spec (isr_addr d) a) as [<-|Hne].
    + rewrite ack_clears, andb_false_r. by rewrite (proj2 (Z.eqb_neq _ 0) Hz).
    + by rewrite ack_other.
Qed.

(** A PCI interrupt that was claimed is acknowledged at every device that shares the
    line and is set up, at no other device, and completed; any other interrupt is only
    completed. *)
Theorem plic_handle_irq_correct hart irq ds p m : 0 <= irq < 2 ^ 32 ->
  exists p' m', plic_handle_irq hart irq ds (p, m) = (p', m') /\
    (forall a, pending m' a =
       negb (bool_decide (32 <= irq <= 35) && acknowledged irq ds a) && pending m a) /\
    rd p' (PLIC_CLAIM hart PLIC_MODE_SUPERVISOR) = irq /\
    forall a, a <> PLIC_CLAIM hart PLIC_MODE_SUPERVISOR -> rd p' a = rd p a.
Proof.
  intros Hi. unfold plic_handle_irq, plic_complete. eexists _, _. split; [done|]. split; [|split].
  - intros a. destruct (bool_decide_reflect (32 <= irq <= 35)) as [Hl|Hl]; cbn [andb negb].
    + assert ((irq =? PLIC_PCI_INTA) || (irq =? PLIC_PCI_INTB) || (irq =? PLIC_PCI_INTC) ||
              (irq =? PLIC_PCI_INTD) = true) as ->.
      { rewrite !orb_true_iff, !Z.eqb_eq. unfold PLIC_PCI_INTA, PLIC_PCI_INTB, PLIC_PCI_INTC, PLIC_PCI_INTD. lia. }
      apply dispatch_pending.
    + assert ((irq =? PLIC_PCI_INTA) || (irq =? PLIC_PCI_INTB) || (irq =? PLIC_PCI_INTC) ||
              (irq =? PLIC_PCI_INTD) = false) as ->; [|done].
      rewrite !orb_false_iff, !Z.eqb_neq. unfold PLIC_PCI_INTA, PLIC_PCI_INTB, PLIC_PCI_INTC, PLIC_PCI_INTD. lia.
  - rewrite rd_wr, decide_True by done. by apply u32_id.
  - intros a Ha. by rewrite rd_wr, decide_False by congruence.
Qed.

End interrupts.

(** ** virtio_init *)

Definition VIRTIO_PCI_DEVICE_ID (x : Z) : Z := 0x1040 + x.

Inductive driver := Block | Entropy | Gpu | Input | NoDriver.

Definition driver_of (device_id : Z) : driver :=
  if device_id =? VIRTIO_PCI_DEVICE_ID 2 then Block
  else if device_id =? VIRTIO_PCI_DEVICE_ID 4 then Entropy
  else if device_id =? VIRTIO_PCI_DEVICE_ID 16 then Gpu
  else if device_id =? VIRTIO_PCI_DEVICE_ID 18 then Input
  else NoDriver.

Section init.
Context {M : Type} `{!Mmio M} {H : Type} `{!Bars H}.
Context (phys : Z -> Z) (attach : driver -> pci_ecam H -> vstate (M := M) -> res (vstate (M := M))).

(** The loop over g_virtio_devices; each starts with a device that kzalloc cleared. *)
Fixpoint virtio_init (devices : list (pci_ecam H)) (s : vstate (M := M)) :
    res (list viodev * vstate (M := M)) :=
  match devices with
  | [] => Ok ([], s)
  | e :: es =>
      let* s := virtio_device_init phys e (set_vdev s new_viodev) in
      let* s := (match driver_of (device_id e) with NoDriver => Ok s | d => attach d e s end) in
      let* (vs, s') := virtio_init es s in
      Ok (vdev s :: vs, s')
  end.

End init.

(** ** input_init *)

Definition sizeof_InputEvent : Z := 8.

(** One turn of its loop: the buffer [i] is offered to the device. *)
Definition offer_event (event_physical i : Z) (v : VirtioDevice) : res VirtioDevice :=
  if queue_size v =? 0 then Ub
  else
    let at_idx := driver_idx v in
    let* d := st_desc (desc v) i
                (mkDesc (u64 (event_physical + sizeof_InputEvent * i)) sizeof_InputEvent
                   VIRTQ_DESC_F_WRITE 0) in
    let slot := drv_idx v mod queue_size v in
    if Z.of_nat (length (ring v)) <=? slot then Ub
    else Ok (set_queue v d (<[Z.to_nat slot := at_idx]> (ring v)) (u16 (drv_idx v + 1))
               ((driver_idx v + 1) mod queue_size v) (vlock v)).

Definition EV_KEY : Z := 1.
Definition EV_ABS : Z := 3.

(** The kind of device its product number says it is, and what becomes of the two
    globals. *)
Definition input_kind (product : Z) : Z :=
  if product =? EV_KEY then 1 else if product =? EV_ABS then 2 else 0.

Record input_devices (A : Type) := mkInputs { g_keydev : option A; g_tabdev : option A }.
Arguments mkInputs {A} g_keydev g_tabdev.
Arguments g_keydev {A} _.
Arguments g_tabdev {A} _.

Definition register_input {A} (product : Z) (d : A) (g : input_devices A) : input_devices A :=
  if input_kind product =? 1 then mkInputs (Some d) (g_tabdev g)
  else if input_kind product =? 2 then mkInputs (g_keydev g) (Some d)
  else g.

(** [event_physical] is where the buffers are; the notification follows. *)
Definition post_events (event_physical : Z) (v : VirtioDevice) : res VirtioDevice :=
  let* l := mutex_spinlock (vlock v) in
  let v := set_queue v (desc v) (ring v) (drv_idx v) (driver_idx v) l in
  let* v := for_up (Z.to_nat (queue_size v)) 0 (offer_event event_physical) v in
  Ok (set_queue v (desc v) (ring v) (drv_idx v) (driver_idx v) (mutex_unlock (vlock v))).

Definition input_init (event_physical product : Z) (v : VirtioDevice)
    (g : input_devices VirtioDevice) : res (input_devices VirtioDevice) :=
  let* v := post_events event_physical v in
  Ok (register_input product v g).

(** The [i]-th buffer. *)
Definition event_buffer (event_physical i : Z) : VirtioDescriptor :=
  mkDesc (event_physical + 8 * i) 8 VIRTQ_DESC_F_WRITE 0.

(** The queue while the loop is at [i]. *)
Record offering (a : Z) (v : VirtioDevice) (i : Z) (x : VirtioDevice) : Prop := mkOffering {
  of_fixed : device_status x = device_status v /\ queue_size x = queue_size v /\
    used_idx x = used_idx v /\ queue_interrupt x = queue_interrupt v /\
    device_idx x = device_idx v /\ vlock x = MUTEX_LOCKED;
  of_idx : drv_idx x = i;
  of_at : driver_idx x = i mod queue_size v;
  of_lengths : length (desc x) = length (desc v) /\ length (ring x) = length (ring v);
  of_done j : 0 <= j < i -> desc x !! Z.to_nat j = Some (event_buffer a j) /\
    ring x !! Z.to_nat j = Some j
}.

Lemma offer_event_ok a v i x : idle v -> drv_idx v = 0 -> driver_idx v = 0 ->
  0 <= a -> a + 8 * queue_size v <= 2 ^ 64 -> 0 <= i < queue_size v -> offering a v i x ->
  exists y, offer_event a i x = Ok y /\ offering a v (i + 1) y.
Proof.
  intros [_ _ _ Hq Hd Hr _ _] Hz Hz' Ha Hb Hi [(F1 & F2 & F3 & F4 & F5 & F6) Hx Hat [Ld Lr] Hdn].
  unfold offer_event. rewrite F2, (proj2 (Z.eqb_neq _ _)) by lia.
  rewrite st_desc_ok by (rewrite Ld, Hd; lia). cbn [res_bind].
  rewrite Hx, Z.mod_small by lia. rewrite (proj2 (Z.leb_gt _ _)) by (rewrite Lr, Hr; lia).
  eexists. split; [done|]. rewrite Hat, (Z.mod_small i) by lia. unfold sizeof_InputEvent.
  rewrite u64_id by lia. split; cbn.
  - by rewrite F6.
  - apply u16_id. lia.
  - done.
  - by rewrite !length_insert.
  - intros j Hj. destruct (decide (j = i)) as [->|Hne].
    + rewrite !list_lookup_insert_eq by lia. done.
    + rewrite !list_lookup_insert_ne by lia. apply Hdn. lia.
Qed.

(** On a queue fresh from virtio_device_init, input_init offers the device every
    event buffer exactly once, each 8 bytes of its own, and leaves the lock free. *)
Theorem input_init_offers_all a product v g : idle v -> drv_idx v = 0 -> driver_idx v = 0 ->
  0 <= a -> a + 8 * queue_size v <= 2 ^ 64 ->
  exists x, post_events a v = Ok x /\ input_init a product v g = Ok (register_input product x g) /\
    drv_idx x = queue_size v /\ vlock x = MUTEX_UNLOCKED /\ used_idx x = 0 /\
    ring x = seqZ 0 (queue_size v) /\
    desc x = map (event_buffer a) (seqZ 0 (queue_size v)).
Proof.
  intros Hid Hz Hz' Ha Hb. pose proof Hid as [Hl Hu _ Hq Hd Hr _ _]. unfold input_init, post_events.
  rewrite Hl. change (mutex_spinlock MUTEX_UNLOCKED) with (Ok MUTEX_LOCKED). cbn [res_bind].
  set (v0 := set_queue v _ _ _ _ _). change (queue_size v0) with (queue_size v).
  destruct (for_up_total (offering a v) (offer_event a) (Z.to_nat (queue_size v)) 0 v0) as (x & -> & Hx).
  - split; cbn; try done. intros j Hj. lia.
  - intros i y Hi Hy. apply offer_event_ok; try done. lia.
  - rewrite Z2Nat.id, Z.add_0_l in Hx by lia. destruct Hx as [(_ & F2 & F3 & _) Hi _ [Ld Lr] Hdn].
    cbn [res_bind]. eexists. split; [done|]. split; [done|]. cbn. split; [done|]. split; [done|].
    split; [by rewrite F3, Hu, Hz|].
    split; apply list_eq; intros k; destruct (decide (k < Z.to_nat (queue_size v))%nat).
    + destruct (Hdn (Z.of_nat k)) as [_ E]; [lia|]. rewrite Nat2Z.id in E. rewrite E.
      rewrite lookup_seqZ_lt by lia. f_equal.
    + rewrite !lookup_ge_None_2; [done | rewrite length_seqZ; lia | lia].
    + destruct (Hdn (Z.of_nat k)) as [E _]; [lia|]. rewrite Nat2Z.id in E. rewrite E.
      rewrite list_lookup_fmap, lookup_seqZ_lt by lia. done.
    + rewrite !lookup_ge_None_2; [done | rewrite length_map, length_seqZ; lia | lia].
Qed.

(** ** Examples *)

Module Demo.
Import Pci.Demo.

(** The device of Transport.v: its device configuration is the third capability. *)
Lemma find_config_correct_witness :
  exists c, find_config Transport.Demo.function = Ok c /\ cap_type Transport.Demo.function c = 4.
Proof.
  destruct (find_config_correct Transport.Demo.function 0x90 [0x7c; 0x68; 0x54; 0x40])
    as (c & E & _ & Hc).
  - vm_compute. repeat split; done.
  - done.
  - cbn. lia.
  - exists c. split; [exact E|]. apply Hc. apply Exists_cons_tl, Exists_cons_hd. reflexivity.
Defined.

(** With the device configuration as the first of two, the other one is taken for it. *)
Definition first_function : pci_ecam bar_file :=
  mkEcam VIRTIO_PCI_VENDOR_ID 0x1042 2 0 0x68
    (fun a => if a =? 0x69 then 0x40 else Transport.Demo.config_space a) Transport.Demo.live_bars
    no_bridge.

Example find_config_misses_first :
  cap_type first_function 0x68 = VIRTIO_PCI_CAP_DEVICE_CFG /\ find_config first_function = Ok 0x40 /\
  cap_type first_function 0x40 = VIRTIO_PCI_CAP_COMMON_CFG.
Proof. vm_compute. done. Qed.

(** Interrupts as the set of the ISR registers where one is pending. *)
#[export] Instance isr_mmio : Mmio (gset Z) := {
  mmio_ld m _ a := (0, m ∖ {[a]}); mmio_st m _ _ _ := m
}.

#[export, refine] Instance isr_laws : IsrLaws (M := gset Z) := { pending m a := bool_decide (a ∈ m) }.
Proof.
  - intros m a. apply bool_decide_eq_false. cbn. set_solver.
  - intros m a b Hab. apply bool_decide_ext. cbn. set_solver.
Defined.

Definition sources : list irq_source := [mkSource 33 0x1000; mkSource 34 0x2000; mkSource 33 0x3000].

Lemma plic_handle_irq_correct_witness :
  let '(p, m) := plic_handle_irq 0 33 sources (∅, {[0x1000; 0x2000; 0x3000]}) in
  pending m 0x1000 = false /\ pending m 0x2000 = true /\ pending m 0x3000 = false /\
  rd p (PLIC_CLAIM 0 PLIC_MODE_SUPERVISOR) = 33.
Proof.
  destruct (plic_handle_irq_correct 0 33 sources ∅ ({[0x1000; 0x2000; 0x3000]} : gset Z))
    as (p & m & -> & Hp & Hr & _); [lia|].
  rewrite !Hp. split; [reflexivity|]. split; [reflexivity|]. split; [reflexivity | exact Hr].
Defined.

Definition fresh : VirtioDevice :=
  mkVdev 15 4 (replicate 4 (mkDesc 0 0 0 0)) (replicate 4 0) 0 0 false MUTEX_UNLOCKED 0 0.

Lemma fresh_idle : idle fresh.
Proof. split; cbn; lia || done. Qed.

Lemma input_init_offers_all_witness :
  exists x, input_init 0x80001000 EV_ABS fresh (mkInputs None None) = Ok (mkInputs None (Some x)) /\
    ring x = [0; 1; 2; 3] /\ desc x !! 3%nat = Some (event_buffer 0x80001000 3).
Proof.
  destruct (input_init_offers_all 0x80001000 EV_ABS fresh (mkInputs None None))
    as (x & _ & E & _ & _ & _ & Hr & Hd);
    [apply fresh_idle | done | done | lia | cbn; lia |].
  exists x. split; [exact E|]. rewrite Hr, Hd. split; reflexivity.
Defined.

End Demo.
