(* ===== verification/Block.v ===== *)
(** The virtio block driver: src/src/block.c.

    Memory is physical; [phys] is what [mmu_translate] says of an address of the kernel,
    and also where the CPU's own accesses to it go. [kzalloc] is an oracle: the address
    of the temporary buffer is an argument. [request] is the address of the local
    variable of that name. The device is the class [BlockDeviceLaws], which is what the
    virtio standard says of a block device that serves a request. *)
From S2P Require Import Prelude Mem Lock Virtio.
From S2P Require Disk.

Definition SECTOR_SIZE : Z := 512.
Definition VIRTIO_BLK_T_IN : Z := 0.
Definition VIRTIO_BLK_T_OUT : Z := 1.
Definition VIRTIO_BLK_T_FLUSH : Z := 4.
Definition VIRTIO_BLK_S_OK : Z := 0.

(** [ALIGN_UP_POT(x, SECTOR_SIZE)] on a [uint32_t]. *)
Definition align_sector (x : Z) : Z := Z.land (u32 (u32 x + SECTOR_SIZE - 1)) (u32 (- SECTOR_SIZE)).

Section driver.
Context {B : Type} `{!Device B} (phys : Z -> Z) (request : Z).

(** [BlockDevice], the memory and the device itself. *)
Record BlockDevice := mkBdev { vdev : VirtioDevice; bmem : mem; blk : B }.

Definition set_mem (s : BlockDevice) (m : mem) : BlockDevice := mkBdev (vdev s) m (blk s).

(** [BlockRequest request]: type at 0, sector at 8, status at 16. *)
Definition fill_request (m : mem) (type sector : Z) : res mem :=
  let* m := st64 m (phys (request + 8)) sector in
  let* m := st_le 4 m (phys request) type in
  st8 m (phys (request + 16)) 7.

(** From the notification to the end: the wait for the interrupt bit, the used ring and
    the status. *)
Definition run_request (s : BlockDevice) : res (bool * BlockDevice) :=
  let '(b, v, m) := notified (blk s) (vdev s) (bmem s) in
  if queue_interrupt v then Hang
  else
    let* v := catch_up v in
    let* status := ld8 m (phys (request + 16)) in
    Ok (status =? VIRTIO_BLK_S_OK, mkBdev v m b).

(** What [block_read], [block_write] and [block_flush] share. *)
Definition submit (s : BlockDevice) (type sector : Z) (data : list buffer) :
    res (bool * BlockDevice) :=
  if Z.land (device_status (vdev s)) VIRTIO_F_DRIVER_OK =? 0 then Ok (false, s)
  else
    let* m := fill_request (bmem s) type sector in
    let* v := post_chain (vdev s)
                ((phys request, 16, VIRTQ_DESC_F_NEXT) :: data ++
                 [(phys (request + 16), 1, VIRTQ_DESC_F_WRITE)]) in
    run_request (mkBdev v m (blk s)).

Definition block_read (s : BlockDevice) (buf_addr byte_num size : Z) : res (bool * BlockDevice) :=
  submit s VIRTIO_BLK_T_IN (byte_num / SECTOR_SIZE)
    [(phys buf_addr, align_sector (byte_num mod SECTOR_SIZE + size),
      Z.lor VIRTQ_DESC_F_NEXT VIRTQ_DESC_F_WRITE)].

Definition block_write (s : BlockDevice) (buf_addr byte_num size : Z) : res (bool * BlockDevice) :=
  submit s VIRTIO_BLK_T_OUT (byte_num / SECTOR_SIZE)
    [(phys buf_addr, align_sector (byte_num mod SECTOR_SIZE + size), VIRTQ_DESC_F_NEXT)].

Definition block_flush (s : BlockDevice) : res (bool * BlockDevice) :=
  submit s VIRTIO_BLK_T_FLUSH 0 [].

(** [for (i = 0; i < size; i++) dst[i] = src[i]] *)
Definition copy_bytes (m : mem) (dst src size : Z) : res mem :=
  for_up (Z.to_nat size) 0
    (fun i m => let* c := ld8 m (phys (src + i)) in st8 m (phys (dst + i)) c) m.

Definition block_read_wrapper (s : BlockDevice) (temp_buffer buf_addr byte_num size : Z) :
    res (bool * BlockDevice) :=
  let* m := kzalloc phys (bmem s) temp_buffer (ALIGN_UP_POT size SECTOR_SIZE) in
  let* (ok, s) := block_read (set_mem s m) temp_buffer byte_num
                    (align_sector (byte_num mod SECTOR_SIZE + size)) in
  if negb ok then Ok (false, s)
  else
    let* m := copy_bytes (bmem s) buf_addr (temp_buffer + byte_num mod SECTOR_SIZE) size in
    Ok (true, set_mem s m).

Definition block_write_wrapper (s : BlockDevice) (temp_buffer buf_addr byte_num size : Z) :
    res (bool * BlockDevice) :=
  let* m := kzalloc phys (bmem s) temp_buffer (ALIGN_UP_POT size SECTOR_SIZE) in
  let* (ok, s) := block_read (set_mem s m) temp_buffer byte_num
                    (align_sector (byte_num mod SECTOR_SIZE + size)) in
  if negb ok then Ok (false, s)
  else
    let* m := copy_bytes (bmem s) (temp_buffer + byte_num mod SECTOR_SIZE) buf_addr size in
    block_write (set_mem s m) temp_buffer byte_num
      (align_sector (byte_num mod SECTOR_SIZE + size)).

End driver.

Arguments BlockDevice : clear implicits.

(** ** The device *)

(** A request of the driver: header, data, status. *)
Record request_at (m : mem) (ds : list buffer) (type sector d n : Z) (writable : bool) (st : Z) :
    Prop := mkRequestAt {
  rq_chain : exists h fh fd fs, ds = [(h, 16, fh); (d, n, fd); (st, 1, fs)] /\
    Z.testbit fh 1 = false /\ Z.testbit fd 1 = writable /\ Z.testbit fs 1 = true /\
    ld_le 4 m h = Ok type /\ ld64 m (h + 8) = Ok sector
}.

(** A block device of [sectors] sectors: reads and writes of whole sectors inside it
    succeed and set the status to 0. *)
Class BlockDeviceLaws (B : Type) `{!Device B} `{!DeviceLaws B} := {
  sectors : B -> Z;
  content : B -> Z -> Z;
  content_byte b a : byte_ok (content b a);
  serve_read b m ds sector d n st : request_at m ds VIRTIO_BLK_T_IN sector d n true st ->
    0 <= sector -> 0 < n -> n mod SECTOR_SIZE = 0 -> sector * SECTOR_SIZE + n <= sectors b * SECTOR_SIZE ->
    serves b ds m = (b, <[st := 0]> (dma m d (content b <$> seqZ (sector * SECTOR_SIZE) n)));
  serve_write b m ds sector d n st : request_at m ds VIRTIO_BLK_T_OUT sector d n false st ->
    0 <= sector -> 0 < n -> n mod SECTOR_SIZE = 0 -> sector * SECTOR_SIZE + n <= sectors b * SECTOR_SIZE ->
    mapped m d n -> mem_ok m ->
    exists b', serves b ds m = (b', <[st := 0]> m) /\ sectors b' = sectors b /\
      forall a, content b' a =
        if decide (sector * SECTOR_SIZE <= a < sector * SECTOR_SIZE + n)
        then default 0 (m !! (d + (a - sector * SECTOR_SIZE))) else content b a
}.

(** ** Arithmetic and memory *)

Lemma align_sector_ok x : 0 <= x -> x + 511 < 2 ^ 32 -> align_sector x = (x + 511) / 512 * 512.
Proof.
  intros H0 H. unfold align_sector, SECTOR_SIZE. rewrite (u32_id x) by lia.
  replace (x + 512 - 1) with (x + 511) by lia. rewrite (u32_id (x + 511)) by lia.
  change (u32 (Z.opp 512)) with (Z.land (Z.ones 32) (Z.lnot (Z.ones 9))).
  rewrite Z.land_assoc, Z.land_ones, Z.mod_small by lia.
  rewrite <- Z.ldiff_land, Z.ldiff_ones_r, Z.shiftr_div_pow2, Z.shiftl_mul_pow2 by lia. done.
Qed.

Section correct.
Context {B : Type} `{!Device B} `{!DeviceLaws B} `{!BlockDeviceLaws B}.
Context (phys : Z -> Z) (request : Z).

Notation buffer_ok := (buffer_ok phys).

Lemma fill_request_ok m type sector : buffer_ok m request 17 -> 0 <= type < 2 ^ 32 ->
  0 <= sector < 2 ^ 64 ->
  exists m', fill_request phys request m type sector = Ok m' /\ stored m m' (phys request) 17 /\
    ld_le 4 m' (phys request) = Ok type /\ ld64 m' (phys request + 8) = Ok sector.
Proof.
  intros Hr Ht Hs. unfold fill_request.
  destruct (buffer_part phys m request 17 8 8 Hr) as [-> Hm8]; [lia | lia | lia |].
  destruct (ld64_st64 m (phys request + 8) sector Hm8) as (m1 & -> & S1 & L1). cbn [res_bind].
  assert (buffer_ok m1 request 17) as Hr1 by (eapply buffer_ok_dom; [apply S1 | exact Hr]).
  destruct (st_le_spec 4 m1 (phys request) type) as (m2 & -> & S2 & L2).
  { eapply mapped_mono; [apply Hr1 | lia | lia]. } cbn [res_bind].
  assert (buffer_ok m2 request 17) as Hr2 by (eapply buffer_ok_dom; [apply S2 | exact Hr1]).
  destruct (buffer_part phys m2 request 17 16 1 Hr2) as [-> Hm16]; [lia | lia | lia |].
  assert (is_Some (m2 !! (phys request + 16))) as H16
    by (apply (mapped_lookup _ _ _ _ Hm16); lia).
  pose proof (st8_ok m2 (phys request + 16) 7 H16) as E. rewrite E.
  pose proof (st8_stored _ _ _ _ E) as S3. eexists. split; [done|]. split; [|split].
  - eapply stored_trans; [eapply stored_mono; [exact S1 | lia | lia]|].
    eapply stored_trans; [eapply stored_mono; [exact S2 | lia | lia]|].
    eapply stored_mono; [exact S3 | lia | lia].
  - rewrite (ld_le_outside 4 _ _ _ _ _ (stored_out _ _ _ _ S3)) by lia. rewrite L2.
    by rewrite Z.mod_small by lia.
  - unfold ld64 in *. rewrite (ld_le_outside 8 _ _ _ _ _ (stored_out _ _ _ _ S3)) by lia.
    rewrite (ld_le_outside 8 _ _ _ _ _ (stored_out _ _ _ _ S2)) by lia.
    rewrite L1. by rewrite u64_id by lia.
Qed.

(** A machine on which a request can be made. *)
Record ready (s : BlockDevice B) : Prop := mkReady {
  rd_idle : idle (vdev s);
  rd_driver : Z.land (device_status (vdev s)) VIRTIO_F_DRIVER_OK <> 0;
  rd_request : buffer_ok (bmem s) request 17;
  rd_mem : mem_ok (bmem s)
}.

(** What a request that the device serves leaves. *)
Lemma submit_ok s type sector data : ready s -> 0 <= type < 2 ^ 32 -> 0 <= sector < 2 ^ 64 ->
  let ds := (phys request, 16, VIRTQ_DESC_F_NEXT) :: data ++
            [(phys (request + 16), 1, VIRTQ_DESC_F_WRITE)] in
  (length data <= 1)%nat -> chained ds ->
  exists m, stored (bmem s) m (phys request) 17 /\ ld_le 4 m (phys request) = Ok type /\
    ld64 m (phys request + 8) = Ok sector /\
    forall b' m', serves (blk s) ds m = (b', m') -> m' !! (phys request + 16) = Some 0 ->
      dom m' = dom m -> mem_ok m' ->
      exists s', submit phys request s type sector data = Ok (true, s') /\ ready s' /\
        bmem s' = m' /\ blk s' = b'.
Proof.
  intros [Hi Hd Hr Hm] Ht Hs ds Hl Hc.
  destruct (fill_request_ok (bmem s) type sector Hr Ht Hs) as (m & E & St & L1 & L2).
  exists m. split; [done|]. split; [done|]. split; [done|].
  intros b' m' Hsv H0 Hdm Hok. unfold submit. rewrite (proj2 (Z.eqb_neq _ _) Hd), E.
  cbn [res_bind]. pose proof (idle_size _ Hi) as Hq.
  destruct (post_chain_ok (vdev s) ds Hi Hc) as (v & Ep & Hn & Hi' & Hst & _);
    [unfold ds; cbn [length]; rewrite length_app; cbn [length]; lia|].
  unfold ds in Ep. rewrite Ep. cbn [res_bind]. unfold run_request. cbn [blk vdev bmem].
  rewrite (notified_law _ _ _ ds Hn), Hsv. cbn [queue_interrupt completed].
  rewrite catch_up_ok by (apply u16_range || apply (idle_seen _ Hi')). cbn [res_bind].
  destruct (buffer_part phys (bmem s) request 17 16 1 Hr) as [-> _]; [lia | lia | lia |].
  unfold ld8. rewrite H0. cbn [deref res_bind Z.eqb VIRTIO_BLK_S_OK].
  eexists. split; [done|]. split; [|done].
  split; cbn [vdev bmem].
  - by apply idle_seen_up.
  - cbn. by rewrite Hst.
  - eapply buffer_ok_dom; [|exact Hr]. by rewrite Hdm, (stored_dom _ _ _ _ St).
  - done.
Qed.

(** The request structure is no part of the [n] bytes at [buf]. *)
Definition outside_request (buf n : Z) : Prop := apart (phys buf) n (phys request) 17.

(** The bytes a transfer of [size] bytes from [byte_num] on moves. *)
Definition span (byte_num size : Z) : Z := align_sector (byte_num mod SECTOR_SIZE + size).

Definition first_byte (byte_num : Z) : Z := byte_num / SECTOR_SIZE * SECTOR_SIZE.

Lemma span_ok byte_num size : 0 <= byte_num -> 0 < size -> size < 2 ^ 31 ->
  span byte_num size = (byte_num mod 512 + size + 511) / 512 * 512.
Proof. intros. unfold span, SECTOR_SIZE. apply align_sector_ok; dlia. Qed.

Lemma seqZ_bytes b a n : Forall byte_ok (content b <$> seqZ a n).
Proof.
  apply Forall_forall. intros x (i & -> & _)%list_elem_of_fmap. apply content_byte.
Qed.

(** [s'] is [s] with [n] bytes of memory at [buf] replaced, and the request structure. *)
Record transferred (s s' : BlockDevice B) (buf n : Z) (f : Z -> Z) : Prop := mkTransferred {
  tr_dom : dom (bmem s') = dom (bmem s);
  tr_data : forall i, 0 <= i < n -> bmem s' !! (phys buf + i) = Some (f i);
  tr_frame : forall p, ~ (phys buf <= p < phys buf + n) ->
    ~ (phys request <= p < phys request + 17) -> bmem s' !! p = bmem s !! p
}.

(** What the device does to memory: the bytes of the sectors go to the buffer. *)
Lemma block_read_ok s buf byte_num size : ready s -> 0 <= byte_num < 2 ^ 32 ->
  0 < size < 2 ^ 31 -> let n := span byte_num size in
  first_byte byte_num + n <= sectors (blk s) * SECTOR_SIZE ->
  buffer_ok (bmem s) buf n -> outside_request buf n ->
  exists s', block_read phys request s buf byte_num size = Ok (true, s') /\ ready s' /\
    blk s' = blk s /\
    transferred s s' buf n (fun i => content (blk s) (first_byte byte_num + i)).
Proof.
  intros Hs Hb Hsz n Hn Hbuf Hout. pose proof (span_ok byte_num size) as Esp.
  assert (0 < n /\ n mod 512 = 0 /\ 0 <= byte_num / 512 < 2 ^ 32) as (Hn0 & Hn1 & Hsec)
    by (unfold n; rewrite Esp by lia; dlia).
  destruct (submit_ok s VIRTIO_BLK_T_IN (byte_num / SECTOR_SIZE)
    [(phys buf, n, Z.lor VIRTQ_DESC_F_NEXT VIRTQ_DESC_F_WRITE)]) as
    (m & St & L1 & L2 & Hrun); [done | done | unfold SECTOR_SIZE; lia | cbn; lia | done |].
  destruct (buffer_part phys (bmem s) request 17 16 1 (rd_request _ Hs)) as [E16 _]; [lia | lia | lia |].
  set (l := content (blk s) <$> seqZ (byte_num / SECTOR_SIZE * SECTOR_SIZE) n) in *.
  assert (Z.of_nat (length l) = n) as El by (unfold l; rewrite length_fmap, length_seqZ; lia).
  assert (mapped m (phys buf) (Z.of_nat (length l))) as Hmb
    by (rewrite El; eapply stored_mapped; [exact St | apply Hbuf]).
  assert (dom (dma m (phys buf) l) = dom m) as Hdd by by apply dma_dom.
  assert (is_Some (m !! (phys request + 16))) as H16.
  { apply elem_of_dom. rewrite (stored_dom _ _ _ _ St). apply elem_of_dom.
    apply (proj1 (rd_request _ Hs)). lia. }
  destruct (Hrun (blk s) (<[phys (request + 16) := 0]> (dma m (phys buf) l))) as
    (s' & E & Hr & Em & Eb).
  - apply (serve_read _ _ _ (byte_num / SECTOR_SIZE) (phys buf) n (phys (request + 16))); try done.
    + split. do 4 eexists. split; [done|]. split; [done|]. split; [done|]. split; [done|].
      split; [exact L1 | exact L2].
    + unfold SECTOR_SIZE. lia.
  - rewrite E16. apply lookup_insert_eq.
  - rewrite E16, dom_insert_is_Some; [done|]. apply elem_of_dom. rewrite Hdd. by apply elem_of_dom.
  - apply mem_ok_insert; [|done]. apply dma_ok; [|apply seqZ_bytes].
    apply (stored_ok _ _ _ _ St), (rd_mem _ Hs).
  - exists s'. split; [exact E|]. split; [done|]. split; [done|].
    unfold outside_request, apart in Hout.
    split; rewrite Em, E16.
    + rewrite dom_insert_is_Some, Hdd; [apply (stored_dom _ _ _ _ St)|].
      apply elem_of_dom. rewrite Hdd. by apply elem_of_dom.
    + intros i Hi. rewrite lookup_insert_ne by lia. rewrite dma_lookup, decide_True by lia.
      replace (phys buf + i - phys buf) with i by lia. unfold l.
      rewrite list_lookup_fmap, lookup_seqZ_lt by lia. cbn. do 2 f_equal.
      unfold first_byte. lia.
    + intros p Hp1 Hp2. rewrite lookup_insert_ne by lia. rewrite dma_lookup, decide_False by lia.
      apply (stored_out _ _ _ _ St). done.
Qed.

Lemma block_write_ok s buf byte_num size : ready s -> 0 <= byte_num < 2 ^ 32 ->
  0 < size < 2 ^ 31 -> let n := span byte_num size in
  first_byte byte_num + n <= sectors (blk s) * SECTOR_SIZE ->
  buffer_ok (bmem s) buf n -> outside_request buf n ->
  exists s', block_write phys request s buf byte_num size = Ok (true, s') /\ ready s' /\
    sectors (blk s') = sectors (blk s) /\
    (forall a, content (blk s') a =
      if decide (first_byte byte_num <= a < first_byte byte_num + n)
      then default 0 (bmem s !! (phys buf + (a - first_byte byte_num))) else content (blk s) a) /\
    (forall p, ~ (phys request <= p < phys request + 17) -> bmem s' !! p = bmem s !! p).
Proof.
  intros Hs Hb Hsz n Hn Hbuf Hout. pose proof (span_ok byte_num size) as Esp.
  assert (0 < n /\ n mod 512 = 0 /\ 0 <= byte_num / 512 < 2 ^ 32) as (Hn0 & Hn1 & Hsec)
    by (unfold n; rewrite Esp by lia; dlia).
  destruct (submit_ok s VIRTIO_BLK_T_OUT (byte_num / SECTOR_SIZE)
    [(phys buf, n, VIRTQ_DESC_F_NEXT)]) as
    (m & St & L1 & L2 & Hrun); [done | done | unfold SECTOR_SIZE; lia | cbn; lia | done |].
  destruct (buffer_part phys (bmem s) request 17 16 1 (rd_request _ Hs)) as [E16 _]; [lia | lia | lia |].
  assert (mem_ok m) as Hm by apply (stored_ok _ _ _ _ St), (rd_mem _ Hs).
  assert (is_Some (m !! (phys request + 16))) as H16.
  { apply elem_of_dom. rewrite (stored_dom _ _ _ _ St). apply elem_of_dom.
    apply (proj1 (rd_request _ Hs)). lia. }
  unfold outside_request, apart in Hout.
  destruct (serve_write (blk s) m ((phys request, 16, VIRTQ_DESC_F_NEXT) ::
      [(phys buf, n, VIRTQ_DESC_F_NEXT)] ++ [(phys (request + 16), 1, VIRTQ_DESC_F_WRITE)])
    (byte_num / SECTOR_SIZE) (phys buf) n (phys (request + 16))) as (b' & Esv & Hsec' & Hc); try done.
  { split. do 4 eexists. split; [done|]. split; [done|]. split; [done|]. split; [done|].
    split; [exact L1 | exact L2]. }
  { unfold SECTOR_SIZE. lia. }
  { eapply stored_mapped; [exact St | apply Hbuf]. }
  rewrite E16 in *. destruct (Hrun _ _ Esv) as (s' & E & Hr & Em & Eb).
  - apply lookup_insert_eq.
  - by apply dom_insert_is_Some.
  - by apply mem_ok_insert.
  - exists s'. split; [exact E|]. split; [done|]. rewrite Eb. split; [done|]. split.
    + intros a. rewrite Hc. fold (first_byte byte_num).
      destruct (decide (first_byte byte_num <= a < first_byte byte_num + n)); [|done].
      by rewrite (stored_out _ _ _ _ St) by lia.
    + intros p Hp. rewrite Em, lookup_insert_ne by lia. by apply (stored_out _ _ _ _ St).
Qed.

(** The copy between the buffers. *)
Lemma copy_bytes_ok m dst src n : mem_ok m -> 0 <= n -> buffer_ok m dst n -> buffer_ok m src n ->
  apart (phys dst) n (phys src) n ->
  exists m', copy_bytes phys m dst src n = Ok m' /\ stored m m' (phys dst) n /\
    forall i, 0 <= i < n -> m' !! (phys dst + i) = m !! (phys src + i).
Proof.
  intros Hm Hn [Hd Ed] [Hs Es] Ha. unfold apart in Ha. unfold copy_bytes.
  destruct (for_up_total (fun i m' => stored m m' (phys dst) n /\
      forall j, 0 <= j < i -> m' !! (phys dst + j) = m !! (phys src + j))
    (fun i m => let* c := ld8 m (phys (src + i)) in st8 m (phys (dst + i)) c) (Z.to_nat n) 0 m)
    as (m' & E & S & Hi).
  - split; [apply stored_refl | lia].
  - intros i m1 Hi [S Hj]. rewrite Es, Ed by lia.
    destruct (Hs i) as [c Ec]; [lia|]. unfold ld8.
    rewrite (stored_out _ _ _ _ S) by lia. rewrite Ec. cbn [deref res_bind].
    assert (is_Some (m1 !! (phys dst + i))) as H1
      by (apply (stored_mapped _ _ _ _ _ _ S Hd); lia).
    pose proof (st8_ok m1 (phys dst + i) c H1) as E. rewrite E. eexists. split; [done|].
    pose proof (st8_stored _ _ _ _ E) as S1. split.
    + eapply stored_trans; [exact S|]. eapply stored_mono; [exact S1 | lia | lia].
    + intros j Hj'. destruct (decide (j = i)) as [->|].
      * rewrite lookup_insert_eq, Ec. f_equal. apply u8_id.
        pose proof (mem_ok_lookup _ _ _ Hm Ec). done.
      * rewrite lookup_insert_ne by lia. apply Hj. lia.
  - exists m'. split; [exact E|]. split; [exact S|]. intros i Hi'. apply Hi. lia.
Qed.

(** ** The wrappers *)

(** The first length is what the wrappers ask for, the second what the device is given:
    the offset in the sector is added twice. *)
Definition device_span (byte_num size : Z) : Z := span byte_num (span byte_num size).

Lemma device_span_ok byte_num size : 0 <= byte_num -> 0 < size < 2 ^ 30 ->
  device_span byte_num size = span byte_num size + (if byte_num mod 512 =? 0 then 0 else 512).
Proof.
  intros Hb Hs. unfold device_span. pose proof (span_ok byte_num size) as E.
  rewrite (span_ok byte_num (span byte_num size)) by (rewrite ?E; dlia). rewrite E by lia.
  destruct (Z.eqb_spec (byte_num mod 512) 0); dlia.
Qed.

(** A transfer between [buf] and the disk, with the temporary buffer at [tmp]. *)
Record can_transfer (s : BlockDevice B) (tmp buf byte_num size : Z) : Prop := mkCanTransfer {
  ct_ready : ready s;
  ct_num : 0 <= byte_num < 2 ^ 32;
  ct_size : 0 < size < 2 ^ 30;
  ct_disk : first_byte byte_num + device_span byte_num size <= sectors (blk s) * SECTOR_SIZE;
  ct_tmp : tmp <> 0;
  ct_tmp_ok : buffer_ok (bmem s) tmp (device_span byte_num size);
  ct_tmp_out : outside_request tmp (device_span byte_num size);
  ct_buf_ok : buffer_ok (bmem s) buf size;
  ct_buf_out : outside_request buf size;
  ct_apart : apart (phys buf) size (phys tmp) (device_span byte_num size)
}.

Lemma ready_mem s m a n : ready s -> stored (bmem s) m a n -> ready (set_mem s m).
Proof.
  intros [Hi Hd Hr Hm] St. split; [done | done | | by apply (stored_ok _ _ _ _ St)].
  eapply buffer_ok_dom; [apply (stored_dom _ _ _ _ St) | done].
Qed.

(** The allocation and the read both wrappers begin with. *)
Lemma read_sectors_ok s tmp buf byte_num size : can_transfer s tmp buf byte_num size ->
  exists m s', kzalloc phys (bmem s) tmp (ALIGN_UP_POT size SECTOR_SIZE) = Ok m /\
    block_read phys request (set_mem s m) tmp byte_num (align_sector (byte_num mod SECTOR_SIZE + size)) =
      Ok (true, s') /\
    ready s' /\ blk s' = blk s /\ dom (bmem s') = dom (bmem s) /\
    transferred s s' tmp (device_span byte_num size)
      (fun i => content (blk s) (first_byte byte_num + i)).
Proof.
  intros [Hr Hb Hs Hd Ht Htok Htout _ _ _]. unfold kzalloc.
  rewrite (proj2 (Z.eqb_neq _ _) Ht).
  pose proof (align_up_pot size 9 ltac:(lia) ltac:(lia) ltac:(lia)) as Ea.
  change (2 ^ 9) with SECTOR_SIZE in Ea.
  pose proof (device_span_ok byte_num size ltac:(lia) Hs) as Ed.
  pose proof (span_ok byte_num size ltac:(lia) ltac:(lia) ltac:(lia)) as Esp.
  assert (0 <= ALIGN_UP_POT size SECTOR_SIZE < 2 ^ 31 /\
    ALIGN_UP_POT size SECTOR_SIZE <= device_span byte_num size) as [Ha Hle]
    by (rewrite Ea, Ed, Esp; unfold SECTOR_SIZE; destruct (byte_num mod 512 =? 0); dlia).
  rewrite s32_id by lia. destruct (fill_spec (Z.to_nat (ALIGN_UP_POT size SECTOR_SIZE))
    (bmem s) (phys tmp) 0) as (m & E & St & _).
  { eapply mapped_mono; [apply Htok | lia | lia]. }
  rewrite Z2Nat.id in St by lia. exists m.
  destruct (block_read_ok (set_mem s m) tmp byte_num (span byte_num size)) as (s' & Er & Hr' & Eb & [T1 T2 T3]);
    [by eapply ready_mem | done | rewrite Esp; dlia | done | | done |].
  { eapply buffer_ok_dom; [apply (stored_dom _ _ _ _ St) | done]. }
  exists s'. split; [exact E|]. split; [exact Er|]. split; [done|]. split; [done|].
  cbn [bmem set_mem] in *. rewrite T1. split; [apply (stored_dom _ _ _ _ St)|].
  split; [by rewrite T1, (stored_dom _ _ _ _ St) | exact T2|].
  intros p Hp1 Hp2. rewrite T3 by done. apply (stored_out _ _ _ _ St). lia.
Qed.

(** What [block_read_wrapper] does: the bytes asked for are in the buffer. *)
Lemma block_read_wrapper_ok s tmp buf byte_num size : can_transfer s tmp buf byte_num size ->
  exists s', block_read_wrapper phys request s tmp buf byte_num size = Ok (true, s') /\
    ready s' /\ blk s' = blk s /\ dom (bmem s') = dom (bmem s) /\
    (forall i, 0 <= i < size -> bmem s' !! (phys buf + i) = Some (content (blk s) (byte_num + i))) /\
    (forall i, 0 <= i < device_span byte_num size ->
       bmem s' !! (phys tmp + i) = Some (content (blk s) (first_byte byte_num + i))) /\
    (forall p, ~ (phys tmp <= p < phys tmp + device_span byte_num size) ->
       ~ (phys request <= p < phys request + 17) -> ~ (phys buf <= p < phys buf + size) ->
       bmem s' !! p = bmem s !! p).
Proof.
  intros H. destruct (read_sectors_ok s tmp buf byte_num size H) as
    (m & s1 & Em & Er & Hr1 & Eb1 & Ed1 & [_ T2 T3]).
  destruct H as [Hr Hb Hs Hd Ht Htok Htout Hbok Hbout Hap].
  pose proof (device_span_ok byte_num size ltac:(lia) Hs) as Eds.
  pose proof (span_ok byte_num size ltac:(lia) ltac:(lia) ltac:(lia)) as Esp.
  assert (byte_num mod 512 + size <= device_span byte_num size) as Hle
    by (rewrite Eds, Esp; destruct (byte_num mod 512 =? 0); dlia).
  assert (phys (tmp + byte_num mod SECTOR_SIZE) = phys tmp + byte_num mod 512) as Ep
    by (apply (proj2 Htok); unfold SECTOR_SIZE; dlia).
  unfold apart in Hap. assert (0 <= byte_num mod 512) by dlia.
  destruct (copy_bytes_ok (bmem s1) buf (tmp + byte_num mod SECTOR_SIZE) size) as (m2 & Ec & S2 & Hc).
  - apply (rd_mem _ Hr1).
  - lia.
  - eapply buffer_ok_dom; [exact Ed1 | done].
  - split.
    + rewrite Ep. eapply mapped_dom; [exact Ed1|]. eapply mapped_mono; [apply Htok | lia | lia].
    + intros i Hi. rewrite Ep. unfold SECTOR_SIZE. rewrite <- !Z.add_assoc.
      rewrite (proj2 Htok) by lia. lia.
  - rewrite Ep. unfold apart. lia.
  - exists (set_mem s1 m2). unfold block_read_wrapper. rewrite Em. cbn [res_bind]. rewrite Er.
    cbn [res_bind negb]. rewrite Ec. cbn [res_bind]. split; [done|].
    split; [by eapply ready_mem|]. split; [done|]. cbn [bmem set_mem].
    split; [by rewrite (stored_dom _ _ _ _ S2)|]. split; [|split].
    + intros i Hi. rewrite Hc by done. rewrite Ep, <- Z.add_assoc, T2 by lia.
      do 2 f_equal. unfold first_byte, SECTOR_SIZE. dlia.
    + intros i Hi. rewrite (stored_out _ _ _ _ S2) by lia. by apply T2.
    + intros p Hp1 Hp2 Hp3. rewrite (stored_out _ _ _ _ S2) by lia. by apply T3.
Qed.

Lemma block_write_wrapper_ok s tmp buf byte_num size : can_transfer s tmp buf byte_num size ->
  exists s', block_write_wrapper phys request s tmp buf byte_num size = Ok (true, s') /\
    ready s' /\ sectors (blk s') = sectors (blk s) /\
    forall a, content (blk s') a =
      if decide (byte_num <= a < byte_num + size)
      then default 0 (bmem s !! (phys buf + (a - byte_num))) else content (blk s) a.
Proof.
  intros H. destruct (read_sectors_ok s tmp buf byte_num size H) as
    (m & s1 & Em & Er & Hr1 & Eb1 & Ed1 & [_ T2 T3]).
  destruct H as [Hr Hb Hs Hd Ht Htok Htout Hbok Hbout Hap].
  pose proof (device_span_ok byte_num size ltac:(lia) Hs) as Eds.
  pose proof (span_ok byte_num size ltac:(lia) ltac:(lia) ltac:(lia)) as Esp.
  assert (byte_num mod 512 + size <= device_span byte_num size) as Hle
    by (rewrite Eds, Esp; destruct (byte_num mod 512 =? 0); dlia).
  assert (phys (tmp + byte_num mod SECTOR_SIZE) = phys tmp + byte_num mod 512) as Ep
    by (apply (proj2 Htok); unfold SECTOR_SIZE; dlia).
  unfold outside_request, apart in *. assert (0 <= byte_num mod 512) by dlia.
  destruct (copy_bytes_ok (bmem s1) (tmp + byte_num mod SECTOR_SIZE) buf size) as (m2 & Ec & S2 & Hc).
  - apply (rd_mem _ Hr1).
  - lia.
  - split.
    + rewrite Ep. eapply mapped_dom; [exact Ed1|]. eapply mapped_mono; [apply Htok | lia | lia].
    + intros i Hi. rewrite Ep. unfold SECTOR_SIZE. rewrite <- !Z.add_assoc.
      rewrite (proj2 Htok) by lia. lia.
  - eapply buffer_ok_dom; [exact Ed1 | done].
  - rewrite Ep. unfold apart. lia.
  - rewrite Ep in *.
    destruct (block_write_ok (set_mem s1 m2) tmp byte_num (span byte_num size)) as
      (s' & Ew & Hr' & Hsec & Hcon & _).
    + by eapply ready_mem.
    + done.
    + rewrite Esp. dlia.
    + cbn [blk set_mem]. rewrite Eb1. done.
    + eapply buffer_ok_dom; [|exact Htok]. cbn [bmem set_mem]. by rewrite (stored_dom _ _ _ _ S2).
    + done.
    + exists s'. unfold block_write_wrapper. rewrite Em. cbn [res_bind]. rewrite Er.
      cbn [res_bind negb]. rewrite Ec. cbn [res_bind]. split; [exact Ew|]. split; [done|].
      cbn [blk set_mem bmem] in Hsec, Hcon. rewrite Eb1 in *. split; [done|].
      intros a. rewrite Hcon. fold (device_span byte_num size).
      assert (first_byte byte_num = byte_num - byte_num mod 512) as Ef
        by (unfold first_byte, SECTOR_SIZE; dlia). rewrite Ef.
      destruct (decide (byte_num <= a < byte_num + size)).
      * rewrite decide_True by lia.
        replace (phys tmp + (a - (byte_num - byte_num mod 512)))
          with (phys tmp + byte_num mod 512 + (a - byte_num)) by lia.
        rewrite Hc by lia. rewrite T3; [done | lia | lia].
      * case_decide; [|done]. rewrite (stored_out _ _ _ _ S2) by lia.
        rewrite T2, Ef by lia. cbn. f_equal. lia.
Qed.

(** ** The disk of the file system *)

(** The device holds what the disk [d] of the interface of [Disk] holds. *)
Definition represents {D} `{!Disk.Disk D} `{!Disk.DiskLaws D} (s : BlockDevice B) (d : D) : Prop :=
  forall a, content (blk s) a = Disk.content d a.

(** The [n] bytes at address [a] are [l]. *)
Definition holds (s : BlockDevice B) (a n : Z) (l : list Z) : Prop :=
  Z.of_nat (length l) = n /\ forall i, 0 <= i < n -> bmem s !! (phys a + i) = l !! Z.to_nat i.

Lemma holds_ok s a n l : mem_ok (bmem s) -> holds s a n l -> Forall byte_ok l.
Proof.
  intros Hm [Hl H]. apply Forall_lookup. intros i c Hc.
  pose proof (lookup_lt_Some _ _ _ Hc). specialize (H (Z.of_nat i) ltac:(lia)).
  rewrite Nat2Z.id, Hc in H. by apply (mem_ok_lookup _ _ _ Hm H).
Qed.

(** (C24) The driver is the disk the file system is written against: where the device holds
    what the disk holds, block_read_wrapper succeeds and leaves in the buffer what a read
    of the disk gives, block_write_wrapper succeeds and leaves on the device what a write
    of the buffer to the disk gives, and the driver is ready for the next transfer. *)
Theorem driver_implements_disk {D} `{!Disk.Disk D} `{!Disk.DiskLaws D} s (d : D) tmp buf byte_num size :
  can_transfer s tmp buf byte_num size -> represents s d ->
  byte_num + size <= Disk.capacity d ->
  (exists s' l, block_read_wrapper phys request s tmp buf byte_num size = Ok (true, s') /\
     Disk.block_read_wrapper d byte_num size = Some l /\ holds s' buf size l /\
     ready s' /\ represents s' d) /\
  (forall l, holds s buf size l -> exists s' d',
     block_write_wrapper phys request s tmp buf byte_num size = Ok (true, s') /\
     Disk.block_write_wrapper d byte_num l = (true, d') /\ ready s' /\ represents s' d').
Proof.
  intros Hct Hd Hc. pose proof (ct_num _ _ _ _ _ Hct). pose proof (ct_size _ _ _ _ _ Hct). split.
  - destruct (block_read_wrapper_ok s tmp buf byte_num size Hct) as (s' & E & Hr & Eb & _ & Hbuf & _).
    exists s', (Disk.content d <$> seqZ byte_num size). split; [exact E|].
    split; [apply Disk.read_law; lia|]. split; [split|].
    + rewrite length_fmap, length_seqZ. lia.
    + intros i Hi. rewrite Hbuf by done. rewrite list_lookup_fmap, lookup_seqZ_lt by lia.
      cbn. rewrite Hd. do 2 f_equal. lia.
    + split; [done|]. unfold represents. by rewrite Eb.
  - intros l Hl. pose proof (holds_ok _ _ _ _ (rd_mem _ (ct_ready _ _ _ _ _ Hct)) Hl) as Hok.
    destruct Hl as [El Hl].
    destruct (block_write_wrapper_ok s tmp buf byte_num size Hct) as (s' & E & Hr & _ & Hcon).
    destruct (Disk.write_law d byte_num l) as (d' & Ed & _ & Hcon'); [lia | lia | done |].
    exists s', d'. split; [exact E|]. split; [exact Ed|]. split; [done|].
    intros a. rewrite Hcon, Hcon', El, Hd. case_decide as Ha; [|done].
    by rewrite Hl by lia.
Qed.

(** (C25) A transfer that does not begin at a sector overruns the temporary buffer: the offset
    in the sector is added twice, and the device stores one or two sectors after the
    block that was allocated. *)
Theorem transfer_overruns_buffer s tmp buf byte_num size : can_transfer s tmp buf byte_num size ->
  byte_num mod SECTOR_SIZE <> 0 ->
  let allocated := ALIGN_UP_POT size SECTOR_SIZE in
  exists s' n, block_read_wrapper phys request s tmp buf byte_num size = Ok (true, s') /\
    (n = allocated + 512 \/ n = allocated + 1024) /\
    forall i, allocated <= i < n ->
      bmem s' !! (phys tmp + i) = Some (content (blk s) (first_byte byte_num + i)).
Proof.
  intros H Hne allocated. pose proof (ct_num _ _ _ _ _ H) as Hb. pose proof (ct_size _ _ _ _ _ H) as Hs.
  destruct (block_read_wrapper_ok s tmp buf byte_num size H) as (s' & E & _ & _ & _ & _ & Ht & _).
  exists s', (device_span byte_num size). split; [exact E|].
  pose proof (align_up_pot size 9 ltac:(lia) ltac:(lia) ltac:(lia)) as Ea.
  change (2 ^ 9) with SECTOR_SIZE in Ea. fold allocated in Ea.
  pose proof (device_span_ok byte_num size ltac:(lia) Hs) as Ed.
  rewrite span_ok in Ed by lia. unfold SECTOR_SIZE in *. rewrite (proj2 (Z.eqb_neq _ _) Hne) in Ed.
  split; [dlia|]. intros i Hi. apply Ht. dlia.
Qed.

End correct.

(** ** A device in memory *)

#[local] Existing Instances Disk.ramdisk_disk Disk.ramdisk_laws.

Definition ram_serves (b : list Z) (ds : list buffer) (m : mem) : list Z * mem :=
  match ds with
  | [(h, _, _); (d, n, _); (st, _, _)] =>
      match ld_le 4 m h, ld64 m (h + 8) with
      | Ok type, Ok sector =>
          let a := sector * SECTOR_SIZE in
          if type =? VIRTIO_BLK_T_IN then (b, <[st := 0]> (dma m d (Disk.content b <$> seqZ a n)))
          else (snd (Disk.block_write_wrapper b a ((fun i => default 0 (m !! (d + i))) <$> seqZ 0 n)),
                <[st := 0]> m)
      | _, _ => (b, m)
      end
  | _ => (b, m)
  end.

#[export] Instance ram_device : Device (list Z) := {
  notified b v m :=
    match new_request v with
    | Some ds => let '(b', m') := ram_serves b ds m in (b', completed v, m')
    | None => (b, v, m)
    end
}.

#[export] Program Instance ram_device_laws : DeviceLaws (list Z) := { serves := ram_serves }.
Next Obligation. intros b v m ds E. cbn. by rewrite E. Qed.

#[export] Program Instance ram_block_laws : BlockDeviceLaws (list Z) := {
  sectors b := Disk.capacity b / SECTOR_SIZE;
  content b := Disk.content b
}.
Next Obligation. intros b a. apply Disk.content_ok. Qed.
Next Obligation.
  intros b m ds sector d n st [(h & fh & fd & fs & -> & _ & _ & _ & L1 & L2)] _ _ _ _.
  unfold serves, ram_device_laws, ram_serves. by rewrite L1, L2.
Qed.
Next Obligation.
  intros b m ds sector d n st [(h & fh & fd & fs & -> & _ & _ & _ & L1 & L2)] H0 Hn _ Hs Hm Hok.
  set (l := (fun i => default 0 (m !! (d + i))) <$> seqZ 0 n).
  assert (Z.of_nat (length l) = n) as El by (unfold l; rewrite length_fmap, length_seqZ; lia).
  assert (Forall byte_ok l) as Hl.
  { apply Forall_forall. intros x (i & -> & Hi%elem_of_seqZ)%list_elem_of_fmap.
    destruct (Hm i ltac:(lia)) as [c Ec]. rewrite Ec. by apply (mem_ok_lookup _ _ _ Hok Ec). }
  destruct (Disk.write_law b (sector * SECTOR_SIZE) l) as (b' & E & Hc & Hcon);
    [unfold SECTOR_SIZE in *; lia | rewrite El; unfold SECTOR_SIZE in *; dlia | done |].
  exists b'. unfold serves, ram_device_laws, ram_serves. rewrite L1, L2.
  change (VIRTIO_BLK_T_OUT =? VIRTIO_BLK_T_IN) with false. cbn zeta iota. fold l. rewrite E. split; [done|]. rewrite Hc. split; [done|].
  intros a. rewrite Hcon, El. case_decide as Ha; [|done]. unfold l.
  rewrite list_lookup_fmap, lookup_seqZ_lt by lia. cbn. do 3 f_equal. lia.
Qed.

(** A disk of four sectors, a queue of four descriptors and memory from 0 to 8191. *)
Definition demo_queue : VirtioDevice :=
  mkVdev 15 4 (replicate 4 (mkDesc 0 0 0 0)) (replicate 4 0) 0 0 false MUTEX_UNLOCKED 0 0.

Definition demo_machine : BlockDevice (list Z) :=
  mkBdev demo_queue (mem_const 0 8192 7) (replicate 1024 65 ++ replicate 1024 66).

Lemma demo_can_transfer : can_transfer (fun a => a) 64 demo_machine 4096 1024 1020 8.
Proof.
  assert (forall a n, 0 <= a -> a + n <= 8192 -> buffer_ok (fun a => a) (bmem demo_machine) a n) as Hb.
  { intros a n Ha Hn. split; [|done]. eapply mapped_mono; [apply mem_const_mapped | lia | lia]. }
  assert (device_span 1020 8 = 1536) as Ed by by vm_compute.
  split; rewrite ?Ed; try (apply Hb; lia); try (unfold outside_request, apart; lia).
  - split; [|discriminate | apply Hb; lia | by apply mem_const_ok].
    split; cbn; try done; lia.
  - done.
Qed.

Lemma driver_implements_disk_witness :
  can_transfer (fun a => a) 64 demo_machine 4096 1024 1020 8 /\
  exists s', block_read_wrapper (fun a => a) 64 demo_machine 4096 1024 1020 8 = Ok (true, s') /\
    holds (fun a => a) s' 1024 8 [65; 65; 65; 65; 66; 66; 66; 66].
Proof.
  split; [exact demo_can_transfer|].
  destruct (driver_implements_disk (fun a => a) 64 demo_machine (replicate 1024 65 ++ replicate 1024 66)
    4096 1024 1020 8 demo_can_transfer) as [(s' & l & E & Ed & Hh & _) _].
  - by intros a.
  - by vm_compute.
  - exists s'. split; [exact E|]. vm_compute in Ed. by injection Ed as <-.
Defined.

Lemma transfer_overruns_buffer_witness :
  can_transfer (fun a => a) 64 demo_machine 4096 1024 1020 8 /\
  exists s', block_read_wrapper (fun a => a) 64 demo_machine 4096 1024 1020 8 = Ok (true, s') /\
    bmem demo_machine !! (4096 + 512) = Some 7 /\ bmem s' !! (4096 + 512) = Some 66.
Proof.
  split; [exact demo_can_transfer|].
  destruct (transfer_overruns_buffer (fun a => a) 64 demo_machine 4096 1024 1020 8 demo_can_transfer)
    as (s' & n & E & Hn & Hi); [discriminate|].
  exists s'. split; [exact E|]. split; [by rewrite (mem_const_lookup 0 8192 7)|].
  change (ALIGN_UP_POT 8 SECTOR_SIZE) with 512 in *.
  rewrite (Hi 512) by lia. by vm_compute.
Defined.
