(* ===== verification/Rng.v ===== *)
(** The random number driver: rng_fill of src/src/rng.c, over the virtqueue of [Virtio].
    rng_init only stores the device's pointer. *)
From S2P Require Import Prelude Mem Lock Virtio.

Section rng.
Context {B : Type} `{!Device B} (phys : Z -> Z).

(** [rng_device], memory and the device itself. *)
Record RngDevice := mkRng { rdev : VirtioDevice; rmem : mem; entropy : B }.

Definition rng_fill (s : RngDevice) (buffer size : Z) : res (bool * RngDevice) :=
  if Z.land (device_status (rdev s)) VIRTIO_F_DRIVER_OK =? 0 then Ok (false, s)
  else
    let* v := post_chain (rdev s) [(phys buffer, size, VIRTQ_DESC_F_WRITE)] in
    let '(b, v, m) := notified (entropy s) v (rmem s) in
    if queue_interrupt v then Hang
    else let* v := catch_up v in Ok (true, mkRng v m b).

End rng.

Arguments RngDevice : clear implicits.

(** An entropy device stores some bytes, at most as many as asked for. *)
Class EntropyLaws (B : Type) `{!Device B} `{!DeviceLaws B} := {
  random : B -> Z -> list Z;
  random_length b n : 0 <= n -> Z.of_nat (length (random b n)) <= n;
  random_bytes b n : Forall byte_ok (random b n);
  serve_random b m a n f : Z.testbit f 1 = true ->
    exists b', serves b [(a, n, f)] m = (b', dma m a (random b n))
}.

Section correct.
Context {B : Type} `{!Device B} `{!DeviceLaws B} `{!EntropyLaws B}.
Context (phys : Z -> Z).

(** rng_fill puts what the device gives at the start of the buffer and nothing else
    anywhere, and leaves the queue ready for the next request. The device may give fewer
    bytes than asked for, and rng_fill says true all the same. *)
Theorem rng_fill_correct (s : RngDevice B) buffer size : idle (rdev s) ->
  Z.land (device_status (rdev s)) VIRTIO_F_DRIVER_OK <> 0 ->
  0 <= size < 2 ^ 16 -> mapped (rmem s) (phys buffer) size -> mem_ok (rmem s) ->
  let l := random (entropy s) size in
  exists s', rng_fill phys s buffer size = Ok (true, s') /\ idle (rdev s') /\
    dom (rmem s') = dom (rmem s) /\ mem_ok (rmem s') /\ Z.of_nat (length l) <= size /\
    forall p, rmem s' !! p =
      if decide (phys buffer <= p < phys buffer + Z.of_nat (length l))
      then l !! Z.to_nat (p - phys buffer) else rmem s !! p.
Proof.
  intros Hi Hd Hs Hm Hok l. unfold rng_fill. rewrite (proj2 (Z.eqb_neq _ _) Hd).
  pose proof (idle_size _ Hi) as Hq.
  destruct (post_chain_ok (rdev s) [(phys buffer, size, VIRTQ_DESC_F_WRITE)] Hi eq_refl) as
    (v & -> & Hn & Hi' & _); [cbn; lia|]. cbn [res_bind].
  rewrite (notified_law _ _ _ _ Hn).
  destruct (serve_random (entropy s) (rmem s) (phys buffer) size VIRTQ_DESC_F_WRITE eq_refl) as [b' ->].
  cbn [queue_interrupt completed]. rewrite catch_up_ok by (apply u16_range || apply (idle_seen _ Hi')).
  cbn [res_bind]. eexists. split; [done|]. cbn [rdev rmem]. fold l.
  pose proof (random_length (entropy s) size ltac:(lia)) as Hl. fold l in Hl.
  split; [by apply idle_seen_up|].
  split; [apply dma_dom; eapply mapped_mono; [exact Hm | lia | lia]|].
  split; [apply dma_ok; [done | apply random_bytes]|]. split; [done|]. intros p. apply dma_lookup.
Qed.

End correct.

(** A device whose bytes count up. *)
Definition counter_random (b n : Z) : list Z := (fun i => (b + i) mod 256) <$> seqZ 0 n.

Definition counter_serves (b : Z) (ds : list buffer) (m : mem) : Z * mem :=
  match ds with
  | [(a, n, _)] => (b + n, dma m a (counter_random b n))
  | _ => (b, m)
  end.

#[export] Instance counter_device : Device Z := {
  notified b v m :=
    match new_request v with
    | Some ds => let '(b', m') := counter_serves b ds m in (b', completed v, m')
    | None => (b, v, m)
    end
}.

#[export] Program Instance counter_laws : DeviceLaws Z := { serves := counter_serves }.
Next Obligation. intros b v m ds E. cbn. by rewrite E. Qed.

#[export] Program Instance counter_entropy : EntropyLaws Z := { random := counter_random }.
Next Obligation. intros b n Hn. unfold counter_random. rewrite length_fmap, length_seqZ. lia. Qed.
Next Obligation.
  intros b n. apply Forall_forall. intros x (i & -> & _)%list_elem_of_fmap.
  unfold byte_ok. dlia.
Qed.
Next Obligation. intros b m a n f _. by eexists. Qed.

Definition demo_rng : RngDevice Z :=
  mkRng (mkVdev 15 4 (replicate 4 (mkDesc 0 0 0 0)) (replicate 4 0) 0 0 false MUTEX_UNLOCKED 0 0)
    (mem_const 0 64 7) 5.

Lemma rng_fill_correct_witness :
  idle (rdev demo_rng) /\ exists s', rng_fill (fun a => a) demo_rng 16 3 = Ok (true, s') /\
    rmem s' !! 16 = Some 5 /\ rmem s' !! 18 = Some 7 /\ rmem s' !! 19 = Some 7.
Proof.
  assert (idle (rdev demo_rng)) as Hi by (split; cbn; try done; lia).
  split; [exact Hi|].
  destruct (rng_fill_correct (fun a => a) demo_rng 16 3 Hi) as (s' & E & _ & _ & _ & _ & Hp).
  - discriminate.
  - lia.
  - eapply mapped_mono; [apply mem_const_mapped | lia | lia].
  - by apply mem_const_ok.
  - exists s'. split; [exact E|]. rewrite !Hp. split_and!; by vm_compute.
Defined.
