(* ===== verification/FrameBuffer.v ===== *)
(** The frame buffer routines of src/src/gpu.c: rectangles, circles, characters and strings.

    The frame buffer is a list of pixels, one row of the screen after the other; a store
    outside it is [Ub]. What a routine draws is stated as a picture: for each pixel of the
    screen the colour it gets, if any ([painted]). The font [termfont] is a table of the
    assembly and an argument here. Coordinates and offsets are [uint32_t] and wrap as in
    the code. The rectangle that fb_fill_string computes for a redraw is used only by a
    call that is commented out, and is left out. *)
From S2P Require Import Prelude.

Record PixelRGBA := mkPixel { pr : Z; pg : Z; pb : Z; pa : Z }.
Record Rectangle := mkRect { rx : Z; ry : Z; rwidth : Z; rheight : Z }.

Definition STRING_SCALE_WIDTH : Z := 2.
Definition STRING_SCALE_HEIGHT : Z := 2.

(** ** The routines *)

(** [buffer[offset] = p] *)
Definition put (buffer : list PixelRGBA) (offset : Z) (p : PixelRGBA) : res (list PixelRGBA) :=
  if (0 <=? offset) && (offset <? Z.of_nat (length buffer))
  then Ok (<[Z.to_nat offset := p]> buffer) else Ub.

Definition fb_fill_rect (screen_width screen_height : Z) (buffer : list PixelRGBA)
    (rect : Rectangle) (fill_color : PixelRGBA) : res (list PixelRGBA) :=
  let top := ry rect in
  let bottom := u32 (ry rect + rheight rect) in
  let left := rx rect in
  let right := u32 (rx rect + rwidth rect) in
  let bottom := if bottom >? screen_height then screen_height else bottom in
  let right := if right >? screen_width then screen_width else right in
  for_up (Z.to_nat (bottom - top)) top (fun row =>
    for_up (Z.to_nat (right - left)) left (fun col buffer =>
      put buffer (u32 (row * screen_width + col)) fill_color)) buffer.

Definition top_rect (rect : Rectangle) (line_size : Z) : Rectangle :=
  mkRect (rx rect) (ry rect) (rwidth rect) line_size.
Definition bot_rect (rect : Rectangle) (line_size : Z) : Rectangle :=
  mkRect (rx rect) (u32 (rheight rect + ry rect)) (rwidth rect) line_size.
Definition left_rect (rect : Rectangle) (line_size : Z) : Rectangle :=
  mkRect (rx rect) (ry rect) line_size (rheight rect).
Definition right_rect (rect : Rectangle) (line_size : Z) : Rectangle :=
  mkRect (u32 (rx rect + rwidth rect)) (ry rect) line_size (u32 (rheight rect + line_size)).

Definition fb_stroke_rect (screen_width screen_height : Z) (buffer : list PixelRGBA)
    (rect : Rectangle) (line_color : PixelRGBA) (line_size : Z) : res (list PixelRGBA) :=
  let* buffer := fb_fill_rect screen_width screen_height buffer (top_rect rect line_size) line_color in
  let* buffer := fb_fill_rect screen_width screen_height buffer (bot_rect rect line_size) line_color in
  let* buffer := fb_fill_rect screen_width screen_height buffer (left_rect rect line_size) line_color in
  fb_fill_rect screen_width screen_height buffer (right_rect rect line_size) line_color.

(** [dx * dx + dy * dy] of the circle routines. *)
Definition distance2 (x y center_x center_y : Z) : Z :=
  let dx := u32 (x - center_x) in
  let dy := u32 (y - center_y) in
  u32 (dx * dx + dy * dy).

(** The scan of the screen both circle routines are. *)
Definition scan_screen (screen_width screen_height : Z) (buffer : list PixelRGBA)
    (test : Z -> Z -> bool) (color : PixelRGBA) : res (list PixelRGBA) :=
  for_up (Z.to_nat screen_height) 0 (fun y =>
    for_up (Z.to_nat screen_width) 0 (fun x buffer =>
      let offset := u32 (y * screen_width + x) in
      if test x y then put buffer offset color else Ok buffer)) buffer.

Definition fb_fill_circ (screen_width screen_height : Z) (buffer : list PixelRGBA)
    (center_x center_y radius : Z) (fill_color : PixelRGBA) : res (list PixelRGBA) :=
  let radius2 := u32 (radius * radius) in
  scan_screen screen_width screen_height buffer
    (fun x y => distance2 x y center_x center_y <=? radius2) fill_color.

Definition fb_stroke_circ (screen_width screen_height : Z) (buffer : list PixelRGBA)
    (center_x center_y radius : Z) (line_color : PixelRGBA) (line_size : Z) :
    res (list PixelRGBA) :=
  let radius2 := u32 (radius * radius) in
  let line_size2 := u32 (line_size * line_size) in
  scan_screen screen_width screen_height buffer
    (fun x y => u32 (distance2 x y center_x center_y - radius2) <=? line_size2) line_color.

Section text.
Context (termfont : list Z).

(** [termfont[pos + i] & (1 << j)] *)
Definition font_bit (pos i j : Z) : res bool :=
  let* b := deref (termfont !! Z.to_nat (pos + i)) in
  Ok (negb (Z.land b (Z.shiftl 1 j) =? 0)).

(** The loop over the pixels of one bit of the font. *)
Definition fill_dot (screen_width row col i j scale_w scale_h : Z)
    (store : Z -> list PixelRGBA -> res (list PixelRGBA)) (buffer : list PixelRGBA) :
    res (list PixelRGBA) :=
  for_up (Z.to_nat (u32 (STRING_SCALE_WIDTH * scale_w))) 0 (fun k =>
    for_up (Z.to_nat (u32 (STRING_SCALE_HEIGHT * scale_h))) 0 (fun l buffer =>
      store (u32 ((row + i * STRING_SCALE_HEIGHT * scale_h + l) * screen_width +
                  (col + j * STRING_SCALE_WIDTH * scale_w + k))) buffer)) buffer.

Definition fb_fill_char (fg_color bg_color : PixelRGBA) (screen_width scale_w scale_h : Z)
    (c row col : Z) (buffer : list PixelRGBA) : res (list PixelRGBA) :=
  let pos := c * 16 in
  let col := u32 (col * (8 * STRING_SCALE_WIDTH * scale_w)) in
  let row := u32 (row * (16 * STRING_SCALE_HEIGHT * scale_h)) in
  for_up 16 0 (fun i => for_up 8 0 (fun j buffer =>
    let* on := font_bit pos i j in
    let color := if on then fg_color else bg_color in
    fill_dot screen_width row col i j scale_w scale_h (fun offset b => put b offset color) buffer))
    buffer.

Definition fb_stroke_char (color : PixelRGBA) (screen_width scale_w scale_h : Z)
    (c row col : Z) (buffer : list PixelRGBA) : res (list PixelRGBA) :=
  let pos := c * 16 in
  let col := u32 (col * (8 * STRING_SCALE_WIDTH * scale_w)) in
  let row := u32 (row * (16 * STRING_SCALE_HEIGHT * scale_h)) in
  for_up 16 0 (fun i => for_up 8 0 (fun j buffer =>
    fill_dot screen_width row col i j scale_w scale_h
      (fun offset b => let* on := font_bit pos i j in
                       if on then put b offset color else Ok b) buffer)) buffer.

(** The loop over a string, whose bytes before the terminating 0 are [s]. *)
Fixpoint put_string (draw : Z -> Z -> Z -> list PixelRGBA -> res (list PixelRGBA))
    (screen_width scale_w col : Z) (s : list Z) (row i : Z) (buffer : list PixelRGBA) :
    res (list PixelRGBA) :=
  match s with
  | [] => Ok buffer
  | c :: s' =>
      let wrap := u32 (u32 (col + i + 1) * 8 * STRING_SCALE_WIDTH * scale_w) >? screen_width in
      let row := if wrap then u32 (row + 1) else row in
      let i := if wrap then 0 else i in
      let* buffer := draw c row (u32 (col + i)) buffer in
      put_string draw screen_width scale_w col s' row (u32 (i + 1)) buffer
  end.

Definition fb_fill_string (s : list Z) (row col screen_width : Z) (buffer : list PixelRGBA)
    (fg_color bg_color : PixelRGBA) (scale_w scale_h : Z) : res (list PixelRGBA) :=
  put_string (fb_fill_char fg_color bg_color screen_width scale_w scale_h)
    screen_width scale_w col s row 0 buffer.

Definition fb_stroke_string (s : list Z) (row col screen_width : Z) (buffer : list PixelRGBA)
    (color : PixelRGBA) (scale_w scale_h : Z) : res (list PixelRGBA) :=
  put_string (fb_stroke_char color screen_width scale_w scale_h)
    screen_width scale_w col s row 0 buffer.

End text.

(** ** Pictures *)

(** What is drawn: the colour a pixel of row [r] and column [c] gets, if any. *)
Abbreviation picture := (Z -> Z -> option PixelRGBA) (only parsing).

#[export] Hint Extern 0 (Decision _) => progress cbv beta : typeclass_instances.

(** The pixels of a region, in one colour. *)
Definition region (P : Z -> Z -> Prop) `{forall r c, Decision (P r c)} (p : PixelRGBA) : picture :=
  fun r c => if decide (P r c) then Some p else None.

Lemma None_union {A} (x : option A) : None ∪ x = x.
Proof. by destruct x. Qed.

Lemma Some_over {A} (p : A) x : Some p ∪ x = Some p.
Proof. by destruct x. Qed.

Section screen.
Context (w h : Z) (Hw : 0 <= w) (Hh : 0 <= h) (Hwh : w * h <= 2 ^ 32).

Definition pixel (buffer : list PixelRGBA) (r c : Z) : option PixelRGBA :=
  buffer !! Z.to_nat (r * w + c).

Definition on_screen (r c : Z) : Prop := 0 <= r < h /\ 0 <= c < w.

(** A frame buffer of the size of the screen. *)
Definition is_screen (buffer : list PixelRGBA) : Prop := Z.of_nat (length buffer) = w * h.

(** [buffer'] is [buffer] with the picture [f] drawn over it. *)
Record painted (f : picture) (buffer buffer' : list PixelRGBA) : Prop := mkPainted {
  painted_length : length buffer' = length buffer;
  painted_pixel : forall r c, on_screen r c -> pixel buffer' r c = f r c ∪ pixel buffer r c
}.

(** A routine that draws [f] on any screen. *)
Definition paints (f : picture) (draw : list PixelRGBA -> res (list PixelRGBA)) : Prop :=
  forall buffer, is_screen buffer -> exists buffer', draw buffer = Ok buffer' /\ painted f buffer buffer'.

Lemma painted_screen f b b' : painted f b b' -> is_screen b -> is_screen b'.
Proof. intros [H _]. unfold is_screen. by rewrite H. Qed.

Lemma painted_ext f g b b' : (forall r c, on_screen r c -> f r c = g r c) ->
  painted f b b' -> painted g b b'.
Proof. intros E [H1 H2]. split; [done|]. intros r c Hrc. by rewrite H2, E. Qed.

Lemma paints_ext f g draw : (forall r c, on_screen r c -> f r c = g r c) ->
  paints f draw -> paints g draw.
Proof.
  intros E H b Hb. destruct (H b Hb) as (b' & -> & Hp). exists b'. split; [done|].
  by eapply painted_ext.
Qed.

Lemma paints_nothing : paints (fun _ _ => None) Ok.
Proof. intros b _. exists b. split; [done|]. split; [done|]. intros. by destruct (pixel b r c). Qed.

(** What is drawn last is on top. *)
Lemma painted_over f g b b1 b2 : painted f b b1 -> painted g b1 b2 ->
  painted (fun r c => g r c ∪ f r c) b b2.
Proof.
  intros [L1 E1] [L2 E2]. split; [by rewrite L2|]. intros r c Hrc. rewrite E2, E1 by done.
  by destruct (g r c), (f r c), (pixel b r c).
Qed.

Lemma paints_bind f g d1 d2 : paints f d1 -> paints g d2 ->
  paints (fun r c => g r c ∪ f r c) (fun b => let* b := d1 b in d2 b).
Proof.
  intros H1 H2 b Hb. destruct (H1 b Hb) as (b1 & -> & P1). cbn [res_bind].
  destruct (H2 b1 (painted_screen _ _ _ P1 Hb)) as (b2 & -> & P2). exists b2. split; [done|].
  by eapply painted_over.
Qed.

Lemma offset_inj r c r' c' : on_screen r c -> on_screen r' c' ->
  r * w + c = r' * w + c' -> r = r' /\ c = c'.
Proof. unfold on_screen. intros. assert (r = r') by nia. subst. lia. Qed.

Lemma offset_range r c : on_screen r c -> 0 <= r * w + c < w * h.
Proof. unfold on_screen. nia. Qed.

Lemma put_out b offset p : Z.of_nat (length b) <= offset -> put b offset p = Ub.
Proof. intros. unfold put. by rewrite (proj2 (Z.ltb_ge _ _)), andb_false_r by lia. Qed.

Lemma put_paints r c p : on_screen r c ->
  paints (region (fun r' c' => r' = r /\ c' = c) p) (fun b => put b (u32 (r * w + c)) p).
Proof.
  intros Hrc b Hb. unfold is_screen in Hb. pose proof (offset_range _ _ Hrc).
  rewrite u32_id by lia. unfold put.
  rewrite (proj2 (Z.leb_le _ _)), (proj2 (Z.ltb_lt _ _)) by lia. eexists. split; [done|].
  split; [by rewrite length_insert|]. intros r' c' Hrc'. unfold pixel, region.
  pose proof (offset_range _ _ Hrc'). case_decide as E.
  - destruct E as [-> ->]. rewrite list_lookup_insert_eq by lia. by destruct (b !! _).
  - rewrite list_lookup_insert_ne; [by destruct (b !! _)|]. intros Heq. apply E.
    apply offset_inj; [done | done | lia].
Qed.

(** A loop draws the picture [F] when each turn draws a part of it and the turns cover it;
    the order of the turns, and overlaps, do not matter. *)
Lemma for_up_paints (g : Z -> picture) (F : picture) (body : Z -> list PixelRGBA -> res (list PixelRGBA)) n :
  forall lo,
  (forall i, lo <= i < lo + Z.of_nat n -> paints (g i) (body i)) ->
  (forall i r c p, lo <= i < lo + Z.of_nat n -> on_screen r c -> g i r c = Some p -> F r c = Some p) ->
  (forall r c p, on_screen r c -> F r c = Some p ->
     exists i, lo <= i < lo + Z.of_nat n /\ is_Some (g i r c)) ->
  paints F (for_up n lo body).
Proof.
  intros lo Hbody Hsub Hcov b Hb.
  destruct (for_up_total (fun i b' => is_screen b' /\ length b' = length b /\
      forall r c, on_screen r c ->
        ((exists j, lo <= j < i /\ is_Some (g j r c)) /\ pixel b' r c = F r c) \/
        ((forall j, lo <= j < i -> g j r c = None) /\ pixel b' r c = pixel b r c))
    body n lo b) as (b' & E & Hs & Hl & Hpix).
  - split; [done|]. split; [done|]. intros r c _. right. split; [lia | done].
  - intros i b1 Hi (Hs & Hl & Hpix).
    destruct (Hbody i Hi b1 Hs) as (b2 & E & P). exists b2. split; [done|].
    split; [by eapply painted_screen|]. destruct P as [Lp Ep]. split; [by rewrite Lp|].
    intros r c Hrc. rewrite Ep by done. destruct (g i r c) as [p|] eqn:Eg.
    + left. split; [exists i; split; [lia | by eexists]|].
      rewrite (Hsub _ _ _ _ Hi Hrc Eg). by destruct (pixel b1 r c).
    + rewrite None_union. destruct (Hpix r c Hrc) as [[(j & Hj & Hg) E1] | [Hn E1]].
      * left. split; [exists j; split; [lia | done] | done].
      * right. split; [|done]. intros j Hj. destruct (decide (j = i)) as [->|]; [done|].
        apply Hn. lia.
  - exists b'. split; [done|]. split; [done|]. intros r c Hrc.
    destruct (Hpix r c Hrc) as [[(j & Hj & p & Hg) ->] | [Hn ->]].
    + rewrite (Hsub _ _ _ _ Hj Hrc Hg). by destruct (pixel b r c).
    + destruct (F r c) as [p|] eqn:EF; [|by rewrite None_union].
      destruct (Hcov r c p Hrc EF) as (i & Hi & Hg). rewrite (Hn i Hi) in Hg.
      by apply is_Some_None in Hg.
Qed.

(** Two loops, the turns of the outer one having the parts [Q i] of the picture. *)
Lemma grid_paints (g : Z -> Z -> picture) (F : picture) (Q : Z -> Z -> Z -> Prop)
    `{dQ : forall i r c, Decision (Q i r c)} (body : Z -> Z -> list PixelRGBA -> res (list PixelRGBA))
    n lo m lo' :
  (forall i k, lo <= i < lo + Z.of_nat n -> lo' <= k < lo' + Z.of_nat m -> paints (g i k) (body i k)) ->
  (forall i k r c p, lo <= i < lo + Z.of_nat n -> lo' <= k < lo' + Z.of_nat m -> on_screen r c ->
     g i k r c = Some p -> Q i r c /\ F r c = Some p) ->
  (forall r c p, on_screen r c -> F r c = Some p ->
     (exists i, lo <= i < lo + Z.of_nat n /\ Q i r c) /\
     forall i, lo <= i < lo + Z.of_nat n -> Q i r c ->
       exists k, lo' <= k < lo' + Z.of_nat m /\ is_Some (g i k r c)) ->
  paints F (for_up n lo (fun i => for_up m lo' (body i))).
Proof.
  intros Hbody Hsub Hcov.
  apply (for_up_paints (fun i r c => if decide (Q i r c) then F r c else None)).
  - intros i Hi. apply (for_up_paints (g i)).
    + intros k Hk. by apply Hbody.
    + intros k r c p Hk Hrc E. destruct (Hsub i k r c p Hi Hk Hrc E). by rewrite decide_True.
    + intros r c p Hrc E. case_decide; [|done]. destruct (Hcov r c p Hrc E) as [_ Hk]. eauto.
  - intros i r c p Hi Hrc E. by case_decide.
  - intros r c p Hrc E. destruct (Hcov r c p Hrc E) as [(i & Hi & HQ) _].
    exists i. split; [done|]. rewrite decide_True by done. by eexists.
Qed.

(** A scan, row by row, that draws each pixel of the picture at its place. *)
Lemma scan_paints (F : picture) (body : Z -> Z -> list PixelRGBA -> res (list PixelRGBA)) n top m left :
  (forall row col, top <= row < top + Z.of_nat n -> left <= col < left + Z.of_nat m ->
     paints (fun r c => if decide (r = row /\ c = col) then F r c else None) (body row col)) ->
  (forall r c p, on_screen r c -> F r c = Some p ->
     top <= r < top + Z.of_nat n /\ left <= c < left + Z.of_nat m) ->
  paints F (for_up n top (fun row => for_up m left (body row))).
Proof.
  intros Hbody Hin.
  apply (grid_paints (fun row col r c => if decide (r = row /\ c = col) then F r c else None) F
    (fun row r _ => r = row)).
  - intros row col Hr Hc. by apply Hbody.
  - intros row col r c p _ _ _ E. case_decide as D; [|done]. by destruct D.
  - intros r c p Hrc E. destruct (Hin r c p Hrc E) as [Hr Hc]. split; [by exists r|].
    intros i _ <-. exists c. split; [done|]. rewrite decide_True by done. by eexists.
Qed.

(** ** Rectangles *)

(** The pixels of a rectangle; its far edges are computed in 32 bits. *)
Definition in_rect (rect : Rectangle) (r c : Z) : Prop :=
  ry rect <= r < u32 (ry rect + rheight rect) /\ rx rect <= c < u32 (rx rect + rwidth rect).

#[local] Instance in_rect_dec rect r c : Decision (in_rect rect r c).
Proof. unfold in_rect. apply _. Defined.

Definition rect_ok (rect : Rectangle) : Prop := 0 <= ry rect /\ 0 <= rx rect.

Lemma fill_rect_paints rect color : rect_ok rect ->
  paints (region (in_rect rect) color) (fun b => fb_fill_rect w h b rect color).
Proof.
  intros [Hy Hx]. unfold fb_fill_rect. cbv zeta.
  set (bottom := u32 (ry rect + rheight rect)). set (right := u32 (rx rect + rwidth rect)).
  set (bottom' := if bottom >? h then h else bottom). set (right' := if right >? w then w else right).
  assert (bottom' <= h /\ bottom' <= bottom /\ (bottom' = bottom \/ bottom' = h)) as Hb
    by (unfold bottom'; rewrite Z.gtb_ltb; destruct (Z.ltb_spec h bottom); lia).
  assert (right' <= w /\ right' <= right /\ (right' = right \/ right' = w)) as Hr
    by (unfold right'; rewrite Z.gtb_ltb; destruct (Z.ltb_spec w right); lia).
  clearbody bottom' right'. apply scan_paints.
  - intros row col Hrow Hcol.
    eapply paints_ext; [|apply (put_paints row col color); unfold on_screen; lia].
    intros r c _. unfold region, in_rect. fold bottom right.
    case_decide; [|done]. rewrite decide_True by lia. done.
  - intros r c p [??]. unfold region, in_rect. fold bottom right. case_decide; [|done]. lia.
Qed.

Lemma stroke_rect_paints rect color line_size : rect_ok rect ->
  paints (region (fun r c => in_rect (top_rect rect line_size) r c \/
                             in_rect (bot_rect rect line_size) r c \/
                             in_rect (left_rect rect line_size) r c \/
                             in_rect (right_rect rect line_size) r c) color)
    (fun b => fb_stroke_rect w h b rect color line_size).
Proof.
  intros [Hy Hx]. unfold fb_stroke_rect.
  eapply paints_ext; [|eapply paints_bind; [|eapply paints_bind; [|eapply paints_bind]];
    apply fill_rect_paints; split; cbn; try apply u32_range; done].
  intros r c _. unfold region. cbv beta.
  repeat case_decide; try done; try tauto.
Qed.

(** ** Circles *)

(** The code's 32-bit squares are the squares, on a screen that is not too large. *)
Lemma distance2_ok x y cx cy : 0 <= x < 2 ^ 15 -> 0 <= y < 2 ^ 15 -> 0 <= cx < 2 ^ 15 ->
  0 <= cy < 2 ^ 15 -> distance2 x y cx cy = (x - cx) * (x - cx) + (y - cy) * (y - cy).
Proof.
  intros. unfold distance2.
  assert (forall a, - 2 ^ 15 < a < 2 ^ 15 -> exists k, u32 a = a + k * 2 ^ 32) as Hk.
  { intros a Ha. exists (- (a / 2 ^ 32)). unfold u32. pose proof (Z.div_mod a (2 ^ 32) ltac:(lia)). lia. }
  destruct (Hk (x - cx)) as [k ->]; [lia|]. destruct (Hk (y - cy)) as [j ->]; [lia|].
  set (dx := x - cx). set (dy := y - cy).
  replace ((dx + k * 2 ^ 32) * (dx + k * 2 ^ 32) + (dy + j * 2 ^ 32) * (dy + j * 2 ^ 32))
    with (dx * dx + dy * dy + (2 * k * dx + k * k * 2 ^ 32 + 2 * j * dy + j * j * 2 ^ 32) * 2 ^ 32) by ring.
  unfold u32. rewrite Z.mod_add by lia. apply Z.mod_small.
  assert (-2 ^ 15 < dx < 2 ^ 15 /\ -2 ^ 15 < dy < 2 ^ 15) by lia. nia.
Qed.

Lemma scan_screen_paints test color :
  paints (region (fun r c => test c r = true) color) (fun b => scan_screen w h b test color).
Proof.
  unfold scan_screen. apply scan_paints.
  - intros row col Hrow Hcol. destruct (test col row) eqn:E.
    + eapply paints_ext; [|apply (put_paints row col color); unfold on_screen; lia].
      intros r c _. unfold region. case_decide as D; [|done].
      destruct D as [-> ->]. by rewrite decide_True.
    + eapply paints_ext; [|apply paints_nothing]. intros r c _. unfold region.
      case_decide as D; [|done]. destruct D as [-> ->]. by rewrite decide_False by (by rewrite E).
  - intros r c p [??] _. lia.
Qed.

Lemma square_bound a k : - k < a < k -> 0 <= a * a < k * k.
Proof. intros. nia. Qed.

Section circle.
Context (cx cy radius : Z) (Hcx : 0 <= cx < 2 ^ 15) (Hcy : 0 <= cy < 2 ^ 15)
  (Hrad : 0 <= radius < 2 ^ 16) (Hw15 : w <= 2 ^ 15) (Hh15 : h <= 2 ^ 15).

Definition dist2 (r c : Z) : Z := (c - cx) * (c - cx) + (r - cy) * (r - cy).

Lemma fill_circ_paints color :
  paints (region (fun r c => dist2 r c <= radius * radius) color)
    (fun b => fb_fill_circ w h b cx cy radius color).
Proof.
  unfold fb_fill_circ. cbv zeta. rewrite (u32_id (radius * radius)) by nia.
  eapply paints_ext; [|apply scan_screen_paints]. intros r c [??]. unfold region.
  rewrite distance2_ok by lia. fold (dist2 r c).
  repeat case_decide; try done; rewrite ?Z.leb_le in *; done.
Qed.

Lemma stroke_circ_paints color line_size : 0 <= line_size ->
  radius * radius + line_size * line_size < 2 ^ 31 ->
  paints (region (fun r c => radius * radius <= dist2 r c <= radius * radius + line_size * line_size) color)
    (fun b => fb_stroke_circ w h b cx cy radius color line_size).
Proof.
  intros Hl Hsum. unfold fb_stroke_circ. cbv zeta.
  rewrite (u32_id (radius * radius)), (u32_id (line_size * line_size)) by nia.
  eapply paints_ext; [|apply scan_screen_paints]. intros r c [??]. unfold region.
  rewrite distance2_ok by lia. fold (dist2 r c).
  assert (0 <= dist2 r c < 2 ^ 31) as Hd.
  { pose proof (square_bound (c - cx) (2 ^ 15) ltac:(lia)).
    pose proof (square_bound (r - cy) (2 ^ 15) ltac:(lia)). unfold dist2. lia. }
  assert ((u32 (dist2 r c - radius * radius) <=? line_size * line_size) = true <->
    radius * radius <= dist2 r c <= radius * radius + line_size * line_size)
    by (rewrite Z.leb_le; unfold u32; dlia).
  repeat case_decide; try done; tauto.
Qed.

End circle.

(** ** Text *)

Section font.
Context (termfont : list Z) (scale_w scale_h : Z) (Hsw : 0 < scale_w) (Hsh : 0 < scale_h)
  (Hw31 : w < 2 ^ 31) (Hh31 : h < 2 ^ 31).

(** The size of a dot of the font, and of a character of 8 by 16 dots, on the screen. *)
Definition dot_w : Z := STRING_SCALE_WIDTH * scale_w.
Definition dot_h : Z := STRING_SCALE_HEIGHT * scale_h.
Definition cell_w : Z := 8 * dot_w.
Definition cell_h : Z := 16 * dot_h.

(** The dot of the font in line [i] and column [j] of the character [ch]. *)
Definition dot (ch i j : Z) : bool := Z.testbit (default 0 (termfont !! Z.to_nat (ch * 16 + i))) j.

(** The font has the character. *)
Definition in_font (ch : Z) : Prop := 0 <= ch /\ ch * 16 + 16 <= Z.of_nat (length termfont).

(** The picture of [ch] in cell [col] of line [row]; [ink] is what a dot becomes. *)
Definition cell (ink : bool -> option PixelRGBA) (ch row col : Z) : picture := fun r c =>
  if decide (r / cell_h = row /\ c / cell_w = col)
  then ink (dot ch (r mod cell_h / dot_h) (c mod cell_w / dot_w)) else None.

Definition fill_ink (fg bg : PixelRGBA) (on : bool) : option PixelRGBA := Some (if on then fg else bg).
Definition stroke_ink (color : PixelRGBA) (on : bool) : option PixelRGBA :=
  if on then Some color else None.

Lemma dot_pos : 0 < dot_w /\ 0 < dot_h /\ 0 < cell_w /\ 0 < cell_h.
Proof. unfold cell_w, cell_h, dot_w, dot_h, STRING_SCALE_WIDTH, STRING_SCALE_HEIGHT. lia. Qed.

Lemma font_bit_ok ch i j : in_font ch -> 0 <= i < 16 -> 0 <= j < 8 ->
  font_bit termfont (ch * 16) i j = Ok (dot ch i j).
Proof.
  intros [H0 Hl] Hi Hj. unfold font_bit, dot.
  destruct (lookup_lt_is_Some_2 termfont (Z.to_nat (ch * 16 + i))) as [b ->]; [lia|].
  cbn [deref res_bind default from_option]. rewrite land_one_bit by lia. by rewrite negb_involutive.
Qed.

(** Which dot of a character a pixel of its cell belongs to. *)
Lemma dot_band x n d k i : 0 < d -> 0 < n -> 0 <= i < n ->
  (k * (n * d) + i * d <= x < k * (n * d) + i * d + d <-> x / (n * d) = k /\ x mod (n * d) / d = i).
Proof.
  intros Hd Hn Hi. assert (0 < n * d) by nia. split.
  - intros Hx. assert (x / (n * d) = k) as E.
    { symmetry. apply (Z.div_unique x (n * d) k (x - k * (n * d))); nia. }
    split; [done|]. rewrite Z.mod_eq, E by lia.
    symmetry. apply (Z.div_unique _ d i (x - k * (n * d) - i * d)); nia.
  - intros [E1 E2]. pose proof (Z.div_mod x (n * d) ltac:(lia)) as D1.
    pose proof (Z.div_mod (x mod (n * d)) d ltac:(lia)) as D2.
    pose proof (Z.mod_pos_bound (x mod (n * d)) d Hd). rewrite E1 in D1. rewrite E2 in D2. nia.
Qed.

(** The pixels of the dot [i], [j] of the cell. *)
Definition in_dot (row col i j r c : Z) : Prop :=
  row * cell_h + i * dot_h <= r < row * cell_h + i * dot_h + dot_h /\
  col * cell_w + j * dot_w <= c < col * cell_w + j * dot_w + dot_w.

#[local] Instance in_dot_dec row col i j r c : Decision (in_dot row col i j r c).
Proof. unfold in_dot. apply _. Defined.

Lemma in_dot_iff row col i j r c : 0 <= i < 16 -> 0 <= j < 8 ->
  in_dot row col i j r c <->
  (r / cell_h = row /\ r mod cell_h / dot_h = i) /\ c / cell_w = col /\ c mod cell_w / dot_w = j.
Proof.
  intros Hi Hj. destruct dot_pos as (Hdw & Hdh & _). unfold in_dot, cell_h, cell_w.
  by rewrite !dot_band by lia.
Qed.

(** A cell on the screen. *)
Definition cell_ok (row col : Z) : Prop :=
  0 <= row /\ 0 <= col /\ (row + 1) * cell_h <= h /\ (col + 1) * cell_w <= w.

Lemma fill_dot_paints row col i j o store : cell_ok row col -> 0 <= i < 16 -> 0 <= j < 8 ->
  (forall r c, on_screen r c ->
     paints (fun r' c' => if decide (r' = r /\ c' = c) then o else None) (store (u32 (r * w + c)))) ->
  paints (fun r c => if decide (in_dot row col i j r c) then o else None)
    (fill_dot w (row * cell_h) (col * cell_w) i j scale_w scale_h store).
Proof.
  intros (Hr & Hc & Hrh & Hcw) Hi Hj Hst. destruct dot_pos as (Hdw & Hdh & Hcwp & Hchp).
  unfold fill_dot. fold dot_w dot_h.
  assert (dot_w <= cell_w /\ dot_h <= cell_h) as [??] by (unfold cell_w, cell_h; lia).
  assert (cell_w <= w /\ cell_h <= h) as [??] by nia.
  rewrite !u32_id by lia.
  replace (i * STRING_SCALE_HEIGHT * scale_h) with (i * dot_h) by (unfold dot_h; ring).
  replace (j * STRING_SCALE_WIDTH * scale_w) with (j * dot_w) by (unfold dot_w; ring).
  assert (i * dot_h + dot_h <= cell_h /\ j * dot_w + dot_w <= cell_w) as [??]
    by (unfold cell_w, cell_h; nia).
  assert (0 <= i * dot_h /\ 0 <= j * dot_w /\ 0 <= row * cell_h /\ 0 <= col * cell_w) as (?&?&?&?) by nia.
  assert (row * cell_h + cell_h <= h /\ col * cell_w + cell_w <= w) as [??] by lia.
  apply (grid_paints (fun k l r c =>
      if decide (r = row * cell_h + i * dot_h + l /\ c = col * cell_w + j * dot_w + k) then o else None)
    _ (fun k _ c => c = col * cell_w + j * dot_w + k)).
  - intros k l Hk Hl. apply Hst. unfold on_screen. lia.
  - intros k l r c p Hk Hl _ E. case_decide as D; [|done]. destruct D as [-> ->].
    split; [done|]. rewrite decide_True; [done|]. unfold in_dot. lia.
  - intros r c p _ E. case_decide as D; [|done]. unfold in_dot in D. split.
    + exists (c - (col * cell_w + j * dot_w)). lia.
    + intros k Hk ->. exists (r - (row * cell_h + i * dot_h)). split; [lia|].
      rewrite decide_True by lia. by eexists.
Qed.

(** Both character routines, given how they draw a dot. *)
Lemma char_paints ink ch row col (body : Z -> Z -> list PixelRGBA -> res (list PixelRGBA)) :
  (forall i j, 0 <= i < 16 -> 0 <= j < 8 ->
     paints (fun r c => if decide (in_dot row col i j r c) then ink (dot ch i j) else None) (body i j)) ->
  paints (cell ink ch row col) (for_up 16 0 (fun i => for_up 8 0 (body i))).
Proof.
  intros Hbody. destruct dot_pos as (Hdw & Hdh & Hcw & Hch).
  apply (grid_paints (fun i j r c => if decide (in_dot row col i j r c) then ink (dot ch i j) else None)
    _ (fun i r _ => r mod cell_h / dot_h = i)).
  - intros i j Hi Hj. apply Hbody; lia.
  - intros i j r c p Hi Hj _ E. case_decide as D; [|done].
    apply in_dot_iff in D as ((? & Ei) & ? & Ej); [|lia|lia]. split; [done|].
    unfold cell. rewrite decide_True by done. by rewrite Ei, Ej.
  - intros r c p _ E. unfold cell in E. case_decide as D; [|done]. destruct D as [Dr Dc].
    assert (forall x n d, 0 < d -> 0 < n -> 0 <= x mod (n * d) / d < n) as Hband.
    { intros x n d Hd Hn. pose proof (Z.mod_pos_bound x (n * d) ltac:(nia)).
      split; [apply Z.div_pos; lia | apply Z.div_lt_upper_bound; lia]. }
    pose proof (Hband r 16 dot_h Hdh ltac:(lia)) as Hi.
    pose proof (Hband c 8 dot_w Hdw ltac:(lia)) as Hj. fold cell_h in Hi. fold cell_w in Hj.
    split; [by exists (r mod cell_h / dot_h)|]. intros i Hi' Ei.
    exists (c mod cell_w / dot_w). split; [done|]. rewrite decide_True, <- Ei; [by eexists|].
    apply in_dot_iff; [lia | lia | done].
Qed.

(** The scaled coordinates the routines begin with. *)
Lemma cell_scale row col : cell_ok row col ->
  u32 (col * (8 * STRING_SCALE_WIDTH * scale_w)) = col * cell_w /\
  u32 (row * (16 * STRING_SCALE_HEIGHT * scale_h)) = row * cell_h.
Proof.
  intros (? & ? & ? & ?). destruct dot_pos as (_ & _ & ? & ?).
  replace (8 * STRING_SCALE_WIDTH * scale_w) with cell_w by (unfold cell_w, dot_w; ring).
  replace (16 * STRING_SCALE_HEIGHT * scale_h) with cell_h by (unfold cell_h, dot_h; ring).
  rewrite !u32_id by nia. done.
Qed.

Lemma fill_char_paints fg bg ch row col : in_font ch -> cell_ok row col ->
  paints (cell (fill_ink fg bg) ch row col) (fb_fill_char termfont fg bg w scale_w scale_h ch row col).
Proof.
  intros Hf Hc. unfold fb_fill_char. cbv zeta. destruct (cell_scale _ _ Hc) as [-> ->].
  apply char_paints. intros i j Hi Hj b Hb. rewrite font_bit_ok by done. cbn [res_bind].
  revert b Hb. apply fill_dot_paints; [done | done | done |].
  intros r c Hrc. by apply put_paints.
Qed.

Lemma stroke_char_paints color ch row col : in_font ch -> cell_ok row col ->
  paints (cell (stroke_ink color) ch row col) (fb_stroke_char termfont color w scale_w scale_h ch row col).
Proof.
  intros Hf Hc. unfold fb_stroke_char. cbv zeta. destruct (cell_scale _ _ Hc) as [-> ->].
  apply char_paints. intros i j Hi Hj. apply fill_dot_paints; [done | done | done |].
  intros r c Hrc b Hb. rewrite font_bit_ok by done. cbn [res_bind].
  destruct (dot ch i j); revert b Hb.
  - by apply put_paints.
  - eapply paints_ext; [|apply paints_nothing]. intros r' c' _. by case_decide.
Qed.

Section line.
Context (row col : Z) (Hrow : 0 <= row) (Hcol : 0 <= col).

(** The characters in a line from column [col] on. *)
Definition per_line : Z := w / cell_w - col.

(** The picture of the characters [s], the first of which is number [n] from the start:
    they fill the lines from [row] on, [per_line] in each. *)
Definition text_from (ink : bool -> option PixelRGBA) (n : Z) (s : list Z) : picture := fun r c =>
  let k := (r / cell_h - row) * per_line + (c / cell_w - col) in
  if decide (row <= r / cell_h /\ col <= c / cell_w < col + per_line /\ n <= k) then
    ch ← s !! Z.to_nat (k - n); ink (dot ch (r mod cell_h / dot_h) (c mod cell_w / dot_w))
  else None.

Definition text (ink : bool -> option PixelRGBA) (s : list Z) : picture := text_from ink 0 s.

(** The lines the text takes are on the screen. *)
Definition text_fits (len : Z) : Prop :=
  0 < per_line /\ (0 < len -> (row + (len - 1) / per_line + 1) * cell_h <= h).

Lemma text_from_cons ink n ch s q i : 0 < per_line -> 0 <= q -> 0 <= i < per_line ->
  n = q * per_line + i -> forall r c,
  text_from ink (n + 1) s r c ∪ cell ink ch (row + q) (col + i) r c = text_from ink n (ch :: s) r c.
Proof.
  intros Hp Hq Hi Hn r c. unfold text_from, cell. cbv zeta.
  set (k := (r / cell_h - row) * per_line + (c / cell_w - col)).
  destruct (decide (r / cell_h = row + q /\ c / cell_w = col + i)) as [[E1 E2]|Hne].
  - assert (k = n) as Ek by (unfold k; rewrite E1, E2; nia). rewrite Ek.
    rewrite decide_False, None_union, decide_True by lia. rewrite Z.sub_diag. done.
  - assert (row <= r / cell_h /\ col <= c / cell_w < col + per_line -> k <> n) as Hkn.
    { intros [? [? ?]] Ek. apply Hne. unfold k in Ek. subst n.
      assert (r / cell_h - row = q) by nia. nia. }
    case_decide as D1.
    + rewrite decide_True by lia.
      replace (Z.to_nat (k - n)) with (S (Z.to_nat (k - (n + 1)))) by lia.
      cbn [lookup list_lookup]. by destruct (s !! _ ≫= _).
    + rewrite None_union, decide_False; [done|]. intros (D2 & D3 & D4). apply D1.
      specialize (Hkn (conj D2 D3)). lia.
Qed.

Section string.
Context (ink : bool -> option PixelRGBA) (draw : Z -> Z -> Z -> list PixelRGBA -> res (list PixelRGBA)).
Context (Hdraw : forall ch r c, in_font ch -> cell_ok r c -> paints (cell ink ch r c) (draw ch r c)).

Lemma put_string_paints s : forall n q i, Forall in_font s -> 0 < per_line -> 0 <= q ->
  0 <= i <= per_line -> n = q * per_line + i ->
  (s <> [] -> (row + (n + Z.of_nat (length s) - 1) / per_line + 1) * cell_h <= h) ->
  paints (text_from ink n s) (put_string draw w scale_w col s (row + q) i).
Proof.
  destruct dot_pos as (_ & _ & Hcw & Hch).
  induction s as [|ch s IH]; intros n q i Hs Hp Hq Hi Hn Hfit.
  - eapply paints_ext; [|apply paints_nothing]. intros r c _. unfold text_from. cbv zeta. by case_decide.
  - apply Forall_cons in Hs as [Hc Hs]. specialize (Hfit ltac:(done)). cbn [length] in Hfit.
    assert (per_line = w / cell_w - col) as Ep by done.
    pose proof (Z.mul_div_le w cell_w Hcw) as Hwc.
    assert (n / per_line <= (n + Z.of_nat (S (length s)) - 1) / per_line) as Hmono
      by (apply Z.div_le_mono; lia).
    assert ((row + n / per_line + 1) * cell_h <= h) as Hline by nia.
    assert (0 <= n / per_line) as Hn0 by (apply Z.div_pos; nia).
    assert (cell_w <= w) as Hcww by nia.
    cbn [put_string]. cbv zeta.
    assert (u32 (u32 (col + i + 1) * 8 * STRING_SCALE_WIDTH * scale_w) = (col + i + 1) * cell_w) as ->.
    { assert (0 <= (col + i + 1) * cell_w < 2 ^ 32) by nia.
      rewrite (u32_id (col + i + 1)) by nia.
      replace ((col + i + 1) * 8 * STRING_SCALE_WIDTH * scale_w) with ((col + i + 1) * cell_w)
        by (unfold cell_w, dot_w; ring). by apply u32_id. }
    assert (((col + i + 1) * cell_w >? w) = (i =? per_line)) as ->.
    { rewrite Z.gtb_ltb. apply eq_true_iff_eq. rewrite Z.ltb_lt, Z.eqb_eq.
      pose proof (Z.mul_succ_div_gt w cell_w Hcw). split; nia. }
    assert (exists q' i', 0 <= i' < per_line /\ 0 <= q' /\ n = q' * per_line + i' /\
      (if i =? per_line then u32 (row + q + 1) else row + q) = row + q' /\
      (if i =? per_line then 0 else i) = i') as (q' & i' & Hi' & Hq' & Hn' & -> & ->).
    { destruct (Z.eqb_spec i per_line) as [->|].
      - exists (q + 1), 0. assert (n / per_line = q + 1) as E
          by (symmetry; apply (Z.div_unique n per_line (q + 1) 0); nia).
        rewrite u32_id by nia. split_and!; nia.
      - exists q, i. split_and!; lia. }
    assert (n / per_line = q') as Eq by (symmetry; apply (Z.div_unique n per_line q' i'); nia).
    rewrite (u32_id (col + i')), (u32_id (i' + 1)) by nia.
    eapply paints_ext; [intros r c _; apply (text_from_cons ink n ch s q' i'); done|].
    apply paints_bind.
    + apply Hdraw; [done|]. unfold cell_ok. rewrite Eq in Hline. split_and!; nia.
    + apply IH; try done; try lia. intros _.
      replace (n + 1 + Z.of_nat (length s) - 1) with (n + Z.of_nat (S (length s)) - 1) by lia. done.
Qed.

(** A string from the start of its first line. *)
Lemma string_paints s : Forall in_font s -> text_fits (Z.of_nat (length s)) ->
  paints (text ink s) (put_string draw w scale_w col s row 0).
Proof.
  intros Hs [Hp Hfit]. rewrite <- (Z.add_0_r row).
  apply put_string_paints; try done; try lia. intros Hne. rewrite Z.add_0_l. apply Hfit.
  destruct s; [done | cbn; lia].
Qed.

End string.
End line.
End font.
End screen.

(** ** What the routines draw *)

(** A screen of [w] by [h] pixels and its frame buffer. *)
Record frame_buffer (w h : Z) (buffer : list PixelRGBA) : Prop := mkFrameBuffer {
  fb_width : 0 <= w;
  fb_height : 0 <= h;
  fb_small : w * h <= 2 ^ 32;
  fb_length : Z.of_nat (length buffer) = w * h
}.

Lemma paints_on w h f draw buffer : paints w h f draw -> frame_buffer w h buffer ->
  exists buffer', draw buffer = Ok buffer' /\ painted w h f buffer buffer'.
Proof. intros H [_ _ _ Hb]. by apply H. Qed.

(** fb_fill_rect never stores outside the frame buffer, whatever the rectangle, and
    colours the pixels of the screen that are in the rectangle, and no other. The far edges
    are 32-bit sums: a rectangle that wraps around is cut short. *)
Theorem fb_fill_rect_correct w h buffer rect color : frame_buffer w h buffer -> rect_ok rect ->
  exists buffer', fb_fill_rect w h buffer rect color = Ok buffer' /\
    painted w h (region (in_rect rect) color) buffer buffer'.
Proof.
  intros Hfb Hr. apply (paints_on w h _ (fun b => fb_fill_rect w h b rect color)); [|done].
  destruct Hfb. by apply fill_rect_paints.
Qed.

(** fb_stroke_rect draws the border of the rectangle: four bars of the width of the
    line, clipped to the screen; the right and bottom ones lie outside the rectangle. *)
Theorem fb_stroke_rect_correct w h buffer rect color line_size :
  frame_buffer w h buffer -> rect_ok rect ->
  exists buffer', fb_stroke_rect w h buffer rect color line_size = Ok buffer' /\
    painted w h (region (fun r c => in_rect (top_rect rect line_size) r c \/
                                    in_rect (bot_rect rect line_size) r c \/
                                    in_rect (left_rect rect line_size) r c \/
                                    in_rect (right_rect rect line_size) r c) color) buffer buffer'.
Proof.
  intros Hfb Hr. apply (paints_on w h _ (fun b => fb_stroke_rect w h b rect color line_size)); [|done].
  destruct Hfb. by apply stroke_rect_paints.
Qed.

(** On a screen of at most 32768 pixels each way the 32-bit squares of the circle
    routines are exact: fb_fill_circ colours the disc, and fb_stroke_circ the ring between
    the radius and the root of the sum of the squares of radius and line width. *)
Theorem circles_correct w h buffer cx cy radius color line_size :
  frame_buffer w h buffer -> w <= 2 ^ 15 -> h <= 2 ^ 15 -> 0 <= cx < 2 ^ 15 -> 0 <= cy < 2 ^ 15 ->
  0 <= radius < 2 ^ 16 -> 0 <= line_size -> radius * radius + line_size * line_size < 2 ^ 31 ->
  (exists buffer', fb_fill_circ w h buffer cx cy radius color = Ok buffer' /\
     painted w h (region (fun r c => dist2 cx cy r c <= radius * radius) color) buffer buffer') /\
  (exists buffer', fb_stroke_circ w h buffer cx cy radius color line_size = Ok buffer' /\
     painted w h (region (fun r c => radius * radius <= dist2 cx cy r c
                                     <= radius * radius + line_size * line_size) color) buffer buffer').
Proof.
  intros Hfb Hw Hh Hcx Hcy Hr Hl Hsum. split.
  - apply (paints_on w h _ (fun b => fb_fill_circ w h b cx cy radius color)); [|done].
    destruct Hfb. by apply fill_circ_paints.
  - apply (paints_on w h _ (fun b => fb_stroke_circ w h b cx cy radius color line_size)); [|done].
    destruct Hfb. by apply stroke_circ_paints.
Qed.

(** (C34) A string whose lines are on the screen is drawn by fb_fill_string and
    fb_stroke_string as the picture of its characters: character [k] is in line
    [row + k / per_line] and in column [col + k mod per_line], each dot of the font is a
    block of the scale, and nothing else changes. *)
Theorem strings_correct w h buffer termfont s row col fg bg scale_w scale_h :
  frame_buffer w h buffer -> w < 2 ^ 31 -> h < 2 ^ 31 -> 0 < scale_w -> 0 < scale_h ->
  0 <= row -> 0 <= col -> Forall (in_font termfont) s ->
  text_fits w h scale_w scale_h row col (Z.of_nat (length s)) ->
  (exists buffer', fb_fill_string termfont s row col w buffer fg bg scale_w scale_h = Ok buffer' /\
     painted w h (text w termfont scale_w scale_h row col (fill_ink fg bg) s) buffer buffer') /\
  (exists buffer', fb_stroke_string termfont s row col w buffer fg scale_w scale_h = Ok buffer' /\
     painted w h (text w termfont scale_w scale_h row col (stroke_ink fg) s) buffer buffer').
Proof.
  intros Hfb Hw Hh Hsw Hsh Hrow Hcol Hs Hfit. split; unfold fb_fill_string, fb_stroke_string;
    (apply (paints_on w h); [|exact Hfb]); destruct Hfb; apply string_paints; try done;
    intros ch r c Hc Hok.
  - by apply fill_char_paints.
  - by apply stroke_char_paints.
Qed.

(** Nothing clips a character: in a line below the screen it is stored past the end of
    the frame buffer. fb_fill_string wraps a long text into such lines. *)
Theorem fb_fill_char_below_screen w h buffer termfont fg bg ch row scale_w scale_h :
  frame_buffer w h buffer -> w < 2 ^ 31 -> 0 < scale_w < 2 ^ 31 -> 0 < scale_h < 2 ^ 31 -> 0 <= row ->
  in_font termfont ch ->
  h <= row * cell_h scale_h -> row * cell_h scale_h * w < 2 ^ 32 -> 0 < w ->
  fb_fill_char termfont fg bg w scale_w scale_h ch row 0 buffer = Ub.
Proof.
  intros [Hw Hh Hs Hl] Hw31 Hsw Hsh Hrow Hf Hbelow Hno Hw0.
  destruct (dot_pos scale_w scale_h) as (Hdw & Hdh & _); [lia | lia |].
  unfold fb_fill_char. cbv zeta.
  replace (row * (16 * STRING_SCALE_HEIGHT * scale_h)) with (row * cell_h scale_h)
    by (unfold cell_h, dot_h; ring).
  rewrite (u32_id (row * cell_h scale_h)) by nia. rewrite Z.mul_0_l. change (u32 0) with 0.
  change 16%nat with (S 15). change 8%nat with (S 7). cbn [for_up].
  rewrite (font_bit_ok termfont ch 0 0 Hf) by lia. cbn [res_bind].
  unfold fill_dot. fold (dot_w scale_w) (dot_h scale_h).
  rewrite !u32_id by (unfold dot_w, dot_h, STRING_SCALE_WIDTH, STRING_SCALE_HEIGHT; lia).
  destruct (Z.to_nat (dot_w scale_w)) eqn:E1; [lia|].
  destruct (Z.to_nat (dot_h scale_h)) eqn:E2; [lia|]. cbn [for_up].
  rewrite put_out; [done|]. rewrite Hl. rewrite !Z.mul_0_l, !Z.add_0_r, u32_id by nia. nia.
Qed.

(** A screen of two characters, and a font with two. *)
Definition black : PixelRGBA := mkPixel 0 0 0 255.
Definition white : PixelRGBA := mkPixel 255 255 255 255.
Definition demo_buffer : list PixelRGBA := replicate 1024 black.
Definition demo_font : list Z := replicate 16 0 ++ seqZ 1 16.

Lemma demo_frame_buffer : frame_buffer 32 32 demo_buffer.
Proof. split; [lia | lia | lia | done]. Qed.

Lemma fb_fill_rect_correct_witness :
  frame_buffer 32 32 demo_buffer /\ rect_ok (mkRect 30 31 5 5) /\
  exists buffer', fb_fill_rect 32 32 demo_buffer (mkRect 30 31 5 5) white = Ok buffer' /\
    painted 32 32 (region (in_rect (mkRect 30 31 5 5)) white) demo_buffer buffer'.
Proof.
  split; [exact demo_frame_buffer|]. split; [done|].
  apply (fb_fill_rect_correct 32 32 demo_buffer (mkRect 30 31 5 5) white demo_frame_buffer). done.
Defined.

Lemma fb_stroke_rect_correct_witness :
  frame_buffer 32 32 demo_buffer /\ rect_ok (mkRect 2 3 10 10) /\
  exists buffer', fb_stroke_rect 32 32 demo_buffer (mkRect 2 3 10 10) white 2 = Ok buffer' /\
    pixel 32 buffer' 3 2 = Some white /\ pixel 32 buffer' 14 13 = Some white /\
    pixel 32 buffer' 8 8 = Some black.
Proof.
  split; [exact demo_frame_buffer|]. split; [done|].
  destruct (fb_stroke_rect_correct 32 32 demo_buffer (mkRect 2 3 10 10) white 2 demo_frame_buffer)
    as (b & E & _ & Hp); [done|].
  exists b. split; [exact E|]. split_and!; rewrite Hp by (unfold on_screen; lia); by vm_compute.
Defined.

Lemma circles_correct_witness :
  frame_buffer 32 32 demo_buffer /\
  (exists buffer', fb_fill_circ 32 32 demo_buffer 10 10 5 white = Ok buffer' /\
     pixel 32 buffer' 10 15 = Some white /\ pixel 32 buffer' 10 16 = Some black) /\
  (exists buffer', fb_stroke_circ 32 32 demo_buffer 10 10 5 white 3 = Ok buffer' /\
     pixel 32 buffer' 10 15 = Some white /\ pixel 32 buffer' 10 16 = Some black).
Proof.
  split; [exact demo_frame_buffer|].
  destruct (circles_correct 32 32 demo_buffer 10 10 5 white 3 demo_frame_buffer) as
    [(b & E & _ & Hp) (b' & E' & _ & Hp')]; try lia.
  split; [exists b; split; [exact E|] | exists b'; split; [exact E'|]]; split;
    rewrite ?Hp, ?Hp' by (unfold on_screen; lia); by vm_compute.
Defined.

Lemma strings_correct_witness :
  frame_buffer 32 32 demo_buffer /\
  (exists buffer', fb_fill_string demo_font [1; 0] 0 0 32 demo_buffer white black 1 1 = Ok buffer' /\
     pixel 32 buffer' 0 0 = Some white /\ pixel 32 buffer' 0 2 = Some black) /\
  (exists buffer', fb_stroke_string demo_font [1; 0] 0 0 32 demo_buffer white 1 1 = Ok buffer' /\
     pixel 32 buffer' 4 3 = Some white).
Proof.
  split; [exact demo_frame_buffer|].
  destruct (strings_correct 32 32 demo_buffer demo_font [1; 0] 0 0 white black 1 1 demo_frame_buffer) as
    [(b & E & _ & Hp) (b' & E' & _ & Hp')]; try lia.
  - repeat constructor; by vm_compute.
  - split; [by vm_compute | intros _; by vm_compute].
  - split; [exists b; split; [exact E|]; split | exists b'; split; [exact E'|]];
      rewrite ?Hp, ?Hp' by (unfold on_screen; lia); by vm_compute.
Defined.

Lemma fb_fill_char_below_screen_witness :
  frame_buffer 32 32 demo_buffer /\
  fb_fill_char demo_font white black 32 1 1 1 1 0 demo_buffer = Ub.
Proof.
  split; [exact demo_frame_buffer|].
  apply (fb_fill_char_below_screen 32 32 demo_buffer demo_font white black 1 1 1 1 demo_frame_buffer);
    try lia; (split; by vm_compute) || by vm_compute.
Defined.
