(* ===== verification/Gpu.v ===== *)
(** The GPU driver: the commands of src/src/gpu.c over the virtqueue of [Virtio].
    gpu_init only looks up the device's configuration.

    A command is a structure the driver builds on its stack and the device reads:
    [encode] is its bytes, field by field. The addresses of the structures, and of the
    frame buffer that kzalloc returned, are arguments. The device is the class [GpuLaws]:
    it executes the command a request holds and answers with a header. The store into the
    notification register is the call of [notified]; its value, 1 where
    the queue in use is number 0, is not modelled. *)
From S2P Require Import Prelude Mem Lock Virtio FrameBuffer.

Definition VIRTIO_GPU_CMD_GET_DISPLAY_INFO : Z := 0x100.
Definition VIRTIO_GPU_CMD_RESOURCE_CREATE_2D : Z := 0x101.
Definition VIRTIO_GPU_CMD_SET_SCANOUT : Z := 0x103.
Definition VIRTIO_GPU_CMD_RESOURCE_FLUSH : Z := 0x104.
Definition VIRTIO_GPU_CMD_TRANSFER_TO_HOST_2D : Z := 0x105.
Definition VIRTIO_GPU_CMD_RESOURCE_ATTACH_BACKING : Z := 0x106.
Definition VIRTIO_GPU_RESP_OK_NODATA : Z := 0x1100.
Definition VIRTIO_GPU_RESP_OK_DISPLAY_INFO : Z := 0x1101.
Definition R8G8B8A8_UNORM : Z := 67.

(** ** Structures as bytes *)

Fixpoint le_bytes (n : nat) (v : Z) : list Z :=
  match n with O => [] | S n' => u8 v :: le_bytes n' (v / 256) end.

(** [GpuControlHeader], zero but for its type. *)
Definition header (control_type : Z) : list Z := le_bytes 4 control_type ++ replicate 20 0.

Definition rectangle (r : Rectangle) : list Z :=
  le_bytes 4 (rx r) ++ le_bytes 4 (ry r) ++ le_bytes 4 (rwidth r) ++ le_bytes 4 (rheight r).

Definition GpuResourceCreate2dRequest (resource_id format width height : Z) : list Z :=
  header VIRTIO_GPU_CMD_RESOURCE_CREATE_2D ++ le_bytes 4 resource_id ++ le_bytes 4 format ++
  le_bytes 4 width ++ le_bytes 4 height.

Definition GpuResourceAttachBacking (resource_id num_entries : Z) : list Z :=
  header VIRTIO_GPU_CMD_RESOURCE_ATTACH_BACKING ++ le_bytes 4 resource_id ++ le_bytes 4 num_entries.

Definition GpuMemEntry (addr length : Z) : list Z := le_bytes 8 addr ++ le_bytes 4 length ++ le_bytes 4 0.

Definition GpuSetScanoutRequest (rect : Rectangle) (scanout_id resource_id : Z) : list Z :=
  header VIRTIO_GPU_CMD_SET_SCANOUT ++ rectangle rect ++ le_bytes 4 scanout_id ++ le_bytes 4 resource_id.

Definition GpuTransferToHost2d (rect : Rectangle) (offset resource_id : Z) : list Z :=
  header VIRTIO_GPU_CMD_TRANSFER_TO_HOST_2D ++ rectangle rect ++ le_bytes 8 offset ++
  le_bytes 4 resource_id ++ le_bytes 4 0.

Definition GpuResourceFlush (rect : Rectangle) (resource_id : Z) : list Z :=
  header VIRTIO_GPU_CMD_RESOURCE_FLUSH ++ rectangle rect ++ le_bytes 4 resource_id ++ le_bytes 4 0.

Definition DISPLAY_INFO_SIZE : Z := 408.

Section driver.
Context {B : Type} `{!Device B} (phys : Z -> Z).

Record GpuDevice := mkGpu {
  viodev : VirtioDevice; gmem : mem; hw : B; width : Z; height : Z; framebuffer : Z
}.

Definition with_queue (g : GpuDevice) (v : VirtioDevice) (m : mem) (b : B) : GpuDevice :=
  mkGpu v m b (width g) (height g) (framebuffer g).
Definition with_mem (g : GpuDevice) (m : mem) : GpuDevice := with_queue g (viodev g) m (hw g).

(** A structure built at [a]. *)
Fixpoint st_struct (m : mem) (a : Z) (l : list Z) : res mem :=
  match l with
  | [] => Ok m
  | c :: l' => let* m := st8 m (phys a) c in st_struct m (a + 1) l'
  end.

(** [gpu_send] and [gpu_send_3], which has a buffer of data after the request. *)
Definition gpu_send_chain (g : GpuDevice) (out : list (Z * Z)) (response resp_size : Z) : res GpuDevice :=
  if Z.land (device_status (viodev g)) VIRTIO_F_DRIVER_OK =? 0 then Ok g
  else
    let* v := post_chain (viodev g)
      (((fun '(a, n) => (phys a, n, VIRTQ_DESC_F_NEXT)) <$> out) ++
       [(phys response, resp_size, VIRTQ_DESC_F_WRITE)]) in
    let '(b, v, m) := notified (hw g) v (gmem g) in
    Ok (with_queue g v m b).

Definition gpu_send (g : GpuDevice) (request req_size response resp_size : Z) : res GpuDevice :=
  gpu_send_chain g [(request, req_size)] response resp_size.

Definition gpu_send_3 (g : GpuDevice) (request req_size data data_size response resp_size : Z) :
    res GpuDevice :=
  gpu_send_chain g [(request, req_size); (data, data_size)] response resp_size.

Definition set_vlock (v : VirtioDevice) (l : Mutex) : VirtioDevice :=
  set_queue v (desc v) (ring v) (drv_idx v) (driver_idx v) l.

Definition gpu_handle_used (g : GpuDevice) : res GpuDevice :=
  let* l := mutex_spinlock (vlock (viodev g)) in
  let* v := catch_up (set_vlock (viodev g) l) in
  Ok (with_queue g (set_vlock v (mutex_unlock l)) (gmem g) (hw g)).

Definition gpu_wait_for_response (g : GpuDevice) : res GpuDevice :=
  if queue_interrupt (viodev g) then Hang else gpu_handle_used g.

(** [hdr.control_type] *)
Definition answer (g : GpuDevice) (hdr : Z) : res Z := ld_le 4 (gmem g) (phys hdr).

(** A structure's address and size. *)
Definition extent (b : Z * list Z) : Z * Z := let '(a, l) := b in (a, Z.of_nat (length l)).

(** The structures of a command, built at the addresses given, [hdr] cleared, and the
    command sent; the answer is in [hdr]. *)
Definition gpu_command (g : GpuDevice) (out : list (Z * list Z)) (hdr : Z) : res (Z * GpuDevice) :=
  let* m := foldl (fun m '(a, l) => let* m := m in st_struct m a l) (Ok (gmem g)) out in
  let* m := st_struct m hdr (replicate 24 0) in
  let* g := gpu_send_chain (with_mem g m) (extent <$> out) hdr 24 in
  let* g := gpu_wait_for_response g in
  let* ct := answer g hdr in
  Ok (ct, g).

(** The local variables of gpu_redraw and of gpu_setup. *)
Record redraw_frame := mkRedrawFrame { r_hdr : Z; r_tx : Z; r_flush : Z }.
Record setup_frame := mkSetupFrame {
  s_hdr : Z; s_disp : Z; s_res2d : Z; s_attach : Z; s_mem : Z; s_scan : Z
}.

Definition full (g : GpuDevice) : Rectangle := mkRect 0 0 (width g) (height g).

(** [rect->x * sizeof(PixelRGBA) + rect->y * gdev->width * sizeof(PixelRGBA)] *)
Definition tx_offset (rect : Rectangle) (w : Z) : Z := u64 (rx rect * 4 + u32 (ry rect * w) * 4).

Definition gpu_redraw (l : redraw_frame) (rect : Rectangle) (g : GpuDevice) : res (bool * GpuDevice) :=
  if Z.land (device_status (viodev g)) VIRTIO_F_DRIVER_OK =? 0 then Ok (false, g)
  else
    let* (ct, g) := gpu_command g [(r_tx l, GpuTransferToHost2d rect (tx_offset rect (width g)) 1)] (r_hdr l) in
    if negb (ct =? VIRTIO_GPU_RESP_OK_NODATA) then Ok (false, g)
    else
      let* (ct, g) := gpu_command g [(r_flush l, GpuResourceFlush (full g) 1)] (r_hdr l) in
      Ok (ct =? VIRTIO_GPU_RESP_OK_NODATA, g).

(** [fb] is what [g_kzalloc] returned. *)
Definition gpu_setup (l : setup_frame) (lr : redraw_frame) (fb : Z) (g : GpuDevice) :
    res (bool * GpuDevice) :=
  let* m := st_struct (gmem g) (s_hdr l) (header VIRTIO_GPU_CMD_GET_DISPLAY_INFO) in
  let* g := gpu_send (with_mem g m) (s_hdr l) 24 (s_disp l) DISPLAY_INFO_SIZE in
  let* g := gpu_wait_for_response g in
  let* ct := ld_le 4 (gmem g) (phys (s_disp l)) in
  let* enabled := ld_le 4 (gmem g) (phys (s_disp l + 40)) in
  if negb (ct =? VIRTIO_GPU_RESP_OK_DISPLAY_INFO) || negb (enabled =? 1) then Ok (false, g)
  else
    let* w := ld_le 4 (gmem g) (phys (s_disp l + 32)) in
    let* h := ld_le 4 (gmem g) (phys (s_disp l + 36)) in
    let* m := kzalloc phys (gmem g) fb (u64 (4 * w * h)) in
    let g := mkGpu (viodev g) m (hw g) w h fb in
    let* (ct, g) := gpu_command g
      [(s_res2d l, GpuResourceCreate2dRequest 1 R8G8B8A8_UNORM w h)] (s_hdr l) in
    if negb (ct =? VIRTIO_GPU_RESP_OK_NODATA) then Ok (false, g)
    else
      let* (ct, g) := gpu_command g
        [(s_attach l, GpuResourceAttachBacking 1 1);
         (s_mem l, GpuMemEntry (phys fb) (u32 (4 * w * h)))] (s_hdr l) in
      if negb (ct =? VIRTIO_GPU_RESP_OK_NODATA) then Ok (false, g)
      else
        let* (ct, g) := gpu_command g
          [(s_scan l, GpuSetScanoutRequest (full g) 0 1)] (s_hdr l) in
        if negb (ct =? VIRTIO_GPU_RESP_OK_NODATA) then Ok (false, g)
        else gpu_redraw lr (full g) g.

End driver.

Arguments GpuDevice : clear implicits.

(** ** The device *)

Inductive GpuCommand : Type :=
| ResourceCreate2d (resource_id format w h : Z)
| ResourceAttachBacking (resource_id addr length : Z)
| SetScanout (rect : Rectangle) (scanout_id resource_id : Z)
| TransferToHost2d (rect : Rectangle) (offset resource_id : Z)
| ResourceFlush (rect : Rectangle) (resource_id : Z).

(** The buffers of a command, before the one for the answer. *)
Definition encode (cmd : GpuCommand) : list (list Z) :=
  match cmd with
  | ResourceCreate2d id f w h => [GpuResourceCreate2dRequest id f w h]
  | ResourceAttachBacking id a n => [GpuResourceAttachBacking id 1; GpuMemEntry a n]
  | SetScanout r s id => [GpuSetScanoutRequest r s id]
  | TransferToHost2d r o id => [GpuTransferToHost2d r o id]
  | ResourceFlush r id => [GpuResourceFlush r id]
  end.

(** [b] is a buffer of a request that holds [l]. *)
Definition sends (m : mem) (b : buffer) (l : list Z) : Prop :=
  let '(a, n, f) := b in
  n = Z.of_nat (length l) /\ f = VIRTQ_DESC_F_NEXT /\ ld_list (length l) m a = Ok l.

(** [display]: width, height and whether it is enabled; [modes]: the rest of the
    information about displays. [execute]: what a command does, and the type of the
    answer. *)
Class GpuLaws (B : Type) `{!Device B} `{!DeviceLaws B} := {
  display : B -> Z * Z * Z;
  modes : B -> list Z;
  execute : B -> GpuCommand -> B * Z;
  display_word b : let '(w, h, e) := display b in
    0 <= w < 2 ^ 32 /\ 0 <= h < 2 ^ 32 /\ 0 <= e < 2 ^ 32;
  modes_ok b : length (modes b) = 364%nat /\ Forall byte_ok (modes b);
  answer_word b cmd : 0 <= snd (execute b cmd) < 2 ^ 32;
  serve_display b m a rs : sends m (a, 24, VIRTQ_DESC_F_NEXT) (header VIRTIO_GPU_CMD_GET_DISPLAY_INFO) ->
    serves b [(a, 24, VIRTQ_DESC_F_NEXT); (rs, DISPLAY_INFO_SIZE, VIRTQ_DESC_F_WRITE)] m =
    (b, dma m rs (let '(w, h, e) := display b in
          header VIRTIO_GPU_RESP_OK_DISPLAY_INFO ++ rectangle (mkRect 0 0 w h) ++ le_bytes 4 e ++ modes b));
  serve_command b m cmd ds rs : Forall2 (sends m) ds (encode cmd) ->
    serves b (ds ++ [(rs, 24, VIRTQ_DESC_F_WRITE)]) m =
    (fst (execute b cmd), dma m rs (header (snd (execute b cmd))))
}.

(** The device executes [cmds] up to the first that it refuses. *)
Fixpoint run {B} `{GpuLaws B} (b : B) (cmds : list GpuCommand) : bool * B :=
  match cmds with
  | [] => (true, b)
  | cmd :: cmds' =>
      let '(b', ct) := execute b cmd in
      if ct =? VIRTIO_GPU_RESP_OK_NODATA then run b' cmds' else (false, b')
  end.

(** ** Structures *)

Lemma le_bytes_length n : forall v, length (le_bytes n v) = n.
Proof. induction n as [|n IH]; intros v; cbn; [done|]. by rewrite IH. Qed.

Lemma le_bytes_ok n : forall v, Forall byte_ok (le_bytes n v).
Proof. induction n as [|n IH]; intros v; cbn [le_bytes]; constructor; [apply u8_byte_ok | apply IH]. Qed.

Lemma zeros_ok n : Forall byte_ok (replicate n 0).
Proof. apply Forall_replicate. by vm_compute. Qed.

Lemma encode_ok cmd : Forall (Forall byte_ok) (encode cmd).
Proof.
  destruct cmd; cbn [encode]; rewrite ?Forall_cons, Forall_nil;
    unfold GpuResourceCreate2dRequest, GpuResourceAttachBacking, GpuMemEntry, GpuSetScanoutRequest,
      GpuTransferToHost2d, GpuResourceFlush, header, rectangle; rewrite ?Forall_app;
    split_and?; (apply le_bytes_ok || apply zeros_ok || done).
Qed.

(** A word read back. *)
Lemma ld_le_bytes n : forall m a v,
  (forall i, 0 <= i < Z.of_nat n -> m !! (a + i) = le_bytes n v !! Z.to_nat i) ->
  ld_le n m a = Ok (v mod 2 ^ (8 * Z.of_nat n)).
Proof.
  induction n as [|n IH]; intros m a v H; cbn [ld_le].
  { cbn. by rewrite Z.mod_1_r. }
  pose proof (H 0 ltac:(lia)) as H0. rewrite Z.add_0_r in H0. unfold ld8. rewrite H0.
  cbn [le_bytes Z.to_nat lookup list_lookup deref res_bind].
  rewrite (IH m (a + 1) (v / 256)).
  - cbn [res_bind]. unfold u8. f_equal.
    replace (8 * Z.of_nat (S n)) with (8 + 8 * Z.of_nat n) by lia.
    rewrite Z.pow_add_r by lia. change (2 ^ 8) with 256.
    by rewrite (Z.rem_mul_r v 256) by lia.
  - intros i Hi. replace (a + 1 + i) with (a + (i + 1)) by lia. rewrite H by lia.
    by replace (Z.to_nat (i + 1)) with (S (Z.to_nat i)) by lia.
Qed.

(** ** One command *)

Section correct.
Context {B : Type} `{!Device B} `{!DeviceLaws B} `{!GpuLaws B}.
Context (phys : Z -> Z).

Notation buffer_ok := (buffer_ok phys).

(** A driver that can send. *)
Record ready (g : GpuDevice B) : Prop := mkReady {
  rd_idle : idle (viodev g);
  rd_driver : Z.land (device_status (viodev g)) VIRTIO_F_DRIVER_OK <> 0;
  rd_mem : mem_ok (gmem g)
}.

(** Structures at their addresses: in memory and apart from one another. *)
Definition size (b : Z * list Z) : Z := Z.of_nat (length b.2).

Definition struct_ok (m : mem) (b : Z * list Z) : Prop :=
  buffer_ok m b.1 (size b) /\ Forall byte_ok b.2.

Fixpoint placed (m : mem) (bs : list (Z * list Z)) : Prop :=
  match bs with
  | [] => True
  | b :: bs' => struct_ok m b /\
      Forall (fun k => apart (phys b.1) (size b) (phys k.1) (size k)) bs' /\ placed m bs'
  end.

Lemma placed_dom m m' bs : dom m' = dom m -> placed m bs -> placed m' bs.
Proof.
  intros Hd. induction bs as [|[a l] bs IH]; cbn [placed]; [done|]. intros ([H1 H2] & H3 & H4).
  split; [split; [by eapply buffer_ok_dom | done]|]. split; [done | by apply IH].
Qed.

Definition contains (m : mem) (b : Z * list Z) : Prop :=
  let '(a, l) := b in forall i, 0 <= i < Z.of_nat (length l) -> m !! (phys a + i) = l !! Z.to_nat i.

Lemma st_struct_list l : forall m a p, (forall i, 0 <= i < Z.of_nat (length l) -> phys (a + i) = p + i) ->
  st_struct phys m a l = st_list m p l.
Proof.
  induction l as [|c l IH]; intros m a p H; cbn [st_struct st_list length] in *; [done|].
  pose proof (H 0 ltac:(lia)) as E. rewrite !Z.add_0_r in E. rewrite E.
  destruct (st8 m p c) as [m1| | |]; try done. cbn [res_bind]. apply IH.
  intros i Hi. replace (a + 1 + i) with (a + (i + 1)) by lia. rewrite H by lia. lia.
Qed.

Lemma st_struct_ok m a l : mem_ok m -> buffer_ok m a (Z.of_nat (length l)) -> Forall byte_ok l ->
  exists m', st_struct phys m a l = Ok m' /\ stored m m' (phys a) (Z.of_nat (length l)) /\
    contains m' (a, l).
Proof.
  intros Hm [Hb Hp] Hl. rewrite (st_struct_list l m a (phys a) Hp). by apply st_list_ok.
Qed.

Definition store_all (m : res mem) (bs : list (Z * list Z)) : res mem :=
  foldl (fun m '(a, l) => let* m := m in st_struct phys m a l) m bs.

Lemma store_all_ok bs : forall m, mem_ok m -> placed m bs ->
  exists m', store_all (Ok m) bs = Ok m' /\ mem_ok m' /\ dom m' = dom m /\
    (forall p, Forall (fun b => ~ (phys b.1 <= p < phys b.1 + size b)) bs -> m' !! p = m !! p) /\
    Forall (contains m') bs.
Proof.
  induction bs as [|[a l] bs IH]; intros m Hm H; cbn [placed] in H; [by exists m|].
  destruct H as ([Hb Hl] & Hap & Hr). unfold store_all in *. cbn [foldl res_bind].
  destruct (st_struct_ok m a l Hm Hb Hl) as (m1 & -> & S & Hc).
  destruct (IH m1 (stored_ok _ _ _ _ S Hm)) as (m2 & E & Hm2 & Hd & Hout & Hall).
  { eapply placed_dom; [apply (stored_dom _ _ _ _ S) | done]. }
  exists m2. split; [done|]. split; [done|]. split; [by rewrite Hd; apply (stored_dom _ _ _ _ S)|].
  split.
  - intros p Hp. apply Forall_cons in Hp as [Hp1 Hp2]. rewrite Hout by done. by apply (stored_out _ _ _ _ S).
  - constructor; [|done]. intros i Hi. rewrite Hout; [by apply Hc|].
    eapply Forall_impl; [exact Hap|]. intros k Hk. unfold apart, size in *. cbn in *. lia.
Qed.

(** gpu_wait_for_response after a command that was served. *)
Lemma wait_ok (g : GpuDevice B) : idle (viodev g) -> queue_interrupt (viodev g) = false ->
  exists v, gpu_wait_for_response g = Ok (with_queue g v (gmem g) (hw g)) /\ idle v /\
    device_status v = device_status (viodev g).
Proof.
  intros Hi Hq. unfold gpu_wait_for_response, gpu_handle_used. rewrite Hq, (idle_lock _ Hi).
  change (mutex_spinlock MUTEX_UNLOCKED) with (Ok MUTEX_LOCKED). cbn [res_bind].
  destruct Hi as [Hl Hu Hdi Hs Hd Hr Ha Hse].
  rewrite catch_up_ok by (cbn; rewrite ?Hu; done). cbn [res_bind].
  eexists. split; [done|]. split; [|done]. split; cbn; try done. by rewrite Hu.
Qed.

(** gpu_send and the wait, on a device that serves the chain. *)
Lemma send_wait_ok (g : GpuDevice B) out rs n l b' : ready g -> (1 <= length out <= 2)%nat ->
  buffer_ok (gmem g) rs (Z.of_nat (length l)) -> Forall byte_ok l ->
  serves (hw g) (((fun '(a, n) => (phys a, n, VIRTQ_DESC_F_NEXT)) <$> out) ++
                 [(phys rs, n, VIRTQ_DESC_F_WRITE)]) (gmem g) = (b', dma (gmem g) (phys rs) l) ->
  exists v, let g' := with_queue g v (dma (gmem g) (phys rs) l) b' in
    (let* g := gpu_send_chain phys g out rs n in gpu_wait_for_response g) = Ok g' /\ ready g' /\
    dom (gmem g') = dom (gmem g) /\ contains (gmem g') (rs, l).
Proof.
  intros [Hi Hd Hm] Hout [Hb Hbp] Hl Hsv. pose proof (idle_size _ Hi) as Hq.
  unfold gpu_send_chain. rewrite (proj2 (Z.eqb_neq _ _) Hd).
  set (ds := _ ++ _) in *. assert (chained ds /\ Z.of_nat (length ds) <= 3) as [Hc Hds].
  { unfold ds. destruct out as [|[a1 n1] [|[a2 n2] [|]]]; cbn in *; try lia; done. }
  destruct (post_chain_ok (viodev g) ds Hi Hc) as (v & -> & Hn & Hi' & Hst & _); [lia|].
  cbn [res_bind]. rewrite (notified_law _ _ _ ds Hn), Hsv. cbn [res_bind].
  destruct (wait_ok (with_queue g (completed v) (dma (gmem g) (phys rs) l) b') Hi' eq_refl) as (v' & -> & Hi2 & Hst2).
  assert (dom (dma (gmem g) (phys rs) l) = dom (gmem g)) as Hdom by by apply dma_dom.
  exists v'. split; [done|]. split; [|split; [exact Hdom|]].
  - split; cbn; [done | | by apply dma_ok]. rewrite Hst2. cbn. by rewrite Hst.
  - intros i Hi3. cbn. rewrite dma_lookup, decide_True by lia. f_equal. lia.
Qed.

Lemma header_length ct : length (header ct) = 24%nat.
Proof. done. Qed.

Lemma header_ok ct : Forall byte_ok (header ct).
Proof. apply Forall_app. split; [apply le_bytes_ok | apply zeros_ok]. Qed.

(** The word at offset [k] of a structure. *)
Lemma contains_word m a l1 v l2 : contains m (a, l1 ++ le_bytes 4 v ++ l2) -> 0 <= v < 2 ^ 32 ->
  ld_le 4 m (phys a + Z.of_nat (length l1)) = Ok v.
Proof.
  intros H Hv. rewrite (ld_le_bytes 4 _ _ v).
  - f_equal. apply Z.mod_small. exact Hv.
  - intros i Hi. rewrite <- Z.add_assoc, H by (rewrite !length_app, le_bytes_length; lia).
    rewrite lookup_app_r by lia. replace (Z.to_nat (Z.of_nat (length l1) + i) - length l1)%nat with (Z.to_nat i) by lia.
    rewrite lookup_app_l by (rewrite le_bytes_length; lia). done.
Qed.

Lemma answer_ok (g : GpuDevice B) hdr ct : contains (gmem g) (hdr, header ct) -> 0 <= ct < 2 ^ 32 ->
  answer phys g hdr = Ok ct.
Proof.
  intros H Hc. pose proof (contains_word _ hdr [] ct (replicate 20 0) H Hc) as E.
  change (Z.of_nat (length [])) with 0 in E. by rewrite Z.add_0_r in E.
Qed.

Definition same_device (g g' : GpuDevice B) : Prop :=
  width g' = width g /\ height g' = height g /\ framebuffer g' = framebuffer g /\
  dom (gmem g') = dom (gmem g).

Lemma placed_last m out b : placed m (out ++ [b]) -> struct_ok m b.
Proof. induction out as [|c out IH]; cbn [placed app]; [tauto|]. intros (_ & _ & H). by apply IH. Qed.

Lemma all_sent m out : Forall (contains m) out ->
  Forall2 (sends m) ((fun '(a, n) => (phys a, n, VIRTQ_DESC_F_NEXT)) <$> (extent <$> out)) (snd <$> out).
Proof.
  intros H. rewrite <- list_fmap_compose. apply Forall2_fmap, Forall_Forall2_diag.
  eapply Forall_impl; [exact H|]. intros [a l] Hc. split; [done|]. split; [done|]. by apply ld_list_ok.
Qed.

(** A command is executed, and its answer returned. *)
Lemma gpu_command_ok (g : GpuDevice B) out hdr cmd : ready g -> snd <$> out = encode cmd ->
  placed (gmem g) (out ++ [(hdr, replicate 24 0)]) ->
  exists g', gpu_command phys g out hdr = Ok (snd (execute (hw g) cmd), g') /\
    hw g' = fst (execute (hw g) cmd) /\ ready g' /\ same_device g g'.
Proof.
  intros Hr He Hp. destruct (store_all_ok _ _ (rd_mem _ Hr) Hp) as (m & E & Hm & Hd & _ & Hall).
  unfold store_all in E. rewrite foldl_app in E. cbn [foldl] in E.
  apply Forall_app in Hall as [Hall _].
  destruct (buffer_ok_dom phys (gmem g) m hdr 24 Hd) as [Hh1 Hh2]; [apply (placed_last _ _ _ Hp)|].
  assert (length out = length (encode cmd)) as Hlen by (by rewrite <- He, length_fmap).
  pose proof (answer_word (hw g) cmd) as Hw.
  pose proof (all_sent m out Hall) as Hsent. rewrite He in Hsent.
  apply (serve_command (hw g) m cmd _ (phys hdr)) in Hsent.
  set (r := execute (hw g) cmd) in *. clearbody r. destruct r as [b' ct]. cbn [fst snd] in *.
  destruct (send_wait_ok (with_mem g m) (extent <$> out) hdr 24 (header ct) b') as (v & Es & Hr2 & Hd2 & Hc).
  - destruct Hr. by split.
  - rewrite length_fmap, Hlen. destruct cmd; cbn; lia.
  - by split.
  - apply header_ok.
  - exact Hsent.
  - unfold gpu_command. clear Hp. revert E. generalize (replicate 24 0). intros z E.
    destruct (foldl _ (Ok (gmem g)) out) as [m1| | |]; try done.
    cbn [res_bind] in E |- *. rewrite E. cbn [res_bind].
    destruct (gpu_send_chain phys (with_mem g m) _ hdr 24) as [g2| | |]; try done.
    cbn [res_bind] in Es |- *. rewrite Es. cbn [res_bind]. rewrite (answer_ok _ _ _ Hc Hw).
    eexists. split; [reflexivity|]. split; [reflexivity|]. split; [exact Hr2|].
    split; [done|]. split; [done|]. split; [done|]. by rewrite Hd2.
Qed.

(** ** The sequences of commands *)

(** The [n] bytes at [a], in memory and apart from the header at [hdr]. *)
Definition slot (m : mem) (hdr a n : Z) : Prop := buffer_ok m a n /\ apart (phys a) n (phys hdr) 24.

Record redraw_ok (m : mem) (l : redraw_frame) : Prop := mkRedrawOk {
  ro_hdr : buffer_ok m (r_hdr l) 24;
  ro_tx : slot m (r_hdr l) (r_tx l) 56;
  ro_flush : slot m (r_hdr l) (r_flush l) 48
}.

Record setup_ok (m : mem) (l : setup_frame) : Prop := mkSetupOk {
  so_hdr : buffer_ok m (s_hdr l) 24;
  so_disp : buffer_ok m (s_disp l) DISPLAY_INFO_SIZE;
  so_res2d : slot m (s_hdr l) (s_res2d l) 40;
  so_attach : slot m (s_hdr l) (s_attach l) 32;
  so_mem : slot m (s_hdr l) (s_mem l) 16;
  so_scan : slot m (s_hdr l) (s_scan l) 48;
  so_two : apart (phys (s_attach l)) 32 (phys (s_mem l)) 16
}.

Lemma slot_dom m m' hdr a n : dom m' = dom m -> slot m hdr a n -> slot m' hdr a n.
Proof. intros Hd [H1 H2]. split; [by eapply buffer_ok_dom | done]. Qed.

Lemma redraw_ok_dom m m' l : dom m' = dom m -> redraw_ok m l -> redraw_ok m' l.
Proof. intros Hd [H1 H2 H3]. split; [by eapply buffer_ok_dom | by eapply slot_dom..]. Qed.

Lemma setup_ok_dom m m' l : dom m' = dom m -> setup_ok m l -> setup_ok m' l.
Proof. intros Hd [????? ? ?]. split; eauto using buffer_ok_dom, slot_dom. Qed.

Lemma placed_one m hdr a l n : buffer_ok m hdr 24 -> slot m hdr a n -> Z.of_nat (length l) = n ->
  Forall byte_ok l -> placed m [(a, l); (hdr, replicate 24 0)].
Proof.
  intros Hh [Ha Hap] <- Hl. cbn [placed]. split; [by split|]. split; [by constructor|].
  split; [split; [done | apply zeros_ok] | by split].
Qed.

Lemma placed_two m hdr a l n b k j : buffer_ok m hdr 24 -> slot m hdr a n -> slot m hdr b j ->
  apart (phys a) n (phys b) j -> Z.of_nat (length l) = n -> Z.of_nat (length k) = j ->
  Forall byte_ok l -> Forall byte_ok k -> placed m [(a, l); (b, k); (hdr, replicate 24 0)].
Proof.
  intros Hh [Ha Hap] Hb Hab <- Hj Hl Hk. pose proof (placed_one m hdr b k j Hh Hb Hj Hk) as Hp.
  cbn [placed] in *. subst j. split; [by split|]. split; [|exact Hp].
  constructor; [done|]. by constructor.
Qed.

Lemma encode_one cmd l : encode cmd = [l] -> Forall byte_ok l.
Proof. intros E. pose proof (encode_ok cmd) as H. rewrite E in H. by inversion H. Qed.

Lemma run_cons (b : B) cmd cmds : run b (cmd :: cmds) =
  if snd (execute b cmd) =? VIRTIO_GPU_RESP_OK_NODATA then run (fst (execute b cmd)) cmds
  else (false, fst (execute b cmd)).
Proof. cbn. by destruct (execute b cmd). Qed.

Definition redraw_script (rect : Rectangle) (w h : Z) : list GpuCommand :=
  [TransferToHost2d rect (tx_offset rect w) 1; ResourceFlush (mkRect 0 0 w h) 1].

Definition setup_script (fb w h : Z) : list GpuCommand :=
  [ResourceCreate2d 1 R8G8B8A8_UNORM w h; ResourceAttachBacking 1 fb (u32 (4 * w * h));
   SetScanout (mkRect 0 0 w h) 0 1] ++ redraw_script (mkRect 0 0 w h) w h.

(** What a sequence of commands leaves: the device as [cmds] leave it, the rest the same. *)
Definition ran (g g' : GpuDevice B) (r : bool * B) : Prop :=
  hw g' = snd r /\ ready g' /\ same_device g g'.

Lemma same_device_trans g1 g2 g3 : same_device g1 g2 -> same_device g2 g3 -> same_device g1 g3.
Proof. intros (?&?&?&?) (?&?&?&?). repeat split; congruence. Qed.

(** One command, and the rest of the sequence if the device accepts it. *)
Lemma command_then g out hdr cmd cmds (k : GpuDevice B -> res (bool * GpuDevice B)) :
  ready g -> snd <$> out = encode cmd -> placed (gmem g) (out ++ [(hdr, replicate 24 0)]) ->
  (forall g1, ready g1 -> same_device g g1 -> hw g1 = fst (execute (hw g) cmd) ->
     exists g', k g1 = Ok (fst (run (hw g1) cmds), g') /\ ran g1 g' (run (hw g1) cmds)) ->
  let r := run (hw g) (cmd :: cmds) in
  exists g', (let* (ct, g1) := gpu_command phys g out hdr in
              if negb (ct =? VIRTIO_GPU_RESP_OK_NODATA) then Ok (false, g1) else k g1) = Ok (fst r, g') /\
    ran g g' r.
Proof.
  intros Hr He Hp Hk r. destruct (gpu_command_ok g out hdr cmd Hr He Hp) as (g1 & -> & E1 & Hr1 & Hs1).
  cbn [res_bind]. unfold r. rewrite run_cons.
  destruct (snd (execute (hw g) cmd) =? VIRTIO_GPU_RESP_OK_NODATA); cbn [negb].
  - destruct (Hk g1 Hr1 Hs1 E1) as (g' & -> & E2 & Hr2 & Hs2). rewrite E1 in *. exists g'.
    split; [done|]. split; [done|]. split; [done|]. by eapply same_device_trans.
  - exists g1. split; [done|]. by split.
Qed.

Lemma gpu_redraw_ok l rect g : ready g -> redraw_ok (gmem g) l ->
  let r := run (hw g) (redraw_script rect (width g) (height g)) in
  exists g', gpu_redraw phys l rect g = Ok (fst r, g') /\ ran g g' r.
Proof.
  intros Hr Hl. unfold gpu_redraw. rewrite (proj2 (Z.eqb_neq _ _) (rd_driver _ Hr)).
  apply (command_then g [(r_tx l, _)] (r_hdr l) (TransferToHost2d rect (tx_offset rect (width g)) 1)
    [ResourceFlush (mkRect 0 0 (width g) (height g)) 1]); [done | done | |].
  { destruct Hl as [H1 H2 H3]. eapply placed_one; [exact H1 | exact H2 | done |].
    by apply (encode_one (TransferToHost2d rect (tx_offset rect (width g)) 1)). }
  intros g1 Hr1 (Ew & Eh & Ef & Ed) _. destruct (redraw_ok_dom _ _ _ Ed Hl) as [H1 H2 H3].
  unfold full. rewrite Ew, Eh.
  destruct (gpu_command_ok g1 [(r_flush l, GpuResourceFlush (mkRect 0 0 (width g) (height g)) 1)] (r_hdr l)
    (ResourceFlush (mkRect 0 0 (width g) (height g)) 1) Hr1 eq_refl) as (g2 & -> & E2 & Hr2 & Hs2).
  { eapply placed_one; [exact H1 | exact H3 | done|].
    by apply (encode_one (ResourceFlush (mkRect 0 0 (width g) (height g)) 1)). }
  cbn [res_bind]. rewrite run_cons. exists g2. destruct (snd (execute _ _) =? _); by split.
Qed.

(** The first request of gpu_setup, and the frame buffer it allocates. *)
Lemma display_info_ok l g : ready g -> setup_ok (gmem g) l ->
  let '(w, h, e) := display (hw g) in
  exists m g1, st_struct phys (gmem g) (s_hdr l) (header VIRTIO_GPU_CMD_GET_DISPLAY_INFO) = Ok m /\
    (let* g := gpu_send phys (with_mem g m) (s_hdr l) 24 (s_disp l) DISPLAY_INFO_SIZE in
     gpu_wait_for_response g) = Ok g1 /\ ready g1 /\ same_device g g1 /\ hw g1 = hw g /\
    ld_le 4 (gmem g1) (phys (s_disp l)) = Ok VIRTIO_GPU_RESP_OK_DISPLAY_INFO /\
    ld_le 4 (gmem g1) (phys (s_disp l + 40)) = Ok e /\
    ld_le 4 (gmem g1) (phys (s_disp l + 32)) = Ok w /\
    ld_le 4 (gmem g1) (phys (s_disp l + 36)) = Ok h.
Proof.
  intros Hr Hl. pose proof (display_word (hw g)) as Hd. pose proof (modes_ok (hw g)) as [Hml Hmo].
  destruct (st_struct_ok (gmem g) (s_hdr l) (header VIRTIO_GPU_CMD_GET_DISPLAY_INFO) (rd_mem _ Hr)
    (so_hdr _ _ Hl) (header_ok _)) as (m & E & S & Hc).
  pose proof (serve_display (hw g) m (phys (s_hdr l)) (phys (s_disp l))) as Hsv.
  destruct (display (hw g)) as [[w h] e]. destruct Hd as (Hw & Hh & He).
  set (info := header VIRTIO_GPU_RESP_OK_DISPLAY_INFO ++ _) in *.
  assert (Z.of_nat (length info) = DISPLAY_INFO_SIZE) as Hlen.
  { unfold info, rectangle. rewrite !length_app, !le_bytes_length, Hml, header_length. done. }
  assert (Forall byte_ok info) as Hok.
  { unfold info, rectangle. rewrite !Forall_app. split_and!; (apply header_ok || apply le_bytes_ok || done). }
  destruct (so_disp _ _ Hl) as [Hdm Hdp].
  destruct (send_wait_ok (with_mem g m) [(s_hdr l, 24)] (s_disp l) DISPLAY_INFO_SIZE info (hw g)) as
    (v & Es & Hr2 & Hdom & Hinfo).
  - destruct Hr. split; [done | done | by apply (stored_ok _ _ _ _ S)].
  - cbn. lia.
  - rewrite Hlen. split; [by eapply stored_mapped | done].
  - exact Hok.
  - apply Hsv. split; [done|]. split; [done|]. by apply ld_list_ok.
  - do 2 eexists. split; [exact E|]. split; [exact Es|]. split; [exact Hr2|].
    split; [split; [done|split; [done|split; [done|]]]|].
    { rewrite Hdom. cbn. apply (stored_dom _ _ _ _ S). }
    split; [done|]. unfold DISPLAY_INFO_SIZE in Hdp. rewrite !Hdp by lia.
    pose proof (contains_word _ (s_disp l) [] VIRTIO_GPU_RESP_OK_DISPLAY_INFO
      (replicate 20 0 ++ rectangle (mkRect 0 0 w h) ++ le_bytes 4 e ++ modes (hw g)) Hinfo ltac:(done)) as H0.
    change (Z.of_nat (length [])) with 0 in H0. rewrite Z.add_0_r in H0. split; [exact H0|].
    set (p1 := header VIRTIO_GPU_RESP_OK_DISPLAY_INFO ++ le_bytes 4 0 ++ le_bytes 4 0).
    split; [|split].
    + exact (contains_word _ (s_disp l) (p1 ++ le_bytes 4 w ++ le_bytes 4 h) e (modes (hw g)) Hinfo He).
    + exact (contains_word _ (s_disp l) p1 w (le_bytes 4 h ++ le_bytes 4 e ++ modes (hw g)) Hinfo Hw).
    + exact (contains_word _ (s_disp l) (p1 ++ le_bytes 4 w) h (le_bytes 4 e ++ modes (hw g)) Hinfo Hh).
Qed.

(** The rest of gpu_setup, from the allocation on. *)
Lemma setup_rest l lr fb w h g : ready g -> setup_ok (gmem g) l -> redraw_ok (gmem g) lr ->
  width g = w -> height g = h ->
  let r := run (hw g) (setup_script (phys fb) w h) in
  exists g',
   (let* (ct, g) := gpu_command phys g
      [(s_res2d l, GpuResourceCreate2dRequest 1 R8G8B8A8_UNORM w h)] (s_hdr l) in
    if negb (ct =? VIRTIO_GPU_RESP_OK_NODATA) then Ok (false, g)
    else
      let* (ct, g) := gpu_command phys g
        [(s_attach l, GpuResourceAttachBacking 1 1);
         (s_mem l, GpuMemEntry (phys fb) (u32 (4 * w * h)))] (s_hdr l) in
      if negb (ct =? VIRTIO_GPU_RESP_OK_NODATA) then Ok (false, g)
      else
        let* (ct, g) := gpu_command phys g
          [(s_scan l, GpuSetScanoutRequest (full g) 0 1)] (s_hdr l) in
        if negb (ct =? VIRTIO_GPU_RESP_OK_NODATA) then Ok (false, g)
        else gpu_redraw phys lr (full g) g) = Ok (fst r, g') /\ ran g g' r.
Proof.
  intros Hr Hl Hlr Ew Eh. unfold setup_script. cbn [app].
  destruct Hl as [Hh _ H2 H3 H4 H5 H6].
  apply command_then; [done | done | |].
  { eapply placed_one; [exact Hh | exact H2 | done |]. by apply (encode_one (ResourceCreate2d 1 R8G8B8A8_UNORM w h)). }
  intros g1 Hr1 (Ew1 & Eh1 & _ & Ed1) _.
  apply command_then; [done | done | |].
  { pose proof (encode_ok (ResourceAttachBacking 1 (phys fb) (u32 (4 * w * h)))) as Hb.
    apply Forall_cons in Hb as [Hb1 Hb2]. apply Forall_cons in Hb2 as [Hb2 _].
    eapply placed_two; try done; eauto using slot_dom, buffer_ok_dom. }
  intros g2 Hr2 (Ew2 & Eh2 & _ & Ed2) _. unfold full.
  rewrite Ew2, Eh2, Ew1, Eh1, Ew, Eh.
  assert (dom (gmem g2) = dom (gmem g)) as Ed by congruence.
  apply command_then; [done | done | |].
  { eapply placed_one; try done; eauto using slot_dom, buffer_ok_dom.
    by apply (encode_one (SetScanout (mkRect 0 0 w h) 0 1)). }
  intros g3 Hr3 (Ew3 & Eh3 & _ & Ed3) _.
  rewrite Ew3, Eh3, Ew2, Eh2, Ew1, Eh1, Ew, Eh.
  pose proof (gpu_redraw_ok lr (mkRect 0 0 w h) g3 Hr3) as H.
  rewrite Ew3, Eh3, Ew2, Eh2, Ew1, Eh1, Ew, Eh in H. apply H.
  eapply redraw_ok_dom; [|exact Hlr]. congruence.
Qed.

(** (C29) gpu_setup on a device that serves its queue: without an enabled display it says
    false and sends nothing more. With one it takes its size, and what it returns and the
    state of the device are those of the script create a resource, attach the frame
    buffer, set the scan-out, transfer, flush, run up to the first command the device
    refuses; the queue is free again in every case. *)
Theorem gpu_setup_correct l lr fb g : ready g -> setup_ok (gmem g) l -> redraw_ok (gmem g) lr ->
  let '(w, h, e) := display (hw g) in
  (e <> 1 -> exists g', gpu_setup phys l lr fb g = Ok (false, g') /\ hw g' = hw g /\ ready g') /\
  (e = 1 -> fb <> 0 -> 4 * w * h < 2 ^ 31 -> mapped (gmem g) (phys fb) (4 * w * h) ->
   let r := run (hw g) (setup_script (phys fb) w h) in
   exists g', gpu_setup phys l lr fb g = Ok (fst r, g') /\ hw g' = snd r /\ ready g' /\
     width g' = w /\ height g' = h /\ framebuffer g' = fb).
Proof.
  intros Hr Hl Hlr. pose proof (display_info_ok l g Hr Hl) as H. pose proof (display_word (hw g)) as Hd.
  destruct (display (hw g)) as [[w h] e].
  destruct H as (m & g1 & E1 & E2 & Hr1 & (_ & _ & _ & Ed1) & Eh & L0 & L40 & L32 & L36).
  unfold gpu_setup. rewrite E1. cbn [res_bind].
  destruct (gpu_send phys _ _ _ _ _) as [g0| | |]; try done. cbn [res_bind] in E2 |- *.
  rewrite E2. cbn [res_bind]. rewrite L0, L40. cbn [res_bind]. rewrite Z.eqb_refl. cbn [negb orb].
  split.
  - intros He. rewrite (proj2 (Z.eqb_neq _ _) He). cbn [negb]. by exists g1.
  - intros He Hfb Hsz Hm. cbv zeta. subst e. cbn [Z.eqb Pos.eqb negb]. rewrite L32, L36. cbn [res_bind].
    destruct Hd as (Hw & Hh & _). assert (0 <= 4 * w * h) as H0 by lia.
    unfold kzalloc. rewrite (proj2 (Z.eqb_neq _ _) Hfb), u64_id, s32_id by lia.
    destruct (fill_spec (Z.to_nat (4 * w * h)) (gmem g1) (phys fb) 0) as (m2 & -> & S & _).
    { rewrite Z2Nat.id by lia. by eapply mapped_dom. }
    cbn [res_bind]. assert (dom m2 = dom (gmem g)) as Ed
      by (rewrite (stored_dom _ _ _ _ S); exact Ed1).
    destruct (setup_rest l lr fb w h (mkGpu (viodev g1) m2 (hw g1) w h fb)) as
      (g' & E & H1 & H2 & H3 & H4 & H5 & _); try done.
    + destruct Hr1. split; [done | done |]. by apply (stored_ok _ _ _ _ S).
    + by eapply setup_ok_dom.
    + by eapply redraw_ok_dom.
    + exists g'. cbn [hw] in E, H1. rewrite <- Eh. by split.
Qed.

(** gpu_redraw transfers the rectangle, from the byte of the frame buffer where it
    begins, and flushes the whole screen; it stops at the first command the device
    refuses and says so. *)
Theorem gpu_redraw_correct l rect g : ready g -> redraw_ok (gmem g) l ->
  let r := run (hw g) [TransferToHost2d rect (u64 (rx rect * 4 + u32 (ry rect * width g) * 4)) 1;
                       ResourceFlush (mkRect 0 0 (width g) (height g)) 1] in
  exists g', gpu_redraw phys l rect g = Ok (fst r, g') /\ hw g' = snd r /\ ready g' /\
    width g' = width g /\ height g' = height g /\ framebuffer g' = framebuffer g.
Proof.
  intros Hr Hl. destruct (gpu_redraw_ok l rect g Hr Hl) as (g' & E & H1 & H2 & H3 & H4 & H5 & _).
  by exists g'.
Qed.

End correct.

(** ** A device that accepts every command but a flush of no rows, and records them *)

Fixpoint from_le (l : list Z) : Z := match l with [] => 0 | b :: l' => b + 256 * from_le l' end.

Lemma from_le_bytes n : forall v, from_le (le_bytes n v) = v mod 2 ^ (8 * Z.of_nat n).
Proof.
  induction n as [|n IH]; intros v; cbn [le_bytes from_le]; [by rewrite Z.mod_1_r|].
  rewrite IH. replace (8 * Z.of_nat (S n)) with (8 + 8 * Z.of_nat n) by lia.
  rewrite Z.pow_add_r by lia. unfold u8. change (2 ^ 8) with 256. by rewrite (Z.rem_mul_r v 256) by lia.
Qed.

Definition field (l : list Z) (off n : nat) : Z := from_le (take n (drop off l)).

Definition rect_of (l : list Z) : Rectangle :=
  mkRect (field l 24 4) (field l 28 4) (field l 32 4) (field l 36 4).

(** The command in the buffers of a request. *)
Definition decode (bufs : list (list Z)) : option GpuCommand :=
  match bufs with
  | [l] =>
      let t := field l 0 4 in
      if t =? VIRTIO_GPU_CMD_RESOURCE_CREATE_2D then
        Some (ResourceCreate2d (field l 24 4) (field l 28 4) (field l 32 4) (field l 36 4))
      else if t =? VIRTIO_GPU_CMD_SET_SCANOUT then Some (SetScanout (rect_of l) (field l 40 4) (field l 44 4))
      else if t =? VIRTIO_GPU_CMD_TRANSFER_TO_HOST_2D then
        Some (TransferToHost2d (rect_of l) (field l 40 8) (field l 48 4))
      else if t =? VIRTIO_GPU_CMD_RESOURCE_FLUSH then Some (ResourceFlush (rect_of l) (field l 40 4))
      else None
  | [l; d] => Some (ResourceAttachBacking (field l 24 4) (field d 0 8) (field d 8 4))
  | _ => None
  end.

(** A command as the fields of its structure hold it. *)
Definition wrap_rect (r : Rectangle) : Rectangle :=
  mkRect (u32 (rx r)) (u32 (ry r)) (u32 (rwidth r)) (u32 (rheight r)).

Definition wrap (cmd : GpuCommand) : GpuCommand :=
  match cmd with
  | ResourceCreate2d id f w h => ResourceCreate2d (u32 id) (u32 f) (u32 w) (u32 h)
  | ResourceAttachBacking id a n => ResourceAttachBacking (u32 id) (u64 a) (u32 n)
  | SetScanout r s id => SetScanout (wrap_rect r) (u32 s) (u32 id)
  | TransferToHost2d r o id => TransferToHost2d (wrap_rect r) (u64 o) (u32 id)
  | ResourceFlush r id => ResourceFlush (wrap_rect r) (u32 id)
  end.

Lemma field_word l off v : take 4 (drop off l) = le_bytes 4 v -> field l off 4 = u32 v.
Proof. intros E. unfold field. rewrite E. apply from_le_bytes. Qed.

Lemma field_dword l off v : take 8 (drop off l) = le_bytes 8 v -> field l off 8 = u64 v.
Proof. intros E. unfold field. rewrite E. apply from_le_bytes. Qed.

(** What the driver writes is what the device reads. *)
Lemma decode_encode cmd : decode (encode cmd) = Some (wrap cmd).
Proof.
  destruct cmd as [id f w h|id a n|r s id|r o id|r id]; cbn [encode decode wrap]; unfold rect_of, wrap_rect.
  - rewrite (field_word _ 0 VIRTIO_GPU_CMD_RESOURCE_CREATE_2D) by done.
    rewrite (field_word _ 24 id), (field_word _ 28 f), (field_word _ 32 w), (field_word _ 36 h) by done. done.
  - rewrite (field_word _ 24 id), (field_dword _ 0 a), (field_word _ 8 n) by done. done.
  - rewrite (field_word _ 0 VIRTIO_GPU_CMD_SET_SCANOUT) by done.
    rewrite (field_word _ 24 (rx r)), (field_word _ 28 (ry r)), (field_word _ 32 (rwidth r)),
      (field_word _ 36 (rheight r)), (field_word _ 40 s), (field_word _ 44 id) by done. done.
  - rewrite (field_word _ 0 VIRTIO_GPU_CMD_TRANSFER_TO_HOST_2D) by done.
    rewrite (field_word _ 24 (rx r)), (field_word _ 28 (ry r)), (field_word _ 32 (rwidth r)),
      (field_word _ 36 (rheight r)), (field_dword _ 40 o), (field_word _ 48 id) by done. done.
  - rewrite (field_word _ 0 VIRTIO_GPU_CMD_RESOURCE_FLUSH) by done.
    rewrite (field_word _ 24 (rx r)), (field_word _ 28 (ry r)), (field_word _ 32 (rwidth r)),
      (field_word _ 36 (rheight r)), (field_word _ 40 id) by done. done.
Qed.

Record demo_gpu := mkDemoGpu { seen : list GpuCommand; size_x : Z; size_y : Z }.

Definition demo_execute (b : demo_gpu) (cmd : GpuCommand) : demo_gpu * Z :=
  (mkDemoGpu (seen b ++ [wrap cmd]) (size_x b) (size_y b),
   match wrap cmd with
   | ResourceFlush (mkRect _ _ _ 0) _ => 0x1200
   | _ => VIRTIO_GPU_RESP_OK_NODATA
   end).

Definition demo_display (b : demo_gpu) : Z * Z * Z := (u32 (size_x b), u32 (size_y b), 1).

Definition demo_info (b : demo_gpu) : list Z :=
  let '(w, h, e) := demo_display b in
  header VIRTIO_GPU_RESP_OK_DISPLAY_INFO ++ rectangle (mkRect 0 0 w h) ++ le_bytes 4 e ++ replicate 364 0.

Definition read_buffer (m : mem) (b : buffer) : list Z :=
  match ld_list (Z.to_nat b.1.2) m b.1.1 with Ok l => l | _ => [] end.

Definition demo_serves (b : demo_gpu) (ds : list buffer) (m : mem) : demo_gpu * mem :=
  match ds with
  | [] => (b, m)
  | d :: ds' =>
      let rs := default d (last ds') in
      let bufs := read_buffer m <$> take (length ds') ds in
      match decode bufs with
      | Some cmd => let '(b', ct) := demo_execute b cmd in (b', dma m rs.1.1 (header ct))
      | None => (b, dma m rs.1.1 (demo_info b))
      end
  end.

#[export] Instance demo_gpu_device : Device demo_gpu := {
  notified b v m :=
    match new_request v with
    | Some ds => let '(b', m') := demo_serves b ds m in (b', completed v, m')
    | None => (b, v, m)
    end
}.

#[export] Program Instance demo_gpu_queue : DeviceLaws demo_gpu := { serves := demo_serves }.
Next Obligation. intros b v m ds E. cbn. by rewrite E. Qed.

Lemma wrap_wrap cmd : wrap (wrap cmd) = wrap cmd.
Proof.
  assert (forall v, u32 (u32 v) = u32 v) as E32 by (intros v; apply Z.mod_mod; lia).
  assert (forall v, u64 (u64 v) = u64 v) as E64 by (intros v; apply Z.mod_mod; lia).
  destruct cmd; cbn; unfold wrap_rect; cbn; by rewrite ?E32, ?E64.
Qed.

Lemma demo_execute_wrap b cmd : demo_execute b (wrap cmd) = demo_execute b cmd.
Proof. unfold demo_execute. by rewrite wrap_wrap. Qed.

Lemma read_sent m ds ls : Forall2 (sends m) ds ls -> read_buffer m <$> ds = ls.
Proof.
  induction 1 as [|[[a n] f] l ds ls (Hn & _ & E) _ IH]; [done|]. rewrite fmap_cons, IH. f_equal.
  unfold read_buffer. cbn. by rewrite Hn, Nat2Z.id, E.
Qed.

Lemma demo_serves_eq b ds rs n f m : ds <> [] -> demo_serves b (ds ++ [(rs, n, f)]) m =
  match decode (read_buffer m <$> ds) with
  | Some cmd => let '(b', ct) := demo_execute b cmd in (b', dma m rs (header ct))
  | None => (b, dma m rs (demo_info b))
  end.
Proof.
  intros Hne. destruct ds as [|d ds]; [done|]. unfold demo_serves. cbn [app].
  rewrite last_snoc. cbn [default from_option].
  replace (take (length (ds ++ [(rs, n, f)])) (d :: ds ++ [(rs, n, f)])) with (d :: ds); [done|].
  rewrite length_app, Nat.add_1_r. cbn [take]. by rewrite take_app_length.
Qed.

#[export] Program Instance demo_gpu_laws : GpuLaws demo_gpu := {
  display := demo_display; modes b := replicate 364 0; execute := demo_execute
}.
Next Obligation. intros b. cbn. split; [apply u32_range|]. split; [apply u32_range | lia]. Qed.
Next Obligation. intros b. split; [done | apply zeros_ok]. Qed.
Next Obligation.
  intros b cmd. unfold demo_execute. cbn.
  destruct (wrap cmd) as [| | | |[? ? ? [|?|?]] ?]; by vm_compute.
Qed.
Next Obligation.
  intros b m a rs Hs. change (demo_serves b ([(a, 24, VIRTQ_DESC_F_NEXT)] ++
    [(rs, DISPLAY_INFO_SIZE, VIRTQ_DESC_F_WRITE)]) m = (b, dma m rs (demo_info b))).
  rewrite demo_serves_eq by done.
  by rewrite (read_sent m _ [header VIRTIO_GPU_CMD_GET_DISPLAY_INFO]) by (constructor; [exact Hs | constructor]).
Qed.
Next Obligation.
  intros b m cmd ds rs Hs. change (serves b) with (demo_serves b).
  rewrite demo_serves_eq by (intros ->; apply Forall2_nil_inv_l in Hs; by destruct cmd).
  rewrite (read_sent m ds (encode cmd) Hs), decode_encode, demo_execute_wrap.
  by destruct (demo_execute b cmd).
Qed.

(** A display of 4 by 2 pixels, with the structures 64 bytes apart and the frame buffer
    at 2048. *)
Definition demo_driver : GpuDevice demo_gpu :=
  mkGpu (mkVdev 15 4 (replicate 4 (mkDesc 0 0 0 0)) (replicate 4 0) 0 0 false MUTEX_UNLOCKED 0 0)
    (mem_const 0 4096 7) (mkDemoGpu [] 4 2) 0 0 0.
Definition demo_setup : setup_frame := mkSetupFrame 64 1024 128 192 256 320.
Definition demo_redraw : redraw_frame := mkRedrawFrame 512 576 640.

Lemma demo_buffer_ok a n : 0 <= a -> a + n <= 4096 -> buffer_ok (fun p => p) (gmem demo_driver) a n.
Proof. intros. split; [|done]. eapply mapped_mono; [apply mem_const_mapped | lia | lia]. Qed.

Lemma demo_ready : ready demo_driver.
Proof.
  split; [split; cbn; try done; lia | discriminate|]. by apply mem_const_ok.
Qed.

Lemma demo_slot hdr a n : 0 <= a -> a + n <= 4096 -> a + n <= hdr \/ hdr + 24 <= a ->
  slot (fun p => p) (gmem demo_driver) hdr a n.
Proof. intros. split; [by apply demo_buffer_ok | done]. Qed.

Lemma demo_setup_ok : setup_ok (fun p => p) (gmem demo_driver) demo_setup.
Proof.
  split.
  - exact (demo_buffer_ok 64 24 ltac:(lia) ltac:(lia)).
  - exact (demo_buffer_ok 1024 408 ltac:(lia) ltac:(lia)).
  - exact (demo_slot 64 128 40 ltac:(lia) ltac:(lia) ltac:(lia)).
  - exact (demo_slot 64 192 32 ltac:(lia) ltac:(lia) ltac:(lia)).
  - exact (demo_slot 64 256 16 ltac:(lia) ltac:(lia) ltac:(lia)).
  - exact (demo_slot 64 320 48 ltac:(lia) ltac:(lia) ltac:(lia)).
  - left. discriminate.
Qed.

Lemma demo_redraw_ok : redraw_ok (fun p => p) (gmem demo_driver) demo_redraw.
Proof.
  split.
  - exact (demo_buffer_ok 512 24 ltac:(lia) ltac:(lia)).
  - exact (demo_slot 512 576 56 ltac:(lia) ltac:(lia) ltac:(lia)).
  - exact (demo_slot 512 640 48 ltac:(lia) ltac:(lia) ltac:(lia)).
Qed.

Lemma gpu_setup_correct_witness :
  ready demo_driver /\ exists g', gpu_setup (fun p => p) demo_setup demo_redraw 2048 demo_driver = Ok (true, g') /\
    seen (hw g') = [ResourceCreate2d 1 67 4 2; ResourceAttachBacking 1 2048 32;
                    SetScanout (mkRect 0 0 4 2) 0 1; TransferToHost2d (mkRect 0 0 4 2) 0 1;
                    ResourceFlush (mkRect 0 0 4 2) 1].
Proof.
  split; [exact demo_ready|].
  destruct (gpu_setup_correct (fun p => p) demo_setup demo_redraw 2048 demo_driver demo_ready
    demo_setup_ok demo_redraw_ok) as [_ (g' & E & Eh & _)].
  - reflexivity.
  - discriminate.
  - reflexivity.
  - apply (demo_buffer_ok 2048 32); lia.
  - exists g'. split; [exact E|]. rewrite Eh. by vm_compute.
Defined.

Lemma gpu_redraw_correct_witness :
  ready demo_driver /\ exists g',
    gpu_redraw (fun p => p) demo_redraw (mkRect 1 1 1 1) demo_driver = Ok (false, g') /\
    seen (hw g') = [TransferToHost2d (mkRect 1 1 1 1) 4 1; ResourceFlush (mkRect 0 0 0 0) 1].
Proof.
  split; [exact demo_ready|].
  destruct (gpu_redraw_correct (fun p => p) demo_redraw (mkRect 1 1 1 1) demo_driver demo_ready
    demo_redraw_ok) as (g' & E & Eh & _).
  exists g'. split; [exact E|]. rewrite Eh. by vm_compute.
Defined.
