(* ===== verification/Minix.v ===== *)
(** The Minix 3 file system of src/src/minix3.c: the superblock, the bitmaps, inodes and
    the zones of a file.

    [FileSystem] is the static [fs] with the disk it stands on. Inodes in use are cached:
    a [cacheEntry] is reached by its address, so that descriptors that point to the same
    inode share it; a directory's [Map] is the finite map that [HashMap] proves map.c to
    implement. Buffers of one transfer are byte lists; that their [kmalloc] succeeds is
    assumed, as the code does not check it. Byte positions go to the block layer as
    [uint32_t]. *)
From S2P Require Import Prelude Lock Disk.

Definition MINIX3_MAGIC : Z := 0x4D5A.
Definition BLOCK_SIZE : Z := 1024.
Definition NUM_POINTERS : Z := 256.
Definition NUM_ZONES : Z := 10.
Definition ZONE_INDIR : Z := 7.
Definition ZONE_DINDIR : Z := 8.
Definition ZONE_TINDIR : Z := 9.
Definition DIR_ENTRY_SIZE : Z := 64.
Definition MAX_FD_ENTRIES : Z := 256.
Definition sizeof_Inode : Z := 64.
Definition NONE32 : Z := 2 ^ 32 - 1.

(** ** Data on the disk *)

Record Inode := mkInode {
  mode : Z; nlinks : Z; uid : Z; gid : Z; isize : Z; atime : Z; mtime : Z; ctime : Z;
  zones : list Z
}.

Definition half (l : list Z) (i : Z) : Z := le_dec (take 2 (drop (Z.to_nat (2 * i)) l)).

Definition inode_of_bytes (l : list Z) : Inode :=
  mkInode (half l 0) (half l 1) (half l 2) (half l 3) (word l 2) (word l 3) (word l 4)
    (word l 5) (word l <$> seqZ 6 NUM_ZONES).

Definition bytes_of_inode (x : Inode) : list Z :=
  le_enc 2 (mode x) ++ le_enc 2 (nlinks x) ++ le_enc 2 (uid x) ++ le_enc 2 (gid x) ++
  le_enc 4 (isize x) ++ le_enc 4 (atime x) ++ le_enc 4 (mtime x) ++ le_enc 4 (ctime x) ++
  (zones x ≫= le_enc 4).

Definition zone_of (x : Inode) (i : Z) : Z := default 0 (zones x !! Z.to_nat i).

Definition set_zone (x : Inode) (i v : Z) : Inode :=
  mkInode (mode x) (nlinks x) (uid x) (gid x) (isize x) (atime x) (mtime x) (ctime x)
    (<[Z.to_nat i := v]> (zones x)).

Definition set_isize (x : Inode) (n : Z) : Inode :=
  mkInode (mode x) (nlinks x) (uid x) (gid x) n (atime x) (mtime x) (ctime x) (zones x).

Definition set_mode (x : Inode) (n : Z) : Inode :=
  mkInode n (nlinks x) (uid x) (gid x) (isize x) (atime x) (mtime x) (ctime x) (zones x).

Record superblock := mkSuper {
  sb_num_inodes : Z; imap_blocks : Z; zmap_blocks : Z; first_data_zone : Z;
  log_zone_size : Z; max_size : Z; sb_num_zones : Z; magic : Z; disk_version : Z
}.

Definition superblock_of_bytes (l : list Z) : superblock :=
  mkSuper (word l 0) (half l 3) (half l 4) (half l 5) (half l 6) (word l 4) (word l 5)
    (half l 12) (default 0 (l !! 30%nat)).

(** [S_ISDIR] of stat.h. *)
Definition S_ISDIR (m : Z) : bool := Z.land m 0xf000 =? 0x4000.

(** ** Data in the kernel *)

Record cacheEntry := mkEntry {
  cached_inode : Inode; directory_map : Z; inode_num : Z; num_entries : Z
}.

(** Where a descriptor stands in its file: [zone_indices] and [fp_block_offset]. *)
Record pos := mkPos { zi0 : Z; zi1 : Z; zi2 : Z; zi3 : Z; fp_block_offset : Z }.

Record fileDescriptorEntry := mkFd {
  file_inode : Z;
  fp_byte_offset : Z;
  at_pos : pos;
  taken : Z;
  read_enabled : bool;
  write_enabled : bool;
  file_pointer : Z;
  total_read : Z;
  cache_entry : Z;
  fd_lock : Mutex
}.

Section minix.
Context {D : Type} `{!Disk D}.

Record FileSystem := mkFs {
  bd : D;
  sb : superblock;
  block_size : Z;
  imap_blocks_start : Z;
  zmap_blocks_start : Z;
  inodes_start : Z;
  zones_start : Z;
  imap_allocd : list Z;
  zmap_allocd : list Z;
  num_inodes : Z;
  num_zones : Z;
  new_zone_pointer_add : Z;
  entries : gmap Z cacheEntry;
  dirs : gmap Z (gmap (list Z) Z);
  dirent_cache : Z;
  fd_table : list fileDescriptorEntry;
  table_lock : Mutex
}.

Definition set_bd (f : FileSystem) (d : D) : FileSystem :=
  mkFs d (sb f) (block_size f) (imap_blocks_start f) (zmap_blocks_start f) (inodes_start f)
    (zones_start f) (imap_allocd f) (zmap_allocd f) (num_inodes f) (num_zones f)
    (new_zone_pointer_add f) (entries f) (dirs f) (dirent_cache f) (fd_table f)
    (table_lock f).

Definition set_maps (f : FileSystem) (im zm : list Z) : FileSystem :=
  mkFs (bd f) (sb f) (block_size f) (imap_blocks_start f) (zmap_blocks_start f)
    (inodes_start f) (zones_start f) im zm (num_inodes f) (num_zones f)
    (new_zone_pointer_add f) (entries f) (dirs f) (dirent_cache f) (fd_table f)
    (table_lock f).

Definition set_cache (f : FileSystem) (es : gmap Z cacheEntry)
    (ds : gmap Z (gmap (list Z) Z)) : FileSystem :=
  mkFs (bd f) (sb f) (block_size f) (imap_blocks_start f) (zmap_blocks_start f)
    (inodes_start f) (zones_start f) (imap_allocd f) (zmap_allocd f) (num_inodes f)
    (num_zones f) (new_zone_pointer_add f) es ds (dirent_cache f) (fd_table f)
    (table_lock f).

Definition set_table (f : FileSystem) (t : list fileDescriptorEntry) (l : Mutex) :
    FileSystem :=
  mkFs (bd f) (sb f) (block_size f) (imap_blocks_start f) (zmap_blocks_start f)
    (inodes_start f) (zones_start f) (imap_allocd f) (zmap_allocd f) (num_inodes f)
    (num_zones f) (new_zone_pointer_add f) (entries f) (dirs f) (dirent_cache f) t l.

(** [block_read_wrapper(g_bdev, buf, a, n)] and [block_write_wrapper]: the result is
    tested, ignored, or followed by [while (1);]. *)
Definition fs_read (f : FileSystem) (a n : Z) : option (list Z) :=
  block_read_wrapper (bd f) (u32 a) (u32 n).

Definition fs_write (f : FileSystem) (a : Z) (l : list Z) : bool * FileSystem :=
  let '(ok, d) := block_write_wrapper (bd f) (u32 a) l in (ok, set_bd f d).

Definition read_or_hang (f : FileSystem) (a n : Z) : res (list Z) :=
  match fs_read f a n with Some l => Ok l | None => Hang end.

Definition write_or_hang (f : FileSystem) (a : Z) (l : list Z) : res FileSystem :=
  let '(ok, f') := fs_write f a l in if ok then Ok f' else Hang.

(** ** Bitmaps: elements are numbered from 1 *)

Definition bitmap_taken (bitmap : list Z) (elem_num : Z) : res bool :=
  let elem_num := u32 (elem_num - 1) in
  let block_offset := Z.shiftr elem_num 3 in
  let bit_offset := elem_num mod 8 in
  let* b := deref (bitmap !! Z.to_nat block_offset) in
  Ok (negb (Z.land b (Z.shiftl 1 bit_offset) =? 0)).

Definition bitmap_set (bitmap : list Z) (elem_num : Z) : res (list Z) :=
  let elem_num := u32 (elem_num - 1) in
  let block_offset := Z.shiftr elem_num 3 in
  let bit_offset := elem_num mod 8 in
  let* b := deref (bitmap !! Z.to_nat block_offset) in
  Ok (<[Z.to_nat block_offset := u8 (Z.lor b (Z.shiftl 1 bit_offset))]> bitmap).

Definition bitmap_clear (bitmap : list Z) (elem_num : Z) : res (list Z) :=
  let elem_num := u32 (elem_num - 1) in
  let block_offset := Z.shiftr elem_num 3 in
  let bit_offset := elem_num mod 8 in
  let* b := deref (bitmap !! Z.to_nat block_offset) in
  Ok (<[Z.to_nat block_offset := u8 (Z.land b (Z.lnot (Z.shiftl 1 bit_offset)))]> bitmap).

(** The first element from [i] on, below [n], whose bit (for [elem i]) is clear. *)
Definition first_clear (bitmap : list Z) (elem : Z -> Z) (i n : Z) : res (option Z) :=
  loop (S (Z.to_nat (n - i)))
    (fun i => if i <? n then
                let* t := bitmap_taken bitmap (elem i) in
                if t then Ok (Next (i + 1)) else Ok (Done (Some i))
              else Ok (Done None)) i.

Definition find_next_inode (f : FileSystem) : res (Z * FileSystem) :=
  let* r := first_clear (imap_allocd f) (fun i => i) 1 (num_inodes f) in
  match r with
  | None => Ok (0, f)
  | Some i =>
      let* im := bitmap_set (imap_allocd f) i in
      let f := set_maps f im (zmap_allocd f) in
      Ok (i, snd (fs_write f (imap_blocks_start f)
                    (take (Z.to_nat (u32 (block_size f * imap_blocks (sb f)))) im)))
  end.

(** 0 means that no zone was found, and then the code spins; element 0 has the same
    number, so that a free bit 0 is taken, written out, and spins too. *)
Definition find_next_datazone (f : FileSystem) : res (Z * FileSystem) :=
  let* r := first_clear (zmap_allocd f) (fun i => i + 1) 0 (num_zones f) in
  match r with
  | None => Hang
  | Some i =>
      let* zm := bitmap_set (zmap_allocd f) (i + 1) in
      let f := set_maps f (imap_allocd f) zm in
      let f := snd (fs_write f (zmap_blocks_start f)
                      (take (Z.to_nat (u32 (block_size f * zmap_blocks (sb f)))) zm)) in
      if i =? 0 then Hang else Ok (i, f)
  end.

(** [None] is [false]; the buffer is then what it was. *)
Definition inode_get (f : FileSystem) (n : Z) : option Inode :=
  if n =? 0 then None
  else inode_of_bytes <$> fs_read f (inodes_start f + u32 (n - 1) * sizeof_Inode) sizeof_Inode.

(** The inode's place on the disk, as [open], [write] and [close] compute it. *)
Definition inode_adr (f : FileSystem) (n : Z) : Z := inodes_start f + 64 * u32 (n - 1).

(** ** The next zone of a file *)

(** The [for] loop over a block of pointers: the first one in use from [j] on. *)
Fixpoint find_ptr (n : nat) (ptr : Z -> Z) (j : Z) : option Z :=
  match n with
  | O => None
  | S n' => if ptr j =? 0 then find_ptr n' ptr (j + 1) else Some j
  end.

Definition find_below (np : Z) (ptr : Z -> Z) (j : Z) : option Z :=
  find_ptr (Z.to_nat (np - j)) ptr j.

(** [Next p] goes on to the next level with [p]; [Done p] returns [true]. *)
Definition next_direct (inode : Inode) (p : pos) : ctl pos pos :=
  if zi0 p <? ZONE_INDIR then
    match find_below ZONE_INDIR (zone_of inode) (zi0 p + 1) with
    | Some i => Done (mkPos i (zi1 p) (zi2 p) (zi3 p) (zone_of inode i))
    | None =>
        Next (mkPos ZONE_INDIR NONE32 (zi2 p) (zi3 p)
                (if zi0 p + 1 <? ZONE_INDIR then zone_of inode (ZONE_INDIR - 1)
                 else fp_block_offset p))
    end
  else Next p.

Definition next_indir (f : FileSystem) (inode : Inode) (p : pos) : res (ctl pos pos) :=
  let num_pointers := block_size f / 4 in
  if (zi0 p =? ZONE_INDIR) && negb (zone_of inode ZONE_INDIR =? 0) then
    let* spointer := read_or_hang f (zone_of inode ZONE_INDIR * block_size f) (block_size f) in
    match find_below num_pointers (word spointer) (u32 (zi1 p + 1)) with
    | Some j => Ok (Done (mkPos (zi0 p) j (zi2 p) (zi3 p) (word spointer j)))
    | None => Ok (Next (mkPos ZONE_DINDIR 0 NONE32 (zi3 p) (fp_block_offset p)))
    end
  else Ok (Next p).

(** The loop over the first level; the result is [(j, k, pointer)]. *)
Fixpoint dindir_loop (n : nat) (f : FileSystem) (dpointer : list Z) (j z2 : Z) :
    res (option (Z * Z * Z)) :=
  let num_pointers := block_size f / 4 in
  match n with
  | O => Ok None
  | S n' =>
      if word dpointer j =? 0 then dindir_loop n' f dpointer (j + 1) z2
      else
        let* spointer := read_or_hang f (word dpointer j * block_size f) (block_size f) in
        match find_below num_pointers (word spointer) (u32 (z2 + 1)) with
        | Some k => Ok (Some (j, k, word spointer k))
        | None => dindir_loop n' f dpointer (j + 1) NONE32
        end
  end.

Definition next_dindir (f : FileSystem) (inode : Inode) (p : pos) : res (ctl pos pos) :=
  let num_pointers := block_size f / 4 in
  if (zi0 p =? ZONE_DINDIR) && negb (zone_of inode ZONE_DINDIR =? 0) then
    let* dpointer := read_or_hang f (zone_of inode ZONE_DINDIR * block_size f) (block_size f) in
    let* r := dindir_loop (Z.to_nat (num_pointers - zi1 p)) f dpointer (zi1 p) (zi2 p) in
    match r with
    | Some (j, k, z) => Ok (Done (mkPos (zi0 p) j k (zi3 p) z))
    | None =>
        if zi1 p <=? num_pointers then Ok (Next (mkPos ZONE_TINDIR 0 0 NONE32 (fp_block_offset p)))
        else Ok (Next p)
    end
  else Ok (Next p).

(** A file that reaches its triply indirect zones stops the kernel: [while (1);]. *)
Definition get_next_zone (f : FileSystem) (inode : Inode) (p : pos) : res (bool * pos) :=
  match next_direct inode p with
  | Done p => Ok (true, p)
  | Next p =>
      let* r := next_indir f inode p in
      match r with
      | Done p => Ok (true, p)
      | Next p =>
          let* r := next_dindir f inode p in
          match r with
          | Done p => Ok (true, p)
          | Next p =>
              if (zi0 p =? ZONE_TINDIR) && negb (zone_of inode ZONE_TINDIR =? 0) then Hang
              else Ok (false, p)
          end
      end
  end.

(** On failure the saved indices are put back. *)
Definition get_next_zone_wrapper (f : FileSystem) (inode : Inode) (p : pos) : res (bool * pos) :=
  let* (ok, p') := get_next_zone f inode p in
  if ok then Ok (true, p') else Ok (false, p).

(** ** Bitmaps *)

Definition bit_at (bm : list Z) (e : Z) : bool :=
  Z.testbit (default 0 (bm !! Z.to_nat ((e - 1) / 8))) ((e - 1) mod 8).

Definition in_bitmap (bm : list Z) (e : Z) : Prop :=
  1 <= e <= 8 * Z.of_nat (length bm) /\ Z.of_nat (length bm) < 2 ^ 29.

Lemma bitmap_byte bm e : in_bitmap bm e ->
  u32 (e - 1) = e - 1 /\ Z.shiftr (e - 1) 3 = (e - 1) / 8 /\
  exists b, bm !! Z.to_nat ((e - 1) / 8) = Some b.
Proof.
  intros [He Hl]. rewrite Z.shiftr_div_pow2 by lia. change (2 ^ 3) with 8.
  split; [apply u32_id; lia|]. split; [done|]. apply lookup_lt_is_Some_2. dlia.
Qed.

Lemma bitmap_taken_spec bm e : in_bitmap bm e -> bitmap_taken bm e = Ok (bit_at bm e).
Proof.
  intros H. destruct (bitmap_byte bm e H) as (Eu & E & b & Eb). unfold bitmap_taken, bit_at.
  rewrite Eu, E, Eb. cbn.
  rewrite land_one_bit by dlia. by rewrite negb_involutive.
Qed.

(** Two elements have the same byte and bit only when they are the same. *)
Lemma bit_split a b : a / 8 = b / 8 -> a mod 8 = b mod 8 -> a = b.
Proof. intros. dlia. Qed.

Lemma bitmap_update bm e (g : Z -> Z) v : in_bitmap bm e ->
  (forall b i, 0 <= i < 8 ->
     Z.testbit (g b) i = if decide (i = (e - 1) mod 8) then v else Z.testbit b i) ->
  let bm' := <[Z.to_nat ((e - 1) / 8) := u8 (g (default 0 (bm !! Z.to_nat ((e - 1) / 8))))]> bm in
  length bm' = length bm /\
  forall e', 1 <= e' -> bit_at bm' e' = if decide (e' = e) then v else bit_at bm e'.
Proof.
  intros H Hg bm'. destruct (bitmap_byte bm e H) as (_ & _ & b & Eb). unfold bm'.
  rewrite Eb. cbn [default]. split; [by rewrite length_insert|]. intros e' He'. unfold bit_at.
  destruct (decide ((e' - 1) / 8 = (e - 1) / 8)) as [Eq|Hne].
  - rewrite Eq, list_lookup_insert_eq by (by eapply lookup_lt_Some). cbn.
    rewrite u8_testbit, Hg by dlia. rewrite Eb. cbn.
    destruct (decide (e' = e)) as [->|]; [by rewrite decide_True|].
    rewrite decide_False; [done|]. intros Em. apply n.
    pose proof (bit_split (e' - 1) (e - 1) Eq Em). lia.
  - rewrite list_lookup_insert_ne by (destruct H; dlia).
    rewrite decide_False; [done|]. by intros ->.
Qed.

Lemma bitmap_set_spec bm e : in_bitmap bm e ->
  exists bm', bitmap_set bm e = Ok bm' /\ length bm' = length bm /\
    forall e', 1 <= e' -> bit_at bm' e' = if decide (e' = e) then true else bit_at bm e'.
Proof.
  intros H. destruct (bitmap_byte bm e H) as (Eu & E & b & Eb). unfold bitmap_set.
  rewrite Eu, E, Eb. cbn. eexists. split; [done|].
  pose proof (bitmap_update bm e (fun b => Z.lor b (Z.shiftl 1 ((e - 1) mod 8))) true H) as U.
  rewrite Eb in U. apply U. intros c i Hi.
  rewrite Z.lor_spec, one_bit by dlia. case_decide as Hd.
  - subst. rewrite bool_decide_eq_true_2 by done. apply orb_true_r.
  - rewrite bool_decide_eq_false_2 by congruence. apply orb_false_r.
Qed.

Lemma bitmap_clear_spec bm e : in_bitmap bm e ->
  exists bm', bitmap_clear bm e = Ok bm' /\ length bm' = length bm /\
    forall e', 1 <= e' -> bit_at bm' e' = if decide (e' = e) then false else bit_at bm e'.
Proof.
  intros H. destruct (bitmap_byte bm e H) as (Eu & E & b & Eb). unfold bitmap_clear.
  rewrite Eu, E, Eb. cbn. eexists. split; [done|].
  pose proof (bitmap_update bm e
    (fun b => Z.land b (Z.lnot (Z.shiftl 1 ((e - 1) mod 8)))) false H) as U.
  rewrite Eb in U. apply U. intros c i Hi.
  rewrite Z.land_spec, Z.lnot_spec, one_bit by dlia. case_decide as Hd.
  - subst. rewrite bool_decide_eq_true_2 by done. apply andb_false_r.
  - rewrite bool_decide_eq_false_2 by congruence. apply andb_true_r.
Qed.

(** [first_clear] finds the first clear bit. *)
Lemma first_clear_spec bm elem n i : i <= n ->
  (forall j, i <= j < n -> in_bitmap bm (elem j)) ->
  exists r, first_clear bm elem i n = Ok r /\
    match r with
    | Some j => i <= j < n /\ bit_at bm (elem j) = false /\
                forall k, i <= k < j -> bit_at bm (elem k) = true
    | None => forall k, i <= k < n -> bit_at bm (elem k) = true
    end.
Proof.
  intros Hin Hbm. unfold first_clear.
  refine (loop_total (fun j => i <= j <= n /\ forall k, i <= k < j -> bit_at bm (elem k) = true)
    (fun j => Z.to_nat (n - j)) _ _ _ _ _ _ _); [| split; lia | lia].
  intros j [Hj Hk]. destruct (Z.ltb_spec j n) as [Hlt|].
  - rewrite bitmap_taken_spec by (apply Hbm; lia). cbn [res_bind].
    destruct (bit_at bm (elem j)) eqn:E.
    + left. eexists. split; [done|]. split; [|lia]. split; [lia|]. intros k Hk'.
      destruct (decide (k = j)) as [->|]; [done | apply Hk; lia].
    + right. eexists. split; [done|]. split; [lia|]. split; [done | apply Hk].
  - right. eexists. split; [done|]. intros k Hk'. apply Hk. lia.
Qed.

(** ** Well-formed file systems *)

Context `{!DiskLaws D}.

Definition map_ok (f : FileSystem) (start blocks : Z) (bm : list Z) (n : Z) : Prop :=
  Forall byte_ok bm /\ Z.of_nat (length bm) = block_size f * blocks /\
  Z.of_nat (length bm) < 2 ^ 29 /\ n <= 8 * Z.of_nat (length bm) /\
  0 <= start /\ start + Z.of_nat (length bm) <= capacity (bd f).

Record fs_ok (f : FileSystem) : Prop := mkFsOk {
  fs_block : block_size f = 1024;
  fs_imap : map_ok f (imap_blocks_start f) (imap_blocks (sb f)) (imap_allocd f) (num_inodes f);
  fs_zmap : map_ok f (zmap_blocks_start f) (zmap_blocks (sb f)) (zmap_allocd f) (num_zones f);
  fs_inodes : 0 <= inodes_start f /\
    inodes_start f + 64 * num_inodes f <= capacity (bd f)
}.

Lemma fs_ok_table f t l : fs_ok f -> fs_ok (set_table f t l).
Proof. intros [? ? ? ?]. by split. Qed.

Lemma fs_read_ok f a n : 0 <= a -> 0 <= n -> a + n <= capacity (bd f) -> n < 2 ^ 32 ->
  fs_read f a n = Some (bytes_at (bd f) a n).
Proof.
  intros. pose proof (capacity_bound (bd f)). unfold fs_read.
  destruct (decide (n = 0)) as [->|].
  - destruct (decide (a < 2 ^ 32)) as [Ha|Ha].
    + rewrite !u32_id by lia. by apply read_law.
    + assert (a = 2 ^ 32) as -> by lia. rewrite read_law; [done | apply u32_range | done |].
      change (u32 (2 ^ 32)) with 0. change (u32 0) with 0. lia.
  - rewrite !u32_id by lia. by apply read_law.
Qed.

Lemma fs_write_ok f a l : 0 <= a < 2 ^ 32 -> a + Z.of_nat (length l) <= capacity (bd f) ->
  Forall byte_ok l ->
  exists d, fs_write f a l = (true, set_bd f d) /\ capacity d = capacity (bd f) /\
    bytes_at d a (Z.of_nat (length l)) = l /\
    (forall b, ~ (a <= b < a + Z.of_nat (length l)) -> content d b = content (bd f) b).
Proof.
  intros Ha Hc Hl. destruct (write_read (bd f) a l) as (d & E & H); [lia | done | done |].
  exists d. unfold fs_write. rewrite u32_id, E by lia. done.
Qed.

Lemma fs_write_content f a l : 0 <= a < 2 ^ 32 -> a + Z.of_nat (length l) <= capacity (bd f) ->
  Forall byte_ok l ->
  exists d, fs_write f a l = (true, set_bd f d) /\ capacity d = capacity (bd f) /\
    forall b, content d b = if decide (a <= b < a + Z.of_nat (length l))
                            then default 0 (l !! Z.to_nat (b - a)) else content (bd f) b.
Proof.
  intros Ha Hc Hl. destruct (write_law (bd f) a l) as (d & E & H); [lia | done | done |].
  exists d. unfold fs_write. rewrite u32_id, E by lia. done.
Qed.

(** ** Free zones *)

(** [f'] is [f] with element [e] of the zone map taken, in memory and on the disk. *)
Definition zone_taken (f f' : FileSystem) (e : Z) : Prop :=
  exists zm d, f' = set_bd (set_maps f (imap_allocd f) zm) d /\
    length zm = length (zmap_allocd f) /\
    (forall e', 1 <= e' -> bit_at zm e' = if decide (e' = e) then true else bit_at (zmap_allocd f) e') /\
    capacity d = capacity (bd f) /\
    bytes_at d (zmap_blocks_start f) (Z.of_nat (length zm)) = zm /\
    (forall b, ~ (zmap_blocks_start f <= b < zmap_blocks_start f + Z.of_nat (length zm)) ->
       content d b = content (bd f) b).

Lemma bitmap_set_bytes bm e bm' : Forall byte_ok bm -> bitmap_set bm e = Ok bm' ->
  Forall byte_ok bm'.
Proof.
  intros H E. unfold bitmap_set in E. inv_ok. apply Forall_insert; [done | apply u8_range].
Qed.

(** find_next_datazone takes the first free zone: the zones before it are taken, its
    bit is set in the map in memory and on the disk, and nothing else changes. When no
    zone is free, or when the free one is number 0, it spins. *)
Theorem find_next_datazone_correct f : fs_ok f -> 0 <= num_zones f ->
  zmap_blocks_start f < 2 ^ 32 ->
  (exists i f', find_next_datazone f = Ok (i, f') /\ 0 < i < num_zones f /\
     bit_at (zmap_allocd f) (i + 1) = false /\
     (forall k, 0 <= k < i -> bit_at (zmap_allocd f) (k + 1) = true) /\
     zone_taken f f' (i + 1)) \/
  (find_next_datazone f = Hang /\
     (bit_at (zmap_allocd f) 1 = false \/
      forall k, 0 <= k < num_zones f -> bit_at (zmap_allocd f) (k + 1) = true)).
Proof.
  intros [Hbs _ (Hb & Hlen & Hsz & Hn & H0 & Hc) _] Hz Hs. unfold find_next_datazone.
  assert (forall j, 0 <= j < num_zones f -> in_bitmap (zmap_allocd f) (j + 1)) as Hin.
  { intros j Hj. unfold in_bitmap. lia. }
  destruct (first_clear_spec (zmap_allocd f) (fun i => i + 1) (num_zones f) 0 Hz Hin)
    as (r & -> & Hr). cbn [res_bind].
  destruct r as [i|]; [|by right; split; [done|]; right].
  destruct Hr as (Hi & Hbit & Hbefore).
  destruct (bitmap_set_spec (zmap_allocd f) (i + 1) (Hin i Hi)) as (zm & E & Hl & Hbits).
  pose proof (bitmap_set_bytes _ _ _ Hb E) as Hzm. rewrite E. cbn [res_bind].
  cbn [set_maps block_size sb zmap_blocks_start].
  rewrite <- Hlen, u32_id, Nat2Z.id, <- Hl, firstn_all by lia.
  destruct (fs_write_ok (set_maps f (imap_allocd f) zm) (zmap_blocks_start f) zm)
    as (d & Ew & Hcap & Hrd & Hout); [lia | cbn; lia | done |]. rewrite Ew. cbn [snd].
  destruct (Z.eqb_spec i 0) as [->|].
  - right. split; [done|]. left. exact Hbit.
  - left. eexists i, _. split; [done|]. split; [lia|]. split; [done|]. split; [done|].
    exists zm, d. repeat split; done.
Qed.

(** ** The zones of a file, in order *)

(** The pointers in use among [n] from [j] on. *)
Definition in_use (ptr : Z -> Z) (j n : Z) : list Z :=
  filter (fun z => z <> 0) (ptr <$> seqZ j (n - j)).

(** The block of pointers in zone [z]. *)
Definition pointers (f : FileSystem) (z : Z) : Z -> Z :=
  word (bytes_at (bd f) (z * 1024) 1024).

(** What is left of a doubly indirect zone from entry [(j, k)] on. *)
Fixpoint rest_dindir (f : FileSystem) (n : nat) (ptr : Z -> Z) (j k : Z) : list Z :=
  match n with
  | O => []
  | S n' =>
      if ptr j =? 0 then rest_dindir f n' ptr (j + 1) k
      else in_use (pointers f (ptr j)) k NUM_POINTERS ++ rest_dindir f n' ptr (j + 1) 0
  end.

Definition rest_2 (f : FileSystem) (inode : Inode) (j k : Z) : list Z :=
  if zone_of inode ZONE_DINDIR =? 0 then []
  else rest_dindir f (Z.to_nat (NUM_POINTERS - j)) (pointers f (zone_of inode ZONE_DINDIR)) j k.

Definition rest_1 (f : FileSystem) (inode : Inode) (j : Z) : list Z :=
  if zone_of inode ZONE_INDIR =? 0 then []
  else in_use (pointers f (zone_of inode ZONE_INDIR)) j NUM_POINTERS ++ rest_2 f inode 0 0.

(** The zones that follow position [p]. *)
Definition rest (f : FileSystem) (inode : Inode) (p : pos) : list Z :=
  if zi0 p <? ZONE_INDIR then
    in_use (zone_of inode) (zi0 p + 1) ZONE_INDIR ++ rest_1 f inode 0
  else if zi0 p =? ZONE_INDIR then rest_1 f inode (u32 (zi1 p + 1))
  else rest_2 f inode (zi1 p) (u32 (zi2 p + 1)).

(** Positions [open] and [get_next_zone] produce: the indices of the levels below are -1. *)
Definition pos_ok (inode : Inode) (p : pos) : Prop :=
  zi3 p = NONE32 /\
  ((0 <= zi0 p < ZONE_INDIR /\ zi1 p = NONE32 /\ zi2 p = NONE32) \/
   (zi0 p = ZONE_INDIR /\ 0 <= zi1 p < NUM_POINTERS /\ zi2 p = NONE32 /\
      zone_of inode ZONE_INDIR <> 0) \/
   (zi0 p = ZONE_DINDIR /\ 0 <= zi1 p < NUM_POINTERS /\ 0 <= zi2 p < NUM_POINTERS /\
      zone_of inode ZONE_INDIR <> 0 /\ zone_of inode ZONE_DINDIR <> 0)).

(** The zone the indices lead to. *)
Definition zone_by (f : FileSystem) (inode : Inode) (p : pos) : Z :=
  if zi0 p <? ZONE_INDIR then zone_of inode (zi0 p)
  else if zi0 p =? ZONE_INDIR then pointers f (zone_of inode ZONE_INDIR) (zi1 p)
  else pointers f (pointers f (zone_of inode ZONE_DINDIR) (zi1 p)) (zi2 p).

(** [fp_block_offset] is that zone. *)
Definition located (f : FileSystem) (inode : Inode) (p : pos) : Prop :=
  fp_block_offset p = zone_by f inode p /\
  (zi0 p = ZONE_DINDIR -> pointers f (zone_of inode ZONE_DINDIR) (zi1 p) <> 0).

(** The blocks of pointers are on the disk. *)
Definition on_disk (f : FileSystem) (z : Z) : Prop := 0 <= z /\ z * 1024 + 1024 <= capacity (bd f).

Definition tables_ok (f : FileSystem) (inode : Inode) : Prop :=
  (zone_of inode ZONE_INDIR <> 0 -> on_disk f (zone_of inode ZONE_INDIR)) /\
  (zone_of inode ZONE_DINDIR <> 0 -> on_disk f (zone_of inode ZONE_DINDIR) /\
     forall j, 0 <= j < NUM_POINTERS ->
       pointers f (zone_of inode ZONE_DINDIR) j <> 0 ->
       on_disk f (pointers f (zone_of inode ZONE_DINDIR) j)).

Lemma in_use_step ptr j np : j < np -> in_use ptr j np =
  if ptr j =? 0 then in_use ptr (j + 1) np else ptr j :: in_use ptr (j + 1) np.
Proof.
  intros Hj. unfold in_use. rewrite seqZ_cons by lia. rewrite fmap_cons, filter_cons.
  replace (Z.succ j) with (j + 1) by lia. replace (Z.pred (np - j)) with (np - (j + 1)) by lia.
  destruct (Z.eqb_spec (ptr j) 0); [by rewrite decide_False by lia | by rewrite decide_True].
Qed.

Lemma find_below_spec np ptr j : j <= np ->
  match find_below np ptr j with
  | Some i => j <= i < np /\ ptr i <> 0 /\ in_use ptr j np = ptr i :: in_use ptr (i + 1) np
  | None => in_use ptr j np = []
  end.
Proof.
  unfold find_below. remember (Z.to_nat (np - j)) as n eqn:En. revert j En.
  induction n as [|n IH]; intros j En Hj; cbn [find_ptr].
  - replace j with np by lia. unfold in_use. by replace (np - np) with 0 by lia.
  - rewrite in_use_step by lia. destruct (Z.eqb_spec (ptr j) 0); [|auto with lia].
    specialize (IH (j + 1)). destruct (find_ptr n ptr (j + 1)); [|apply IH; lia].
    destruct IH as (Hi & H); [lia | lia |]. split; [lia | done].
Qed.

Lemma read_zone f z : block_size f = 1024 -> on_disk f z ->
  read_or_hang f (z * block_size f) (block_size f) = Ok (bytes_at (bd f) (z * 1024) 1024).
Proof.
  intros Hb [Hz Hc]. unfold read_or_hang. rewrite Hb, fs_read_ok by lia. done.
Qed.

(** What a step of [get_next_zone] does with [l], the zones left: it takes the first, or
    there is none. *)
Definition takes (f : FileSystem) (inode : Inode) (l : list Z) (p : pos) : Prop :=
  pos_ok inode p /\ located f inode p /\ l = fp_block_offset p :: rest f inode p.

Definition index_ok (z : Z) : Prop := z = NONE32 \/ 0 <= z < NUM_POINTERS.

Lemma index_next z : index_ok z -> 0 <= u32 (z + 1) <= NUM_POINTERS.
Proof. intros [->|Hz]; [done|]. unfold NUM_POINTERS in *. rewrite u32_id; lia. Qed.

Lemma index_after k : 0 <= k < NUM_POINTERS -> u32 (k + 1) = k + 1.
Proof. unfold NUM_POINTERS. intros. apply u32_id. lia. Qed.

Lemma rest_direct f inode p : zi0 p < ZONE_INDIR ->
  rest f inode p = in_use (zone_of inode) (zi0 p + 1) ZONE_INDIR ++ rest_1 f inode 0.
Proof. intros. unfold rest. by rewrite (proj2 (Z.ltb_lt _ _)). Qed.

Lemma next_direct_spec f inode p : 0 <= zi0 p < ZONE_INDIR -> zi1 p = NONE32 ->
  zi2 p = NONE32 -> zi3 p = NONE32 ->
  match next_direct inode p with
  | Done p' => takes f inode (rest f inode p) p'
  | Next p' => zi0 p' = ZONE_INDIR /\ zi1 p' = NONE32 /\ zi2 p' = NONE32 /\ zi3 p' = NONE32 /\
      rest f inode p = rest_1 f inode 0
  end.
Proof.
  intros Hp H1 H2 H3. unfold next_direct. rewrite (proj2 (Z.ltb_lt _ _)) by lia.
  pose proof (find_below_spec ZONE_INDIR (zone_of inode) (zi0 p + 1)) as H.
  rewrite rest_direct by lia. destruct (find_below _ _ _) as [i|].
  - destruct H as (Hi & Hne & E); [lia|]. split; [|split].
    + split; [done|]. left. cbn. split; [lia | done].
    + split; [|cbn; unfold ZONE_DINDIR, ZONE_INDIR in *; lia].
      unfold zone_by. cbn. by rewrite (proj2 (Z.ltb_lt i _)) by lia.
    + rewrite rest_direct by (cbn; lia). cbn. by rewrite E.
  - rewrite H by lia. done.
Qed.

Lemma next_indir_spec f inode p : fs_ok f -> tables_ok f inode ->
  zi0 p = ZONE_INDIR -> index_ok (zi1 p) -> zi2 p = NONE32 -> zi3 p = NONE32 ->
  exists c, next_indir f inode p = Ok c /\
    match c with
    | Done p' => takes f inode (rest_1 f inode (u32 (zi1 p + 1))) p'
    | Next p' =>
        (zone_of inode ZONE_INDIR = 0 /\ p' = p /\ rest_1 f inode (u32 (zi1 p + 1)) = []) \/
        (zone_of inode ZONE_INDIR <> 0 /\ zi0 p' = ZONE_DINDIR /\ zi1 p' = 0 /\
           zi2 p' = NONE32 /\ zi3 p' = NONE32 /\
           rest_1 f inode (u32 (zi1 p + 1)) = rest_2 f inode 0 0)
    end.
Proof.
  intros Hf [Hz _] H0 H1 H2 H3. unfold next_indir, rest_1. rewrite H0, Z.eqb_refl. cbn [andb].
  destruct (Z.eqb_spec (zone_of inode ZONE_INDIR) 0) as [|Hne]; cbn [negb].
  { eexists. split; [done|]. by left. }
  rewrite read_zone; [|apply (fs_block _ Hf) | auto]. cbn [res_bind]. rewrite (fs_block _ Hf).
  change (1024 / 4) with NUM_POINTERS. pose proof (index_next _ H1) as Hj.
  pose proof (find_below_spec NUM_POINTERS (pointers f (zone_of inode ZONE_INDIR)) _ (proj2 Hj)) as H.
  unfold pointers in H at 1. destruct (find_below _ _ _) as [j|]; eexists; (split; [done|]).
  - destruct H as (Hi & Hnz & ->). split; [|split].
    + split; [done|]. right. left. cbn. repeat split; auto; lia.
    + split; [done | by cbn].
    + unfold rest. cbn [zi0 zi1]. change (ZONE_INDIR <? ZONE_INDIR) with false.
      rewrite Z.eqb_refl. unfold rest_1.
      destruct (Z.eqb_spec (zone_of inode ZONE_INDIR) 0); [done|].
      rewrite index_after by lia. done.
  - right. rewrite H. done.
Qed.

Lemma dindir_loop_spec f dp : fs_ok f ->
  (forall j, 0 <= j < NUM_POINTERS -> word dp j <> 0 -> on_disk f (word dp j)) ->
  forall n j z2, 0 <= j -> j + Z.of_nat n = NUM_POINTERS -> index_ok z2 ->
  exists r, dindir_loop n f dp j z2 = Ok r /\
    let left := rest_dindir f n (word dp) j (u32 (z2 + 1)) in
    match r with
    | Some (j', k, z) => j <= j' < NUM_POINTERS /\ 0 <= k < NUM_POINTERS /\
        word dp j' <> 0 /\ z = pointers f (word dp j') k /\
        left = z :: rest_dindir f (Z.to_nat (NUM_POINTERS - j')) (word dp) j' (k + 1)
    | None => left = []
    end.
Proof.
  intros Hf Hd. induction n as [|n IH]; intros j z2 Hj Hn Hz; cbn [dindir_loop rest_dindir].
  { by eexists. }
  destruct (Z.eqb_spec (word dp j) 0) as [|Hne].
  - destruct (IH (j + 1) z2) as (r & -> & Hr); [lia | lia | done |]. exists r. split; [done|].
    destruct r as [[[j' k] z]|]; [|done]. destruct Hr as (Hj' & Hr). split; [lia | exact Hr].
  - rewrite read_zone; [|apply (fs_block _ Hf) | apply Hd; [lia | done]]. cbn [res_bind].
    rewrite (fs_block _ Hf). change (1024 / 4) with NUM_POINTERS.
    pose proof (index_next _ Hz) as Hk.
    pose proof (find_below_spec NUM_POINTERS (pointers f (word dp j)) _ (proj2 Hk)) as H.
    unfold pointers in H at 1. destruct (find_below _ _ _) as [k|].
    + destruct H as (Hi & Hnz & E). eexists. split; [done|]. cbn zeta. rewrite E.
      split; [lia|]. split; [lia|]. split; [done|]. split; [done|].
      replace (Z.to_nat (NUM_POINTERS - j)) with (S n) by lia.
      cbn [rest_dindir]. by rewrite (proj2 (Z.eqb_neq (word dp j) 0)).
    + destruct (IH (j + 1) NONE32) as (r & -> & Hr); [lia | lia | by left |].
      exists r. split; [done|]. rewrite H. change (u32 (NONE32 + 1)) with 0 in Hr.
      destruct r as [[[j' k] z]|]; [|done]. destruct Hr as (Hj' & Hr). split; [lia | exact Hr].
Qed.

Lemma next_dindir_spec f inode p : fs_ok f -> tables_ok f inode ->
  zi0 p = ZONE_DINDIR -> 0 <= zi1 p < NUM_POINTERS -> index_ok (zi2 p) -> zi3 p = NONE32 ->
  zone_of inode ZONE_INDIR <> 0 ->
  exists c, next_dindir f inode p = Ok c /\
    match c with
    | Done p' => takes f inode (rest_2 f inode (zi1 p) (u32 (zi2 p + 1))) p'
    | Next p' => zi0 p' = (if zone_of inode ZONE_DINDIR =? 0 then ZONE_DINDIR else ZONE_TINDIR) /\
        rest_2 f inode (zi1 p) (u32 (zi2 p + 1)) = []
    end.
Proof.
  intros Hf [_ Hz] H0 H1 H2 H3 Hi. unfold next_dindir, rest_2. rewrite H0, Z.eqb_refl. cbn [andb].
  destruct (Z.eqb_spec (zone_of inode ZONE_DINDIR) 0) as [|Hne]; cbn [negb].
  { eexists. split; [done|]. done. }
  destruct (Hz Hne) as [Hd Hds].
  rewrite read_zone; [|apply (fs_block _ Hf) | done]. cbn [res_bind]. rewrite (fs_block _ Hf).
  change (1024 / 4) with NUM_POINTERS.
  destruct (dindir_loop_spec f (bytes_at (bd f) (zone_of inode ZONE_DINDIR * 1024) 1024) Hf Hds
    (Z.to_nat (NUM_POINTERS - zi1 p)) (zi1 p) (zi2 p)) as (r & -> & Hr); [lia | lia | done |].
  cbn [res_bind]. destruct r as [[[j k] z]|].
  - destruct Hr as (Hj & Hk & Hjz & Hkz & E). eexists. split; [done|]. split; [|split].
    + split; [done|]. right. right. cbn. repeat split; auto; lia.
    + split; [exact Hkz | by cbn].
    + unfold pointers. rewrite E. unfold rest. cbn [zi0 zi1 zi2 fp_block_offset]. cbn.
      unfold rest_2. rewrite (proj2 (Z.eqb_neq _ _) Hne), index_after by lia. done.
  - rewrite (proj2 (Z.leb_le _ _)) by lia. eexists. split; [done|]. split; [done | exact Hr].
Qed.

(** Without triply indirect zones a file ends; with them the code stops for good. *)
Definition ends (inode : Inode) : bool :=
  (zone_of inode ZONE_INDIR =? 0) || (zone_of inode ZONE_DINDIR =? 0) ||
  (zone_of inode ZONE_TINDIR =? 0).

(** The outcome [r] of a step when the zones [l] are left. *)
Definition steps (f : FileSystem) (inode : Inode) (l : list Z) (r : res (bool * pos)) : Prop :=
  match l with
  | [] => if ends inode then exists p', r = Ok (false, p') else r = Hang
  | _ => exists p', r = Ok (true, p') /\ takes f inode l p'
  end.

Lemma steps_takes f inode l p : takes f inode l p -> steps f inode l (Ok (true, p)).
Proof. intros (H & L & E). rewrite E. exists p. split; [done|]. by split. Qed.

Lemma from_dindir f inode p : fs_ok f -> tables_ok f inode ->
  zi0 p = ZONE_DINDIR -> 0 <= zi1 p < NUM_POINTERS -> index_ok (zi2 p) -> zi3 p = NONE32 ->
  zone_of inode ZONE_INDIR <> 0 ->
  steps f inode (rest_2 f inode (zi1 p) (u32 (zi2 p + 1)))
    (let* r := next_dindir f inode p in
     match r with
     | Done p => Ok (true, p)
     | Next p => if (zi0 p =? ZONE_TINDIR) && negb (zone_of inode ZONE_TINDIR =? 0)
                 then Hang else Ok (false, p)
     end).
Proof.
  intros Hf Ht H0 H1 H2 H3 Hi.
  destruct (next_dindir_spec f inode p Hf Ht H0 H1 H2 H3 Hi) as (c & -> & Hc).
  cbn [res_bind]. destruct c as [p'|p'].
  - destruct Hc as [E ->]. rewrite E. cbn [steps]. unfold ends.
    rewrite (proj2 (Z.eqb_neq (zone_of inode ZONE_INDIR) 0) Hi).
    destruct (Z.eqb_spec (zone_of inode ZONE_DINDIR) 0); cbn; [by eauto|].
    destruct (zone_of inode ZONE_TINDIR =? 0); cbn; [by eauto | done].
  - by apply steps_takes.
Qed.

Lemma from_indir f inode p : fs_ok f -> tables_ok f inode ->
  zi0 p = ZONE_INDIR -> index_ok (zi1 p) -> zi2 p = NONE32 -> zi3 p = NONE32 ->
  steps f inode (rest_1 f inode (u32 (zi1 p + 1)))
    (let* r := next_indir f inode p in
     match r with
     | Done p => Ok (true, p)
     | Next p =>
         let* r := next_dindir f inode p in
         match r with
         | Done p => Ok (true, p)
         | Next p => if (zi0 p =? ZONE_TINDIR) && negb (zone_of inode ZONE_TINDIR =? 0)
                     then Hang else Ok (false, p)
         end
     end).
Proof.
  intros Hf Ht H0 H1 H2 H3. destruct (next_indir_spec f inode p Hf Ht H0 H1 H2 H3) as (c & -> & Hc).
  cbn [res_bind]. destruct c as [p'|p']; [|by apply steps_takes].
  destruct Hc as [(Hz & -> & ->)|(Hz & E0 & E1 & E2 & E3 & ->)].
  - unfold next_dindir. rewrite H0. cbn. rewrite H0. cbn. unfold ends. rewrite Hz. cbn. by eauto.
  - pose proof (from_dindir f inode p' Hf Ht E0) as H. rewrite E1, E2 in H. apply H; [unfold NUM_POINTERS; lia | by left | done | done].
Qed.

(** From a position [get_next_zone] moves to the first of the zones that follow and leaves
    the others to come; with none left it returns false and the position is unchanged,
    or stops forever when the file has a triply indirect zone. *)
Lemma get_next_zone_ok f inode p : fs_ok f -> tables_ok f inode -> pos_ok inode p ->
  match rest f inode p with
  | z :: l => exists p', get_next_zone_wrapper f inode p = Ok (true, p') /\
      fp_block_offset p' = z /\ rest f inode p' = l /\ pos_ok inode p' /\ located f inode p'
  | [] => get_next_zone_wrapper f inode p = if ends inode then Ok (false, p) else Hang
  end.
Proof.
  intros Hf Ht Hp. assert (steps f inode (rest f inode p) (get_next_zone f inode p)) as H.
  { unfold get_next_zone.
    destruct Hp as (H3 & [(H0 & H1 & H2)|[(H0 & H1 & H2 & Hi)|(H0 & H1 & H2 & Hi & Hd)]]).
    - pose proof (next_direct_spec f inode p H0 H1 H2 H3) as H.
      destruct (next_direct inode p) as [q|q]; [|by apply steps_takes].
      destruct H as (E0 & E1 & E2 & E3 & ->). pose proof (from_indir f inode q Hf Ht E0) as H.
      rewrite E1 in H. apply H; [by left | done | done].
    - unfold next_direct, rest. rewrite H0. apply from_indir; auto. by right.
    - unfold next_direct, rest, next_indir. rewrite H0. cbn. rewrite H0. cbn.
      apply from_dindir; auto. by right. }
  unfold get_next_zone_wrapper. destruct (rest f inode p) as [|z l]; cbn [steps] in H.
  - destruct (ends inode); [by destruct H as (p' & ->) | by rewrite H].
  - destruct H as (p' & -> & Hok & Hl & E). exists p'. injection E as -> ->. done.
Qed.

(** Going on until there is no next zone. *)
Fixpoint visit (n : nat) (f : FileSystem) (inode : Inode) (p : pos) : res (list Z) :=
  match n with
  | O => NoFuel
  | S n' =>
      let* (found, p') := get_next_zone_wrapper f inode p in
      if found : bool then
        let* zs := visit n' f inode p' in Ok (fp_block_offset p' :: zs)
      else Ok []
  end.

(** Calling get_next_zone again and again from a position visits the zones of the file
    that follow, each once and in order (direct, indirect, then doubly indirect, without
    those that are 0), and ends after the last; but it hangs there when the file has a
    triply indirect zone. *)
Theorem get_next_zone_correct f inode : fs_ok f -> tables_ok f inode ->
  forall n p, pos_ok inode p -> (length (rest f inode p) < n)%nat ->
  visit n f inode p = if ends inode then Ok (rest f inode p) else Hang.
Proof.
  intros Hf Ht. induction n as [|n IH]; intros p Hp Hn; [lia|]. cbn [visit].
  pose proof (get_next_zone_ok f inode p Hf Ht Hp) as H.
  destruct (rest f inode p) as [|z l].
  - rewrite H. by destruct (ends inode).
  - destruct H as (p' & -> & Hz & Hr & Hok & _). cbn [res_bind].
    rewrite IH, Hr by (done || (rewrite Hr; cbn in Hn; lia)).
    destruct (ends inode); cbn [res_bind]; [by rewrite Hz | done].
Qed.

(** ** Inodes on the disk *)

Definition inode_ok (x : Inode) : Prop :=
  Forall (fun v => 0 <= v < 2 ^ 16) [mode x; nlinks x; uid x; gid x] /\
  Forall (fun v => 0 <= v < 2 ^ 32) [isize x; atime x; mtime x; ctime x] /\
  length (zones x) = 10%nat /\ Forall (fun v => 0 <= v < 2 ^ 32) (zones x).

Lemma dec2 v : 0 <= v < 2 ^ 16 -> le_dec (le_enc 2 v) = v.
Proof. intros. rewrite le_dec_enc. by apply Z.mod_small. Qed.

Lemma dec4 v : 0 <= v < 2 ^ 32 -> le_dec (le_enc 4 v) = v.
Proof. intros. rewrite le_dec_enc. by apply Z.mod_small. Qed.

Lemma bytes_of_inode_length x : length (zones x) = 10%nat -> length (bytes_of_inode x) = 64%nat.
Proof.
  intros H. destruct x as [? ? ? ? ? ? ? ? z]. cbn [zones] in H.
  do 11 (destruct z as [|? z]; [discriminate || done|]); discriminate.
Qed.

Lemma bytes_of_inode_ok x : Forall byte_ok (bytes_of_inode x).
Proof.
  unfold bytes_of_inode. rewrite !Forall_app. repeat split; try apply le_enc_ok.
  induction (zones x) as [|z l IH]; [done|]. rewrite bind_cons. apply Forall_app.
  split; [apply le_enc_ok | exact IH].
Qed.

(** An inode written to the disk is read back as it was: its 64 bytes determine it. *)
Theorem inode_round_trip x : inode_ok x -> inode_of_bytes (bytes_of_inode x) = x.
Proof.
  intros (H2 & H4 & Hl & Hz). destruct x as [m n u g s a mt c z].
  cbn [mode nlinks uid gid isize atime mtime ctime zones] in *.
  repeat match goal with H : Forall _ (_ :: _) |- _ => apply Forall_cons_1 in H as [? H] end.
  unfold inode_of_bytes. f_equal; try by apply dec2. all: try by apply dec4.
  do 10 (destruct z as [|? z]; [discriminate|]). destruct z; [|discriminate].
  repeat match goal with H : Forall _ (_ :: _) |- _ => apply Forall_cons_1 in H as [? H] end.
  repeat (apply (f_equal2 cons); [by apply dec4|]). done.
Qed.

End minix.

Arguments FileSystem : clear implicits.

(** ** A small disk

    Blocks of 1024 bytes: boot, superblock, the two maps, the inodes, then zones 5 to 9.
    Inode 2 is the file "a" of 2500 bytes in zones 5 and 6 and, through the pointers in zone
    8, zone 7; zone 9 is free. *)
Definition demo_file : Inode := mkInode 0x81a4 1 0 0 2500 1 2 3 [5; 6; 0; 0; 0; 0; 0; 8; 0; 0].

Definition demo_root : Inode := mkInode 0x41ed 2 0 0 0 1 2 3 (replicate 10 0).

Definition demo_map (b : Z) : list Z := b :: replicate 1023 0.

Definition demo_disk : ramdisk :=
  replicate 2048 0 ++ demo_map 3 ++ demo_map 15 ++
  (bytes_of_inode demo_root ++ bytes_of_inode demo_file ++ replicate 896 0) ++
  replicate 1024 97 ++ replicate 1024 98 ++ replicate 1024 99 ++
  (replicate 12 0 ++ le_enc 4 7 ++ replicate 1008 0) ++ replicate 1024 0.

Definition free_descriptor : fileDescriptorEntry :=
  mkFd 0 0 (mkPos 0 NONE32 NONE32 NONE32 0) 0 false false 0 0 0 MUTEX_UNLOCKED.

Definition demo_entry : cacheEntry := mkEntry demo_file 0 2 0.

Definition demo_fs : FileSystem ramdisk :=
  mkFs demo_disk (mkSuper 16 1 1 5 0 (2 ^ 31 - 1) 10 0x4d5a 0) 1024 2048 3072 4096 5120
    (demo_map 3) (demo_map 15) 16 10 5
    {[200 := demo_entry]} {[100 := {[ [97] := 200 ]}]} 100
    (replicate 256 free_descriptor) MUTEX_UNLOCKED.

Lemma demo_fs_ok : fs_ok demo_fs.
Proof.
  assert (Forall byte_ok (demo_map 3) /\ Forall byte_ok (demo_map 15)) as [H1 H2]
    by (split; apply Forall_cons; (split; [done|]); by apply Forall_replicate).
  split; [done | | |]; cbn [imap_blocks_start zmap_blocks_start imap_allocd zmap_allocd demo_fs];
    (split; [assumption|] || idtac); vm_compute; repeat split; discriminate.
Qed.

Lemma find_next_datazone_correct_witness :
  fs_ok demo_fs /\ bit_at (zmap_allocd demo_fs) 1 = true /\
  exists i f', find_next_datazone demo_fs = Ok (i, f') /\ i = 4 /\ zone_taken demo_fs f' 5.
Proof.
  split; [exact demo_fs_ok|]. split; [done|].
  destruct (find_next_datazone_correct demo_fs demo_fs_ok ltac:(done) ltac:(done))
    as [(i & f' & E & Hi & Hb & Hk & Hz)|[E _]]; [|by vm_compute in E].
  exists i, f'. assert (i = 4) as -> by (vm_compute in E; by injection E as <-). done.
Defined.

Lemma demo_tables : tables_ok demo_fs demo_file.
Proof. split; [|done]. intros _. split; vm_compute; discriminate. Qed.

Lemma get_next_zone_correct_witness :
  fs_ok demo_fs /\ tables_ok demo_fs demo_file /\
  visit 3 demo_fs demo_file (mkPos 0 NONE32 NONE32 NONE32 5) = Ok [6; 7].
Proof.
  split; [exact demo_fs_ok|]. split; [exact demo_tables|].
  assert (rest demo_fs demo_file (mkPos 0 NONE32 NONE32 NONE32 5) = [6; 7]) as E by by vm_compute.
  rewrite (get_next_zone_correct demo_fs demo_file demo_fs_ok demo_tables 3).
  - by rewrite E.
  - split; [done|]. left. split; [split; [discriminate | reflexivity]|]. split; reflexivity.
  - rewrite E. cbn. lia.
Defined.

Lemma inode_round_trip_witness :
  inode_ok demo_file /\ inode_of_bytes (bytes_of_inode demo_file) = demo_file.
Proof.
  assert (inode_ok demo_file) as H
    by (repeat split; repeat (apply Forall_cons; split; [done|]); apply Forall_nil_2).
  split; [exact H|]. apply (inode_round_trip demo_file H).
Defined.
