(* ===== verification/MinixCache.v ===== *)
(** The directory cache of src/src/minix3.c: mounting, the cache of all directories and the
    search for a path.

    A [Map] is a finite map from names, as [HashMap] proves of map.c; the search goes
    over its keys. A path is the list of its bytes, given to [Path] in a memory of its
    own. [kmalloc] hands out the blocks of an oracle: an address, and the word the code
    finds in the field it never sets. *)
From S2P Require Import Prelude Mem Path Lock Disk Minix.

Section cache.
Context {D : Type} `{!Disk D}.

(** [minix3_parse_path]: the components [g_cache_path], of which there are [g_path_size].
    The temporary list is a Rocq list, so path_split_free at the end has no counterpart; its
    second kfree of the list head ([Path.path_split_free_double]) finds no block in use and
    does nothing. *)
Definition minix3_parse_path (path : list Z) : res (list (list Z)) :=
  path_split (mem_list 1 (path ++ [0])) 1.

(** The name [path_file_name] points to. *)
Definition file_name (path : list Z) : res (list Z) :=
  let* p := path_file_name (mem_list 1 (path ++ [0])) 1 in
  Ok (drop (Z.to_nat (p - 1)) path).

(** [minix3_get_parent_path]: "/" and the components but the last, with slashes between,
    in a buffer of 60 bytes. The array of components is allocated for one less than there
    are, but its first slot is filled before the count is compared. *)
Definition minix3_get_parent_path (path : list Z) : res (list Z) :=
  let* comps := minix3_parse_path path in
  match comps with
  | [] | [_] => Ub
  | c :: cs =>
      let parent := 47 :: c ++ mjoin ((fun x => 47 :: x) <$> removelast cs) in
      if (60 <=? length parent)%nat then Ub else Ok parent
  end.

(** [minix3_search_cache]: [comps] is [g_cache_path] from [directory_level] on; [None] is
    [NULL] with [g_inode_found] unset. *)
Fixpoint minix3_search_cache (f : FileSystem D) (current_directory_map : Z)
    (comps : list (list Z)) : res (option Z) :=
  let* map := deref (dirs f !! current_directory_map) in
  (fix over (keys : list (list Z * Z)) : res (option Z) :=
     match keys with
     | [] => Ok None
     | (current_key, current_cache_entry) :: keys =>
         match comps with
         | [] => Ub
         | c :: rest =>
             if bool_decide (current_key <> c) then over keys
             else
               let* e := deref (entries f !! current_cache_entry) in
               match rest with
               | [] => Ok (Some current_cache_entry)
               | _ =>
                   if S_ISDIR (mode (cached_inode e)) then
                     let* r := minix3_search_cache f (directory_map e) rest in
                     match r with Some x => Ok (Some x) | None => over keys end
                   else over keys
               end
         end
     end) (map_to_list map).

Definition minix3_search_cache_wrapper (f : FileSystem D) (path : list Z) : res (option Z) :=
  let* comps := minix3_parse_path path in
  minix3_search_cache f (dirent_cache f) comps.

(** ** Filling the cache *)

Record chunk := mkChunk { caddr : Z; cword : Z }.

Definition kmalloc_chunk (fresh : list chunk) : res (chunk * list chunk) :=
  match fresh with [] => Ub | c :: cs => Ok (c, cs) end.

(** The name in a directory entry: 60 bytes, of which [strncpy] copies those before the
    first zero; a key without one is read past its end. *)
Fixpoint c_string (l : list Z) : res (list Z) :=
  match l with
  | [] => Ub
  | c :: l' => if c =? 0 then Ok [] else let* s := c_string l' in Ok (c :: s)
  end.

Definition dirent_name (block : list Z) (i : Z) : res (list Z) :=
  c_string (take 60 (drop (Z.to_nat (DIR_ENTRY_SIZE * i + 4)) block)).

Definition dirent_inode (block : list Z) (i : Z) : Z := word block (16 * i).

Definition add_entry (f : FileSystem D) (a : Z) (e : cacheEntry) (map : Z) (name : list Z) :
    res (FileSystem D) :=
  let* m := deref (dirs f !! map) in
  Ok (set_cache f (<[a := e]> (entries f)) (<[map := <[name := a]> m]> (dirs f))).

Definition new_map (f : FileSystem D) (a : Z) : FileSystem D :=
  set_cache f (entries f) (<[a := ∅]> (dirs f)).

Definition set_entry (f : FileSystem D) (a : Z) (e : cacheEntry) : FileSystem D :=
  set_cache f (<[a := e]> (entries f)) (dirs f).

(** [(entries processed, elements added, file system, blocks left)] *)
Definition scan_state : Type := Z * Z * FileSystem D * list chunk.

(** One directory entry; [recur] is the call for a subdirectory. *)
Definition cache_dirent (recur : Z -> Z -> FileSystem D -> list chunk ->
      res (Z * FileSystem D * list chunk))
    (block : list Z) (current_map i : Z) (s : scan_state) : res scan_state :=
  let '(done, added, f, fresh) := s in
  let done := done + 1 in
  let n := dirent_inode block i in
  if n =? 0 then Ok (done, added, f, fresh)
  else
    let* next := deref (inode_get f n) in
    let* name := dirent_name block i in
    if S_ISDIR (mode next) then
      if bool_decide (name = [46]) || bool_decide (name = [46; 46]) then
        Ok (done, added, f, fresh)
      else
        let* (e, fresh) := kmalloc_chunk fresh in
        let* (m, fresh) := kmalloc_chunk fresh in
        let f := new_map f (caddr m) in
        let* f := add_entry f (caddr e) (mkEntry next (caddr m) n 0) current_map name in
        let* (num_elements, f, fresh) := recur n (caddr m) f fresh in
        let f := set_entry f (caddr e) (mkEntry next (caddr m) n num_elements) in
        Ok (done, added + 1, f, fresh)
    else
      let* (e, fresh) := kmalloc_chunk fresh in
      let* f := add_entry f (caddr e) (mkEntry next 0 (cword e) 0) current_map name in
      Ok (done, added + 1, f, fresh).

(** The entries of one block, until [num] are processed. *)
Fixpoint cache_block recur (block : list Z) (current_map num : Z) (l : list Z)
    (s : scan_state) : res scan_state :=
  match l with
  | [] => Ok s
  | i :: l' =>
      if s.1.1.1 =? num then Ok s
      else let* s := cache_dirent recur block current_map i s in
           cache_block recur block current_map num l' s
  end.

(** The direct zones of a directory. *)
Fixpoint cache_zones recur (inode : Inode) (current_map num : Z) (l : list Z)
    (s : scan_state) : res scan_state :=
  match l with
  | [] => Ok s
  | z :: l' =>
      let '(done, added, f, fresh) := s in
      if done =? num then Ok s
      else if zone_of inode z =? 0 then cache_zones recur inode current_map num l' s
      else
        match fs_read f (u32 (zone_of inode z * block_size f)) (block_size f) with
        | None => Ok s
        | Some block =>
            let* s := cache_block recur block current_map num
                        (seqZ 0 (block_size f / DIR_ENTRY_SIZE)) s in
            cache_zones recur inode current_map num l' s
        end
  end.

(** [n] bounds the depth of the directories. *)
Fixpoint minix3_setup_cache (n : nat) (inode_num current_map : Z) (f : FileSystem D)
    (fresh : list chunk) : res (Z * FileSystem D * list chunk) :=
  match n with
  | O => NoFuel
  | S n' =>
      let* curr_inode := deref (inode_get f inode_num) in
      let num_dir_entries := isize curr_inode / DIR_ENTRY_SIZE in
      let* (done, added, f, fresh) := cache_zones (minix3_setup_cache n') curr_inode current_map
                num_dir_entries (seqZ 0 ZONE_INDIR) (0, 0, f, fresh) in
      Ok (added, f, fresh)
  end.

(** ** Mounting *)

(** [dirents_get] takes the number of a pointer zone for its address. *)
Definition dirents_get (inode : Inode) : res unit :=
  if forallb (fun i => zone_of inode i =? 0) [ZONE_INDIR; ZONE_DINDIR; ZONE_TINDIR]
  then Ok tt else Ub.

(** The loop that looks at every inode in use. *)
Definition check_inodes (f : FileSystem D) : res unit :=
  for_up (Z.to_nat (num_inodes f - 1)) 1
    (fun i _ =>
       let* t := bitmap_taken (imap_allocd f) i in
       if t then
         let* curr_inode := deref (inode_get f i) in
         if S_ISDIR (mode curr_inode) then dirents_get curr_inode else Ok tt
       else Ok tt) tt.

(** [fs0] is the state before the call, [n] bounds the depth of the directories. *)
Definition minix3_init_dev (n : nat) (fs0 : FileSystem D) (fresh : list chunk) :
    res (FileSystem D) :=
  match fs_read fs0 1024 32 with
  | None => Ok fs0
  | Some b =>
      let sb := superblock_of_bytes b in
      if negb (magic sb =? MINIX3_MAGIC) then Ok fs0
      else
        let* (m, fresh) := kmalloc_chunk fresh in
        let* block_size :=
          (if log_zone_size sb <? 21 then Ok (Z.shiftl 1024 (log_zone_size sb)) else Ub) in
        let imap_start := 1024 * 2 in
        let zmap_start := imap_start + u32 (block_size * imap_blocks sb) in
        let inodes := zmap_start + u32 (block_size * zmap_blocks sb) in
        let zstart := u32 (block_size * first_data_zone sb) in
        let f := mkFs (bd fs0) sb block_size imap_start zmap_start inodes zstart
                   (imap_allocd fs0) (zmap_allocd fs0) (sb_num_inodes sb) (sb_num_zones sb)
                   (first_data_zone sb) (entries fs0) (<[caddr m := ∅]> (dirs fs0)) (caddr m)
                   (fd_table fs0) (table_lock fs0) in
        if negb (inodes + sizeof_Inode * sb_num_inodes sb =? zstart) then Ok f
        else
          match fs_read f imap_start (block_size * imap_blocks sb) with
          | None => Ok f
          | Some im =>
              let f := set_maps f im (zmap_allocd f) in
              let* _ := check_inodes f in
              match fs_read f zmap_start (block_size * zmap_blocks sb) with
              | None => Ok f
              | Some zm =>
                  let f := set_maps f im zm in
                  let* (_, f, _) := minix3_setup_cache n 1 (dirent_cache f) f fresh in
                  Ok f
              end
          end
  end.

End cache.
