(* ===== verification/MinixFile.v ===== *)
(** Files of the Minix 3 file system: growing a file and the calls on a descriptor, from
    src/src/minix3.c.

    A descriptor is named by its index in the table. The bytes [read] stores at [buf] and
    the bytes [write] takes from it are lists. *)
From S2P Require Import Prelude Mem Lock Disk Minix MinixCache.

Definition EBADF : Z := 9.
Definition ENOENT : Z := 2.
Definition EIO : Z := 5.
Definition O_RDONLY : Z := 0.
Definition O_WRONLY : Z := 1.
Definition O_CREAT : Z := 64.
Definition O_TRUNC : Z := 512.
Definition O_APPEND : Z := 1024.
Definition SEEK_SET : Z := 0.
Definition SEEK_CUR : Z := 1.
Definition SEEK_END : Z := 2.

Section file.
Context {D : Type} `{!Disk D}.

(** ** Growing a file: [alloc_new_zone] *)

Definition zone_adr (x : Z) : Z := u32 (x * 1024).

Definition zero_block : list Z := replicate 1024 0.

(** [pointers[i] = v] on a block of pointers. *)
Definition set_ptr (l : list Z) (i v : Z) : res (list Z) :=
  if (0 <=? i) && (4 * i + 4 <=? Z.of_nat (length l)) then Ok (set_word l i v) else Ub.

Definition get_ptr (l : list Z) (i : Z) : res Z :=
  if (0 <=? i) && (4 * i + 4 <=? Z.of_nat (length l)) then Ok (word l i) else Ub.

(** What the steps of [alloc_new_zone] change. [Done] sets [next_zone_alloc]. *)
Record place := mkPlace { pfs : FileSystem D; pinode : Inode; ppos : pos }.

Definition alloc_direct (datazone_ptr : Z) (s : place) : ctl place place :=
  let p := ppos s in
  if zi0 p <? ZONE_INDIR - 1 then
    Done (mkPlace (pfs s) (set_zone (pinode s) (zi0 p + 1) datazone_ptr)
            (mkPos (zi0 p + 1) (zi1 p) (zi2 p) (zi3 p) datazone_ptr))
  else Next s.

Definition alloc_indirect (datazone_ptr : Z) (s : place) : res (ctl place place) :=
  let '(mkPlace f inode p) := s in
  if zi0 p =? ZONE_INDIR - 1 then
    let* (n, f) := find_next_datazone f in
    let indirect_datazone_ptr := u32 (n + new_zone_pointer_add f) in
    let* t := set_ptr zero_block 0 datazone_ptr in
    let* f := write_or_hang f (zone_adr indirect_datazone_ptr) t in
    Ok (Done (mkPlace f (set_zone inode ZONE_INDIR indirect_datazone_ptr)
                (mkPos ZONE_INDIR 0 NONE32 NONE32 datazone_ptr)))
  else if zi0 p =? ZONE_INDIR then
    if zi1 p =? NUM_POINTERS - 1 then
      Ok (Next (mkPlace f inode (mkPos ZONE_DINDIR 0 0 NONE32 (fp_block_offset p))))
    else
      let* t := read_or_hang f (zone_adr (zone_of inode ZONE_INDIR)) (block_size f) in
      let* t := set_ptr t (u32 (zi1 p + 1)) datazone_ptr in
      let* f := write_or_hang f (zone_adr (zone_of inode ZONE_INDIR)) t in
      Ok (Done (mkPlace f inode
                  (mkPos (zi0 p) (u32 (zi1 p + 1)) (zi2 p) (zi3 p) datazone_ptr)))
  else Ok (Next s).

Definition alloc_dindirect (datazone_ptr : Z) (s : place) : res (ctl place place) :=
  let '(mkPlace f inode p) := s in
  if zi0 p =? ZONE_DINDIR then
    if zone_of inode ZONE_DINDIR =? 0 then
      let* (s_direct, f) := find_next_datazone f in
      let* (d_direct, f) := find_next_datazone f in
      let s_direct_ptr := u32 (s_direct + new_zone_pointer_add f) in
      let d_direct_ptr := u32 (d_direct + new_zone_pointer_add f) in
      let* s_pointers := set_ptr zero_block 0 d_direct_ptr in
      let* d_pointers := set_ptr zero_block 0 datazone_ptr in
      let* f := write_or_hang f (zone_adr s_direct_ptr) s_pointers in
      let* f := write_or_hang f (zone_adr d_direct_ptr) d_pointers in
      Ok (Done (mkPlace f (set_zone inode ZONE_DINDIR s_direct_ptr)
                  (mkPos (zi0 p) 0 0 NONE32 datazone_ptr)))
    else if (zi2 p =? NUM_POINTERS - 1) && (zi1 p <? NUM_POINTERS - 1) then
      let* (d_direct, f) := find_next_datazone f in
      let s_pointers_ptr := zone_of inode ZONE_DINDIR in
      let d_direct_ptr := u32 (d_direct + new_zone_pointer_add f) in
      let* s_pointers := read_or_hang f (zone_adr s_pointers_ptr) (block_size f) in
      let* s_pointers := set_ptr s_pointers (zi1 p + 1) d_direct_ptr in
      let* f := write_or_hang f (zone_adr s_pointers_ptr) s_pointers in
      let* d_pointers := set_ptr zero_block 0 datazone_ptr in
      let* f := write_or_hang f (zone_adr d_direct_ptr) d_pointers in
      Ok (Done (mkPlace f inode (mkPos (zi0 p) (zi1 p + 1) 0 NONE32 datazone_ptr)))
    else if (zi2 p =? NUM_POINTERS - 1) && (zi1 p =? NUM_POINTERS - 1) then
      Ok (Next (mkPlace f inode (mkPos ZONE_TINDIR (zi1 p) (zi2 p) (zi3 p) (fp_block_offset p))))
    else
      let s_pointers_ptr := zone_of inode ZONE_DINDIR in
      let* s_pointers := read_or_hang f (zone_adr s_pointers_ptr) (block_size f) in
      let* d_pointers_ptr := get_ptr s_pointers (zi1 p) in
      let* d_pointers := read_or_hang f (zone_adr d_pointers_ptr) (block_size f) in
      let* d_pointers := set_ptr d_pointers (u32 (zi2 p + 1)) datazone_ptr in
      let* f := write_or_hang f (zone_adr d_pointers_ptr) d_pointers in
      Ok (Done (mkPlace f inode
                  (mkPos (zi0 p) (zi1 p) (u32 (zi2 p + 1)) (zi3 p) datazone_ptr)))
  else Ok (Next s).

(** A transfer whose result the code ignores; a buffer left uninitialised by a failed
    read is then used. *)
Definition read_unchecked (f : FileSystem D) (a n : Z) : res (list Z) :=
  match fs_read f a n with Some l => Ok l | None => Ub end.

Definition write_unchecked (f : FileSystem D) (a : Z) (l : list Z) : FileSystem D :=
  snd (fs_write f a l).

(** The last branch of each kind: [None] is the early [return false]. The second uses
    [t_pointers_ptr], which is never set; the others read the doubly indirect zone
    where the triply indirect one is meant. *)
Definition alloc_tindirect (datazone_ptr : Z) (s : place) : res (option place) :=
  let '(mkPlace f inode p) := s in
  if zone_of inode ZONE_TINDIR =? 0 then
    let* (s_direct, f) := find_next_datazone f in
    let* (d_direct, f) := find_next_datazone f in
    let* (t_direct, f) := find_next_datazone f in
    let s_direct_ptr := u32 (s_direct + new_zone_pointer_add f) in
    let d_direct_ptr := u32 (d_direct + new_zone_pointer_add f) in
    let t_direct_ptr := u32 (t_direct + new_zone_pointer_add f) in
    let* s_pointers := set_ptr zero_block 0 d_direct_ptr in
    let* d_pointers := set_ptr zero_block 0 t_direct_ptr in
    let* t_pointers := set_ptr zero_block 0 datazone_ptr in
    let f := write_unchecked f (zone_adr s_direct_ptr) s_pointers in
    let f := write_unchecked f (zone_adr d_direct_ptr) d_pointers in
    let f := write_unchecked f (zone_adr t_direct_ptr) t_pointers in
    Ok (Some (mkPlace f (set_zone inode ZONE_TINDIR s_direct_ptr)
                (mkPos ZONE_TINDIR 0 0 0 datazone_ptr)))
  else if negb (zi3 p =? NUM_POINTERS - 1) then Ub
  else if zi2 p <? NUM_POINTERS - 1 then
    let* (t_direct, f) := find_next_datazone f in
    let s_pointers_ptr := zone_of inode ZONE_DINDIR in
    let t_pointers_ptr := u32 (t_direct + new_zone_pointer_add f) in
    let* s_pointers := read_unchecked f (zone_adr s_pointers_ptr) (block_size f) in
    let* e := get_ptr s_pointers (zi2 p) in
    let d_pointers_ptr := u32 (zones_start f + u32 (e * block_size f)) in
    let* d_pointers := read_unchecked f (zone_adr d_pointers_ptr) (block_size f) in
    let* d_pointers := set_ptr d_pointers (zi2 p + 1) t_pointers_ptr in
    let f := write_unchecked f (zone_adr d_pointers_ptr) d_pointers in
    let* t_pointers := set_ptr zero_block 0 datazone_ptr in
    let f := write_unchecked f (zone_adr t_pointers_ptr) t_pointers in
    Ok (Some (mkPlace f inode (mkPos (zi0 p) (zi1 p) 0 (zi3 p) datazone_ptr)))
  else if (zi2 p =? NUM_POINTERS - 1) && (zi1 p <? NUM_POINTERS - 1) then
    let* (d_direct, f) := find_next_datazone f in
    let* (t_direct, f) := find_next_datazone f in
    let s_pointers_ptr := zone_of inode ZONE_DINDIR in
    let d_pointers_ptr := u32 (new_zone_pointer_add f + d_direct) in
    let t_pointers_ptr := u32 (new_zone_pointer_add f + t_direct) in
    let* s_pointers := read_unchecked f (zone_adr s_pointers_ptr) (block_size f) in
    let* s_pointers := set_ptr s_pointers (zi1 p + 1) d_pointers_ptr in
    let f := write_unchecked f (zone_adr s_pointers_ptr) s_pointers in
    let* d_pointers := set_ptr zero_block 0 d_pointers_ptr in
    let* t_pointers := set_ptr zero_block 0 datazone_ptr in
    let f := write_unchecked f (zone_adr d_pointers_ptr) d_pointers in
    let f := write_unchecked f (zone_adr t_pointers_ptr) t_pointers in
    Ok (Some (mkPlace f inode (mkPos (zi0 p) (zi1 p + 1) 0 0 (fp_block_offset p))))
  else Ok None.

(** The tests of [find_next_datazone] for 0 are left out: it never returns 0. *)
Definition alloc_new_zone (f : FileSystem D) (inode : Inode) (p : pos) : res (bool * place) :=
  let* (datazone_num, f) := find_next_datazone f in
  let datazone_ptr := u32 (new_zone_pointer_add f + datazone_num) in
  let finish (s : place) :=
    let p := ppos s in
    Ok (true, mkPlace (pfs s) (pinode s) (mkPos (zi0 p) (zi1 p) (zi2 p) (zi3 p) datazone_ptr)) in
  let failed (s : place) :=
    let p := ppos s in
    Ok (false, mkPlace (pfs s) (pinode s) (mkPos (zi0 p) (zi1 p) (zi2 p) (zi3 p) datazone_ptr)) in
  match alloc_direct datazone_ptr (mkPlace f inode p) with
  | Done s => finish s
  | Next s =>
      let* r := alloc_indirect datazone_ptr s in
      match r with
      | Done s => finish s
      | Next s =>
          let* r := alloc_dindirect datazone_ptr s in
          match r with
          | Done s => finish s
          | Next s =>
              if zi0 (ppos s) =? ZONE_TINDIR then
                let* r := alloc_tindirect datazone_ptr s in
                match r with
                | Some s => finish s
                | None => Ok (false, s)
                end
              else failed s
          end
      end
  end.

(** ** Descriptors *)

Definition get_fd (f : FileSystem D) (fd : Z) : res fileDescriptorEntry :=
  if fd <? 0 then Ub else deref (fd_table f !! Z.to_nat fd).

Definition set_fd (f : FileSystem D) (fd : Z) (e : fileDescriptorEntry) : FileSystem D :=
  set_table f (<[Z.to_nat fd := e]> (fd_table f)) (table_lock f).

(** [entry->file_inode] is the inode of the cache entry at that address. *)
Definition fd_inode (f : FileSystem D) (e : fileDescriptorEntry) : res Inode :=
  let* c := deref (entries f !! file_inode e) in Ok (cached_inode c).

Definition set_fd_inode (f : FileSystem D) (e : fileDescriptorEntry) (x : Inode) :
    res (FileSystem D) :=
  let* c := deref (entries f !! file_inode e) in
  Ok (set_entry f (file_inode e) (mkEntry x (directory_map c) (inode_num c) (num_entries c))).

(** [block_write_wrapper(g_bdev, entry->file_inode, inodes_start + 64 * (inode_num - 1), 64)] *)
Definition flush_inode (f : FileSystem D) (e : fileDescriptorEntry) : res (FileSystem D) :=
  let* x := fd_inode f e in
  let* c := deref (entries f !! cache_entry e) in
  Ok (write_unchecked f (inode_adr f (inode_num c)) (bytes_of_inode x)).

Definition fd_at (e : fileDescriptorEntry) (byte_offset : Z) (p : pos) (fp total : Z) :
    fileDescriptorEntry :=
  mkFd (file_inode e) byte_offset p (taken e) (read_enabled e) (write_enabled e) fp total
    (cache_entry e) (fd_lock e).

Definition fd_locked (e : fileDescriptorEntry) (l : Mutex) : fileDescriptorEntry :=
  mkFd (file_inode e) (fp_byte_offset e) (at_pos e) (taken e) (read_enabled e)
    (write_enabled e) (file_pointer e) (total_read e) (cache_entry e) l.

Definition with_block (p : pos) (z : Z) : pos := mkPos (zi0 p) (zi1 p) (zi2 p) (zi3 p) z.

(** ** [close] *)

Definition close (f : FileSystem D) (fd : Z) : res (Z * FileSystem D) :=
  let* e := get_fd f fd in
  let* _ := mutex_spinlock (fd_lock e) in
  if negb (taken e =? 1) then Ok (0, set_fd f fd (fd_locked e (mutex_unlock MUTEX_LOCKED)))
  else
    let* f := flush_inode f e in
    Ok (0, set_fd f fd (mkFd 0 0 (mkPos 0 NONE32 NONE32 NONE32 0) 0 false false 0 0 0
                          (mutex_unlock MUTEX_LOCKED))).

(** ** [read] *)

(** The zone of a position, read again from the pointer blocks; the other levels tell
    which kind it is by the indices that are -1. [fail] is what a failed read leads to,
    with [true] for the last one of a triply indirect zone. *)
Definition zone_at {A} (f : FileSystem D) (inode : Inode) (p : pos) (fail : bool -> res A)
    (k : Z -> res A) : res A :=
  let block_or last z (k : list Z -> res A) :=
    match fs_read f (zone_adr z) BLOCK_SIZE with None => fail last | Some l => k l end in
  let block := block_or false in
  if zi1 p =? NONE32 then
    if zi0 p <? NUM_ZONES then k (zone_of inode (zi0 p)) else Ub
  else if zi2 p =? NONE32 then
    block (zone_of inode 7) (fun t => let* z := get_ptr t (zi1 p) in k z)
  else if zi3 p =? NONE32 then
    block (zone_of inode 8) (fun t => let* z := get_ptr t (zi1 p) in
      block z (fun t => let* z := get_ptr t (zi2 p) in k z))
  else
    block (zone_of inode 9) (fun t => let* z := get_ptr t (zi1 p) in
      block z (fun t => let* z := get_ptr t (zi2 p) in
        block_or true z (fun t => let* z := get_ptr t (zi3 p) in k z))).

(** One turn of the loop: [(read_bytes, bytes stored at buf, entry)]. A failed transfer
    ends it, with [entry->total_read] as it was; [Done] carries whether it did. *)
Definition read_step (f : FileSystem D) (inode : Inode) (count : Z)
    (s : Z * list Z * fileDescriptorEntry) :
    res (ctl (Z * list Z * fileDescriptorEntry) (Z * list Z * fileDescriptorEntry)) :=
  let '(read_bytes, out, e) := s in
  if negb (read_bytes <? count) then
    Ok (Done (read_bytes, out, fd_at e (fp_byte_offset e) (at_pos e) (file_pointer e)
                                 (u64 (total_read e + read_bytes))))
  else
    let max_read := u32 (BLOCK_SIZE - fp_byte_offset e) in
    let curr_read := if count - read_bytes >? max_read then max_read
                     else u32 (count - read_bytes) in
    if curr_read >? BLOCK_SIZE then Ub
    else match fs_read f (file_pointer e) curr_read with
    | None => Ok (Done (read_bytes, out, e))
    | Some l =>
        let read_bytes := read_bytes + curr_read in
        let out := out ++ l in
        if curr_read =? max_read then
          let* (worked, p) := get_next_zone_wrapper f inode (at_pos e) in
          if negb worked then Hang
          else zone_at f inode p (fun _ => Hang) (fun z =>
                 Ok (Next (read_bytes, out,
                           fd_at e 0 (with_block p z) (z * BLOCK_SIZE) (total_read e))))
        else
          Ok (Next (read_bytes, out,
                    fd_at e (fp_byte_offset e + curr_read) (at_pos e)
                      (file_pointer e + curr_read) (total_read e)))
    end.

(** The result, the bytes stored at [buf], and the file system. When a transfer fails, what
    the read buffer held is stored after them; those bytes are left out. *)
Definition read (n : nat) (f : FileSystem D) (fd count : Z) :
    res (Z * list Z * FileSystem D) :=
  if (fd <? 0) || (fd >=? MAX_FD_ENTRIES) then Ok (- EBADF, [], f)
  else
    let* e := get_fd f fd in
    if taken e =? 0 then Ok (- EBADF, [], f)
    else
      let* inode := fd_inode f e in
      let count := if u64 (count + total_read e) >? isize inode
                   then u64 (isize inode - total_read e) else count in
      let* (read_bytes, out, e) := loop n (read_step f inode count) (0, [], e) in
      Ok (read_bytes, out, set_fd f fd e).

(** ** [lseek] *)

(** [for (i = 0; i < ending_block; i++)]: [Some r] is the early [return r]. *)
Fixpoint seek_loop (n : nat) (f : FileSystem D) (inode : Inode) (i ending_block : Z) (p : pos)
    (skipped : Z) : res (option Z * pos * Z) :=
  if negb (i <? ending_block) then Ok (None, p, skipped)
  else
    match n with
    | O => NoFuel
    | S n' =>
        let* (worked, p) := get_next_zone_wrapper f inode p in
        if negb worked then Ok (None, p, skipped)
        else zone_at f inode p (fun last => Ok (Some (if last : bool then -20000 else 20000), p, skipped)) (fun z =>
               seek_loop n' f inode (i + 1) ending_block (with_block p z) (skipped + BLOCK_SIZE))
    end.

(** [SEEK_CUR] and [SEEK_END] become [SEEK_SET]. *)
Definition seek_from (inode : Inode) (e : fileDescriptorEntry) (offset whence : Z) : Z * Z :=
  let '(offset, whence) :=
    if whence =? SEEK_CUR then (s64 (offset + total_read e), SEEK_SET) else (offset, whence) in
  if whence =? SEEK_END then (s64 (offset + isize inode), SEEK_SET) else (offset, whence).

(** The tests of the unsigned [ending_block] and [ending_byte] for a negative value are
    never true. A [whence] other than the three leaves the position and seeks nowhere. *)
Definition lseek (n : nat) (f : FileSystem D) (fd offset whence : Z) : res (Z * FileSystem D) :=
  if (fd <? 0) || (fd >=? MAX_FD_ENTRIES) then Ok (- EBADF, f)
  else
    let* e := get_fd f fd in
    if taken e =? 0 then Ok (- EBADF, f)
    else
      let* inode := fd_inode f e in
      let '(offset, whence) := seek_from inode e offset whence in
      let '(e, ending_block, ending_byte) :=
        if whence =? SEEK_SET then
          let z := zone_of inode 0 in
          (fd_at e 0 (mkPos 0 NONE32 NONE32 NONE32 z) (z * BLOCK_SIZE) 0,
           u64 (Z.quot offset BLOCK_SIZE), u64 (Z.rem offset BLOCK_SIZE))
        else (e, 0, 0) in
      let* (r, p, skipped) := seek_loop n f inode 0 ending_block (at_pos e) 0 in
      match r with
      | Some r =>
          Ok (r, set_fd f fd (fd_at e (fp_byte_offset e) p (file_pointer e) (total_read e)))
      | None =>
          let e := fd_at e ending_byte p (u64 (fp_block_offset p * BLOCK_SIZE + ending_byte))
                     (u64 (total_read e + ending_byte + skipped)) in
          Ok (skipped + ending_byte, set_fd f fd e)
      end.

(** ** [write] *)

(** The next zone, allocated when the file has no more: [(worked, allocated, ..)]. *)
Definition next_or_new_zone (f : FileSystem D) (e : fileDescriptorEntry) :
    res (bool * bool * FileSystem D * fileDescriptorEntry) :=
  let at_zone p := fd_at e (fp_byte_offset e) p (file_pointer e) (total_read e) in
  let* inode := fd_inode f e in
  let* (found, p) := get_next_zone_wrapper f inode (at_pos e) in
  if found then Ok (true, false, f, at_zone p)
  else
    let* (new, s) := alloc_new_zone f inode (at_pos e) in
    let* f := set_fd_inode (pfs s) e (pinode s) in
    Ok (new, true, f, at_zone (ppos s)).

(** [total_read] past the end makes the file longer. *)
Definition grow_size (f : FileSystem D) (e : fileDescriptorEntry) : res (bool * FileSystem D) :=
  let* inode := fd_inode f e in
  if total_read e >? isize inode then
    let* f := set_fd_inode f e (set_isize inode (u32 (total_read e))) in Ok (true, f)
  else Ok (false, f).

(** A longer file is flushed at once. *)
Definition grow_and_flush (f : FileSystem D) (e : fileDescriptorEntry) : res (FileSystem D) :=
  let* (grown, f) := grow_size f e in
  if grown : bool then flush_inode f e else Ok f.

(** [entry->file_pointer = entry->fp_block_offset * 1024] *)
Definition point_to_zone (e : fileDescriptorEntry) (byte_offset : Z) : fileDescriptorEntry :=
  fd_at e byte_offset (at_pos e) (u64 (fp_block_offset (at_pos e) * 1024)) (total_read e).

(** A part of [write] goes on with what is written and left, or returns. *)
Record writing := mkWriting {
  wfs : FileSystem D; went : fileDescriptorEntry; written : Z; left : Z
}.

Definition stop (r : Z) (f : FileSystem D) (e : fileDescriptorEntry) :
    res (ctl writing (Z * FileSystem D * fileDescriptorEntry)) := Ok (Done (r, f, e)).

(** The zone the descriptor stands in. When the next zone exists already, the offset in
    the zone stays at its end. *)
Definition write_first (f : FileSystem D) (e : fileDescriptorEntry) (data : list Z) :
    res (ctl writing (Z * FileSystem D * fileDescriptorEntry)) :=
  let count := Z.of_nat (length data) in
  let bytes_remaining := u32 (1024 - fp_byte_offset e) in
  if bytes_remaining =? 0 then
    let* (ok, allocated, f, e) := next_or_new_zone f e in
    if negb ok then stop 0 f e
    else
      let* f := (if allocated : bool then flush_inode f e else Ok f) in
      Ok (Next (mkWriting f (point_to_zone e (fp_byte_offset e)) 0 (u32 count)))
  else
    let n := if count <=? bytes_remaining then u32 count else bytes_remaining in
    let f := write_unchecked f (fp_byte_offset e + fp_block_offset (at_pos e) * block_size f)
               (take (Z.to_nat n) data) in
    let e := fd_at e (fp_byte_offset e + n) (at_pos e) (file_pointer e) (total_read e + n) in
    let* f := grow_and_flush f e in
    let e := fd_at e (fp_byte_offset e) (at_pos e) (file_pointer e + n) (total_read e) in
    if n =? bytes_remaining then
      let* (ok, allocated, f, e) := next_or_new_zone f e in
      if negb ok then stop n f e
      else if allocated : bool then
        let* f := flush_inode f e in
        Ok (Next (mkWriting f (point_to_zone e 0) n (u32 (count - n))))
      else Ok (Next (mkWriting f e n (u32 (count - n))))
    else stop count f e.

(** One turn of the loop over whole zones. *)
Definition write_zone (data : list Z) (s : writing) :
    res (ctl writing (ctl writing (Z * FileSystem D * fileDescriptorEntry))) :=
  let '(mkWriting f e w l) := s in
  if l <? 1024 then Ok (Done (Next s))
  else
    let e := fd_at e 0 (at_pos e) (file_pointer e) (total_read e) in
    let '(ok, f) := fs_write f (fp_block_offset (at_pos e) * block_size f)
                      (take 1024 (drop (Z.to_nat w) data)) in
    if negb ok then Ok (Done (Done (w, f, e)))
    else
      let e := fd_at e 0 (at_pos e) (file_pointer e) (total_read e + 1024) in
      let* f := grow_and_flush f e in
      let* (ok, allocated, f, e) := next_or_new_zone f e in
      if negb ok then Ok (Done (Done (w + 1024, f, e)))
      else
        let* f := (if allocated : bool then flush_inode f e else Ok f) in
        Ok (Next (mkWriting f (point_to_zone e 0) (w + 1024) (l - 1024))).

(** The bytes that are left after the whole zones. *)
Definition write_last (data : list Z) (s : writing) :
    res (Z * FileSystem D * fileDescriptorEntry) :=
  let '(mkWriting f e w l) := s in
  if l =? 0 then let* f := flush_inode f e in Ok (w, f, e)
  else
    let '(ok, f) := fs_write f (fp_block_offset (at_pos e) * block_size f)
                      (take (Z.to_nat l) (drop (Z.to_nat w) data)) in
    if negb ok then Ok (w, f, e)
    else
      let e := fd_at e l (at_pos e) (file_pointer e + l) (total_read e + l) in
      let* (_, f) := grow_size f e in
      let* f := flush_inode f e in
      Ok (w + l, f, e).

Definition write_body (f : FileSystem D) (e : fileDescriptorEntry) (data : list Z) :
    res (Z * FileSystem D * fileDescriptorEntry) :=
  let* r := write_first f e data in
  match r with
  | Done r => Ok r
  | Next s =>
      let* r := loop (S (Z.to_nat (left s / 1024))) (write_zone data) s in
      match r with
      | Done r => Ok r
      | Next s => write_last data s
      end
  end.

(** [None] is a null [buf]. The lock of the entry is held throughout. *)
Definition write (f : FileSystem D) (fd : Z) (buf : option (list Z)) : res (Z * FileSystem D) :=
  let* e := get_fd f fd in
  let* l := mutex_spinlock (fd_lock e) in
  let unlock f e := set_fd f fd (fd_locked e (mutex_unlock l)) in
  if taken e =? 0 then Ok (-1, unlock f e)
  else
    match buf with
    | None => Ok (-1, unlock f e)
    | Some [] => Ok (-1, unlock f e)
    | Some data =>
        let* (r, f, e) := write_body f e data in
        Ok (r, unlock f e)
    end.

(** ** [open] *)

(** [directory_blocks_traversed] stays 0, so that only a directory of less than one block
    gets an address; 0 is the boot block. *)
Definition find_entry_for_parent (f : FileSystem D) (parent_inode : Inode) : Z :=
  let left_over := isize parent_inode / 64 mod 16 in
  if isize parent_inode / 1024 =? 0 then
    match find_below ZONE_INDIR (zone_of parent_inode) 0 with
    | Some i => u32 (zone_of parent_inode i * block_size f + left_over * 64)
    | None => 0
    end
  else 0.

(** What [open] finds in memory it does not initialise, and the clock: the new cache
    entry's address and [directory_map], the new inode's owner, the bytes of the
    directory entry after the name. *)
Record open_env := mkOpenEnv {
  env_entry : chunk; env_uid : Z; env_gid : Z; env_junk : list Z;
  env_atime : Z; env_mtime : Z; env_ctime : Z
}.

(** [strcpy] into [name[60]]. *)
Definition new_dirent (env : open_env) (n : Z) (name : list Z) : res (list Z) :=
  if (60 <=? length name)%nat then Ub
  else Ok (le_enc 4 n ++ name ++ 0 :: drop (S (length name)) (take 60 (env_junk env))).

(** The part under [O_CREAT]: [None] is [return -1]. *)
Definition open_create (f : FileSystem D) (path : list Z) (m : Z) (env : open_env) :
    res (option Z * FileSystem D) :=
  let* parent_path := minix3_get_parent_path path in
  let* parent := minix3_search_cache_wrapper f parent_path in
  let* parent := deref parent in
  let* pe := deref (entries f !! parent) in
  let parent_inode := cached_inode pe in
  let* (inode_n, f) := find_next_inode f in
  let* (datazone_num, f) := find_next_datazone f in
  if inode_n =? 0 then Ok (None, f)
  else
    let new_inode := mkInode (u16 m) 1 (env_uid env) (env_gid env) 0 (u32 (env_atime env))
      (u32 (env_mtime env)) (u32 (env_ctime env))
      (u32 (new_zone_pointer_add f + datazone_num) :: replicate 9 0) in
    let* name := file_name path in
    let* new_directory_entry := new_dirent env inode_n name in
    let f := write_unchecked f (find_entry_for_parent f parent_inode) new_directory_entry in
    let parent_inode := set_isize parent_inode (u32 (isize parent_inode + 64)) in
    let f := set_entry f parent
               (mkEntry parent_inode (directory_map pe) (inode_num pe) (num_entries pe)) in
    let f := write_unchecked f (inode_adr f (inode_num pe)) (bytes_of_inode parent_inode) in
    let f := write_unchecked f (inode_adr f inode_n) (bytes_of_inode new_inode) in
    let f := write_unchecked f (imap_blocks_start f)
               (take (Z.to_nat (u32 (block_size f * imap_blocks (sb f)))) (imap_allocd f)) in
    let f := write_unchecked f (zmap_blocks_start f)
               (take (Z.to_nat (u32 (block_size f * zmap_blocks (sb f)))) (zmap_allocd f)) in
    let* f := add_entry f (caddr (env_entry env))
                (mkEntry new_inode (cword (env_entry env)) inode_n 0) (directory_map pe) name in
    let* found := minix3_search_cache_wrapper f path in
    let* found := deref found in
    Ok (Some found, f).

(** [O_APPEND]: one zone further for every whole block of the file. *)
Fixpoint append_loop (n : nat) (f : FileSystem D) (inode : Inode) (p : pos) : res (bool * pos) :=
  match n with
  | O => Ok (true, p)
  | S n' =>
      let* (worked, p) := get_next_zone_wrapper f inode p in
      if worked : bool then append_loop n' f inode p else Ok (false, p)
  end.

(** The rest of [open] on the cache entry found; [false] is [return -1]. *)
Definition open_entry (f : FileSystem D) (fd flags found : Z) : res (bool * FileSystem D) :=
  let* e := get_fd f fd in
  let start p fp := mkFd found (fp_byte_offset e) p (taken e) (read_enabled e) (write_enabled e)
                      fp (total_read e) found (fd_lock e) in
  let p0 := mkPos 0 NONE32 NONE32 NONE32 (fp_block_offset (at_pos e)) in
  let* c := deref (entries f !! found) in
  let inode := cached_inode c in
  let* (ok, p) := (if zone_of inode 0 =? 0 then get_next_zone_wrapper f inode p0
                   else Ok (true, with_block p0 (zone_of inode 0))) in
  if negb ok then Ok (false, set_fd f fd (start p (file_pointer e)))
  else
    let e := point_to_zone (start p (file_pointer e)) 0 in
    let e := fd_at e 0 p (file_pointer e) 0 in
    let append := negb (Z.land flags O_APPEND =? 0) in
    let* (ok, p) := (if append then append_loop (Z.to_nat (isize inode / 1024)) f inode p
                     else Ok (true, p)) in
    let e := fd_at e 0 p (file_pointer e) 0 in
    if negb ok then Ok (false, set_fd f fd e)
    else
      let e := if append then
                 fd_at e (isize inode mod 1024) p
                   (u64 (fp_block_offset p * 1024 + isize inode mod 1024)) (isize inode)
               else e in
      let trunc := negb (Z.land flags O_TRUNC =? 0) in
      let* f := (if trunc then set_fd_inode f e (set_isize inode 0) else Ok f) in
      let e := if trunc then fd_at (point_to_zone e 0) 0 p (u64 (fp_block_offset p * 1024)) 0
               else e in
      let e := if negb (Z.land flags O_WRONLY =? 0) then
                 mkFd (file_inode e) (fp_byte_offset e) (at_pos e) (taken e) false true
                   (file_pointer e) (total_read e) (cache_entry e) (fd_lock e)
               else e in
      let* f := flush_inode f e in
      Ok (true, set_fd f fd e).

(** The first descriptor that is not taken; without one, the last, and the number -1. *)
Fixpoint free_fd (l : list fileDescriptorEntry) (i : Z) : Z * Z :=
  match l with
  | [] => (i - 1, -1)
  | e :: l' => if taken e =? 0 then (i, i) else free_fd l' (i + 1)
  end.

(** Every [return -1] leaves the table locked and the descriptor taken. [O_RDONLY] is 0, so
    that its test never holds. *)
Definition open (f : FileSystem D) (path : list Z) (flags m : Z) (env : open_env) :
    res (Z * FileSystem D) :=
  let* l := mutex_spinlock (table_lock f) in
  let '(fd, number) := free_fd (fd_table f) 0 in
  let* e := get_fd f fd in
  let e := mkFd (file_inode e) (fp_byte_offset e) (at_pos e) 1 (read_enabled e)
             (write_enabled e) (file_pointer e) (total_read e) (cache_entry e) (fd_lock e) in
  let f := set_table f (<[Z.to_nat fd := e]> (fd_table f)) l in
  let* found := minix3_search_cache_wrapper f path in
  let* (found, f) :=
    (match found with
     | Some x => Ok (Some x, f)
     | None => if negb (Z.land flags O_CREAT =? 0) then open_create f path m env
               else Ok (None, f)
     end) in
  match found with
  | None => Ok (-1, f)
  | Some x =>
      let* (ok, f) := open_entry f fd flags x in
      if ok : bool then Ok (number, set_table f (fd_table f) (mutex_unlock l)) else Ok (-1, f)
  end.

(** ** [chmod] and the rest *)

Definition chmod (f : FileSystem D) (path : list Z) (m : Z) : res (Z * FileSystem D) :=
  let* entry := minix3_search_cache_wrapper f path in
  match entry with
  | None => Ok (- ENOENT, f)
  | Some a =>
      let* c := deref (entries f !! a) in
      let x := cached_inode c in
      let x := set_mode x (Z.lor (Z.land (mode x) (u16 (Z.lnot 0x1ff))) (Z.land m 0x1ff)) in
      let f := set_entry f a (mkEntry x (directory_map c) (inode_num c) (num_entries c)) in
      let '(ok, f) := fs_write f (inodes_start f + u32 (inode_num c - 1) * sizeof_Inode)
                        (bytes_of_inode x) in
      if ok : bool then Ok (0, f) else Ok (- EIO, f)
  end.

(** The two searches over a bitmap read as bytes: element [i] is free when byte [i] is 0. *)
Definition minix3_find_next_free_inode (f : FileSystem D) : res Z :=
  let* l := read_unchecked f (imap_blocks_start f) (num_inodes f) in
  loop (S (Z.to_nat (num_inodes f)))
    (fun i => if negb (i <? num_inodes f) then Ok (Done 0)
              else let* b := deref (l !! Z.to_nat i) in
                   if b =? 0 then Ok (Done i) else Ok (Next (i + 1))) 1.

(** The buffer holds [zmap_blocks] bytes; the loop runs over [num_inodes]. *)
Definition minix3_find_next_free_zone (f : FileSystem D) : res Z :=
  let* l := read_unchecked f (zmap_blocks_start f) (zmap_blocks (sb f)) in
  loop (S (Z.to_nat (num_inodes f)))
    (fun i => if negb (i <? num_inodes f) then Ok (Done 0)
              else let* b := deref (l !! Z.to_nat i) in
                   if b =? 0 then Ok (Done i) else Ok (Next (i + 1))) 1.

End file.
