(* ===== verification/MinixSpec.v ===== *)
(** What the calls on an open file of the Minix 3 file system promise: a file is a sequence
    of bytes laid out in its zones, and [read], [write] and [lseek] of [MinixFile] act on
    it at the descriptor's offset. *)
From S2P Require Import Prelude Mem Lock Disk Minix MinixCache MinixFile.

Section spec.
Context {D : Type} `{!Disk D} `{!DiskLaws D}.

(** ** The bytes of a file *)

Definition start_pos (inode : Inode) : pos := mkPos 0 NONE32 NONE32 NONE32 (zone_of inode 0).

Definition file_zones (f : FileSystem D) (inode : Inode) : list Z :=
  zone_of inode 0 :: rest f inode (start_pos inode).

(** The disk address of byte [i]. *)
Definition byte_adr (zs : list Z) (i : Z) : Z :=
  default 0 (zs !! Z.to_nat (i / 1024)) * 1024 + i mod 1024.

Definition file_byte (f : FileSystem D) (inode : Inode) (i : Z) : Z :=
  content (bd f) (byte_adr (file_zones f inode) i).

Definition file_bytes (f : FileSystem D) (inode : Inode) (off n : Z) : list Z :=
  file_byte f inode <$> seqZ off n.

(** The bytes the zones have room for. *)
Definition room (f : FileSystem D) (inode : Inode) : Z :=
  1024 * Z.of_nat (length (file_zones f inode)).

Record file_ok (f : FileSystem D) (inode : Inode) : Prop := mkFileOk {
  file_fs : fs_ok f;
  file_tables : tables_ok f inode;
  file_first : zone_of inode 0 <> 0;
  file_ends : ends inode = true;
  file_on_disk : Forall (on_disk f) (file_zones f inode);
  file_size : 0 <= isize inode < 2 ^ 32
}.

(** Position [p] is in zone number [k] of the file. *)
Definition stands (f : FileSystem D) (inode : Inode) (p : pos) (k : Z) : Prop :=
  pos_ok inode p /\ located f inode p /\
  exists before, file_zones f inode = before ++ fp_block_offset p :: rest f inode p /\
    Z.of_nat (length before) = k.

(** The descriptor points at byte [off]. *)
Record at_byte (f : FileSystem D) (inode : Inode) (e : fileDescriptorEntry) (off : Z) : Prop :=
  mkAtByte {
    at_nonneg : 0 <= off;
    at_stands : stands f inode (at_pos e) (off / 1024);
    at_offset : fp_byte_offset e = off mod 1024;
    at_pointer : file_pointer e = fp_block_offset (at_pos e) * 1024 + off mod 1024
  }.

Lemma stands_start f inode : stands f inode (start_pos inode) 0.
Proof.
  split; [split; [done|]; left; done|]. split; [done|]. by exists [].
Qed.

Lemma stands_zone f inode p k : stands f inode p k ->
  0 <= k < Z.of_nat (length (file_zones f inode)) /\
  file_zones f inode !! Z.to_nat k = Some (fp_block_offset p) /\
  length (rest f inode p) = (length (file_zones f inode) - Z.to_nat k - 1)%nat.
Proof.
  intros (_ & _ & before & -> & <-). rewrite Nat2Z.id, length_app. cbn [length].
  split; [lia|]. split; [by apply list_lookup_middle | lia].
Qed.

Lemma stands_on_disk f inode p k : file_ok f inode -> stands f inode p k ->
  on_disk f (fp_block_offset p).
Proof.
  intros Hf (_ & Hz & _)%stands_zone. pose proof (file_on_disk _ _ Hf) as H.
  rewrite Forall_lookup in H. by eapply H.
Qed.

(** The next zone, and what there is after the last. *)
Lemma next_stands f inode p k : file_ok f inode -> stands f inode p k ->
  k + 1 < Z.of_nat (length (file_zones f inode)) ->
  exists p', get_next_zone_wrapper f inode p = Ok (true, p') /\ stands f inode p' (k + 1).
Proof.
  intros Hf Hs Hk. pose proof (stands_zone _ _ _ _ Hs) as (Hk0 & _ & Hl).
  destruct Hs as (Hp & _ & before & E & Eb).
  pose proof (get_next_zone_ok f inode p (file_fs _ _ Hf) (file_tables _ _ Hf) Hp) as H.
  destruct (rest f inode p) as [|z l] in *; [cbn [length] in Hl; lia|].
  destruct H as (p' & Hg & Hz & Hr & Hok & Hloc). exists p'. split; [done|].
  split; [done|]. split; [done|]. exists (before ++ [fp_block_offset p]).
  rewrite <- app_assoc, Hz, Hr, length_app. cbn. split; [done | lia].
Qed.

Lemma next_at_end f inode p k : file_ok f inode -> stands f inode p k ->
  k + 1 = Z.of_nat (length (file_zones f inode)) ->
  get_next_zone_wrapper f inode p = Ok (false, p).
Proof.
  intros Hf Hs Hk. pose proof (stands_zone _ _ _ _ Hs) as (Hk0 & _ & Hl). destruct Hs as (Hp & _).
  pose proof (get_next_zone_ok f inode p (file_fs _ _ Hf) (file_tables _ _ Hf) Hp) as H.
  destruct (rest f inode p) in *; [|cbn [length] in Hl; lia]. by rewrite H, (file_ends _ _ Hf).
Qed.

Lemma get_ptr_ok l i : Z.of_nat (length l) = 1024 -> 0 <= i < NUM_POINTERS ->
  get_ptr l i = Ok (word l i).
Proof.
  intros Hl Hi. unfold get_ptr, NUM_POINTERS in *. rewrite Hl.
  rewrite (proj2 (Z.leb_le _ _)), (proj2 (Z.leb_le _ _)) by lia. done.
Qed.

Lemma read_pointers f z : on_disk f z ->
  fs_read f (zone_adr z) BLOCK_SIZE = Some (bytes_at (bd f) (z * 1024) 1024).
Proof.
  intros [Hz Hc]. pose proof (capacity_bound (bd f)). unfold zone_adr, BLOCK_SIZE.
  rewrite u32_id by lia. apply fs_read_ok; lia.
Qed.

(** The zone [read] and [lseek] look up again is the one [get_next_zone] found. *)
Lemma zone_at_ok {A} f inode p (fail : bool -> res A) k : tables_ok f inode -> pos_ok inode p ->
  located f inode p -> zone_at f inode p fail k = k (fp_block_offset p).
Proof.
  intros [Ht1 Ht2] (H3 & Hp) [-> Hd]. unfold zone_at, zone_by.
  assert (forall z i, on_disk f z -> 0 <= i < NUM_POINTERS ->
    get_ptr (bytes_at (bd f) (z * 1024) 1024) i = Ok (pointers f z i)) as Hget.
  { intros z i Hz Hi. apply get_ptr_ok; [by apply bytes_at_length | done]. }
  destruct Hp as [(H0 & H1 & H2)|[(H0 & H1 & H2 & Hi)|(H0 & H1 & H2 & Hi & Hdi)]].
  - rewrite H1, Z.eqb_refl. rewrite !(proj2 (Z.ltb_lt _ _)) by (unfold NUM_ZONES, ZONE_INDIR in *; lia).
    done.
  - assert (zi1 p <> NONE32) by (unfold NONE32, NUM_POINTERS in *; lia).
    rewrite (proj2 (Z.eqb_neq _ _)) by done. rewrite H2, Z.eqb_refl.
    rewrite read_pointers by auto. rewrite Hget by auto. cbn [res_bind]. by rewrite H0.
  - assert (zi1 p <> NONE32 /\ zi2 p <> NONE32) as [Hn1 Hn2] by (unfold NONE32, NUM_POINTERS in *; lia).
    rewrite (proj2 (Z.eqb_neq _ _) Hn1), (proj2 (Z.eqb_neq _ _) Hn2). rewrite H3, Z.eqb_refl.
    destruct (Ht2 Hdi) as [Hz8 Hzj].
    rewrite read_pointers by auto. rewrite Hget by auto. cbn [res_bind].
    rewrite read_pointers by auto. rewrite Hget by auto. cbn [res_bind]. by rewrite H0.
Qed.

Lemma with_block_id p : with_block p (fp_block_offset p) = p.
Proof. by destruct p. Qed.

(** A transfer inside one zone is a piece of the file. *)
Lemma zone_bytes f inode p k b n : stands f inode p k -> 0 <= b -> b + n <= 1024 ->
  bytes_at (bd f) (fp_block_offset p * 1024 + b) n = file_bytes f inode (k * 1024 + b) n.
Proof.
  intros Hs Hb Hn. destruct (stands_zone _ _ _ _ Hs) as (Hk & Hz & _).
  unfold bytes_at, file_bytes. apply list_eq. intros i. rewrite !list_lookup_fmap.
  destruct (decide (Z.of_nat i < n)).
  - rewrite !lookup_seqZ_lt by lia. cbn. unfold file_byte, byte_adr. do 2 f_equal.
    replace ((k * 1024 + b + Z.of_nat i) / 1024) with k by dlia. rewrite Hz. cbn. dlia.
  - by rewrite !lookup_seqZ_ge by lia.
Qed.

Lemma file_bytes_app f inode off n m : 0 <= n -> 0 <= m ->
  file_bytes f inode off (n + m) = file_bytes f inode off n ++ file_bytes f inode (off + n) m.
Proof. intros. unfold file_bytes. by rewrite <- fmap_app, <- seqZ_app by lia. Qed.

(** [e'] is [e] at another place of the same file. *)
Definition moved (e e' : fileDescriptorEntry) : Prop :=
  exists b p fp t, e' = fd_at e b p fp t.

Lemma moved_refl e : moved e e.
Proof. exists (fp_byte_offset e), (at_pos e), (file_pointer e), (total_read e). by destruct e. Qed.

Lemma moved_trans e1 e2 e3 : moved e1 e2 -> moved e2 e3 -> moved e1 e3.
Proof. intros (b & p & fp & t & ->) (b' & p' & fp' & t' & ->). by exists b', p', fp', t'. Qed.

Lemma moved_at e b p fp t : moved e (fd_at e b p fp t).
Proof. by exists b, p, fp, t. Qed.

Lemma file_bytes_0 f inode off : file_bytes f inode off 0 = [].
Proof. done. Qed.

(** ** What a file depends on

    The zones of a file are a function of its inode and its blocks of pointers. *)
Definition tables (f : FileSystem D) (inode : Inode) : list Z :=
  (if zone_of inode ZONE_INDIR =? 0 then [] else [zone_of inode ZONE_INDIR]) ++
  (if zone_of inode ZONE_DINDIR =? 0 then []
   else zone_of inode ZONE_DINDIR ::
        in_use (pointers f (zone_of inode ZONE_DINDIR)) 0 NUM_POINTERS).

Definition same_tables (f f' : FileSystem D) (inode : Inode) : Prop :=
  Forall (fun z => bytes_at (bd f') (z * 1024) 1024 = bytes_at (bd f) (z * 1024) 1024)
    (tables f inode).

Lemma same_tables_bd f f' inode : bd f' = bd f -> same_tables f f' inode.
Proof. intros E. apply Forall_forall. intros z _. by rewrite E. Qed.

Lemma same_pointers f f' inode z : same_tables f f' inode -> z ∈ tables f inode ->
  pointers f' z = pointers f z.
Proof. intros H Hz. unfold pointers. by rewrite (proj1 (Forall_forall _ _) H z Hz). Qed.

Lemma table_indir f inode : zone_of inode ZONE_INDIR <> 0 ->
  zone_of inode ZONE_INDIR ∈ tables f inode.
Proof.
  intros H. unfold tables. rewrite (proj2 (Z.eqb_neq _ _) H).
  apply elem_of_app. left. by apply list_elem_of_singleton.
Qed.

Lemma table_dindir f inode : zone_of inode ZONE_DINDIR <> 0 ->
  zone_of inode ZONE_DINDIR ∈ tables f inode.
Proof.
  intros H. unfold tables. rewrite (proj2 (Z.eqb_neq _ _) H).
  apply elem_of_app. right. by left.
Qed.

Lemma table_inner f inode j : zone_of inode ZONE_DINDIR <> 0 -> 0 <= j < NUM_POINTERS ->
  pointers f (zone_of inode ZONE_DINDIR) j <> 0 ->
  pointers f (zone_of inode ZONE_DINDIR) j ∈ tables f inode.
Proof.
  intros H Hj Hp. unfold tables. rewrite (proj2 (Z.eqb_neq _ _) H).
  apply elem_of_app. right. right. unfold in_use. apply list_elem_of_filter. split; [done|].
  apply list_elem_of_fmap. exists j. split; [done|]. apply elem_of_seqZ. lia.
Qed.

Lemma rest_dindir_ext f f' ptr n : forall j k,
  (forall i, j <= i < j + Z.of_nat n -> ptr i <> 0 -> pointers f' (ptr i) = pointers f (ptr i)) ->
  rest_dindir f' n ptr j k = rest_dindir f n ptr j k.
Proof.
  induction n as [|n IH]; intros j k H; cbn [rest_dindir]; [done|].
  destruct (Z.eqb_spec (ptr j) 0); [|rewrite H by lia; f_equal];
    apply IH; intros i Hi; apply H; lia.
Qed.

Lemma rest_2_ext f f' inode j k : same_tables f f' inode -> 0 <= j ->
  rest_2 f' inode j k = rest_2 f inode j k.
Proof.
  intros H Hj. unfold rest_2. destruct (Z.eqb_spec (zone_of inode ZONE_DINDIR) 0) as [|Hd]; [done|].
  rewrite (same_pointers f f' inode _ H (table_dindir f inode Hd)). apply rest_dindir_ext.
  intros i Hi Hp. apply (same_pointers f f' inode _ H). apply table_inner; [done | lia | done].
Qed.

Lemma rest_1_ext f f' inode j : same_tables f f' inode -> rest_1 f' inode j = rest_1 f inode j.
Proof.
  intros H. unfold rest_1. destruct (Z.eqb_spec (zone_of inode ZONE_INDIR) 0) as [|Hd]; [done|].
  by rewrite (same_pointers f f' inode _ H (table_indir f inode Hd)), (rest_2_ext f f').
Qed.

Lemma rest_ext f f' inode p : same_tables f f' inode -> pos_ok inode p ->
  rest f' inode p = rest f inode p.
Proof.
  intros H (_ & Hp). unfold rest. destruct (zi0 p <? ZONE_INDIR) eqn:E; [by rewrite (rest_1_ext f f')|].
  destruct (zi0 p =? ZONE_INDIR); [by apply rest_1_ext|]. apply rest_2_ext; [done|].
  unfold NONE32 in Hp. destruct Hp as [(?&?&?)|[(?&?&?&?)|(?&?&?)]]; lia.
Qed.

Lemma start_pos_ok inode : pos_ok inode (start_pos inode).
Proof. split; [done|]. by left. Qed.

Lemma file_zones_ext f f' inode : same_tables f f' inode ->
  file_zones f' inode = file_zones f inode.
Proof. intros H. unfold file_zones. by rewrite (rest_ext f f' _ _ H (start_pos_ok inode)). Qed.

Lemma located_ext f f' inode p : same_tables f f' inode -> pos_ok inode p ->
  located f inode p -> located f' inode p.
Proof.
  intros H (_ & Hp) [Hz Hd]. unfold located, zone_by in *.
  destruct Hp as [(H0 & _)|[(H0 & H1 & _ & Hi)|(H0 & H1 & H2 & Hi & Hdi)]].
  - rewrite (proj2 (Z.ltb_lt _ _)) in * by lia. split; [done|]. intros E. rewrite E in H0.
    unfold ZONE_DINDIR, ZONE_INDIR in H0. lia.
  - rewrite H0 in *. cbn in *. by rewrite (same_pointers f f' inode _ H (table_indir f inode Hi)).
  - rewrite H0 in *. cbn in *. specialize (Hd eq_refl).
    rewrite (same_pointers f f' inode _ H (table_dindir f inode Hdi)).
    by rewrite (same_pointers f f' inode _ H (table_inner f inode _ Hdi H1 Hd)).
Qed.

Lemma stands_ext f f' inode p k : same_tables f f' inode -> stands f inode p k ->
  stands f' inode p k.
Proof.
  intros H (Hp & Hl & before & E & Eb). split; [done|]. split; [by eapply located_ext|].
  exists before. by rewrite (file_zones_ext f f'), (rest_ext f f').
Qed.

Lemma at_byte_ext f f' inode e off : same_tables f f' inode -> at_byte f inode e off ->
  at_byte f' inode e off.
Proof. intros H [H0 Hs Ho Hp]. split; [done | by eapply stands_ext | done | done]. Qed.

Lemma tables_ok_ext f f' inode : same_tables f f' inode -> capacity (bd f') = capacity (bd f) ->
  tables_ok f inode -> tables_ok f' inode.
Proof.
  intros H Hc [H1 H2]. unfold tables_ok, on_disk in *. rewrite Hc. split; [done|].
  intros Hd. rewrite (same_pointers f f' inode _ H (table_dindir f inode Hd)). by apply H2.
Qed.

(** ** [read] *)

Lemma room_zone f inode off : 0 <= off ->
  off / 1024 < Z.of_nat (length (file_zones f inode)) <-> off < room f inode.
Proof. intros. unfold room. dlia. Qed.

(** What a transfer of [n] bytes from the descriptor on reads. *)
Lemma read_here f inode e off n : file_ok f inode -> at_byte f inode e off ->
  0 < n -> off mod 1024 + n <= 1024 ->
  fs_read f (file_pointer e) n = Some (file_bytes f inode off n).
Proof.
  intros Hf [H0 Hs _ Hp] Hn Hb. destruct (stands_on_disk _ _ _ _ Hf Hs) as [Hz Hc].
  pose proof (capacity_bound (bd f)). rewrite Hp, fs_read_ok by dlia. f_equal.
  rewrite (zone_bytes f inode _ _ (off mod 1024) n Hs) by dlia. f_equal. dlia.
Qed.

(** One turn that stays in the zone, and one that finishes it. *)
Lemma read_step_inside f inode count rb out e off : file_ok f inode ->
  at_byte f inode e (off + rb) -> rb < count -> (off + rb) mod 1024 + (count - rb) < 1024 ->
  exists e', read_step f inode count (rb, out, e) =
      Ok (Next (count, out ++ file_bytes f inode (off + rb) (count - rb), e')) /\
    at_byte f inode e' (off + count) /\ total_read e' = total_read e /\ moved e e'.
Proof.
  intros Hf Ha Hrb Hin. pose proof Ha as [H0 Hs Ho Hp]. unfold read_step.
  rewrite (proj2 (Z.ltb_lt _ _) Hrb). cbn [negb]. unfold BLOCK_SIZE. rewrite Ho.
  rewrite (u32_id (1024 - _)), (u32_id (count - rb)) by dlia.
  replace (count - rb >? 1024 - (off + rb) mod 1024) with false by dlia.
  replace (count - rb >? 1024) with false by dlia.
  rewrite (read_here f inode e (off + rb)) by (auto; lia).
  replace (count - rb =? 1024 - (off + rb) mod 1024) with false by dlia.
  eexists. split; [do 4 f_equal; lia|]. split; [|split; [done | apply moved_at]]. split; cbn; [lia | | dlia | rewrite Hp; dlia].
  by replace ((off + count) / 1024) with ((off + rb) / 1024) by dlia.
Qed.

Lemma read_step_zone f inode count rb out e off : file_ok f inode ->
  at_byte f inode e (off + rb) -> rb < count -> 1024 <= (off + rb) mod 1024 + (count - rb) ->
  let rb' := rb + (1024 - (off + rb) mod 1024) in
  if off + rb' <? room f inode then
    exists e', read_step f inode count (rb, out, e) =
        Ok (Next (rb', out ++ file_bytes f inode (off + rb) (rb' - rb), e')) /\
      at_byte f inode e' (off + rb') /\ total_read e' = total_read e /\ moved e e'
  else read_step f inode count (rb, out, e) = Hang.
Proof.
  intros Hf Ha Hrb Hin rb'. pose proof Ha as [H0 Hs Ho Hp]. unfold read_step.
  rewrite (proj2 (Z.ltb_lt _ _) Hrb). cbn [negb]. unfold BLOCK_SIZE. rewrite Ho.
  rewrite (u32_id (1024 - _)) by dlia.
  assert ((if count - rb >? 1024 - (off + rb) mod 1024 then 1024 - (off + rb) mod 1024
           else u32 (count - rb)) = rb' - rb) as ->.
  { destruct (Z.gtb_spec (count - rb) (1024 - (off + rb) mod 1024)); [lia|]. rewrite u32_id; dlia. }
  replace (rb' - rb >? 1024) with false by dlia.
  rewrite (read_here f inode e (off + rb)) by (auto; dlia).
  replace (rb' - rb =? 1024 - (off + rb) mod 1024) with true by lia.
  pose proof (stands_zone _ _ _ _ Hs) as (Hk & _).
  assert ((off + rb') / 1024 = (off + rb) / 1024 + 1) as Ek by dlia.
  destruct (Z.ltb_spec (off + rb') (room f inode)) as [Hlt|Hge].
  - apply room_zone in Hlt; [|dlia].
    destruct (next_stands f inode (at_pos e) _ Hf Hs) as (p & -> & Hs'); [lia|].
    cbn [res_bind negb]. pose proof Hs' as (Hok & Hloc & _).
    rewrite (zone_at_ok f inode p) by (try apply (file_tables _ _ Hf); done).
    eexists. split; [do 4 f_equal; lia|]. split; [|split; [done | apply moved_at]].
    rewrite with_block_id. split; cbn; [dlia | by rewrite Ek | dlia | dlia].
  - rewrite (next_at_end f inode (at_pos e) _ Hf Hs); [done|]. unfold room in Hge. dlia.
Qed.

Lemma read_loop f inode count off : file_ok f inode -> 0 <= off ->
  off + count <= room f inode ->
  forall n rb out e, 0 <= rb <= count -> at_byte f inode e (off + rb) ->
  (Z.to_nat (count - rb) < n)%nat ->
  if off + count <? room f inode then
    exists e', loop n (read_step f inode count) (rb, out, e) =
        Ok (count, out ++ file_bytes f inode (off + rb) (count - rb), e') /\
      at_byte f inode e' (off + count) /\ total_read e' = u64 (total_read e + count) /\ moved e e'
  else rb < count -> loop n (read_step f inode count) (rb, out, e) = Hang.
Proof.
  intros Hf H0 Hroom. induction n as [|n IH]; intros rb out e Hrb Ha Hn; [lia|].
  destruct (decide (rb = count)) as [->|].
  { destruct (off + count <? room f inode); [|lia]. rewrite loop_S. unfold read_step at 1.
    rewrite Z.ltb_irrefl. cbn [negb res_bind]. eexists. split.
    - by rewrite Z.sub_diag, file_bytes_0, app_nil_r.
    - split; [by destruct Ha; split | split; [done | apply moved_at]]. }
  rewrite loop_S. destruct (decide ((off + rb) mod 1024 + (count - rb) < 1024)) as [Hin|Hin].
  - destruct (read_step_inside f inode count rb out e off Hf Ha) as (e' & -> & Ha' & Ht & Hm); [lia | done|].
    cbn [res_bind]. rewrite <- Ht. specialize (IH count (out ++ file_bytes f inode (off + rb) (count - rb)) e').
    destruct (off + count <? room f inode) eqn:E.
    + destruct IH as (e2 & -> & H2 & H3 & H4); [lia | done | lia |]. exists e2.
      split; [|eauto using moved_trans]. by rewrite Z.sub_diag, file_bytes_0, app_nil_r.
    + pose proof (at_stands _ _ _ _ Ha') as ([_ Hk] & _)%stands_zone.
      apply room_zone in Hk; [lia | lia].
  - pose proof (read_step_zone f inode count rb out e off Hf Ha) as Hz.
    cbn zeta in Hz. set (rb' := rb + (1024 - (off + rb) mod 1024)) in *.
    assert (rb < rb' <= count) by dlia.
    destruct (Z.ltb_spec (off + rb') (room f inode)) as [Hlt|Hge].
    + destruct Hz as (e' & -> & Ha' & Ht & Hm); [lia | lia |]. cbn [res_bind]. rewrite <- Ht.
      specialize (IH rb' (out ++ file_bytes f inode (off + rb) (rb' - rb)) e').
      destruct (off + count <? room f inode) eqn:E.
      * destruct IH as (e2 & -> & H2 & H3 & H4); [lia | done | lia |]. exists e2.
        split; [|eauto using moved_trans].
        replace (count - rb) with ((rb' - rb) + (count - rb')) by lia.
        rewrite file_bytes_app, <- app_assoc by lia.
        by replace (off + rb + (rb' - rb)) with (off + rb') by lia.
      * intros _. apply IH; [lia | done | lia | lia].
    + rewrite Hz by lia. rewrite (proj2 (Z.ltb_ge _ _)) by lia. done.
Qed.

(** Descriptor [fd] is open on the inode of cache entry [c], with [off] bytes behind it. *)
Record is_open (f : FileSystem D) (fd : Z) (e : fileDescriptorEntry) (c : cacheEntry) (off : Z) :
    Prop := mkIsOpen {
  op_fd : 0 <= fd < MAX_FD_ENTRIES;
  op_get : fd_table f !! Z.to_nat fd = Some e;
  op_taken : taken e = 1;
  op_entry : entries f !! file_inode e = Some c;
  op_total : total_read e = off
}.

(** And its position is byte [off] of the file. *)
Definition opened (f : FileSystem D) (fd : Z) (e : fileDescriptorEntry) (c : cacheEntry)
    (off : Z) : Prop := is_open f fd e c off /\ at_byte f (cached_inode c) e off.

Lemma open_get f fd e c off : is_open f fd e c off ->
  get_fd f fd = Ok e /\ fd_inode f e = Ok (cached_inode c).
Proof.
  intros [Hfd Hg _ He _]. unfold get_fd, fd_inode. rewrite Hg, He.
  by rewrite (proj2 (Z.ltb_ge _ _)) by lia.
Qed.

(** Moving the descriptor keeps it open. *)
Lemma opened_move f fd e e' c off off' : is_open f fd e c off ->
  at_byte f (cached_inode c) e' off' -> total_read e' = off' -> moved e e' ->
  opened (set_fd f fd e') fd e' c off'.
Proof.
  intros [Hfd Hg Ht He _] Ha Htot (b & p & fp & t & ->). split.
  - split; try done. cbn. apply list_lookup_insert_eq. by eapply lookup_lt_Some.
  - eapply at_byte_ext; [|done]. by apply same_tables_bd.
Qed.

(** How much [read] is asked for in the end. *)
Definition available (inode : Inode) (off count : Z) : Z := Z.min count (isize inode - off).

Lemma read_enters n f fd e c off count : opened f fd e c off -> file_ok f (cached_inode c) ->
  0 <= count -> off + count < 2 ^ 64 -> off <= isize (cached_inode c) ->
  read n f fd count =
    let* (read_bytes, out, e) :=
      loop n (read_step f (cached_inode c) (available (cached_inode c) off count)) (0, [], e) in
    Ok (read_bytes, out, set_fd f fd e).
Proof.
  intros [Ho Ha] Hf Hc Hb Hs. pose proof (open_get _ _ _ _ _ Ho) as [Eg Ei].
  destruct Ho as [Hfd Hg Ht He Htot]. pose proof (at_nonneg _ _ _ _ Ha).
  pose proof (file_size _ _ Hf). unfold read. unfold MAX_FD_ENTRIES in *.
  rewrite (proj2 (Z.ltb_ge _ _)) by lia. replace (fd >=? 256) with false by lia. cbn [orb].
  rewrite Eg. cbn [res_bind]. rewrite Ht. cbn [Z.eqb]. rewrite Ei. cbn [res_bind]. rewrite Htot.
  rewrite (u64_id (count + off)) by lia. unfold available.
  destruct (Z.gtb_spec (count + off) (isize (cached_inode c))).
  - rewrite u64_id by lia. by rewrite Z.min_r by lia.
  - by rewrite Z.min_l by lia.
Qed.

(** What [read] does that ends before the last zone of the file does. *)
Lemma read_inside n f fd e c off count : opened f fd e c off ->
  file_ok f (cached_inode c) -> 0 <= count -> off + count < 2 ^ 64 ->
  off <= isize (cached_inode c) <= room f (cached_inode c) ->
  (Z.to_nat count < n)%nat ->
  let k := available (cached_inode c) off count in
  off + k < room f (cached_inode c) ->
  exists e', read n f fd count = Ok (k, file_bytes f (cached_inode c) off k, set_fd f fd e') /\
    opened (set_fd f fd e') fd e' c (off + k).
Proof.
  intros Ho Hf Hc Hb Hs Hn k Hk. rewrite (read_enters n f fd e c off count Ho Hf Hc Hb (proj1 Hs)).
  destruct Ho as [Ho Ha]. pose proof (at_nonneg _ _ _ _ Ha) as H0.
  assert (0 <= k <= count) as Hkc by (unfold k, available; lia).
  fold k. pose proof (read_loop f (cached_inode c) k off Hf H0 ltac:(lia) n 0 [] e ltac:(lia)) as H.
  rewrite Z.add_0_r, Z.sub_0_r, (proj2 (Z.ltb_lt _ _) Hk) in H.
  destruct (H Ha ltac:(lia)) as (e' & -> & Ha' & Ht & Hm). exists e'. split; [done|].
  eapply opened_move; [exact Ho | exact Ha' | | exact Hm].
  rewrite Ht, (op_total _ _ _ _ _ Ho). apply u64_id. lia.
Qed.

(** (C10) read returns the bytes of the file at the descriptor's offset, as many as asked
    for or as the file has left, and moves the descriptor past them. But a read that ends
    exactly where the last zone of the file ends never returns. *)
Theorem read_correct n f fd e c off count : opened f fd e c off ->
  file_ok f (cached_inode c) -> 0 <= count -> off + count < 2 ^ 64 ->
  off <= isize (cached_inode c) <= room f (cached_inode c) ->
  (Z.to_nat count < n)%nat ->
  let k := available (cached_inode c) off count in
  if off + k <? room f (cached_inode c) then
    exists e', read n f fd count = Ok (k, file_bytes f (cached_inode c) off k, set_fd f fd e') /\
      opened (set_fd f fd e') fd e' c (off + k)
  else 0 < k -> read n f fd count = Hang.
Proof.
  intros Ho Hf Hc Hb Hs Hn k. destruct (Z.ltb_spec (off + k) (room f (cached_inode c))) as [Hk|Hk].
  { by eapply read_inside. }
  intros Hlt. rewrite (read_enters n f fd e c off count Ho Hf Hc Hb (proj1 Hs)).
  destruct Ho as [Ho Ha]. pose proof (at_nonneg _ _ _ _ Ha) as H0.
  assert (0 <= k <= count /\ off + k <= isize (cached_inode c)) as [Hkc Hki] by (unfold k, available; lia).
  fold k. pose proof (read_loop f (cached_inode c) k off Hf H0 ltac:(lia) n 0 [] e ltac:(lia)) as H.
  rewrite Z.add_0_r, Z.sub_0_r, (proj2 (Z.ltb_ge _ _) Hk) in H. by rewrite H by (done || lia).
Qed.

(** ** [lseek] *)

Lemma seek_loop_ok f inode ending : file_ok f inode -> ending < Z.of_nat (length (file_zones f inode)) ->
  forall n i p skipped, stands f inode p i -> i <= ending -> (Z.to_nat (ending - i) < n)%nat ->
  exists p', seek_loop n f inode i ending p skipped =
      Ok (None, p', skipped + 1024 * (ending - i)) /\ stands f inode p' ending.
Proof.
  intros Hf Hl. induction n as [|n IH]; intros i p skipped Hs Hi Hn; [lia|]. cbn [seek_loop].
  destruct (Z.ltb_spec i ending) as [Hlt|]; cbn [negb].
  - destruct (next_stands f inode p i Hf Hs) as (p' & -> & Hs'); [lia|]. cbn [res_bind negb].
    pose proof Hs' as (Hok & Hloc & _).
    rewrite (zone_at_ok f inode p') by (try apply (file_tables _ _ Hf); done).
    rewrite with_block_id. destruct (IH (i + 1) p' (skipped + BLOCK_SIZE) Hs') as (q & E & Hq);
      [lia | lia |]. exists q. split; [|done]. rewrite E. unfold BLOCK_SIZE. do 2 f_equal. lia.
  - exists p. replace i with ending in * by lia. split; [|done]. do 2 f_equal. lia.
Qed.

(** The offset a call of [lseek] means. *)
Definition seek_target (inode : Inode) (off offset whence : Z) : Z :=
  if whence =? SEEK_CUR then offset + off
  else if whence =? SEEK_END then offset + isize inode
  else offset.

(** lseek to an offset within the zones of the file, from the start, the current
    offset or the end, returns that offset and moves the descriptor there; nothing else
    changes. *)
Lemma lseek_ok n f fd e c off offset whence : is_open f fd e c off ->
  file_ok f (cached_inode c) -> whence ∈ [SEEK_SET; SEEK_CUR; SEEK_END] ->
  let t := seek_target (cached_inode c) off offset whence in
  0 <= t < room f (cached_inode c) -> room f (cached_inode c) < 2 ^ 63 ->
  (Z.to_nat (t / 1024) < n)%nat ->
  exists e', lseek n f fd offset whence = Ok (t, set_fd f fd e') /\
    opened (set_fd f fd e') fd e' c t.
Proof.
  intros Ho Hf Hw t Ht Hr Hn. pose proof (open_get _ _ _ _ _ Ho) as [Eg Ei].
  pose proof Ho as [Hfd Hg Htk He Htot]. unfold lseek. unfold MAX_FD_ENTRIES in *.
  rewrite (proj2 (Z.ltb_ge _ _)) by lia. replace (fd >=? 256) with false by lia. cbn [orb].
  rewrite Eg. cbn [res_bind]. rewrite Htk. cbn [Z.eqb]. rewrite Ei. cbn [res_bind].
  assert (seek_from (cached_inode c) e offset whence = (t, SEEK_SET)) as ->.
  { unfold seek_from, t, seek_target in *. rewrite Htot. rewrite !elem_of_cons in Hw.
    destruct Hw as [->|[->|[->|[]%not_elem_of_nil]]]; cbn in *; by rewrite ?s64_id by lia. }
  rewrite Z.eqb_refl. unfold BLOCK_SIZE.
  rewrite Z.quot_div_nonneg, Z.rem_mod_nonneg, !u64_id by dlia.
  pose proof (proj2 (room_zone f (cached_inode c) t (proj1 Ht)) (proj2 Ht)) as Hz.
  destruct (seek_loop_ok f (cached_inode c) (t / 1024) Hf ltac:(lia) n 0
    (start_pos (cached_inode c)) 0 (stands_start f _)) as (p & E & Hs); [dlia | lia |].
  cbn [at_pos fd_at]. unfold start_pos in E. rewrite E. cbn [res_bind negb].
  eexists. split; [do 2 f_equal; dlia|].
  eapply opened_move; [exact Ho | | | eapply moved_trans; apply moved_at].
  - split; cbn; [lia | done | done |]. destruct (stands_on_disk _ _ _ _ Hf Hs) as [Hz0 Hzc].
    pose proof (capacity_bound (bd f)). apply u64_id. unfold BLOCK_SIZE. dlia.
  - cbn. rewrite u64_id; dlia.
Qed.

End spec.

(** The file of the small disk, open at its first byte. *)
Definition demo_descriptor : fileDescriptorEntry :=
  mkFd 200 0 (start_pos demo_file) 1 false true (5 * 1024) 0 200 MUTEX_UNLOCKED.

Definition demo_opened : FileSystem ramdisk := set_fd demo_fs 0 demo_descriptor.

Lemma demo_zones : file_zones demo_fs demo_file = [5; 6; 7].
Proof. by vm_compute. Qed.

Lemma demo_file_ok : file_ok demo_opened demo_file.
Proof.
  assert (file_zones demo_opened demo_file = [5; 6; 7]) as E by by vm_compute.
  split.
  - apply fs_ok_table, demo_fs_ok.
  - exact demo_tables.
  - discriminate.
  - reflexivity.
  - rewrite E. repeat (apply Forall_cons; split; [split; vm_compute; discriminate|]).
    apply Forall_nil_2.
  - split; [discriminate | reflexivity].
Qed.

Lemma demo_is_open : is_open demo_opened 0 demo_descriptor demo_entry 0.
Proof. split; try reflexivity. split; [discriminate | reflexivity]. Qed.

Lemma demo_at_start : opened demo_opened 0 demo_descriptor demo_entry 0.
Proof.
  split; [exact demo_is_open|]. split; [discriminate | apply stands_start | reflexivity..].
Qed.

Lemma demo_room : room demo_opened demo_file = 3072.
Proof. by vm_compute. Qed.

Lemma read_correct_witness :
  opened demo_opened 0 demo_descriptor demo_entry 0 /\ file_ok demo_opened demo_file /\
  exists e', read 6 demo_opened 0 5 = Ok (5, [97; 97; 97; 97; 97], set_fd demo_opened 0 e').
Proof.
  split; [exact demo_at_start|]. split; [exact demo_file_ok|].
  assert (file_bytes demo_opened demo_file 0 5 = [97; 97; 97; 97; 97]) as Eb by by vm_compute.
  pose proof (read_correct 6 demo_opened 0 demo_descriptor demo_entry 0 5 demo_at_start
    demo_file_ok) as H.
  change (cached_inode demo_entry) with demo_file in H. rewrite demo_room in H.
  destruct H as (e' & E & _); [lia | lia | cbn; lia | lia |]. exists e'.
  change (available demo_file 0 5) with 5 in E. by rewrite Eb in E.
Defined.
