(* ===== verification/MinixWrite.v ===== *)
(** [write] on an open file of the Minix 3 file system: what it does to the bytes of the
    file, to the rest of the disk and to the descriptor, as long as the zones of the file
    have room for it. *)
From S2P Require Import Prelude Mem Lock Disk Minix MinixCache MinixFile MinixSpec.

Section layout.
Context {D : Type} `{!Disk D} `{!DiskLaws D}.

(** A file whose zones are its own, with inode [num] in the inode blocks before them. *)
Record layout (f : FileSystem D) (inode : Inode) (num : Z) : Prop := mkLayout {
  lay_file : file_ok f inode;
  lay_zones : NoDup (file_zones f inode);
  lay_tables : Forall (fun z => z ∉ file_zones f inode) (tables f inode);
  lay_region : Forall (fun z => inodes_start f + 64 * num_inodes f <= z * 1024)
                 (file_zones f inode ++ tables f inode);
  lay_num : 1 <= num <= num_inodes f;
  lay_ten : length (zones inode) = 10%nat;
  lay_size : isize inode <= room f inode;
  lay_stored : bytes_at (bd f) (inode_adr f num) 64 = bytes_of_inode inode
}.

Lemma inode_adr_eq f inode num : layout f inode num ->
  inode_adr f num = inodes_start f + 64 * (num - 1) /\ 0 <= inodes_start f /\
  inode_adr f num + 64 <= inodes_start f + 64 * num_inodes f <= capacity (bd f) /\
  inode_adr f num < 2 ^ 32.
Proof.
  intros H. destruct (fs_inodes _ (file_fs _ _ (lay_file _ _ _ H))) as [H0 Hc].
  pose proof (lay_num _ _ _ H). pose proof (capacity_bound (bd f)).
  unfold inode_adr. rewrite u32_id by lia. lia.
Qed.

(** Where the bytes of a file are. *)
Lemma byte_adr_zone zs i z : zs !! Z.to_nat (i / 1024) = Some z ->
  byte_adr zs i = z * 1024 + i mod 1024.
Proof. intros E. unfold byte_adr. by rewrite E. Qed.

Lemma zone_lookup (zs : list Z) i : 0 <= i < 1024 * Z.of_nat (length zs) ->
  exists z, zs !! Z.to_nat (i / 1024) = Some z.
Proof. intros Hi. apply lookup_lt_is_Some_2. dlia. Qed.

(** The bytes in one zone are next to each other, and no other byte is among them. *)
Lemma byte_adr_range zs o m i : NoDup zs -> 0 <= o -> 0 <= i < 1024 * Z.of_nat (length zs) ->
  o < 1024 * Z.of_nat (length zs) -> o mod 1024 + m <= 1024 ->
  byte_adr zs o <= byte_adr zs i < byte_adr zs o + m <-> o <= i < o + m.
Proof.
  intros Hnd Ho Hi Hol Hm. destruct (zone_lookup zs o) as [z Ez]; [lia|].
  destruct (zone_lookup zs i) as [y Ey]; [lia|].
  rewrite (byte_adr_zone _ _ _ Ez), (byte_adr_zone _ _ _ Ey).
  destruct (decide (i / 1024 = o / 1024)) as [E|Hne].
  - rewrite E, Ez in Ey. injection Ey as <-. dlia.
  - assert (y <> z) as Hyz.
    { intros ->. pose proof (NoDup_lookup _ _ _ _ Hnd Ey Ez). dlia. }
    split; intros H; exfalso; [apply Hyz; dlia | apply Hne; dlia].
Qed.

Lemma tables_ext (f f' : FileSystem D) inode : same_tables f f' inode ->
  tables f' inode = tables f inode.
Proof.
  intros H. unfold tables. f_equal.
  destruct (Z.eqb_spec (zone_of inode ZONE_DINDIR) 0) as [|Hd]; [done|].
  by rewrite (same_pointers f f' inode _ H (table_dindir f inode Hd)).
Qed.

Lemma same_tables_sym (f f' : FileSystem D) inode : same_tables f f' inode ->
  same_tables f' f inode.
Proof.
  intros H. unfold same_tables. rewrite (tables_ext _ _ _ H).
  eapply Forall_impl; [exact H|]. by intros z ->.
Qed.

(** Neither the zones nor a position depend on the size. *)
Lemma file_zones_size (f : FileSystem D) inode n :
  file_zones f (set_isize inode n) = file_zones f inode.
Proof. done. Qed.

Lemma stands_size (f : FileSystem D) inode n p k :
  stands f (set_isize inode n) p k <-> stands f inode p k.
Proof. done. Qed.

Lemma file_ok_ext (f f' : FileSystem D) inode n : same_tables f f' inode ->
  fs_ok f' -> capacity (bd f') = capacity (bd f) -> 0 <= n < 2 ^ 32 ->
  file_ok f inode -> file_ok f' (set_isize inode n).
Proof.
  intros Hs Hf Hc Hn [_ Ht H0 He Hd _]. split; [done | | done | done | | done].
  - by apply (tables_ok_ext f f' inode).
  - rewrite file_zones_size, (file_zones_ext f f' inode Hs).
    eapply Forall_impl; [exact Hd|]. intros z [? ?]. split; [done|]. by rewrite Hc.
Qed.

Lemma file_ok_table (f : FileSystem D) inode t l : file_ok f inode ->
  file_ok (set_table f t l) inode.
Proof.
  intros H. pose proof (file_ok_ext f (set_table f t l) inode (isize inode)) as K.
  assert (set_isize inode (isize inode) = inode) as E by by destruct inode.
  rewrite E in K. apply K; [by apply same_tables_bd | | reflexivity | apply (file_size _ _ H) | exact H].
  apply fs_ok_table, (file_fs _ _ H).
Qed.

(** Descriptor [fd] is open for writing at byte [off] of a file of its own, [file_pointer]
    apart, which [write] does not use. *)
Record writable (f : FileSystem D) (fd : Z) (e : fileDescriptorEntry) (c : cacheEntry) (off : Z) :
    Prop := mkWritable {
  wr_fd : 0 <= fd < MAX_FD_ENTRIES;
  wr_get : fd_table f !! Z.to_nat fd = Some e;
  wr_taken : taken e = 1;
  wr_lock : fd_lock e = MUTEX_UNLOCKED;
  wr_entry : entries f !! file_inode e = Some c;
  wr_cache : cache_entry e = file_inode e;
  wr_layout : layout f (cached_inode c) (inode_num c);
  wr_off : 0 <= off <= isize (cached_inode c);
  wr_at : stands f (cached_inode c) (at_pos e) (off / 1024);
  wr_offset : fp_byte_offset e = off mod 1024;
  wr_total : total_read e = off
}.

(** [file_pointer], which [read] uses. *)
Definition pointer_ok (e : fileDescriptorEntry) (off : Z) : Prop :=
  file_pointer e = fp_block_offset (at_pos e) * 1024 + off mod 1024.

Lemma writable_opened (f : FileSystem D) fd e c off : writable f fd e c off ->
  pointer_ok e off -> opened f fd e c off.
Proof. intros [] Hp. split; [done|]. by split; [lia | | |]. Qed.

Lemma writable_open (f : FileSystem D) fd e c off : writable f fd e c off ->
  is_open f fd e c off.
Proof. by intros []. Qed.

Lemma layout_ext (f f' : FileSystem D) inode num n : same_tables f f' inode -> fs_ok f' ->
  capacity (bd f') = capacity (bd f) -> inodes_start f' = inodes_start f ->
  num_inodes f' = num_inodes f -> 0 <= n < 2 ^ 32 -> n <= room f inode ->
  bytes_at (bd f') (inode_adr f' num) 64 = bytes_of_inode (set_isize inode n) ->
  layout f inode num -> layout f' (set_isize inode n) num.
Proof.
  intros Hs Hf Hc Hi Hn Hsz Hle Hst [Hfile Hz Ht Hr Hnum Hten _ _].
  assert (file_zones f' (set_isize inode n) = file_zones f inode) as Ez
    by by rewrite file_zones_size, (file_zones_ext f f').
  assert (tables f' (set_isize inode n) = tables f inode) as Et by exact (tables_ext f f' inode Hs).
  split; rewrite ?Ez, ?Et, ?Hi, ?Hn.
  - by apply (file_ok_ext f f').
  - exact Hz.
  - exact Ht.
  - exact Hr.
  - exact Hnum.
  - exact Hten.
  - unfold room in *. by rewrite Ez.
  - exact Hst.
Qed.

(** [f'] is [f] after [data] went to offset [off] of the file: the bytes, the size, and the
    rest of the disk but the inode. *)
Record data_written (f f' : FileSystem D) (c c' : cacheEntry) (off : Z) (data : list Z) : Prop :=
  mkDataWritten {
  dw_zones : file_zones f' (cached_inode c') = file_zones f (cached_inode c);
  dw_data : file_bytes f' (cached_inode c') off (Z.of_nat (length data)) = data;
  dw_other : forall i, 0 <= i < room f (cached_inode c) ->
    ~ (off <= i < off + Z.of_nat (length data)) ->
    file_byte f' (cached_inode c') i = file_byte f (cached_inode c) i;
  dw_inode : cached_inode c' =
    set_isize (cached_inode c) (Z.max (isize (cached_inode c)) (off + Z.of_nat (length data)));
  dw_frame : forall b, (forall i, 0 <= i < room f (cached_inode c) ->
      b <> byte_adr (file_zones f (cached_inode c)) i) ->
    ~ (inode_adr f (inode_num c) <= b < inode_adr f (inode_num c) + 64) ->
    content (bd f') b = content (bd f) b
}.

End layout.

Section write.
Context {D : Type} `{!Disk D} `{!DiskLaws D}.

(** One call: the file system and the entry it starts from, and the bytes written. *)
Context (f0 : FileSystem D) (c0 : cacheEntry) (a off : Z) (data : list Z).
Context (Hlay : layout f0 (cached_inode c0) (inode_num c0)).
Context (Hc0 : entries f0 !! a = Some c0).
Context (Hdata : Forall byte_ok data).
Context (Hoff : 0 <= off <= isize (cached_inode c0)).
Context (Hroom : off + Z.of_nat (length data) < room f0 (cached_inode c0)).
Context (Hbig : room f0 (cached_inode c0) < 2 ^ 32).

Notation inode := (cached_inode c0).
Notation zs := (file_zones f0 inode).
Notation slot := (inode_adr f0 (inode_num c0)).
Notation len := (Z.of_nat (length data)).

Definition sized (n : Z) : cacheEntry :=
  mkEntry (set_isize inode n) (directory_map c0) (inode_num c0) (num_entries c0).

(** Only the disk and the size of this inode change during the call. *)
Definition state (d : D) (n : Z) : FileSystem D := set_bd (set_entry f0 a (sized n)) d.

(** The disk after [w] bytes, with size [n] in the inode. *)
Record disk_is (d : D) (w n : Z) : Prop := mkDiskIs {
  di_cap : capacity d = capacity (bd f0);
  di_data : forall i, 0 <= i < room f0 inode -> content d (byte_adr zs i) =
    if decide (off <= i < off + w) then default 0 (data !! Z.to_nat (i - off))
    else content (bd f0) (byte_adr zs i);
  di_frame : forall b, (forall i, 0 <= i < room f0 inode -> b <> byte_adr zs i) ->
    ~ (slot <= b < slot + 64) -> content d b = content (bd f0) b;
  di_slot : bytes_at d slot 64 = bytes_of_inode (set_isize inode n)
}.

Lemma state_start : state (bd f0) (isize inode) = f0.
Proof.
  assert (sized (isize inode) = c0) as E by (unfold sized; by destruct c0 as [[]]).
  unfold state, set_entry. rewrite E, insert_id by done. by destruct f0.
Qed.

Lemma disk_start : disk_is (bd f0) 0 (isize inode).
Proof.
  split; [done | | done |].
  - intros i Hi. by rewrite decide_False by lia.
  - rewrite (lay_stored _ _ _ Hlay). by destruct (cached_inode c0).
Qed.

(** A byte of a zone of another kind is none of the file's. *)
Lemma not_file_byte b z : z ∉ zs -> z * 1024 <= b < z * 1024 + 1024 ->
  forall i, 0 <= i < room f0 inode -> b <> byte_adr zs i.
Proof.
  intros Hz Hb i Hi ->. destruct (zone_lookup zs i Hi) as [y Ey].
  rewrite (byte_adr_zone _ _ _ Ey) in Hb. assert (y = z) as -> by dlia.
  apply Hz. by eapply list_elem_of_lookup_2.
Qed.

Lemma region z : z ∈ zs \/ z ∈ tables f0 inode -> slot + 64 <= z * 1024.
Proof.
  intros Hz. destruct (inode_adr_eq _ _ _ Hlay) as (E & _ & Hs & _).
  pose proof (proj1 (Forall_forall _ _) (lay_region _ _ _ Hlay) z) as H.
  rewrite elem_of_app in H. specialize (H Hz). cbn in H. lia.
Qed.

Lemma file_byte_region i : 0 <= i < room f0 inode -> slot + 64 <= byte_adr zs i.
Proof.
  intros Hi. destruct (zone_lookup zs i Hi) as [y Ey]. rewrite (byte_adr_zone _ _ _ Ey).
  pose proof (region y (or_introl (list_elem_of_lookup_2 _ _ _ Ey))). dlia.
Qed.

(** Inside a zone addresses follow offsets. *)
Lemma byte_adr_near o i : i / 1024 = o / 1024 -> byte_adr zs i = byte_adr zs o + (i - o).
Proof. intros E. unfold byte_adr. rewrite E. dlia. Qed.

(** The blocks of pointers are as they were. *)
Lemma same_tables_of_disk f' w n : disk_is (bd f') w n -> same_tables f0 f' inode.
Proof.
  intros H. apply Forall_forall. intros z Hz. apply bytes_at_ext. intros b Hb.
  apply (di_frame _ _ _ H).
  - apply (not_file_byte b z); [|lia]. by apply (proj1 (Forall_forall _ _) (lay_tables _ _ _ Hlay)).
  - pose proof (region z (or_intror Hz)). lia.
Qed.

Lemma state_tables d w n m : disk_is d w n -> same_tables f0 (state d m) inode.
Proof. apply (same_tables_of_disk (state d m)). Qed.

Lemma state_fs_ok d w n m : disk_is d w n -> fs_ok (state d m).
Proof.
  intros H. destruct (file_fs _ _ (lay_file _ _ _ Hlay)) as [Hb (?&?&?&?&?&?) (?&?&?&?&?&?) [? ?]].
  pose proof (di_cap _ _ _ H) as Hc.
  split; [done | | |]; cbn; unfold map_ok; cbn; rewrite ?Hc; repeat split; done.
Qed.

Lemma state_file_ok d w n m : disk_is d w n -> 0 <= m < 2 ^ 32 ->
  file_ok (state d m) (set_isize inode m).
Proof.
  intros H Hm. eapply file_ok_ext; [by eapply state_tables | | apply (di_cap _ _ _ H) | done |
    apply (lay_file _ _ _ Hlay)].
  by apply (state_fs_ok d w n).
Qed.

(** Positions carry over, both ways. *)
Lemma stands_in d w n m p k : disk_is d w n ->
  stands (state d m) (set_isize inode m) p k <-> stands f0 inode p k.
Proof.
  intros H. rewrite stands_size. pose proof (state_tables d w n m H) as Hs.
  split; apply stands_ext; [by apply same_tables_sym | done].
Qed.

Lemma data_slice_ok w m : Forall byte_ok (take m (drop w data)).
Proof. apply Forall_take, Forall_drop, Hdata. Qed.

(** Writing the next bytes of [data] into the zone they belong to. *)
Lemma write_zone_bytes d w n m p k b : disk_is d w n -> stands f0 inode p k ->
  0 <= b -> 0 <= w -> 0 < m -> b + m <= 1024 -> k * 1024 + b = off + w -> w + m <= len ->
  exists d', fs_write (state d n) (fp_block_offset p * 1024 + b)
      (take (Z.to_nat m) (drop (Z.to_nat w) data)) = (true, state d' n) /\
    disk_is d' (w + m) n.
Proof.
  intros H Hs Hb Hw Hm Hbm Hk Hl.
  destruct (stands_on_disk f0 inode p k (lay_file _ _ _ Hlay) Hs) as [Hz Hzc].
  destruct (stands_zone _ _ _ _ Hs) as (_ & Ez & _).
  replace k with ((off + w) / 1024) in Ez by dlia.
  assert (fp_block_offset p * 1024 + b = byte_adr zs (off + w)) as Ea.
  { rewrite (byte_adr_zone _ _ _ Ez). dlia. }
  set (l := take _ _).
  assert (Z.of_nat (length l) = m) as El by (unfold l; rewrite length_take, length_drop; lia).
  pose proof (capacity_bound (bd f0)).
  destruct (fs_write_content (state d n) (fp_block_offset p * 1024 + b) l) as (d' & E & Hc' & Hin).
  { lia. } { cbn. rewrite (di_cap _ _ _ H). lia. } { apply data_slice_ok. }
  exists d'. split; [exact E|]. rewrite El, Ea in Hin. change (bd (state d n)) with d in Hc', Hin.
  assert (off + w < room f0 inode) as Hr by lia.
  split; [by rewrite Hc', (di_cap _ _ _ H) | | |].
  - intros i Hi. rewrite Hin.
    pose proof (byte_adr_range zs (off + w) m i (lay_zones _ _ _ Hlay) ltac:(lia) Hi Hr ltac:(dlia)) as Hi'.
    destruct (decide (byte_adr zs (off + w) <= byte_adr zs i < _)) as [Hb1|Hb1].
    + apply Hi' in Hb1 as Hi1. rewrite decide_True by lia. unfold l.
      rewrite (byte_adr_near (off + w) i) by dlia.
      rewrite lookup_take_lt, lookup_drop by lia. do 2 f_equal. lia.
    + rewrite (di_data _ _ _ H i Hi). destruct (decide (off <= i < off + w)).
      * by rewrite decide_True by lia.
      * rewrite decide_False; [done|]. intros Hi2. apply Hb1, Hi'. lia.
  - intros b' Hb1 Hb2. rewrite Hin, (di_frame _ _ _ H b' Hb1 Hb2).
    rewrite decide_False; [done|]. intros Hb3.
    apply (Hb1 (off + w + (b' - byte_adr zs (off + w)))); [lia|].
    rewrite (byte_adr_near (off + w)) by dlia. lia.
  - rewrite <- (di_slot _ _ _ H). apply bytes_at_ext. intros b' Hb'. rewrite Hin.
    pose proof (file_byte_region (off + w) ltac:(lia)). by rewrite decide_False by lia.
Qed.

(** ** The size and the inode *)

Context (e : fileDescriptorEntry).
Context (Hei : file_inode e = a) (Hec : cache_entry e = a).

Definition size_after (w : Z) : Z := Z.max (isize inode) (off + w).

Lemma size_after_range w : 0 <= w <= len -> 0 <= size_after w < 2 ^ 32.
Proof.
  pose proof (file_size _ _ (lay_file _ _ _ Hlay)). unfold size_after. lia.
Qed.

Lemma moved_inode e' : moved e e' -> file_inode e' = a /\ cache_entry e' = a.
Proof. by intros (b & p & fp & t & ->). Qed.

Lemma state_inode d n e' : moved e e' -> fd_inode (state d n) e' = Ok (set_isize inode n).
Proof.
  intros [Hi _]%moved_inode. unfold fd_inode. rewrite Hi. cbn. by rewrite lookup_insert_eq.
Qed.

Lemma flush_state d w n m e' : disk_is d w n -> 0 <= m < 2 ^ 32 -> moved e e' ->
  exists d', flush_inode (state d m) e' = Ok (state d' m) /\ disk_is d' w m.
Proof.
  intros H Hm He. unfold flush_inode. rewrite (state_inode d m e' He). cbn [res_bind].
  destruct (moved_inode e' He) as [_ ->]. cbn [entries state set_bd set_entry set_cache].
  rewrite lookup_insert_eq. cbn [deref res_bind sized inode_num].
  destruct (inode_adr_eq _ _ _ Hlay) as (Ea & H0 & Hs & Hs32).
  assert (length (bytes_of_inode (set_isize inode m)) = 64%nat) as Hl
    by apply bytes_of_inode_length, (lay_ten _ _ _ Hlay).
  destruct (fs_write_content (state d m) slot (bytes_of_inode (set_isize inode m)))
    as (d' & E & Hc & Hin).
  { pose proof (lay_num _ _ _ Hlay). lia. }
  { rewrite Hl. change (bd (state d m)) with d. rewrite (di_cap _ _ _ H). lia. }
  { apply bytes_of_inode_ok. }
  rewrite Hl in Hin. change (bd (state d m)) with d in Hc, Hin.
  exists d'. split; [unfold write_unchecked; change (inode_adr _ _) with slot; by rewrite E|].
  split; [by rewrite Hc, (di_cap _ _ _ H) | | |].
  - intros i Hi. rewrite Hin. pose proof (file_byte_region i Hi).
    rewrite decide_False by lia. apply (di_data _ _ _ H i Hi).
  - intros b Hb1 Hb2. rewrite Hin, decide_False by lia. by apply (di_frame _ _ _ H).
  - apply list_eq. intros i. destruct (decide (i < 64)%nat).
    + rewrite <- (Nat2Z.id i) at 1. rewrite bytes_at_lookup by lia.
      rewrite Hin, decide_True by lia. replace (Z.to_nat _) with i by lia.
      destruct (lookup_lt_is_Some_2 (bytes_of_inode (set_isize inode m)) i) as [x Ex]; [lia|].
      by rewrite Ex.
    + pose proof (bytes_at_length d' slot 64). rewrite !lookup_ge_None_2 by lia. done.
Qed.

(** The size in memory follows the bytes written. *)
Lemma grow_size_ok d w m e' : 0 <= w -> 0 <= m -> w + m <= len -> moved e e' ->
  total_read e' = off + (w + m) ->
  exists b, grow_size (state d (size_after w)) e' = Ok (b, state d (size_after (w + m))) /\
    (b = false -> size_after (w + m) = size_after w).
Proof.
  intros Hw Hm Hl He Ht. unfold grow_size.
  rewrite (state_inode _ _ _ He). cbn [res_bind isize set_isize]. rewrite Ht.
  pose proof (size_after_range (w + m) ltac:(lia)) as Hr.
  destruct (Z.gtb_spec (off + (w + m)) (size_after w)) as [Hgt|Hle].
  - unfold set_fd_inode. destruct (moved_inode e' He) as [-> _].
    cbn [entries state set_bd set_entry set_cache]. rewrite lookup_insert_eq. cbn [deref res_bind].
    rewrite u32_id by (unfold size_after in Hr; lia).
    assert (size_after (w + m) = off + (w + m)) as <- by (unfold size_after in *; lia).
    exists true. split; [|done]. do 2 f_equal. unfold state, set_entry, sized. cbn.
    by rewrite insert_insert_eq.
  - assert (size_after (w + m) = size_after w) as E by (unfold size_after in *; lia).
    exists false. by rewrite E.
Qed.

(** After [w] bytes in all, [m] of them new, the size is right again, here and on the disk. *)
Lemma grow_and_flush_ok d w m e' : disk_is d (w + m) (size_after w) -> 0 <= w -> 0 <= m ->
  w + m <= len -> moved e e' -> total_read e' = off + (w + m) ->
  exists d', grow_and_flush (state d (size_after w)) e' = Ok (state d' (size_after (w + m))) /\
    disk_is d' (w + m) (size_after (w + m)).
Proof.
  intros H Hw Hm Hl He Ht. unfold grow_and_flush.
  destruct (grow_size_ok d w m e' Hw Hm Hl He Ht) as ([|] & -> & Hb); cbn [res_bind].
  - eapply flush_state; [exact H | by apply size_after_range; lia | done].
  - exists d. by rewrite Hb in *.
Qed.

(** The next zone exists as long as there is room. *)
Lemma next_state d w n e' k : disk_is d w n -> 0 <= n < 2 ^ 32 -> moved e e' ->
  stands f0 inode (at_pos e') k -> 1024 * (k + 1) < room f0 inode ->
  exists p, next_or_new_zone (state d n) e' = Ok (true, false, state d n,
      fd_at e' (fp_byte_offset e') p (file_pointer e') (total_read e')) /\
    stands f0 inode p (k + 1).
Proof.
  intros H Hn He Hs Hk. unfold next_or_new_zone. rewrite (state_inode _ _ _ He). cbn [res_bind].
  rewrite <- (stands_in d w n n) in Hs by done.
  destruct (next_stands _ _ _ k (state_file_ok d w n n H Hn) Hs) as (p & -> & Hp).
  - rewrite file_zones_size, (file_zones_ext f0 _ _ (state_tables d w n n H)). unfold room in Hk. lia.
  - exists p. split; [done|]. by rewrite (stands_in d w n n) in Hp by done.
Qed.

(** ** The parts of [write] *)

Context (Hat : stands f0 inode (at_pos e) (off / 1024)) (Hbo : fp_byte_offset e = off mod 1024).
Context (Htot : total_read e = off).

(** [e'] has moved past [w] bytes: total and zone; [points] says the rest. *)
Definition past (w : Z) (e' : fileDescriptorEntry) : Prop :=
  moved e e' /\ total_read e' = off + w /\ stands f0 inode (at_pos e') ((off + w) / 1024).

Definition points (w : Z) (e' : fileDescriptorEntry) : Prop :=
  fp_byte_offset e' = (off + w) mod 1024 /\
  file_pointer e' = fp_block_offset (at_pos e') * 1024 + (off + w) mod 1024.

Lemma past_move w m e' b p fp : past w e' -> stands f0 inode p ((off + (w + m)) / 1024) ->
  past (w + m) (fd_at e' b p fp (total_read e' + m)).
Proof.
  intros (Hm & Ht & _) Hs. split; [|split; [cbn; lia | done]].
  eapply moved_trans; [exact Hm | apply moved_at].
Qed.

Lemma state_write d w n m e' b : disk_is d w n -> stands f0 inode (at_pos e') ((off + w) / 1024) ->
  b = (off + w) mod 1024 -> 0 <= w -> 0 < m -> b + m <= 1024 -> w + m <= len ->
  exists d', fs_write (state d n)
      (fp_block_offset (at_pos e') * block_size (state d n) + b)
      (take (Z.to_nat m) (drop (Z.to_nat w) data)) = (true, state d' n) /\
    disk_is d' (w + m) n.
Proof.
  intros H Hs -> Hw Hm Hb Hl. cbn [block_size state set_bd set_entry set_cache].
  rewrite (fs_block _ (file_fs _ _ (lay_file _ _ _ Hlay))).
  apply (write_zone_bytes d w n m (at_pos e') _ _ H Hs); dlia.
Qed.

Lemma write_first_start : write_first f0 e data =
  write_first (state (bd f0) (size_after 0)) e data.
Proof.
  replace (size_after 0) with (isize inode) by (unfold size_after; lia). by rewrite state_start.
Qed.

(** The part of the data that goes to the zone the descriptor stands in. *)
Lemma first_write m : 0 < m -> off mod 1024 + m <= 1024 -> m <= len ->
  exists d, fs_write (state (bd f0) (size_after 0))
      (off mod 1024 + fp_block_offset (at_pos e) * block_size (state (bd f0) (size_after 0)))
      (take (Z.to_nat m) data) = (true, state d (size_after 0)) /\
    disk_is d (0 + m) (size_after 0).
Proof.
  intros Hm Hb Hl. rewrite Z.add_comm.
  apply (state_write (bd f0) 0 (size_after 0) m e (off mod 1024));
    rewrite ?Z.add_0_r; try done; try lia.
  replace (size_after 0) with (isize inode) by (unfold size_after; lia). apply disk_start.
Qed.

(** [write_first] when the bytes fit in the zone, and when they go on after it. *)
Lemma write_first_inside : 0 < len -> off mod 1024 + len < 1024 ->
  exists d e', write_first f0 e data = Ok (Done (len, state d (size_after len), e')) /\
    disk_is d len (size_after len) /\ past len e' /\ fp_byte_offset e' = (off + len) mod 1024 /\
    (file_pointer e = fp_block_offset (at_pos e) * 1024 + off mod 1024 -> points len e').
Proof.
  intros Hl Hin. rewrite write_first_start. unfold write_first.
  rewrite Hbo, (u32_id (1024 - _)) by dlia.
  rewrite (proj2 (Z.eqb_neq _ _)) by dlia. rewrite (proj2 (Z.leb_le _ _)) by lia.
  rewrite u32_id by dlia. destruct (first_write len) as (d & E & Hd); [lia | lia | lia |].
  unfold write_unchecked. rewrite E. cbn [snd].
  destruct (grow_and_flush_ok d 0 len (fd_at e (off mod 1024 + len) (at_pos e) (file_pointer e)
    (total_read e + len)) Hd) as (d' & Eg & Hd'); [lia | lia | lia | apply moved_at | cbn; lia |].
  rewrite Eg. cbn [res_bind].
  rewrite (proj2 (Z.eqb_neq _ _)) by dlia. do 2 eexists. split; [done|]. split; [done|]. split.
  - split; [eapply moved_trans; apply moved_at|]. split; [cbn; lia|]. cbn.
    by replace ((off + len) / 1024) with (off / 1024) by dlia.
  - split; [cbn; dlia|]. intros Hp. split; cbn; dlia.
Qed.

Lemma write_first_crosses : 1024 <= off mod 1024 + len ->
  let m := 1024 - off mod 1024 in
  exists d p, write_first f0 e data =
      Ok (Next (mkWriting (state d (size_after m))
                  (fd_at e 1024 p (file_pointer e + m) (off + m)) m (len - m))) /\
    disk_is d m (size_after m) /\ stands f0 inode p ((off + m) / 1024).
Proof.
  intros Hin m. assert (0 < m <= len /\ m <= 1024) as [Hm Hm'] by dlia.
  rewrite write_first_start. unfold write_first. rewrite Hbo, (u32_id (1024 - _)) by dlia. fold m.
  rewrite (proj2 (Z.eqb_neq _ _)) by lia.
  assert ((if len <=? m then u32 len else m) = m) as ->.
  { destruct (Z.leb_spec len m); [|done]. rewrite u32_id; lia. }
  destruct (first_write m) as (d & E & Hd); [lia | lia | lia |].
  unfold write_unchecked. rewrite E. cbn [snd].
  destruct (grow_and_flush_ok d 0 m (fd_at e (off mod 1024 + m) (at_pos e) (file_pointer e)
    (total_read e + m)) Hd) as (d' & Eg & Hd'); [lia | lia | lia | apply moved_at | cbn; lia |].
  rewrite Eg. cbn [res_bind]. rewrite Z.eqb_refl.
  set (e1 := fd_at _ _ _ _ _) in *.
  destruct (next_state d' (0 + m) (size_after (0 + m)) (fd_at e1 (fp_byte_offset e1) (at_pos e1)
    (file_pointer e1 + m) (total_read e1)) (off / 1024) Hd') as (p & En & Hp).
  { apply size_after_range. lia. } { eapply moved_trans; apply moved_at. } { done. } { dlia. }
  rewrite En. cbn. rewrite u32_id by lia. exists d', p. split; [|split; [done|]].
  - do 3 f_equal. unfold fd_at. cbn. rewrite Htot. f_equal; lia.
  - by replace ((off + m) / 1024) with (off / 1024 + 1) by dlia.
Qed.

(** Between two turns of the loop over whole zones: [written s] bytes are on the disk and
    the descriptor stands at the start of a zone. *)
Record in_loop (s : writing) : Prop := mkInLoop {
  il_fs : exists d, wfs s = state d (size_after (written s)) /\
            disk_is d (written s) (size_after (written s));
  il_past : past (written s) (went s);
  il_left : left s = len - written s;
  il_written : 0 <= written s <= len;
  il_start : (off + written s) mod 1024 = 0
}.

Lemma write_zone_turn s : in_loop s -> 1024 <= left s ->
  exists s', write_zone data s = Ok (Next s') /\ in_loop s' /\
    left s' = left s - 1024 /\ points (written s') (went s').
Proof.
  destruct s as [f e1 w l]. intros [(d & Ef & Hd) (Hm & Ht & Hs) El Hw H0] Hl.
  cbn [wfs went written left] in *. subst f. unfold write_zone.
  rewrite (proj2 (Z.ltb_ge _ _)) by lia.
  destruct (state_write d w (size_after w) 1024 e1 0 Hd Hs) as (d1 & E & Hd1);
    [lia | lia | lia | lia | lia |].
  rewrite Z.add_0_r in E. change (Z.to_nat 1024) with 1024%nat in E.
  cbn [at_pos fd_at]. rewrite E. cbn [negb].
  set (e2 := fd_at _ _ _ _ _).
  destruct (grow_and_flush_ok d1 w 1024 e2 Hd1) as (d2 & -> & Hd2).
  { lia. } { lia. } { lia. } { do 2 (eapply moved_trans; [|apply moved_at]). exact Hm. }
  { cbn. lia. }
  cbn [res_bind].
  destruct (next_state d2 (w + 1024) (size_after (w + 1024)) e2 ((off + w) / 1024) Hd2)
    as (p & -> & Hp).
  { apply size_after_range. lia. } { do 2 (eapply moved_trans; [|apply moved_at]). exact Hm. }
  { exact Hs. } { dlia. }
  cbn. eexists. split; [done|].
  assert ((off + (w + 1024)) / 1024 = (off + w) / 1024 + 1) as Eq by dlia.
  split; [|split; [done|]].
  - split; cbn; [by exists d2 | | lia | lia | dlia]. split; [|split; [cbn; lia|]].
    + do 4 (eapply moved_trans; [|apply moved_at]). exact Hm.
    + by rewrite Eq.
  - assert (on_disk f0 (fp_block_offset p)) as [Hz Hzc]
      by (eapply stands_on_disk; [apply (lay_file _ _ _ Hlay) | exact Hp]).
    pose proof (capacity_bound (bd f0)). split; cbn; [dlia|]. rewrite u64_id by lia. dlia.
Qed.

Lemma write_zones_ok : forall n s, in_loop s -> (Z.to_nat (left s / 1024) < n)%nat ->
  exists s', loop n (write_zone data) s = Ok (Next s') /\ in_loop s' /\ left s' < 1024 /\
    (s' = s /\ left s < 1024 \/ points (written s') (went s')).
Proof.
  induction n as [|n IH]; intros s Hs Hn; [lia|]. rewrite loop_S.
  destruct (decide (left s < 1024)) as [Hlt|Hge].
  - exists s. unfold write_zone. destruct s as [f e1 w l]. cbn [left] in Hlt.
    rewrite (proj2 (Z.ltb_lt _ _) Hlt). cbn [res_bind].
    split; [done|]. split; [exact Hs|]. split; [exact Hlt|]. by left.
  - destruct (write_zone_turn s Hs) as (s1 & -> & H1 & El & Hp); [lia|]. cbn [res_bind].
    destruct (IH s1 H1) as (s2 & -> & H2 & Hl & Hor); [rewrite El; dlia|].
    exists s2. split; [done|]. split; [done|]. split; [done|]. right.
    destruct Hor as [[-> _]|]; done.
Qed.

Lemma write_last_ok s : in_loop s -> left s < 1024 ->
  exists d e', write_last data s = Ok (len, state d (size_after len), e') /\
    disk_is d len (size_after len) /\ past len e' /\
    (0 < left s \/ points (written s) (went s) -> fp_byte_offset e' = (off + len) mod 1024) /\
    (points (written s) (went s) -> points len e').
Proof.
  destruct s as [f e1 w l]. intros [(d & Ef & Hd) (Hm & Ht & Hs) El Hw H0] Hl.
  cbn [wfs went written left] in *. subst f l. unfold write_last.
  destruct (Z.eqb_spec (len - w) 0) as [E0|Hne].
  - assert (w = len) as -> by lia.
    destruct (flush_state d len (size_after len) (size_after len) e1 Hd) as (d' & -> & Hd');
      [apply size_after_range; lia | done |].
    exists d', e1. split; [done|]. split; [done|]. split; [done|].
    split; [intros [?|[? _]]; [lia | done] | done].
  - destruct (state_write d w (size_after w) (len - w) e1 0 Hd Hs) as (d1 & E & Hd1);
      [lia | lia | lia | lia | lia |].
    rewrite Z.add_0_r in E. rewrite E. cbn [negb]. set (e2 := fd_at _ _ _ _ _).
    assert (moved e e2) as Hm2 by (eapply moved_trans; [exact Hm | apply moved_at]).
    assert (w + (len - w) = len) as Ew by lia.
    destruct (grow_size_ok d1 w (len - w) e2) as (b & -> & _); [lia | lia | lia | done | cbn; lia|].
    cbn [res_bind]. rewrite Ew in *.
    destruct (flush_state d1 len (size_after w) (size_after len) e2 Hd1) as (d2 & -> & Hd2);
      [apply size_after_range; lia | done |].
    cbn [res_bind]. exists d2, e2. split; [done|]. split; [done|].
    assert ((off + len) / 1024 = (off + w) / 1024) as Eq by dlia.
    split; [split; [done|]; split; [cbn; lia | by rewrite Eq]|].
    split; [intros _; cbn; dlia|]. intros [Hp1 Hp2]. split; cbn; dlia.
Qed.

(** The whole of [write] under the lock. *)
Lemma write_body_ok : 0 < len -> off mod 1024 + len <> 1024 ->
  exists d e', write_body f0 e data = Ok (len, state d (size_after len), e') /\
    disk_is d len (size_after len) /\ past len e' /\
    fp_byte_offset e' = (off + len) mod 1024 /\
    (off mod 1024 + len < 1024 \/ 2048 <= off mod 1024 + len ->
     file_pointer e = fp_block_offset (at_pos e) * 1024 + off mod 1024 -> points len e').
Proof.
  intros Hl Hne. unfold write_body. destruct (decide (off mod 1024 + len < 1024)) as [Hin|Hout].
  - destruct (write_first_inside Hl Hin) as (d & e' & -> & Hd & Hp & Hb & Hpt). cbn [res_bind].
    exists d, e'. auto 6.
  - destruct write_first_crosses as (d & p & -> & Hd & Hp); [lia|].
    set (m := 1024 - off mod 1024) in *. cbn [res_bind].
    set (s := mkWriting _ _ _ _). assert (in_loop s) as Hs.
    { split; cbn; [by exists d | split; [apply moved_at | done] | done | dlia | dlia]. }
    destruct (write_zones_ok (S (Z.to_nat (left s / 1024))) s Hs) as (s' & -> & Hs' & Hl' & Hor);
      [lia|]. cbn [res_bind].
    destruct (write_last_ok s' Hs' Hl') as (d' & e' & -> & Hd' & Hp' & Hb & Hpt).
    exists d', e'. split; [done|]. split; [done|]. split; [done|]. split.
    + apply Hb. destruct Hor as [[-> _]|Hor]; [left; cbn; lia | by right].
    + intros [?|Hbig2] _; [lia|]. apply Hpt. destruct Hor as [[-> Hlt]|Hor]; [cbn in Hlt; lia | done].
Qed.

(** A write that ends where its first zone ends leaves the offset in the zone at 1024. *)
Lemma write_body_boundary : off mod 1024 + len = 1024 ->
  exists d e', write_body f0 e data = Ok (len, state d (size_after len), e') /\
    disk_is d len (size_after len) /\ past len e' /\ fp_byte_offset e' = 1024.
Proof.
  intros Hl. unfold write_body. destruct write_first_crosses as (d & p & -> & Hd & Hp); [lia|].
  replace (1024 - off mod 1024) with len in * by lia. cbn [res_bind left].
  rewrite Z.sub_diag. change (S (Z.to_nat (0 / 1024))) with 1%nat. rewrite loop_S. cbn [write_zone].
  change (0 <? 1024) with true. cbn [res_bind write_last]. cbn [Z.eqb].
  set (e' := fd_at _ _ _ _ _). assert (moved e e') as Hm by apply moved_at.
  destruct (flush_state d len (size_after len) (size_after len) e' Hd) as (d' & -> & Hd');
    [apply size_after_range; lia | done |].
  exists d', e'. split; [done|]. split; [done|]. split; [|done]. split; [done|]. by split.
Qed.

(** When the descriptor stands with its offset at 1024, [write] goes on in the zone after
    the one it stands in: here the bytes go to offset [off], which begins that zone. *)
Lemma write_body_after e1 k : 0 < len < 1024 -> off = 1024 * (k + 1) -> moved e e1 ->
  fp_byte_offset e1 = 1024 -> stands f0 inode (at_pos e1) k ->
  total_read e1 + len <= isize inode ->
  exists d e', write_body (state (bd f0) (isize inode)) e1 data =
      Ok (len, state d (isize inode), e') /\
    disk_is d len (isize inode) /\ moved e e'.
Proof.
  intros Hl Ho Hm Hb Hs Ht. pose proof (file_size _ _ (lay_file _ _ _ Hlay)) as Hsz.
  unfold write_body, write_first. rewrite Hb. change (u32 (1024 - 1024) =? 0) with true. cbn iota.
  destruct (next_state (bd f0) 0 (isize inode) e1 k disk_start Hsz Hm Hs) as (p & -> & Hp); [lia|].
  cbn [res_bind negb left]. rewrite u32_id by lia.
  replace (S (Z.to_nat (len / 1024))) with 1%nat by dlia. rewrite loop_S. unfold write_zone at 1.
  rewrite (proj2 (Z.ltb_lt _ _)) by lia. cbn [res_bind write_last].
  rewrite (proj2 (Z.eqb_neq _ _)) by lia.
  destruct (write_zone_bytes (bd f0) 0 (isize inode) len p (k + 1) 0 disk_start Hp)
    as (d & E & Hd); [lia | lia | lia | lia | lia | lia |].
  rewrite Z.add_0_r in E. cbn [point_to_zone at_pos fd_at].
  change (block_size (state (bd f0) (isize inode))) with (block_size f0).
  rewrite (fs_block _ (file_fs _ _ (lay_file _ _ _ Hlay))).
  unfold BLOCK_SIZE. change (Z.to_nat 0) with 0%nat in E |- *. rewrite E. cbn [negb].
  set (e2 := fd_at _ _ _ _ _).
  assert (moved e e2) as Hm2 by (do 3 (eapply moved_trans; [|apply moved_at]); exact Hm).
  assert (total_read e2 = total_read e1 + len) as Et by done.
  unfold grow_size. rewrite (state_inode _ _ _ Hm2). cbn [res_bind set_isize isize].
  rewrite Et. replace (_ >? isize inode) with false by lia. cbn [res_bind].
  destruct (flush_state d len (isize inode) (isize inode) e2) as (d' & -> & Hd'); [done | done | done |].
  cbn [res_bind]. exists d', e2. rewrite Z.add_0_l. done.
Qed.

(** The call as a whole, seen from outside. *)
Lemma disk_data_written f' : disk_is (bd f') len (size_after len) ->
  data_written f0 f' c0 (sized (size_after len)) off data.
Proof.
  intros H. pose proof (same_tables_of_disk f' _ _ H) as Ht.
  assert (file_zones f' (cached_inode (sized (size_after len))) = zs) as Ez
    by apply (file_zones_ext f0 f' inode Ht).
  split; [done | | | done | apply (di_frame _ _ _ H)].
  - apply list_eq. intros i. unfold file_bytes. rewrite list_lookup_fmap.
    destruct (decide (Z.of_nat i < len)).
    + rewrite lookup_seqZ_lt by lia. cbn [fmap option_fmap option_map]. unfold file_byte. rewrite Ez.
      rewrite (di_data _ _ _ H) by lia. rewrite decide_True by lia.
      replace (Z.to_nat _) with i by lia.
      destruct (lookup_lt_is_Some_2 data i) as [x ->]; [lia | done].
    + rewrite lookup_seqZ_ge, lookup_ge_None_2 by lia. done.
  - intros i Hi Hni. unfold file_byte. rewrite Ez, (di_data _ _ _ H i Hi).
    by rewrite decide_False by lia.
Qed.

End write.

(** ** The theorems *)

Section theorems.
Context {D : Type} `{!Disk D} `{!DiskLaws D}.

Lemma sized_self c : sized c (isize (cached_inode c)) = c.
Proof. unfold sized. by destruct c as [[]]. Qed.

Lemma layout_after (f : FileSystem D) c a off data d w n t l :
  layout f (cached_inode c) (inode_num c) -> disk_is f c off data d w n -> 0 <= n < 2 ^ 32 ->
  n <= room f (cached_inode c) ->
  layout (set_table (state f c a d n) t l) (cached_inode (sized c n)) (inode_num c).
Proof.
  intros Hlay H Hn Hr. apply (layout_ext f); try done.
  - by eapply same_tables_of_disk.
  - apply fs_ok_table. by apply (state_fs_ok f c a off data Hlay d w n).
  - apply (di_cap _ _ _ _ _ _ _ H).
  - apply (di_slot _ _ _ _ _ _ _ H).
Qed.

Lemma write_enters (f : FileSystem D) fd e data : 0 <= fd -> fd_table f !! Z.to_nat fd = Some e ->
  taken e = 1 -> fd_lock e = MUTEX_UNLOCKED -> data <> [] ->
  write f fd (Some data) = let* (r, f, e) := write_body f e data in
                           Ok (r, set_fd f fd (fd_locked e MUTEX_UNLOCKED)).
Proof.
  intros Hfd Hg Htk Hlk Hne. unfold write, get_fd. rewrite (proj2 (Z.ltb_ge _ _)), Hg by lia.
  cbn [deref res_bind]. rewrite Hlk. cbn. rewrite Htk. cbn. by destruct data.
Qed.

(** [write], with the state it leaves. *)
Lemma write_ok f fd e c off data : writable f fd e c off ->
  Forall byte_ok data -> data <> [] ->
  off + Z.of_nat (length data) < room f (cached_inode c) ->
  room f (cached_inode c) < 2 ^ 32 ->
  let len := Z.of_nat (length data) in
  off mod 1024 + len <> 1024 ->
  exists d e', let c' := sized c (size_after c off len) in
    let f' := set_fd (state f c (file_inode e) d (size_after c off len)) fd e' in
    write f fd (Some data) = Ok (len, f') /\
    writable f' fd e' c' (off + len) /\ data_written f f' c c' off data /\
    file_inode e' = file_inode e /\
    (off mod 1024 + len < 1024 \/ 2048 <= off mod 1024 + len -> pointer_ok e off ->
     pointer_ok e' (off + len)).
Proof.
  intros [Hfd Hg Htk Hlk He Hc Hlay Hoff Hat Hbo Htot] Hd Hne Hroom Hbig len Hn.
  assert (0 < len) as Hlen by (unfold len; destruct data; [done | cbn; lia]).
  destruct (write_body_ok f c (file_inode e) off data Hlay He Hd Hoff Hroom Hbig e eq_refl Hc Hat
    Hbo Htot Hlen Hn) as (d & e' & E & Hdisk & (Hm & Ht & Hs) & Hbo' & Hpt).
  fold len in E, Hdisk, Ht, Hs, Hbo', Hpt.
  set (n := size_after c off len) in *. set (f' := state f c (file_inode e) d n) in *.
  exists d, (fd_locked e' MUTEX_UNLOCKED). split; [|split; [|split; [|split]]].
  - by rewrite (write_enters f fd e data (proj1 Hfd) Hg Htk Hlk Hne), E.
  - assert (same_tables f (set_fd f' fd (fd_locked e' MUTEX_UNLOCKED)) (cached_inode c)) as Hst
      by (eapply same_tables_of_disk; [exact Hlay | exact Hdisk]).
    destruct Hm as (b & p & fp & t & ->).
    pose proof (size_after_range f c off data Hlay Hroom Hbig len) as Hsz.
    split; cbn [fd_locked fd_at set_fd] in *; try done.
    + cbn. apply list_lookup_insert_eq. by eapply lookup_lt_Some.
    + cbn. by rewrite lookup_insert_eq.
    + apply (layout_after f c (file_inode e) off data d len n _ _ Hlay Hdisk); [apply Hsz; lia |].
      pose proof (lay_size _ _ _ Hlay). unfold n, size_after. lia.
    + cbn. unfold n, size_after. lia.
    + by eapply stands_ext.
  - by apply (disk_data_written f c off data Hlay).
  - by destruct Hm as (b & p & fp & t & ->).
  - intros H1 H2. by destruct (Hpt H1 H2).
Qed.

(** (C9) write stores the bytes at the descriptor's offset, whatever zones they fall in,
    returns their number, makes the file longer when they go past its end, and changes
    no other byte of the file and nothing else on the disk but the file's inode, which
    is stored with its new size; the descriptor is left after the bytes. This is proved
    within the zones the file has, for a write that does not end where its first zone
    ends. The file_pointer is also right unless the write ends in the zone after its
    first. *)
Theorem write_correct f fd e c off data : writable f fd e c off ->
  Forall byte_ok data -> data <> [] ->
  off + Z.of_nat (length data) < room f (cached_inode c) ->
  room f (cached_inode c) < 2 ^ 32 ->
  let len := Z.of_nat (length data) in
  off mod 1024 + len <> 1024 ->
  exists f' e' c', write f fd (Some data) = Ok (len, f') /\
    writable f' fd e' c' (off + len) /\ data_written f f' c c' off data /\
    (off mod 1024 + len < 1024 \/ 2048 <= off mod 1024 + len -> pointer_ok e off ->
     pointer_ok e' (off + len)).
Proof.
  intros Hw Hd Hne Hroom Hbig len Hn.
  destruct (write_ok f fd e c off data Hw Hd Hne Hroom Hbig Hn) as (d & e' & E & H1 & H2 & _ & H3).
  do 3 eexists. split; [exact E|]. split; [exact H1|]. split; [exact H2|]. exact H3.
Qed.

(** What write stores, lseek and read bring back: after a write, a seek to where it
    began and a read of as many bytes return the data. *)
Theorem write_seek_read n f fd e c off data : writable f fd e c off ->
  Forall byte_ok data -> data <> [] ->
  off + Z.of_nat (length data) < room f (cached_inode c) ->
  room f (cached_inode c) < 2 ^ 32 ->
  let len := Z.of_nat (length data) in
  off mod 1024 + len <> 1024 -> (Z.to_nat (off + len) < n)%nat ->
  exists f1 f2 f3, write f fd (Some data) = Ok (len, f1) /\
    lseek n f1 fd off SEEK_SET = Ok (off, f2) /\ read n f2 fd len = Ok (len, data, f3).
Proof.
  intros Hw Hd Hne Hroom Hbig len Hn Hfuel.
  destruct (write_ok f fd e c off data Hw Hd Hne Hroom Hbig Hn)
    as (d1 & e1 & E1 & Hw1 & Hdw & _). fold len in Hw1, E1.
  set (c1 := sized c _) in *. set (f1 := set_fd _ _ _) in *. clearbody f1 c1.
  pose proof (wr_off _ _ _ _ _ Hw) as Hoff.
  assert (room f1 (cached_inode c1) = room f (cached_inode c)) as Er
    by (unfold room; by rewrite (dw_zones _ _ _ _ _ _ Hdw)).
  pose proof (lay_file _ _ _ (wr_layout _ _ _ _ _ Hw1)) as Hf1.
  destruct (lseek_ok n f1 fd e1 c1 (off + len) off SEEK_SET (writable_open _ _ _ _ _ Hw1) Hf1)
    as (e2 & E2 & Ho2); [by left | cbn; lia | lia | cbn; dlia|]. cbn in E2, Ho2.
  pose proof (file_ok_table f1 _ (<[Z.to_nat fd := e2]> (fd_table f1)) (table_lock f1) Hf1) as Hf2.
  assert (isize (cached_inode c1) = Z.max (isize (cached_inode c)) (off + len)) as Es
    by by rewrite (dw_inode _ _ _ _ _ _ Hdw).
  pose proof (lay_size _ _ _ (wr_layout _ _ _ _ _ Hw1)) as Hsize.
  assert (file_zones (set_fd f1 fd e2) (cached_inode c1) = file_zones f1 (cached_inode c1)) as Ez
    by by apply file_zones_ext, same_tables_bd.
  pose proof (read_inside n (set_fd f1 fd e2) fd e2 c1 off len Ho2 Hf2) as Hrd.
  unfold room in Hrd. rewrite Ez in Hrd. fold (room f1 (cached_inode c1)) in Hrd.
  cbn zeta in Hrd. replace (available (cached_inode c1) off len) with len in Hrd
    by (unfold available; lia).
  destruct Hrd as (e3 & E3 & _); [lia | lia | lia | lia | lia |].
  do 3 eexists. split; [exact E1|]. split; [exact E2|]. rewrite E3. do 3 f_equal.
  rewrite <- (dw_data _ _ _ _ _ _ Hdw). fold len. unfold file_bytes, file_byte. by rewrite Ez.
Qed.

(** Two writes in a row, the first of which ends where its first zone ends: the second
    does not go after the first, but a whole zone further, and nothing is in between. *)
Theorem write_skips_zone f fd e c off d1 d2 : writable f fd e c off ->
  Forall byte_ok d1 -> Forall byte_ok d2 -> d1 <> [] -> d2 <> [] ->
  let l1 := Z.of_nat (length d1) in let l2 := Z.of_nat (length d2) in
  off mod 1024 + l1 = 1024 -> l2 < 1024 ->
  off + l1 + 1024 + l2 <= isize (cached_inode c) < room f (cached_inode c) ->
  room f (cached_inode c) < 2 ^ 32 ->
  exists f1 f2, write f fd (Some d1) = Ok (l1, f1) /\ data_written f f1 c c off d1 /\
    write f1 fd (Some d2) = Ok (l2, f2) /\ data_written f1 f2 c c (off + l1 + 1024) d2.
Proof.
  intros Hw Hd1 Hd2 Hn1 Hn2 l1 l2 Hl1 Hl2 Hsz Hbig.
  assert (0 < l1 /\ 0 < l2) as [? ?] by (unfold l1, l2; destruct d1, d2; cbn; done || lia).
  destruct Hw as [Hfd Hg Htk Hlk He Hc Hlay Hoff Hat Hbo Htot].
  destruct (write_body_boundary f c (file_inode e) off d1 Hlay He Hd1 Hoff ltac:(lia) Hbig e eq_refl
    Hc Hat Hbo Htot Hl1) as (b & e1 & E & Hdisk & (Hm & Ht & Hs) & Hb1).
  fold l1 in E, Hdisk, Ht, Hs.
  assert (size_after c off l1 = isize (cached_inode c)) as Es by (unfold size_after; lia).
  rewrite Es in *.
  set (f1 := set_fd (state f c (file_inode e) b (isize (cached_inode c))) fd
               (fd_locked e1 MUTEX_UNLOCKED)).
  pose proof (layout_after f c (file_inode e) off d1 b l1 _ (fd_table f1) (table_lock f1) Hlay Hdisk
    ltac:(lia) ltac:(lia)) as Hlay1.
  change (set_table (state _ _ _ _ _) _ _) with f1 in Hlay1. rewrite sized_self in Hlay1.
  assert (same_tables f f1 (cached_inode c)) as Hst
    by (eapply same_tables_of_disk; [exact Hlay | exact Hdisk]).
  assert (room f1 (cached_inode c) = room f (cached_inode c)) as Er
    by (unfold room; by rewrite (file_zones_ext f f1 _ Hst)).
  assert (entries f1 !! file_inode e = Some c) as He1
    by (cbn; by rewrite lookup_insert_eq, sized_self).
  assert (exists bo p fp t, e1 = fd_at e bo p fp t) as (bo & p & fp & t & ->) by exact Hm.
  cbn [fp_byte_offset total_read at_pos fd_at] in Hb1, Ht, Hs. subst bo.
  subst t. set (e1 := fd_at e 1024 p fp (off + l1)) in *.
  assert (write f fd (Some d1) = Ok (l1, f1)) as W1
    by (rewrite (write_enters f fd e d1 (proj1 Hfd) Hg Htk Hlk Hn1), E; reflexivity).
  assert (data_written f f1 c c off d1) as DW1.
  { pose proof (disk_data_written f c off d1 Hlay ltac:(lia) ltac:(lia) f1) as K.
    fold l1 in K. rewrite Es, sized_self in K. exact (K Hdisk). }
  assert (fd_table f1 !! Z.to_nat fd = Some (fd_locked e1 MUTEX_UNLOCKED)) as Hg1
    by (cbn; apply list_lookup_insert_eq; by eapply lookup_lt_Some).
  clearbody f1.
  pose proof (state_start f1 c (file_inode e) (off + l1 + 1024) d2 Hlay1 He1 ltac:(lia)
    ltac:(rewrite Er; lia) ltac:(by rewrite Er)) as Est.
  destruct (write_body_after f1 c (file_inode e) (off + l1 + 1024) d2 Hlay1 Hd2 ltac:(lia)
    ltac:(rewrite Er; lia) ltac:(by rewrite Er) (fd_locked e1 MUTEX_UNLOCKED) eq_refl Hc
    (fd_locked e1 MUTEX_UNLOCKED) ((off + l1) / 1024)) as (b2 & e2 & E2 & Hdisk2 & _);
    [lia | dlia | apply moved_refl | reflexivity | exact (stands_ext f f1 _ _ _ Hst Hs) | cbn; lia |].
  rewrite Est in E2. fold l2 in E2, Hdisk2.
  exists f1. eexists. split; [exact W1|]. split; [exact DW1|]. split.
  - rewrite (write_enters f1 fd _ d2 (proj1 Hfd) Hg1) by done. by rewrite E2.
  - assert (size_after c (off + l1 + 1024) l2 = isize (cached_inode c)) as Es2
      by (unfold size_after; lia).
    match goal with |- data_written _ ?f2 _ _ _ _ =>
      pose proof (disk_data_written f1 c (off + l1 + 1024) d2 Hlay1 ltac:(lia)
        ltac:(rewrite Er; lia) f2) as K end.
    fold l2 in K. rewrite Es2, sized_self in K. exact (K Hdisk2).
Qed.

End theorems.

(** ** The small disk *)

Lemma demo_layout : layout demo_opened demo_file 2.
Proof.
  assert (file_zones demo_opened demo_file = [5; 6; 7]) as Ez by by vm_compute.
  assert (tables demo_opened demo_file = [8]) as Et by by vm_compute.
  split; rewrite ?Ez, ?Et.
  - exact demo_file_ok.
  - computed.
  - computed.
  - repeat (apply Forall_cons; split; [vm_compute; discriminate|]). apply Forall_nil_2.
  - split; [discriminate | vm_compute; discriminate].
  - reflexivity.
  - rewrite demo_room. discriminate.
  - by vm_compute.
Qed.

Lemma demo_writable : writable demo_opened 0 demo_descriptor demo_entry 0.
Proof.
  split; try reflexivity.
  - split; [discriminate | reflexivity].
  - exact demo_layout.
  - split; discriminate.
  - apply stands_start.
Qed.

Lemma write_correct_witness :
  writable demo_opened 0 demo_descriptor demo_entry 0 /\
  exists f' e' c', write demo_opened 0 (Some [1; 2; 3]) = Ok (3, f') /\
    writable f' 0 e' c' 3 /\ file_bytes f' (cached_inode c') 0 3 = [1; 2; 3].
Proof.
  split; [exact demo_writable|].
  destruct (write_correct demo_opened 0 demo_descriptor demo_entry 0 [1; 2; 3] demo_writable)
    as (f' & e' & c' & E & Hw & Hd & _).
  - computed.
  - discriminate.
  - change (cached_inode demo_entry) with demo_file. rewrite demo_room. reflexivity.
  - change (cached_inode demo_entry) with demo_file. rewrite demo_room. reflexivity.
  - discriminate.
  - exists f', e', c'. split; [exact E|]. split; [exact Hw|]. apply (dw_data _ _ _ _ _ _ Hd).
Defined.

Lemma write_seek_read_witness :
  writable demo_opened 0 demo_descriptor demo_entry 0 /\
  exists f1 f2 f3, write demo_opened 0 (Some [1; 2; 3]) = Ok (3, f1) /\
    lseek 4 f1 0 0 SEEK_SET = Ok (0, f2) /\ read 4 f2 0 3 = Ok (3, [1; 2; 3], f3).
Proof.
  split; [exact demo_writable|].
  apply (write_seek_read 4 demo_opened 0 demo_descriptor demo_entry 0 [1; 2; 3] demo_writable).
  - computed.
  - discriminate.
  - change (cached_inode demo_entry) with demo_file. rewrite demo_room. reflexivity.
  - change (cached_inode demo_entry) with demo_file. rewrite demo_room. reflexivity.
  - discriminate.
  - cbn. lia.
Defined.

Lemma write_skips_zone_witness :
  writable demo_opened 0 demo_descriptor demo_entry 0 /\
  exists f1 f2, write demo_opened 0 (Some (replicate 1024 1)) = Ok (1024, f1) /\
    write f1 0 (Some [7]) = Ok (1, f2) /\ data_written f1 f2 demo_entry demo_entry 2048 [7].
Proof.
  split; [exact demo_writable|].
  destruct (write_skips_zone demo_opened 0 demo_descriptor demo_entry 0 (replicate 1024 1) [7]
    demo_writable) as (f1 & f2 & E1 & _ & E2 & Hd).
  - by apply Forall_replicate.
  - computed.
  - discriminate.
  - discriminate.
  - reflexivity.
  - reflexivity.
  - change (cached_inode demo_entry) with demo_file. rewrite demo_room. split; [discriminate | reflexivity].
  - change (cached_inode demo_entry) with demo_file. rewrite demo_room. reflexivity.
  - exists f1, f2. split; [exact E1|]. split; [exact E2 | exact Hd].
Defined.
