(* ===== verification/MinixOpen.v ===== *)
(** Looking a path up in the directory cache of the Minix 3 file system, and [open] and
    [close]: the search is the walk along the components of the path, [open] gives a
    descriptor at the start or the end of the file, and what is written is there when the
    file is opened again. *)
From S2P Require Import Prelude Mem Util Path Lock Disk Minix MinixCache MinixFile MinixSpec MinixWrite.

Section lookup.
Context {D : Type} `{!Disk D}.

(** ** The search is a walk *)

(** Each component is a name in the directory the ones before it lead to. *)
Fixpoint walk (f : FileSystem D) (m : Z) (comps : list (list Z)) : option Z :=
  match comps with
  | [] => None
  | c :: rest =>
      map ← dirs f !! m; a ← map !! c;
      match rest with
      | [] => Some a
      | _ => e ← entries f !! a;
             if S_ISDIR (mode (cached_inode e)) then walk f (directory_map e) rest else None
      end
  end.

(** Every name has its entry, and every directory its map. *)
Definition cache_ok (f : FileSystem D) : Prop :=
  forall m map name a, dirs f !! m = Some map -> map !! name = Some a ->
  exists e, entries f !! a = Some e /\
    (S_ISDIR (mode (cached_inode e)) = true -> is_Some (dirs f !! directory_map e)).

Lemma search_cache_ok f : cache_ok f -> forall comps m, is_Some (dirs f !! m) -> comps <> [] ->
  minix3_search_cache f m comps = Ok (walk f m comps).
Proof.
  intros Hf. induction comps as [|c rest IH]; intros m [map Hm] Hne; [done|].
  cbn [minix3_search_cache walk]. rewrite Hm. cbn [deref res_bind mbind option_bind].
  set (target a := match rest with
      | [] => Some a
      | _ => e ← entries f !! a;
             if S_ISDIR (mode (cached_inode e)) then walk f (directory_map e) rest else None
      end).
  match goal with |- ?F (map_to_list map) = _ => assert (forall keys, NoDup keys.*1 ->
    (forall k a, (k, a) ∈ keys -> map !! k = Some a) ->
    F keys = Ok ((list_to_map keys : gmap (list Z) Z) !! c ≫= target)) as H end.
  - induction keys as [|[k a] keys IHk]; intros Hnd Hin; [done|].
    cbn [fmap list_fmap fst] in Hnd. apply NoDup_cons in Hnd as [Hk Hnd].
    destruct (Hf m map k a Hm (Hin k a ltac:(by left))) as (e & He & Hdir).
    specialize (IHk Hnd (fun k a H => Hin k a (list_elem_of_further _ _ _ H))).
    cbn [list_to_map foldr fst snd]. case_bool_decide as Hc.
    + rewrite IHk. by rewrite lookup_insert_ne by done.
    + subst k.
      rewrite lookup_insert_eq, He. cbn [deref res_bind mbind option_bind]. unfold target.
      assert ((list_to_map keys : gmap (list Z) Z) !! c = None) as Hnone
        by by apply not_elem_of_list_to_map.
      destruct rest as [|c' rest]; [done|]. rewrite He. cbn [mbind option_bind].
      destruct (S_ISDIR _); [|by rewrite IHk, Hnone].
      rewrite IH by auto. cbn [res_bind]. destruct (walk f (directory_map e) (c' :: rest)); [done|].
      by rewrite IHk, Hnone.
  - rewrite H.
    + by rewrite list_to_map_to_list.
    + apply NoDup_fst_map_to_list.
    + intros k a. apply elem_of_map_to_list.
Qed.

(** What the walk depends on. *)
Definition same_tree (f f' : FileSystem D) : Prop :=
  dirs f' = dirs f /\ dirent_cache f' = dirent_cache f /\
  forall a, (fun e => (mode (cached_inode e), directory_map e)) <$> entries f' !! a =
            (fun e => (mode (cached_inode e), directory_map e)) <$> entries f !! a.

Lemma same_tree_table f t l : same_tree f (set_table f t l).
Proof. done. Qed.

Lemma same_tree_trans f1 f2 f3 : same_tree f1 f2 -> same_tree f2 f3 -> same_tree f1 f3.
Proof.
  intros (E1 & E2 & E3) (E1' & E2' & E3'). split; [congruence|]. split; [congruence|].
  intros a. by rewrite E3', E3.
Qed.

Lemma walk_ext f f' : same_tree f f' -> forall comps m, walk f' m comps = walk f m comps.
Proof.
  intros (Ed & _ & Ee). induction comps as [|c rest IH]; intros m; cbn [walk]; [done|].
  rewrite Ed. destruct (dirs f !! m) as [map|]; [|done]. cbn [mbind option_bind].
  destruct (map !! c) as [a|]; [|done]. cbn [mbind option_bind].
  destruct rest; [done|]. specialize (Ee a).
  destruct (entries f' !! a) as [e'|], (entries f !! a) as [e|]; try done.
  cbn [fmap option_fmap option_map mbind option_bind] in Ee |- *.
  injection Ee as -> ->. by rewrite IH.
Qed.

Lemma cache_ok_ext f f' : same_tree f f' -> cache_ok f -> cache_ok f'.
Proof.
  intros (Ed & _ & Ee) H m map name a Hm Hn. rewrite Ed in *.
  destruct (H m map name a Hm Hn) as (e & He & Hd). specialize (Ee a). rewrite He in Ee.
  destruct (entries f' !! a) as [e'|]; [|done]. cbn in Ee. injection Ee as E1 E2.
  exists e'. split; [done|]. by rewrite E1, E2.
Qed.

(** A path as [Path] sees it. *)
Lemma cstr_insert_below m c s : forall a b, a < b -> cstr m b s -> cstr (<[a := c]> m) b s.
Proof.
  induction s as [|x s IH]; intros a b Hab; cbn; rewrite lookup_insert_ne by lia; [done|].
  intros (? & ? & ?). split; [done|]. split; [done|]. apply IH; [lia | done].
Qed.

Lemma cstr_mem_list s : Forall (fun c => c <> 0) s -> forall a, cstr (mem_list a (s ++ [0])) a s.
Proof.
  induction 1 as [|c s Hc _ IH]; intros a; cbn; rewrite lookup_insert_eq; [done|].
  split; [done|]. split; [done|]. apply cstr_insert_below; [lia | apply IH].
Qed.

(** The text of an absolute path and its components. *)
Definition names (path : list Z) (comps : list (list Z)) : Prop :=
  exists segs trail, path = path_text segs trail /\ Forall (fun c => c <> 0) path /\
    Forall seg_ok segs /\ comps = components segs trail.

Lemma parse_path_names path comps : names path comps -> minix3_parse_path path = Ok comps.
Proof.
  intros (segs & trail & -> & Hz & Hs & ->). unfold minix3_parse_path.
  apply path_split_correct; [by apply cstr_mem_list | done].
Qed.

(** (C35) Looking an absolute path up in the cache gives the entry its components lead to,
    one name in each directory, or nothing; in which order the map lists its names does
    not matter. *)
Theorem search_cache_correct f path comps : cache_ok f -> is_Some (dirs f !! dirent_cache f) ->
  names path comps -> comps <> [] ->
  minix3_search_cache_wrapper f path = Ok (walk f (dirent_cache f) comps).
Proof.
  intros Hf Hd Hp Hne. unfold minix3_search_cache_wrapper. rewrite (parse_path_names path comps Hp).
  by apply search_cache_ok.
Qed.

Lemma search_in f f' path comps : same_tree f f' -> cache_ok f ->
  is_Some (dirs f !! dirent_cache f) -> names path comps -> comps <> [] ->
  minix3_search_cache_wrapper f' path = Ok (walk f (dirent_cache f) comps).
Proof.
  intros Hs Hf Hd Hp Hne. pose proof Hs as (Ed & Ec & _).
  rewrite <- (walk_ext f f' Hs), <- Ec. unfold minix3_search_cache_wrapper.
  rewrite (parse_path_names path comps Hp).
  apply search_cache_ok; [by eapply cache_ok_ext | by rewrite Ed, Ec | done].
Qed.

(** ** [open] *)

(** Descriptor [fd] is the first that is not taken. *)
Definition first_free (f : FileSystem D) (fd : Z) (e : fileDescriptorEntry) : Prop :=
  0 <= fd < MAX_FD_ENTRIES /\ fd_table f !! Z.to_nat fd = Some e /\ taken e = 0 /\
  forall i e', (i < Z.to_nat fd)%nat -> fd_table f !! i = Some e' -> taken e' <> 0.

Lemma free_fd_first l : forall i k e, l !! k = Some e -> taken e = 0 ->
  (forall j e', (j < k)%nat -> l !! j = Some e' -> taken e' <> 0) ->
  free_fd l i = (i + Z.of_nat k, i + Z.of_nat k).
Proof.
  induction l as [|x l IH]; intros i k e Hk Ht Hb; [done|]. cbn [free_fd].
  destruct k as [|k]; cbn in Hk.
  - injection Hk as ->. rewrite Ht. cbn. by rewrite Z.add_0_r.
  - pose proof (Hb 0%nat x ltac:(lia) eq_refl) as Hx. rewrite (proj2 (Z.eqb_neq _ _) Hx).
    rewrite (IH (i + 1) k e Hk Ht); [f_equal; lia|].
    intros j e' Hj. apply (Hb (S j)). lia.
Qed.

Lemma free_fd_get f fd e : first_free f fd e -> free_fd (fd_table f) 0 = (fd, fd).
Proof.
  intros (H0 & Hg & Ht & Hb). rewrite (free_fd_first _ 0 (Z.to_nat fd) e Hg Ht Hb).
  f_equal; lia.
Qed.

Definition fd_take (e : fileDescriptorEntry) : fileDescriptorEntry :=
  mkFd (file_inode e) (fp_byte_offset e) (at_pos e) 1 (read_enabled e) (write_enabled e)
    (file_pointer e) (total_read e) (cache_entry e) (fd_lock e).

(** The file system while [open] runs. *)
Definition opening (f : FileSystem D) (fd : Z) (e : fileDescriptorEntry) : FileSystem D :=
  set_table f (<[Z.to_nat fd := fd_take e]> (fd_table f)) MUTEX_LOCKED.

Lemma open_enters f path comps flags m env fd e : cache_ok f ->
  is_Some (dirs f !! dirent_cache f) -> names path comps -> comps <> [] ->
  table_lock f = MUTEX_UNLOCKED -> first_free f fd e ->
  open f path flags m env =
    match walk f (dirent_cache f) comps with
    | Some x =>
        let* (ok, f) := open_entry (opening f fd e) fd flags x in
        if ok : bool then Ok (fd, set_table f (fd_table f) MUTEX_UNLOCKED) else Ok (-1, f)
    | None =>
        if Z.land flags O_CREAT =? 0 then Ok (-1, opening f fd e)
        else
          let* (found, f) := open_create (opening f fd e) path m env in
          match found with
          | None => Ok (-1, f)
          | Some x =>
              let* (ok, f) := open_entry f fd flags x in
              if ok : bool then Ok (fd, set_table f (fd_table f) MUTEX_UNLOCKED) else Ok (-1, f)
          end
    end.
Proof.
  intros Hf Hd Hp Hne Hl He. unfold open. rewrite Hl.
  change (mutex_spinlock MUTEX_UNLOCKED) with (Ok MUTEX_LOCKED). cbn [res_bind].
  rewrite (free_fd_get f fd e He). destruct He as (H0 & Hg & _).
  unfold get_fd. rewrite (proj2 (Z.ltb_ge _ _)), Hg by lia. cbn [deref res_bind].
  rewrite (search_in f _ path comps) by (done || apply same_tree_table).
  destruct (walk f (dirent_cache f) comps); cbn [res_bind]; [done|].
  by destruct (Z.land flags O_CREAT =? 0).
Qed.

(** (C36) Opening a path that is not there, without O_CREAT, returns -1, but keeps the table
    of descriptors locked and a descriptor taken: every later open waits for ever. *)
Theorem open_missing_deadlocks f path comps flags m env fd e : cache_ok f ->
  is_Some (dirs f !! dirent_cache f) -> names path comps -> comps <> [] ->
  walk f (dirent_cache f) comps = None -> Z.land flags O_CREAT = 0 ->
  table_lock f = MUTEX_UNLOCKED -> first_free f fd e ->
  exists f', open f path flags m env = Ok (-1, f') /\
    fd_table f' = <[Z.to_nat fd := fd_take e]> (fd_table f) /\ bd f' = bd f /\
    forall path' flags' m' env', open f' path' flags' m' env' = Hang.
Proof.
  intros Hf Hd Hp Hne Hw Hfl Hl He. exists (opening f fd e).
  rewrite (open_enters f path comps flags m env fd e) by done. rewrite Hw, Hfl. done.
Qed.

(** Creating a file in the root directory, the only component of its path, is not
    defined: the path of its parent directory has no component to copy. *)
Theorem create_in_root f name flags m env fd e : cache_ok f ->
  is_Some (dirs f !! dirent_cache f) -> names (47 :: name) [name] ->
  walk f (dirent_cache f) [name] = None -> Z.land flags O_CREAT <> 0 ->
  table_lock f = MUTEX_UNLOCKED -> first_free f fd e ->
  open f (47 :: name) flags m env = Ub.
Proof.
  intros Hf Hd Hp Hw Hfl Hl He. rewrite (open_enters f _ [name] flags m env fd e) by done.
  rewrite Hw, (proj2 (Z.eqb_neq _ _) Hfl). unfold open_create, minix3_get_parent_path.
  by rewrite (parse_path_names _ _ Hp).
Qed.

End lookup.

Section open.
Context {D : Type} `{!Disk D} `{!DiskLaws D}.

(** [f'] has the bytes of the file [f] has, and differs on the disk in its inode only. *)
Record kept (f f' : FileSystem D) (c c' : cacheEntry) : Prop := mkKept {
  kept_zones : file_zones f' (cached_inode c') = file_zones f (cached_inode c);
  kept_bytes : forall i, 0 <= i < room f (cached_inode c) ->
    file_byte f' (cached_inode c') i = file_byte f (cached_inode c) i;
  kept_frame : forall b,
    ~ (inode_adr f (inode_num c) <= b < inode_adr f (inode_num c) + 64) ->
    content (bd f') b = content (bd f) b;
  kept_tree : same_tree f f'
}.

Lemma layout_table (f : FileSystem D) inode num t l : layout f inode num ->
  layout (set_table f t l) inode num.
Proof.
  intros H. pose proof (layout_ext f (set_table f t l) inode num (isize inode)) as K.
  assert (set_isize inode (isize inode) = inode) as E by by destruct inode. rewrite E in K.
  apply K; try done.
  - by apply same_tables_bd.
  - apply fs_ok_table, (file_fs _ _ (lay_file _ _ _ H)).
  - apply (file_size _ _ (lay_file _ _ _ H)).
  - apply (lay_size _ _ _ H).
  - apply (lay_stored _ _ _ H).
Qed.

Lemma room_pos (f : FileSystem D) inode : 0 < room f inode.
Proof. unfold room, file_zones. cbn [length]. lia. Qed.

Lemma flush_keeps (f : FileSystem D) c x e n : layout f (cached_inode c) (inode_num c) ->
  room f (cached_inode c) < 2 ^ 32 -> file_inode e = x -> cache_entry e = x -> 0 <= n < 2 ^ 32 ->
  exists d, flush_inode (state f c x (bd f) n) e = Ok (state f c x d n) /\
    disk_is f c 0 [] d 0 n.
Proof.
  intros Hlay Hr Hi Hc Hn. pose proof (room_pos f (cached_inode c)).
  pose proof (file_size _ _ (lay_file _ _ _ Hlay)).
  apply (flush_state f c x 0 [] Hlay e Hi Hc (bd f) 0 (isize (cached_inode c)) n e);
    [|done | apply moved_refl]. apply disk_start; cbn; [done | lia | lia | lia].
Qed.

Lemma state_tree (f : FileSystem D) c x d n t l : entries f !! x = Some c ->
  same_tree f (set_table (state f c x d n) t l).
Proof.
  intros He. split; [done|]. split; [done|]. intros a. cbn.
  destruct (decide (a = x)) as [->|].
  - by rewrite lookup_insert_eq, He.
  - by rewrite lookup_insert_ne.
Qed.

Lemma state_kept (f : FileSystem D) c x d n t l : layout f (cached_inode c) (inode_num c) ->
  entries f !! x = Some c -> disk_is f c 0 [] d 0 n ->
  kept f (set_table (state f c x d n) t l) c (sized c n).
Proof.
  intros Hlay He H.
  assert (file_zones (set_table (state f c x d n) t l) (cached_inode (sized c n)) =
          file_zones f (cached_inode c)) as Ez
    by exact (file_zones_ext f _ _ (same_tables_of_disk f c 0 [] Hlay
                (set_table (state f c x d n) t l) 0 n H)).
  split; [done | | | by apply state_tree].
  - intros i Hi. unfold file_byte. rewrite Ez. cbn [bd set_table state set_bd].
    rewrite (di_data _ _ _ _ _ _ _ H i Hi). by rewrite decide_False by lia.
  - intros b Hb. cbn [bd set_table state set_bd].
    destruct (decide (Exists (fun i => b = byte_adr (file_zones f (cached_inode c)) i)
      (seqZ 0 (room f (cached_inode c))))) as [Hx|Hx].
    + apply Exists_exists in Hx as (i & Hi%elem_of_seqZ & ->).
      rewrite (di_data _ _ _ _ _ _ _ H i) by lia. by rewrite decide_False by lia.
    + apply (di_frame _ _ _ _ _ _ _ H); [|done]. intros i Hi ->. apply Hx, Exists_exists.
      exists i. split; [|done]. apply elem_of_seqZ. lia.
Qed.

Lemma file_zones_table (f : FileSystem D) t l inode :
  file_zones (set_table f t l) inode = file_zones f inode.
Proof. by apply file_zones_ext, same_tables_bd. Qed.

Lemma room_table (f : FileSystem D) t l inode : room (set_table f t l) inode = room f inode.
Proof. unfold room. by rewrite file_zones_table. Qed.

Lemma kept_table (f : FileSystem D) t l f' c c' : kept (set_table f t l) f' c c' -> kept f f' c c'.
Proof.
  intros [Hz Hb Hfr Ht]. unfold file_byte in *. rewrite room_table, file_zones_table in *.
  by split.
Qed.

Lemma append_loop_ok (f : FileSystem D) inode : file_ok f inode -> forall n p k,
  stands f inode p k -> k + Z.of_nat n < Z.of_nat (length (file_zones f inode)) ->
  exists p', append_loop n f inode p = Ok (true, p') /\ stands f inode p' (k + Z.of_nat n).
Proof.
  intros Hf. induction n as [|n IH]; intros p k Hs Hk; cbn [append_loop].
  - exists p. by rewrite Z.add_0_r.
  - destruct (next_stands f inode p k Hf Hs) as (p' & -> & Hs'); [lia|]. cbn [res_bind].
    destruct (IH p' (k + 1) Hs') as (q & E & Hq); [lia|]. exists q. split; [done|].
    by replace (k + Z.of_nat (S n)) with (k + 1 + Z.of_nat n) by lia.
Qed.

Definition has (flags o : Z) : bool := negb (Z.land flags o =? 0).

(** The part of [open] after the lookup, for a descriptor that is taken and unlocked. *)
Lemma open_entry_ok (f : FileSystem D) fd e c x flags : 0 <= fd < MAX_FD_ENTRIES ->
  fd_table f !! Z.to_nat fd = Some e -> taken e = 1 -> fd_lock e = MUTEX_UNLOCKED ->
  entries f !! x = Some c -> layout f (cached_inode c) (inode_num c) ->
  isize (cached_inode c) < room f (cached_inode c) -> room f (cached_inode c) < 2 ^ 32 ->
  has flags O_APPEND && has flags O_TRUNC = false ->
  let off := if has flags O_APPEND then isize (cached_inode c) else 0 in
  let size := if has flags O_TRUNC then 0 else isize (cached_inode c) in
  exists d e', open_entry f fd flags x = Ok (true, set_fd (state f c x d size) fd e') /\
    disk_is f c 0 [] d 0 size /\ file_inode e' = x /\ cache_entry e' = x /\
    taken e' = 1 /\ fd_lock e' = MUTEX_UNLOCKED /\ total_read e' = off /\
    fp_byte_offset e' = off mod 1024 /\ pointer_ok e' off /\
    stands f (cached_inode c) (at_pos e') (off / 1024).
Proof.
  intros Hfd Hg Htk Hlk He Hlay Hsz Hr Hnb off size.
  pose proof (lay_file _ _ _ Hlay) as Hf. pose proof (file_size _ _ Hf) as Hs0.
  unfold open_entry, get_fd. rewrite (proj2 (Z.ltb_ge _ _)), Hg, He by lia. cbn [deref res_bind].
  rewrite (proj2 (Z.eqb_neq _ _) (file_first _ _ Hf)). cbn [res_bind negb].
  fold (has flags O_APPEND) (has flags O_TRUNC) (has flags O_WRONLY).
  change (with_block _ (zone_of (cached_inode c) 0)) with (start_pos (cached_inode c)).
  assert (exists p, (if has flags O_APPEND
      then append_loop (Z.to_nat (isize (cached_inode c) / 1024)) f (cached_inode c)
             (start_pos (cached_inode c))
      else Ok (true, start_pos (cached_inode c))) = Ok (true, p) /\
    stands f (cached_inode c) p (off / 1024) /\
    (has flags O_APPEND = false -> p = start_pos (cached_inode c))) as (p & -> & Hp & Hpa).
  { unfold off. destruct (has flags O_APPEND).
    - destruct (append_loop_ok f (cached_inode c) Hf (Z.to_nat (isize (cached_inode c) / 1024))
        (start_pos (cached_inode c)) 0 (stands_start f _)) as (p & E & Hp).
      + unfold room in Hsz. dlia.
      + exists p. split; [done|]. split; [|done].
        by replace (_ / 1024) with (0 + Z.of_nat (Z.to_nat (isize (cached_inode c) / 1024)))
          at 1 by dlia.
    - exists (start_pos (cached_inode c)). split; [done|]. split; [apply stands_start | done]. }
  cbn [res_bind negb].
  destruct (stands_on_disk _ _ _ _ Hf Hp) as [Hz Hzc]. pose proof (capacity_bound (bd f)) as Hcap.
  assert (forall b, 0 <= b < 1024 -> u64 (fp_block_offset p * 1024 + b) = fp_block_offset p * 1024 + b)
    as Hu by (intros b Hb; apply u64_id; dlia).
  assert (forall e', file_inode e' = x -> (if has flags O_TRUNC
      then set_fd_inode f e' (set_isize (cached_inode c) 0) else Ok f) =
      Ok (state f c x (bd f) size)) as Hset.
  { intros e' Hi. unfold size. destruct (has flags O_TRUNC).
    - unfold set_fd_inode. by rewrite Hi, He.
    - by rewrite (state_start f c x 0 []) by (done || lia || cbn; lia). }
  rewrite Hset by (by destruct (has flags O_APPEND)).
  cbn [res_bind].
  assert (0 <= size < 2 ^ 32) as Hs by (unfold size; destruct (has flags O_TRUNC); lia).
  match goal with |- context [flush_inode _ ?e0] => set (e3 := e0) end.
  assert (file_inode e3 = x /\ cache_entry e3 = x) as [Hi Hc].
  { unfold e3. by destruct (has flags O_WRONLY), (has flags O_TRUNC), (has flags O_APPEND). }
  destruct (flush_keeps f c x e3 size Hlay Hr Hi Hc Hs) as (d & -> & Hd).
  cbn [res_bind]. exists d, e3. do 4 (split; [done|]).
  unfold e3, off, pointer_ok in *. clear Hset Hi Hc.
  destruct (has flags O_WRONLY), (has flags O_TRUNC), (has flags O_APPEND); try done;
    cbn [taken fd_lock total_read fp_byte_offset file_pointer at_pos fd_at point_to_zone];
    (do 4 (split; [done|])); (split; [|exact Hp]).
  all: try exact (Hu (isize (cached_inode c) mod 1024) ltac:(dlia)).
  all: rewrite (Hpa eq_refl) in *; rewrite <- Hu by done; f_equal; symmetry; apply Z.add_0_r.
Qed.

(** A cache, a path in it, the entry it leads to and the descriptor [open] will use. *)
Record can_open (f : FileSystem D) (path : list Z) (comps : list (list Z)) (x : Z) (c : cacheEntry)
    (fd : Z) (e : fileDescriptorEntry) : Prop := mkCanOpen {
  can_cache : cache_ok f;
  can_root : is_Some (dirs f !! dirent_cache f);
  can_names : names path comps;
  can_some : comps <> [];
  can_walk : walk f (dirent_cache f) comps = Some x;
  can_entry : entries f !! x = Some c;
  can_layout : layout f (cached_inode c) (inode_num c);
  can_size : isize (cached_inode c) < room f (cached_inode c) < 2 ^ 32;
  can_table : table_lock f = MUTEX_UNLOCKED;
  can_free : first_free f fd e;
  can_lock : fd_lock e = MUTEX_UNLOCKED
}.

(** [open], with what it leaves in the table. *)
Lemma open_ok f path comps x c fd e flags m env : can_open f path comps x c fd e ->
  has flags O_APPEND && has flags O_TRUNC = false ->
  let off := if has flags O_APPEND then isize (cached_inode c) else 0 in
  let size := if has flags O_TRUNC then 0 else isize (cached_inode c) in
  exists f' e', open f path flags m env = Ok (fd, f') /\
    writable f' fd e' (sized c size) off /\ pointer_ok e' off /\ file_inode e' = x /\
    kept f f' c (sized c size) /\ table_lock f' = MUTEX_UNLOCKED /\
    fd_table f' = <[Z.to_nat fd := e']> (fd_table f).
Proof.
  intros [Hf Hd Hp Hne Hw He Hlay [Hsz Hr] Hl Hfree Hlk] Hnb off size.
  pose proof (file_size _ _ (lay_file _ _ _ Hlay)) as Hs0.
  assert (0 <= size <= isize (cached_inode c) /\ 0 <= off <= size) as [Hs1 Hos].
  { unfold off, size. destruct (has flags O_APPEND), (has flags O_TRUNC); discriminate || lia. }
  pose proof Hfree as (Hfd & Hg & _). set (f1 := opening f fd e).
  pose proof (layout_table f (cached_inode c) (inode_num c) (fd_table f1) (table_lock f1) Hlay) as Hlay1.
  change (set_table f (fd_table f1) (table_lock f1)) with f1 in Hlay1.
  assert (room f1 (cached_inode c) = room f (cached_inode c)) as Er by apply room_table.
  assert (fd_table f1 !! Z.to_nat fd = Some (fd_take e)) as Hg1
    by (cbn; apply list_lookup_insert_eq; by eapply lookup_lt_Some).
  destruct (open_entry_ok f1 fd (fd_take e) c x flags Hfd Hg1 eq_refl Hlk He Hlay1
    ltac:(by rewrite Er) ltac:(by rewrite Er) Hnb) as
    (d & e' & Eo & Hdisk & Hi & Hc & Ht & Hlk' & Htot & Hbo & Hpt & Hs).
  fold off size in Eo, Hdisk, Htot, Hbo, Hpt, Hs.
  set (f' := set_table (state f1 c x d size) (<[Z.to_nat fd := e']> (fd_table f1)) MUTEX_UNLOCKED).
  exists f', e'. split; [|split; [|split; [exact Hpt|split; [exact Hi|split; [|split; [reflexivity|]]]]]].
  - rewrite (open_enters f path comps flags m env fd e) by assumption. rewrite Hw. fold f1.
    by rewrite Eo.
  - split; try assumption.
    + cbn. apply list_lookup_insert_eq. rewrite length_insert. by eapply lookup_lt_Some.
    + rewrite Hi. cbn. apply lookup_insert_eq.
    + by rewrite Hi.
    + apply (layout_after f1 c x 0 [] d 0 size _ _ Hlay1 Hdisk); rewrite ?Er; lia.
    + apply (proj2 (stands_size f' (cached_inode c) size _ _)).
      exact (stands_ext f1 f' _ _ _ (same_tables_of_disk f1 c 0 [] Hlay1 f' 0 size Hdisk) Hs).
  - apply (kept_table f (fd_table f1) (table_lock f1)). by apply state_kept.
  - apply list_insert_insert_eq.
Qed.

(** (C37) Opening a path that is in the cache returns the first free descriptor, at the start
    of the file, or at its end with O_APPEND; O_TRUNC makes the file empty. The bytes in
    the file's zones stay, its inode on the disk is that in the cache, nothing else on
    the disk changes, and the table is unlocked again. *)
Theorem open_correct f path comps x c fd e flags m env : can_open f path comps x c fd e ->
  has flags O_APPEND && has flags O_TRUNC = false ->
  let off := if has flags O_APPEND then isize (cached_inode c) else 0 in
  let size := if has flags O_TRUNC then 0 else isize (cached_inode c) in
  exists f' e', open f path flags m env = Ok (fd, f') /\
    writable f' fd e' (sized c size) off /\ pointer_ok e' off /\ file_inode e' = x /\
    kept f f' c (sized c size) /\ table_lock f' = MUTEX_UNLOCKED.
Proof.
  intros H Hnb off size.
  destruct (open_ok f path comps x c fd e flags m env H Hnb)
    as (f' & e' & H1 & H2 & H3 & H4 & H5 & H6 & _).
  by exists f', e'.
Qed.

(** ** [close], and a file opened twice *)

Definition closed : fileDescriptorEntry :=
  mkFd 0 0 (mkPos 0 NONE32 NONE32 NONE32 0) 0 false false 0 0 0 MUTEX_UNLOCKED.

(** Closing stores the inode once more and gives the descriptor back. *)
Lemma close_ok f fd e c off : writable f fd e c off -> room f (cached_inode c) < 2 ^ 32 ->
  let f' d := set_fd (state f c (file_inode e) d (isize (cached_inode c))) fd closed in
  exists d, close f fd = Ok (0, f' d) /\ layout (f' d) (cached_inode c) (inode_num c) /\
    kept f (f' d) c c.
Proof.
  intros [Hfd Hg Htk Hlk He Hc Hlay Hoff Hat Hbo Htot] Hr f'.
  pose proof (file_size _ _ (lay_file _ _ _ Hlay)) as Hs0.
  pose proof (lay_size _ _ _ Hlay) as Hsz.
  destruct (flush_keeps f c (file_inode e) e (isize (cached_inode c)) Hlay Hr eq_refl Hc Hs0)
    as (d & E & Hd). exists d.
  pose proof (room_pos f (cached_inode c)) as Hpos.
  rewrite (state_start f c (file_inode e) 0 [] Hlay He) in E by (cbn; lia).
  split; [|split].
  - unfold close, get_fd. rewrite (proj2 (Z.ltb_ge _ _)), Hg by lia. cbn [deref res_bind].
    rewrite Hlk. change (mutex_spinlock MUTEX_UNLOCKED) with (Ok MUTEX_LOCKED). cbn [res_bind].
    rewrite Htk, E. done.
  - pose proof (layout_after f c (file_inode e) 0 [] d 0 _ (fd_table (f' d)) (table_lock (f' d)) Hlay Hd
      Hs0 Hsz) as K. by rewrite sized_self in K.
  - pose proof (state_kept f c (file_inode e) d _ (fd_table (f' d)) (table_lock (f' d)) Hlay He Hd) as K.
    by rewrite sized_self in K.
Qed.

Lemma can_open_again f f' path comps x c c' fd e : can_open f path comps x c fd e ->
  same_tree f f' -> entries f' !! x = Some c' -> layout f' (cached_inode c') (inode_num c') ->
  isize (cached_inode c') < room f' (cached_inode c') < 2 ^ 32 ->
  table_lock f' = MUTEX_UNLOCKED -> fd_table f' = <[Z.to_nat fd := closed]> (fd_table f) ->
  can_open f' path comps x c' fd closed.
Proof.
  intros [Hf Hd Hp Hne Hw He Hlay Hsz Hl Hfree Hlk] Ht He' Hlay' Hsz' Hl' Htab.
  pose proof Ht as (Ed & Ec & _). destruct Hfree as (Hfd & Hg & _ & Hb).
  split; try done.
  - by eapply cache_ok_ext.
  - by rewrite Ed, Ec.
  - by rewrite (walk_ext f f' Ht), Ec.
  - split; [done|]. rewrite Htab. split; [|split; [done|]].
    + apply list_lookup_insert_eq. by eapply lookup_lt_Some.
    + intros i e' Hi. rewrite list_lookup_insert_ne by lia. by apply Hb.
Qed.

Lemma room_of_zones (f f' : FileSystem D) i i' : file_zones f' i' = file_zones f i ->
  room f' i' = room f i.
Proof. unfold room. by intros ->. Qed.

Lemma kept_file_bytes f f' c c' off n : kept f f' c c' -> 0 <= off -> 0 <= n ->
  off + n <= room f (cached_inode c) ->
  file_bytes f' (cached_inode c') off n = file_bytes f (cached_inode c) off n.
Proof.
  intros Hk H0 Hn Hr. apply list_fmap_ext. intros i b Hb.
  apply lookup_seqZ in Hb as [-> Hb]. apply (kept_bytes _ _ _ _ Hk). lia.
Qed.

(** [write] and then [close]: what is left is the file with the data in it. *)
Lemma write_close f fd e c off data : writable f fd e c off ->
  Forall byte_ok data -> data <> [] ->
  off + Z.of_nat (length data) < room f (cached_inode c) ->
  room f (cached_inode c) < 2 ^ 32 ->
  let len := Z.of_nat (length data) in
  off mod 1024 + len <> 1024 ->
  let c' := sized c (size_after c off len) in
  exists f1 f2, write f fd (Some data) = Ok (len, f1) /\ close f1 fd = Ok (0, f2) /\
    layout f2 (cached_inode c') (inode_num c') /\ entries f2 !! file_inode e = Some c' /\
    same_tree f f2 /\ table_lock f2 = table_lock f /\
    fd_table f2 = <[Z.to_nat fd := closed]> (fd_table f) /\
    file_zones f2 (cached_inode c') = file_zones f (cached_inode c) /\
    file_bytes f2 (cached_inode c') off len = data.
Proof.
  intros Hw Hd Hne Hr Hbig len Hl c'.
  destruct (write_ok f fd e c off data Hw Hd Hne Hr Hbig Hl) as (d & e' & E & Hw' & Hdw & Hx & _).
  fold len in E, Hw', Hdw. fold c' in E, Hw', Hdw.
  set (f1 := set_fd _ fd e') in *.
  assert (same_tree f f1) as Ht by (apply state_tree, (wr_entry _ _ _ _ _ Hw)).
  assert (fd_table f1 = <[Z.to_nat fd := e']> (fd_table f)) as Htab by reflexivity.
  assert (table_lock f1 = table_lock f) as Hlk by reflexivity.
  pose proof (wr_off _ _ _ _ _ Hw) as Hoff.
  clearbody f1 c'.
  pose proof (room_of_zones _ _ _ _ (dw_zones _ _ _ _ _ _ Hdw)) as Er.
  destruct (close_ok f1 fd e' c' (off + len) Hw') as (d2 & E2 & Hlay & Hk); [by rewrite Er|].
  cbn zeta in E2, Hlay, Hk. rewrite Hx in *. set (f2 := set_fd _ fd closed) in *.
  exists f1, f2. split; [exact E|]. split; [exact E2|]. split; [exact Hlay|].
  split; [cbn; by rewrite lookup_insert_eq, sized_self|].
  split; [eapply same_tree_trans; [exact Ht | apply (kept_tree _ _ _ _ Hk)]|].
  split; [exact Hlk|]. split; [cbn; rewrite Htab; apply list_insert_insert_eq|].
  split; [by rewrite (kept_zones _ _ _ _ Hk), (dw_zones _ _ _ _ _ _ Hdw)|].
  rewrite (kept_file_bytes _ _ _ _ off len Hk) by (rewrite ?Er; unfold len; lia).
  apply (dw_data _ _ _ _ _ _ Hdw).
Qed.

(** (C8) A file is what was written to it: open a path, write, close, open the path again
    and read as many bytes: they are the data, whether or not the first open truncates
    the file. This needs room for the data in the zones of the file, one byte more than
    the data, and data that do not end where the first zone ends. *)
Theorem file_round_trip n f path comps x c fd e flags m env m' env' data :
  can_open f path comps x c fd e -> has flags O_APPEND = false ->
  Forall byte_ok data -> data <> [] ->
  let len := Z.of_nat (length data) in
  len < room f (cached_inode c) -> len <> 1024 -> (length data < n)%nat ->
  exists f1 f2 f3 f4 f5, open f path flags m env = Ok (fd, f1) /\
    write f1 fd (Some data) = Ok (len, f2) /\ close f2 fd = Ok (0, f3) /\
    open f3 path O_RDONLY m' env' = Ok (fd, f4) /\ read n f4 fd len = Ok (len, data, f5).
Proof.
  intros H Happ Hd Hne len Hlen Hl Hn.
  destruct (open_ok f path comps x c fd e flags m env H) as
    (f1 & e1 & E1 & Hw1 & _ & Hx1 & Hk1 & Hl1 & Ht1); [by rewrite Happ|]. rewrite Happ in Hw1.
  set (c1 := sized c _) in *.
  assert (room f1 (cached_inode c1) = room f (cached_inode c)) as Er1
    by (unfold room; by rewrite (kept_zones _ _ _ _ Hk1)).
  destruct (can_size _ _ _ _ _ _ _ H) as [Hsz Hr].
  pose proof (file_size _ _ (lay_file _ _ _ (can_layout _ _ _ _ _ _ _ H))) as Hs0.
  assert (isize (cached_inode c1) <= isize (cached_inode c)) as Hs1
    by (cbn; destruct (has flags O_TRUNC); lia).
  destruct (write_close f1 fd e1 c1 0 data Hw1 Hd Hne) as
    (f2 & f3 & E2 & E3 & Hlay & He & Ht & Hl3 & Ht3 & Hz & Hb);
    [rewrite Er1; lia | by rewrite Er1 | done |].
  fold len in E2, E3, Hlay, He, Hz, Hb.
  assert (isize (cached_inode (sized c1 (size_after c1 0 len))) =
          Z.max (isize (cached_inode c1)) len) as Es by done.
  set (c2 := sized c1 (size_after c1 0 len)) in *. clearbody c2 c1.
  pose proof (room_of_zones _ _ _ _ Hz) as Er. rewrite Er1 in Er.
  assert (can_open f3 path comps x c2 fd closed) as H3.
  { apply (can_open_again f f3 path comps x c c2 fd e H); [| | done | | by rewrite Hl3 |].
    - eapply same_tree_trans; [apply (kept_tree _ _ _ _ Hk1) | exact Ht].
    - by rewrite <- Hx1.
    - rewrite Er. lia.
    - rewrite Ht3, Ht1. apply list_insert_insert_eq. }
  destruct (open_ok f3 path comps x c2 fd closed O_RDONLY m' env' H3 eq_refl) as
    (f4 & e4 & E4 & Hw4 & Hp4 & _ & Hk4 & _).
  change (has O_RDONLY O_APPEND) with false in *. change (has O_RDONLY O_TRUNC) with false in *.
  cbn iota in *. rewrite sized_self in *.
  pose proof (room_of_zones _ _ _ _ (kept_zones _ _ _ _ Hk4)) as Er4. rewrite Er in Er4.
  pose proof (read_inside n f4 fd e4 c2 0 len (writable_opened _ _ _ _ _ Hw4 Hp4)
    (lay_file _ _ _ (wr_layout _ _ _ _ _ Hw4))) as Hrd.
  cbn zeta in Hrd. replace (available (cached_inode c2) 0 len) with len in Hrd
    by (unfold available; lia).
  destruct Hrd as (e5 & E5 & _); [lia | lia | lia | lia | lia |].
  rewrite (kept_file_bytes _ _ _ _ 0 len Hk4), Hb in E5 by (rewrite ?Er; lia).
  do 5 eexists. eauto 6.
Qed.

End open.

(** ** The small disk *)

Lemma demo_cache : cache_ok demo_fs /\ is_Some (dirs demo_fs !! dirent_cache demo_fs).
Proof.
  split; [|by eexists]. intros m map name a Hm Hn.
  change (({[100 := {[ [97] := 200 ]}]} : gmap Z (gmap (list Z) Z)) !! m = Some map) in Hm.
  apply lookup_singleton_Some in Hm as [<- <-]. apply lookup_singleton_Some in Hn as [<- <-].
  by exists demo_entry.
Qed.

Lemma demo_names c : c <> 0 -> c <> 47 -> names [47; c] [[c]].
Proof.
  intros H0 H47. exists [(1%nat, [c])], 0%nat. split; [done|]. split; [by repeat constructor|].
  split; [|done]. apply Forall_singleton. split; [cbn; lia|]. split; [done|].
  by apply Forall_singleton.
Qed.

Lemma demo_first_free : first_free demo_fs 0 free_descriptor.
Proof. split; [by split|]. split; [done|]. split; [done|]. intros i e' Hi. cbn in Hi. lia. Qed.

Lemma search_cache_correct_witness :
  cache_ok demo_fs /\ names [47; 97] [[97]] /\
  minix3_search_cache_wrapper demo_fs [47; 97] = Ok (Some 200).
Proof.
  destruct demo_cache as [H1 H2]. assert (names [47; 97] [[97]]) as H3 by by apply demo_names.
  split; [exact H1|]. split; [exact H3|].
  rewrite (search_cache_correct demo_fs [47; 97] [[97]] H1 H2 H3) by discriminate. by vm_compute.
Defined.

Definition demo_env : open_env := mkOpenEnv (mkChunk 300 0) 0 0 [] 0 0 0.

Lemma open_missing_deadlocks_witness :
  cache_ok demo_fs /\ names [47; 98] [[98]] /\
  exists f', open demo_fs [47; 98] 0 0 demo_env = Ok (-1, f') /\
    open f' [47; 97] 0 0 demo_env = Hang.
Proof.
  destruct demo_cache as [H1 H2]. assert (names [47; 98] [[98]]) as H3 by by apply demo_names.
  split; [exact H1|]. split; [exact H3|].
  destruct (open_missing_deadlocks demo_fs [47; 98] [[98]] 0 0 demo_env 0 free_descriptor H1 H2 H3)
    as (f' & E & _ & _ & Hh).
  - discriminate.
  - by vm_compute.
  - reflexivity.
  - reflexivity.
  - apply demo_first_free.
  - exists f'. split; [exact E | apply Hh].
Defined.

Lemma create_in_root_witness :
  cache_ok demo_fs /\ names [47; 98] [[98]] /\
  open demo_fs [47; 98] O_CREAT 0 demo_env = Ub.
Proof.
  destruct demo_cache as [H1 H2]. assert (names [47; 98] [[98]]) as H3 by by apply demo_names.
  split; [exact H1|]. split; [exact H3|].
  apply (create_in_root demo_fs [98] O_CREAT 0 demo_env 0 free_descriptor H1 H2 H3).
  - by vm_compute.
  - discriminate.
  - reflexivity.
  - apply demo_first_free.
Defined.

Lemma demo_can_open : can_open demo_fs [47; 97] [[97]] 200 demo_entry 0 free_descriptor.
Proof.
  destruct demo_cache as [H1 H2].
  pose proof (layout_table demo_opened demo_file 2 (fd_table demo_fs) MUTEX_UNLOCKED demo_layout) as Hl.
  split.
  - exact H1.
  - exact H2.
  - by apply demo_names.
  - discriminate.
  - by vm_compute.
  - reflexivity.
  - exact Hl.
  - change (cached_inode demo_entry) with demo_file.
    assert (room demo_fs demo_file = 3072) as -> by by vm_compute. by split.
  - reflexivity.
  - apply demo_first_free.
  - reflexivity.
Qed.

Lemma open_correct_witness :
  can_open demo_fs [47; 97] [[97]] 200 demo_entry 0 free_descriptor /\
  exists f' e', open demo_fs [47; 97] O_APPEND 0 demo_env = Ok (0, f') /\
    writable f' 0 e' (sized demo_entry 2500) 2500.
Proof.
  split; [exact demo_can_open|].
  destruct (open_correct demo_fs [47; 97] [[97]] 200 demo_entry 0 free_descriptor O_APPEND 0 demo_env
    demo_can_open eq_refl) as (f' & e' & E & Hw & _). exists f', e'. split; [exact E | exact Hw].
Defined.

Lemma file_round_trip_witness :
  can_open demo_fs [47; 97] [[97]] 200 demo_entry 0 free_descriptor /\
  exists f1 f2 f3 f4 f5, open demo_fs [47; 97] O_TRUNC 0 demo_env = Ok (0, f1) /\
    write f1 0 (Some [1; 2; 3]) = Ok (3, f2) /\ close f2 0 = Ok (0, f3) /\
    open f3 [47; 97] O_RDONLY 0 demo_env = Ok (0, f4) /\ read 4 f4 0 3 = Ok (3, [1; 2; 3], f5).
Proof.
  split; [exact demo_can_open|].
  apply (file_round_trip 4 demo_fs [47; 97] [[97]] 200 demo_entry 0 free_descriptor O_TRUNC 0 demo_env
    0 demo_env [1; 2; 3] demo_can_open eq_refl).
  - computed.
  - discriminate.
  - change (cached_inode demo_entry) with demo_file.
    assert (room demo_fs demo_file = 3072) as -> by by vm_compute. reflexivity.
  - discriminate.
  - cbn. lia.
Defined.
