(* ===== verification/Drawing.v ===== *)
(** The drawing program of src/src/drawing.c: images in files, copied from and to the frame
    buffer, and the choice of the colour.

    Files are the class [FileCalls], the four calls it makes, of which [minix_calls] is the
    instance that the kernel has. The record PPM and the bytes of an image are in memory, in
    blocks of the kernel's heap of Kmalloc.v. The end of a number in a file is looked for
    without a bound: the fuel is an argument. *)
From S2P Require Import Prelude Mem Util Kmalloc FrameBuffer.
From S2P Require Disk Minix MinixFile MinixSpec MinixOpen.

Definition O_RDONLY : Z := 0.
Definition O_WRONLY : Z := 1.
Definition O_CREAT : Z := 64.

Definition ppm_width : Z := 0.
Definition ppm_height : Z := 4.
Definition ppm_img : Z := 8.

(** [sizeof(ppm)], where [ppm] is the pointer. *)
Definition sizeof_ppm : Z := 8.

(** A file is known by its path; a read gives the bytes it could read. *)
Class FileCalls (S : Type) := {
  f_open : S -> list Z -> Z -> Z -> res (Z * S);     (* path, flags, mode *)
  f_read : S -> Z -> Z -> res (list Z * S);
  f_write : S -> Z -> list Z -> res S;
  f_close : S -> Z -> res S
}.

(** The calls of minix3.c, on a file system and what a call of open finds in the machine.
    The results of read, write and close are dropped. *)
#[export] Instance minix_calls {D} `{!Disk.Disk D} : FileCalls (Minix.FileSystem D * MinixFile.open_env) := {
  f_open s path flags mode :=
    let* (fd, f) := MinixFile.open (fst s) path flags mode (snd s) in Ok (fd, (f, snd s));
  f_read s fd n :=
    let* (_, l, f) := MinixFile.read (S (Z.to_nat n)) (fst s) fd n in Ok (l, (f, snd s));
  f_write s fd b := let* (_, f) := MinixFile.write (fst s) fd (Some b) in Ok (f, snd s);
  f_close s fd := let* (_, f) := MinixFile.close (fst s) fd in Ok (f, snd s)
}.

Definition isdigit (c : Z) : bool := (48 <=? c) && (c <=? 57).

Section calls.
Context {S : Type} `{!FileCalls S}.

(** ** Numbers *)

(** [buf[4]] is a local array; the digits go in from the last one on. *)
Definition store_step : Z * Z * list Z -> res (ctl (Z * Z * list Z) (Z * list Z)) :=
  fun '(n, idx, buf) =>
    if n >? 0 then
      if idx <? 4 then Ok (Next (Z.quot n 10, idx + 1, <[Z.to_nat idx := Z.rem n 10 + 48]> buf))
      else Ub
    else Ok (Done (idx, buf)).

Definition emit_step (fd : Z) (buf : list Z) : Z * S -> res (ctl (Z * S) S) :=
  fun '(idx, s) =>
    if idx >? 0 then
      let* c := deref (buf !! Z.to_nat (idx - 1)) in
      let* s := f_write s fd [c] in Ok (Next (idx - 1, s))
    else Ok (Done s).

Definition write_integer (s : S) (fd n : Z) : res S :=
  let* (n, s) := (if n <? 0 then let* s := f_write s fd [45] in Ok (s32 (- n), s) else Ok (n, s)) in
  let* (idx, buf) := loop 11 store_step (n, 0, replicate 4 0) in
  loop 5 (emit_step fd buf) (idx, s).

(** [read(fd, &c, 1)]; at the end of the file [c] stays as it is. *)
Definition read_char (s : S) (fd : Z) (c : option Z) : res (option Z * S) :=
  let* (l, s) := f_read s fd 1 in
  Ok (match l with b :: _ => Some b | [] => c end, s).

Definition skip_step (fd : Z) : option Z * S -> res (ctl (option Z * S) (option Z * S)) :=
  fun '(c, s) =>
    let* v := deref c in
    if isdigit v then Ok (Done (c, s)) else let* x := read_char s fd c in Ok (Next x).

Definition digit_step (fd : Z) : Z * option Z * S -> res (ctl (Z * option Z * S) (Z * S)) :=
  fun '(n, c, s) =>
    let* v := deref c in
    if isdigit v then
      let n := u32 (u32 (n * 10) + (v - 48)) in
      let* (c, s) := read_char s fd c in Ok (Next (n, c, s))
    else Ok (Done (n, s)).

(** [c] is not initialised. *)
Definition read_integer (fuel : nat) (s : S) (fd : Z) : res (Z * S) :=
  let* x := read_char s fd None in
  let* (c, s) := loop fuel (skip_step fd) x in
  loop fuel (digit_step fd) (0, c, s).

(** ** Image files *)

Record dstate := mkD { dmem : mem; heap : Heap; files : S }.

Definition kernel_kmalloc (h : Heap) (n : Z) : Z * Heap := kmalloc KERNEL_HEAP_END_VADDR 16 8 h n.

(** [ppm->width * ppm->height * 3] *)
Definition img_size (m : mem) (ppm : Z) : res Z :=
  let* w := ld_le 4 m (ppm + ppm_width) in
  let* h := ld_le 4 m (ppm + ppm_height) in
  Ok (u32 (u32 (w * h) * 3)).

(** The pointer returned; null on an error. *)
Definition ppm_read (fuel : nat) (path : list Z) (d : dstate) : res (Z * dstate) :=
  let '(ppm, h0) := kernel_kmalloc (heap d) sizeof_ppm in
  let* m := kzalloc (dmem d) ppm sizeof_ppm in
  let* (fd, s) := f_open (files d) path O_RDONLY 666 in
  let* (l, s) := f_read s fd 3 in
  let buf := l ++ drop (length l) [0; 0; 0; 0] in
  if negb (bool_decide (buf = [80; 54; 10; 0])) then Ok (0, mkD m h0 s)
  else
    let* (w, s) := read_integer fuel s fd in
    let* m := st_le 4 m (ppm + ppm_width) w in
    let* (h, s) := read_integer fuel s fd in
    let* m := st_le 4 m (ppm + ppm_height) h in
    let* (maxv, s) := read_integer fuel s fd in
    if negb (maxv =? 255) then Ok (0, mkD m h0 s)
    else
      let* n := img_size m ppm in
      let '(img, h1) := kernel_kmalloc h0 n in
      let* m := kzalloc m img n in
      let* m := st_le 8 m (ppm + ppm_img) img in
      let* a := ld_le 8 m (ppm + ppm_img) in
      let* n := img_size m ppm in
      let* (l, s) := f_read s fd n in
      let* m := st_list m a l in
      let* s := f_close s fd in
      Ok (ppm, mkD m h1 s).

Definition ppm_write (ppm : Z) (path : list Z) (d : dstate) : res dstate :=
  let m := dmem d in
  let* (fd, s) := f_open (files d) path (Z.lor O_WRONLY O_CREAT) 666 in
  let* s := f_write s fd [80; 54; 10] in
  let* w := ld_le 4 m (ppm + ppm_width) in
  let* s := write_integer s fd (s32 w) in
  let* s := f_write s fd [32] in
  let* h := ld_le 4 m (ppm + ppm_height) in
  let* s := write_integer s fd (s32 h) in
  let* s := f_write s fd [10] in
  let* s := write_integer s fd 255 in
  let* s := f_write s fd [10] in
  let* a := ld_le 8 m (ppm + ppm_img) in
  let* n := img_size m ppm in
  let* l := ld_list (Z.to_nat n) m a in
  let* s := f_write s fd l in
  let* s := f_close s fd in
  Ok (mkD m (heap d) s).

(** ** The frame buffer *)

(** Where the pixel after one of column [j] is: the next one, or the first of the next
    row of the image; and the next [j], which the loop has incremented. *)
Definition next_pixel (gwidth width j pixel_idx : Z) : Z * Z :=
  if u32 (j + 1) =? width then (u32 (pixel_idx + u32 (gwidth - width + 1)), 0)
  else (u32 (pixel_idx + 1), u32 (j + 1)).

Definition paste_step (m : mem) (ppm gwidth : Z) : Z * Z * Z * list PixelRGBA ->
    res (ctl (Z * Z * Z * list PixelRGBA) (list PixelRGBA)) :=
  fun '(i, j, pixel_idx, fb) =>
    let* n := img_size m ppm in
    if i <? n then
      let* a := ld_le 8 m (ppm + ppm_img) in
      let* r := ld8 m (u64 (a + i)) in
      let* g := ld8 m (u64 (a + u32 (i + 1))) in
      let* b := ld8 m (u64 (a + u32 (i + 2))) in
      let* fb := put fb pixel_idx (mkPixel r g b 255) in
      let* w := ld_le 4 m (ppm + ppm_width) in
      let '(pixel_idx, j) := next_pixel gwidth w j pixel_idx in
      Ok (Next (u32 (i + 3), j, pixel_idx, fb))
    else Ok (Done fb).

(** [kfree(ppm->img); kfree(ppm)] *)
Definition ppm_free (ppm : Z) (d : dstate) : res dstate :=
  let* a := ld_le 8 (dmem d) (ppm + ppm_img) in
  Ok (mkD (dmem d) (kfree (kfree (heap d) a) ppm) (files d)).

Definition ppm_read_fb (fuel : nat) (path : list Z) (gwidth x_offset y_offset : Z)
    (d : dstate) (fb : list PixelRGBA) : res (dstate * list PixelRGBA) :=
  let* (p, d) := ppm_read fuel path d in
  let* n := img_size (dmem d) p in
  let* fb := loop (Datatypes.S (Z.to_nat n)) (paste_step (dmem d) p gwidth)
               (0, 0, u32 (y_offset * gwidth + x_offset), fb) in
  let* d := ppm_free p d in
  Ok (d, fb).

Definition get_pixel (fb : list PixelRGBA) (i : Z) : res PixelRGBA := deref (fb !! Z.to_nat i).

(** The image is reached through [ppm->img] at each store. *)
Definition save_step (ppm gwidth width bound : Z) (fb : list PixelRGBA) : Z * Z * Z * mem ->
    res (ctl (Z * Z * Z * mem) mem) :=
  fun '(i, j, pixel_idx, m) =>
    if pixel_idx <? bound then
      let* c := get_pixel fb pixel_idx in
      let* a := ld_le 8 m (ppm + ppm_img) in
      let* m := st8 m (u64 (a + i)) (pr c) in
      let* a := ld_le 8 m (ppm + ppm_img) in
      let* m := st8 m (u64 (a + u32 (i + 1))) (pg c) in
      let* a := ld_le 8 m (ppm + ppm_img) in
      let* m := st8 m (u64 (a + u32 (i + 2))) (pb c) in
      let '(pixel_idx, j) := next_pixel gwidth width j pixel_idx in
      Ok (Next (u32 (i + 3), j, pixel_idx, m))
    else Ok (Done m).

Definition ppm_write_fb (path : list Z) (gwidth x_offset y_offset width height : Z)
    (fb : list PixelRGBA) (d : dstate) : res dstate :=
  let '(ppm, h) := kernel_kmalloc (heap d) sizeof_ppm in
  let* m := kzalloc (dmem d) ppm sizeof_ppm in
  let* m := st_le 4 m (ppm + ppm_width) width in
  let* m := st_le 4 m (ppm + ppm_height) height in
  let* n := img_size m ppm in
  let '(img, h) := kernel_kmalloc h n in
  let* m := kzalloc m img n in
  let* m := st_le 8 m (ppm + ppm_img) img in
  let start := u32 (y_offset * gwidth + x_offset) in
  let bound := u32 (u32 (gwidth * u32 (height - 1) + width) + start) in
  let* m := loop (Datatypes.S (Z.to_nat bound)) (save_step ppm gwidth width bound fb) (0, 0, start, m) in
  let* d := ppm_write ppm path (mkD m h (files d)) in
  ppm_free ppm d.

End calls.

(** ** Colours *)

(** [None] leaves the colour as it is. *)
Definition get_color (key : Z) : option PixelRGBA :=
  if key =? 114 then Some (mkPixel 255 0 0 255)            (* r *)
  else if key =? 103 then Some (mkPixel 0 255 0 255)       (* g *)
  else if key =? 98 then Some (mkPixel 0 0 255 255)        (* b *)
  else if key =? 99 then Some (mkPixel 0 255 255 255)      (* c *)
  else if key =? 109 then Some (mkPixel 255 0 255 255)     (* m *)
  else if key =? 121 then Some (mkPixel 255 255 0 255)     (* y *)
  else if key =? 111 then Some (mkPixel 255 150 0 255)     (* o *)
  else if key =? 112 then Some (mkPixel 150 0 255 255)     (* p *)
  else if key =? 119 then Some (mkPixel 255 255 255 255)   (* w *)
  else if key =? 101 then Some (mkPixel 0 0 0 255)         (* e *)
  else if key =? 110 then Some (mkPixel 0 0 0 0)           (* n *)
  else None.

(** ** Numbers in files *)

Section numbers.
Context {S : Type} `{!FileCalls S}.

(** A number of five digits or more does not fit in [buf]. *)
Lemma write_integer_overflow (s : S) fd n : 10000 <= n < 2 ^ 31 -> write_integer s fd n = Ub.
Proof.
  intros Hn. unfold write_integer. rewrite (proj2 (Z.ltb_ge n 0)) by lia. cbn [res_bind].
  assert (forall k f x buf, 10 ^ Z.of_nat k <= x -> (k < f)%nat ->
    loop f store_step (x, 4 - Z.of_nat k, buf) = Ub) as Hloop.
  { induction k as [|k IH]; intros [|f] x buf Hx Hf; try lia; rewrite loop_S; unfold store_step at 1;
      rewrite Z.gtb_ltb, (proj2 (Z.ltb_lt 0 x)) by lia.
    - done.
    - assert (0 < 10 ^ Z.of_nat k) by lia.
      rewrite Nat2Z.inj_succ, Z.pow_succ_r in Hx by lia.
      rewrite (proj2 (Z.ltb_lt _ 4)) by lia. cbn [res_bind].
      replace (4 - Z.of_nat (Datatypes.S k) + 1) with (4 - Z.of_nat k) by lia. apply IH; [|lia].
      rewrite Z.quot_div_nonneg by lia. apply Z.div_le_lower_bound; lia. }
  by rewrite (Hloop 4%nat 11%nat n) by (cbn; lia).
Qed.

(** And zero leaves nothing behind. *)
Lemma write_integer_zero (s : S) fd : write_integer s fd 0 = Ok s.
Proof. done. Qed.

End numbers.

(** ** Image files *)

Section images.

(** The record at [p]. *)
Definition ppm_at (m : mem) (p w h a : Z) : Prop :=
  ld_le 4 m (p + ppm_width) = Ok w /\ ld_le 4 m (p + ppm_height) = Ok h /\
  ld_le 8 m (p + ppm_img) = Ok a.

(** An image that can be saved: a number takes up to four digits, and its size is an int. *)
Definition dims_ok (w h : Z) : Prop := 0 < w < 10000 /\ 0 < h < 10000 /\ w * h * 3 < 2 ^ 31.

Lemma img_size_ok m p w h a : ppm_at m p w h a -> dims_ok w h -> img_size m p = Ok (w * h * 3).
Proof.
  intros (Ew & Eh & _) (Hw & Hh & Hs). unfold img_size. rewrite Ew, Eh. cbn [res_bind].
  assert (0 < w * h) by nia. rewrite (u32_id (w * h)) by lia. by rewrite u32_id by lia.
Qed.

(** Memory for the record and the image, apart from the bytes asked for the record. *)
Record image_room (m : mem) (p a n : Z) : Prop := mkRoom {
  ir_record : p <> 0 /\ mapped m p 16;
  ir_image : a <> 0 /\ mapped m a n;
  ir_apart : p + sizeof_ppm <= a \/ a + n <= p;
  ir_bounds : 0 <= a /\ a + n < 2 ^ 64
}.

Lemma room_kept m m' p a n : dom m' = dom m -> image_room m p a n -> image_room m' p a n.
Proof. intros Hd [[? ?] [? ?] ? ?]. split; try done; (split; [done | by eapply mapped_dom]). Qed.

(** The stores to the fields of the record leave the others alone. *)
Lemma set_fields m p w h a n : image_room m p a n -> 0 <= w < 2 ^ 32 -> 0 <= h < 2 ^ 32 ->
  exists m1 m2, st_le 4 m (p + ppm_width) w = Ok m1 /\ st_le 4 m1 (p + ppm_height) h = Ok m2 /\
    stored m m2 p 8 /\ ld_le 4 m2 (p + ppm_width) = Ok w /\ ld_le 4 m2 (p + ppm_height) = Ok h.
Proof.
  intros [[_ Hm] _ _ _] Hw Hh.
  destruct (st_le_spec 4 m (p + ppm_width) w) as (m1 & E1 & S1 & L1);
    [eapply mapped_mono; [exact Hm | unfold ppm_width; lia | unfold ppm_width; lia]|].
  destruct (st_le_spec 4 m1 (p + ppm_height) h) as (m2 & E2 & S2 & L2).
  { eapply stored_mapped; [exact S1|]. eapply mapped_mono; [exact Hm | unfold ppm_height; lia | unfold ppm_height; lia]. }
  exists m1, m2. split; [done|]. split; [done|]. unfold ppm_width, ppm_height in *. cbn [Z.of_nat] in *.
  split; [|split].
  - eapply stored_trans; (eapply stored_mono; [eassumption | lia | lia]).
  - rewrite (ld_le_outside _ _ _ _ _ _ (stored_out _ _ _ _ S2)) by lia. rewrite L1. f_equal.
    apply Z.mod_small. cbn. lia.
  - rewrite L2. f_equal. apply Z.mod_small. cbn. lia.
Qed.

Lemma ld_kept {n} {m m' : mem} {a b k v} : stored m m' b k -> (a + Z.of_nat n <= b \/ b + k <= a) ->
  ld_le n m a = Ok v -> ld_le n m' a = Ok v.
Proof. intros Hs Ha <-. apply (ld_le_outside _ _ _ _ _ _ (stored_out _ _ _ _ Hs)). done. Qed.

(** The record with its image, before the bytes of it. *)
Lemma new_image m p a w h : image_room m p a (w * h * 3) -> dims_ok w h ->
  exists m1 m2 m3 m4 m5, kzalloc m p sizeof_ppm = Ok m1 /\ st_le 4 m1 (p + ppm_width) w = Ok m2 /\
    st_le 4 m2 (p + ppm_height) h = Ok m3 /\ img_size m3 p = Ok (w * h * 3) /\
    kzalloc m3 a (w * h * 3) = Ok m4 /\ st_le 8 m4 (p + ppm_img) a = Ok m5 /\
    ppm_at m5 p w h a /\ dom m5 = dom m /\ (mem_ok m -> mem_ok m5) /\
    (forall b, ~ (p <= b < p + 16) -> ~ (a <= b < a + w * h * 3) -> m5 !! b = m !! b).
Proof.
  intros Hr Hd. pose proof Hd as (Hw & Hh & Hs). pose proof Hr as [[Hp0 Hp] [Ha0 Ha] Hap Hb].
  unfold sizeof_ppm in *. assert (0 < w * h * 3) by nia.
  destruct (kzalloc_ok m p 8 Hp0 ltac:(lia)) as (m1 & E1 & S1 & _); [eapply mapped_mono; [exact Hp | lia | lia]|].
  pose proof (room_kept _ _ _ _ _ (stored_dom _ _ _ _ S1) Hr) as Hr1.
  destruct (set_fields m1 p w h a (w * h * 3) Hr1) as (m2 & m3 & E2 & E3 & S3 & L1 & L2); [lia | lia |].
  assert (img_size m3 p = Ok (w * h * 3)) as En.
  { unfold img_size. rewrite L1, L2. cbn [res_bind]. assert (0 < w * h) by nia.
    rewrite (u32_id (w * h)) by lia. by rewrite u32_id by lia. }
  destruct (kzalloc_ok m3 a (w * h * 3) Ha0 ltac:(lia)) as (m4 & E4 & S4 & _).
  { eapply stored_mapped; [exact S3|]. by eapply stored_mapped. }
  destruct (st_le_spec 8 m4 (p + ppm_img) a) as (m5 & E5 & S5 & L5).
  { do 3 (eapply stored_mapped; [eassumption|]). eapply mapped_mono; [exact Hp | unfold ppm_img; lia | unfold ppm_img; lia]. }
  exists m1, m2, m3, m4, m5. do 6 (split; [done|]).
  unfold ppm_at, ppm_width, ppm_height, ppm_img in *. cbn [Z.of_nat] in *. split; [|split].
  - split; [|split].
    + apply (ld_kept S5); [lia|]. apply (ld_kept S4); [lia | done].
    + apply (ld_kept S5); [lia|]. apply (ld_kept S4); [lia | done].
    + rewrite L5. f_equal. apply Z.mod_small. cbn. lia.
  - by rewrite (stored_dom _ _ _ _ S5), (stored_dom _ _ _ _ S4), (stored_dom _ _ _ _ S3), (stored_dom _ _ _ _ S1).
  - split; [intros Hok; by apply S5, S4, S3, S1|].
    intros b Hpb Hab. rewrite (stored_out _ _ _ _ S5) by lia. rewrite (stored_out _ _ _ _ S4) by lia.
    rewrite (stored_out _ _ _ _ S3) by lia. by rewrite (stored_out _ _ _ _ S1) by lia.
Qed.

(** The heap gives [p] for the record and [a] for the image. *)
Definition image_blocks (h : Heap) (n p a : Z) (h' : Heap) : Prop :=
  exists h0, kernel_kmalloc h sizeof_ppm = (p, h0) /\ kernel_kmalloc h0 n = (a, h').

End images.

(** ** The pixels of an image on the screen *)

Section screen.
Context (gw gh : Z) (Hgw : 0 <= gw) (Hgh : 0 <= gh) (Hsc : gw * gh <= 2 ^ 31).

(** An image of [w] by [h] pixels at [(x, y)] that is on the screen. *)
Record on_display (x y w h : Z) : Prop := mkOn {
  od_x : 0 <= x /\ x + w <= gw;
  od_y : 0 <= y /\ y + h <= gh;
  od_size : 0 < w /\ 0 < h
}.

(** The offset of its [k]-th pixel. *)
Definition nth_pixel (x y w k : Z) : Z := (y + k / w) * gw + (x + k mod w).

Lemma next_row w k : 0 < w ->
  k mod w + 1 = w /\ (k + 1) / w = k / w + 1 /\ (k + 1) mod w = 0 \/
  k mod w + 1 < w /\ (k + 1) / w = k / w /\ (k + 1) mod w = k mod w + 1.
Proof.
  intros Hw. pose proof (Z.div_mod k w ltac:(lia)). pose proof (Z.mod_pos_bound k w Hw).
  destruct (decide (k mod w + 1 = w)) as [He|He].
  - left. split; [done|]. split.
    + symmetry. apply (Z.div_unique _ _ _ 0); lia.
    + symmetry. apply (Z.mod_unique _ _ (k / w + 1)); lia.
  - right. split; [lia|]. split.
    + symmetry. apply (Z.div_unique _ _ _ (k mod w + 1)); lia.
    + symmetry. apply (Z.mod_unique _ _ (k / w)); lia.
Qed.

Lemma row_range w h k : 0 < w -> 0 <= k < w * h -> 0 <= k / w < h /\ 0 <= k mod w < w.
Proof.
  intros Hw Hk. split; [|by apply Z.mod_pos_bound].
  split; [apply Z.div_pos; lia | apply Z.div_lt_upper_bound; lia].
Qed.

Lemma nth_pixel_on x y w h k : on_display x y w h -> 0 <= k < w * h ->
  on_screen gw gh (y + k / w) (x + k mod w) /\ 0 <= nth_pixel x y w k < gw * gh.
Proof.
  intros [Hx Hy [Hw Hh]] Hk. destruct (row_range w h k Hw Hk).
  assert (on_screen gw gh (y + k / w) (x + k mod w)) as Hon by (unfold on_screen; lia).
  split; [done|]. apply (offset_range gw gh); (done || lia).
Qed.

Lemma next_pixel_ok x y w h k : on_display x y w h -> 0 <= k < w * h ->
  next_pixel gw w (k mod w) (nth_pixel x y w k) = (nth_pixel x y w (k + 1), (k + 1) mod w).
Proof.
  intros Hd Hk. pose proof Hd as [Hx Hy [Hw Hh]].
  destruct (nth_pixel_on x y w h k Hd Hk) as [_ Hp]. destruct (row_range w h k Hw Hk).
  assert (gw < 2 ^ 32) by nia. unfold next_pixel.
  destruct (next_row w k Hw) as [(He & E1 & E2) | (He & E1 & E2)].
  - rewrite He, (u32_id w), Z.eqb_refl by lia. rewrite E2. f_equal.
    rewrite (u32_id (gw - w + 1)) by lia. unfold nth_pixel in *. rewrite E1, E2.
    rewrite u32_id; [nia|]. split; [nia|]. nia.
  - rewrite (u32_id (k mod w + 1)) by lia. rewrite (proj2 (Z.eqb_neq _ _)) by lia. rewrite E2. f_equal.
    unfold nth_pixel in *. rewrite E1, E2. rewrite u32_id by lia. lia.
Qed.

(** The index of a pixel of the image. *)
Lemma nth_pixel_index x y w k r c : 0 < w -> x <= c < x + w -> y <= r ->
  (r = y + k / w /\ c = x + k mod w <-> (r - y) * w + (c - x) = k).
Proof.
  intros Hw Hc Hr. split.
  - intros [-> ->]. pose proof (Z.div_mod k w). lia.
  - intros <-. rewrite Z.div_add_l, (Z.add_comm (_ * w)), Z.mod_add by lia.
    rewrite Z.div_small, Z.mod_small by lia. lia.
Qed.

Definition in_image (x y w h r c : Z) : Prop := y <= r < y + h /\ x <= c < x + w.

#[local] Instance in_image_dec x y w h r c : Decision (in_image x y w h r c).
Proof. unfold in_image. apply _. Defined.

(** The first [n] pixels of an image with the colours [f]. *)
Definition pasted (f : Z -> PixelRGBA) (x y w h n : Z) : Z -> Z -> option PixelRGBA := fun r c =>
  if decide (in_image x y w h r c /\ (r - y) * w + (c - x) < n)
  then Some (f ((r - y) * w + (c - x))) else None.

Lemma paste_one f x y w h k b b1 : on_display x y w h -> 0 <= k < w * h -> is_screen gw gh b ->
  painted gw gh (pasted f x y w h k) b b1 ->
  exists b2, put b1 (nth_pixel x y w k) (f k) = Ok b2 /\ painted gw gh (pasted f x y w h (k + 1)) b b2.
Proof.
  intros Hd Hk Hs Hp. pose proof Hd as [Hx Hy [Hw Hh]].
  destruct (nth_pixel_on x y w h k Hd Hk) as [Hon Hr].
  destruct (put_paints gw gh ltac:(lia) ltac:(lia) ltac:(lia) (y + k / w) (x + k mod w) (f k) Hon b1)
    as (b2 & E & Hp2); [by eapply painted_screen|].
  exists b2. unfold nth_pixel in *. rewrite u32_id in E by lia. split; [done|].
  eapply painted_ext; [|exact (painted_over _ _ _ _ _ _ _ Hp Hp2)]. intros r c Hrc. unfold region, pasted.
  destruct (decide (in_image x y w h r c)) as [[Hir Hic]|Hn].
  - pose proof (nth_pixel_index x y w k r c Hw Hic ltac:(lia)) as Hix.
    destruct (decide ((r - y) * w + (c - x) = k)) as [He|He].
    + apply Hix in He as He'. rewrite decide_True by done. rewrite Some_over.
      rewrite decide_True by (split; [split; lia | lia]). by rewrite He.
    + rewrite decide_False by (rewrite Hix; lia). rewrite None_union.
      destruct (decide ((r - y) * w + (c - x) < k)).
      * rewrite !decide_True by (split; [split; lia | lia]). done.
      * rewrite !decide_False by (intros [_ ?]; lia). done.
  - rewrite decide_False.
    2: { intros [-> ->]. apply Hn. destruct (row_range w h k Hw Hk). unfold in_image. lia. }
    rewrite !decide_False by (intros [? _]; done). done.
Qed.

(** The colours of an image, whose bytes are three a pixel. *)
Definition colour (bytes : list Z) (k : Z) : PixelRGBA :=
  mkPixel (bytes !!! Z.to_nat (3 * k)) (bytes !!! Z.to_nat (3 * k + 1)) (bytes !!! Z.to_nat (3 * k + 2)) 255.

Lemma paste_loop m p a x y w h bytes b : on_display x y w h -> dims_ok w h -> ppm_at m p w h a ->
  0 <= a /\ a + w * h * 3 < 2 ^ 64 -> Z.of_nat (length bytes) = w * h * 3 ->
  (forall i, 0 <= i < w * h * 3 -> m !! (a + i) = bytes !! Z.to_nat i) -> is_screen gw gh b ->
  exists b', loop (Datatypes.S (Z.to_nat (w * h * 3))) (paste_step m p gw)
      (0, 0, u32 (y * gw + x), b) = Ok b' /\
    painted gw gh (pasted (colour bytes) x y w h (w * h)) b b'.
Proof.
  intros Hd Hdim Hat Ha Hlen Hby Hs. pose proof Hd as [Hx Hy [Hw Hh]]. pose proof Hat as (L1 & L2 & L3).
  pose proof (img_size_ok _ _ _ _ _ Hat Hdim) as En. destruct Hdim as (_ & _ & Hsz).
  assert (0 < w * h) by nia.
  destruct (loop_total
    (fun '(i, j, px, b') => exists k, 0 <= k <= w * h /\ i = 3 * k /\ j = k mod w /\
       px = nth_pixel x y w k /\ painted gw gh (pasted (colour bytes) x y w h k) b b')
    (fun '(i, j, px, b') => Z.to_nat (w * h * 3 - i))
    (fun b' => painted gw gh (pasted (colour bytes) x y w h (w * h)) b b')
    (paste_step m p gw)) with (n := Datatypes.S (Z.to_nat (w * h * 3))) (s := (0, 0, u32 (y * gw + x), b))
    as (b' & E & Hp).
  - intros [[[i j] px] b1] (k & Hk & -> & -> & -> & Hp). unfold paste_step. rewrite En. cbn [res_bind].
    destruct (decide (k = w * h)) as [->|Hne].
    + right. rewrite (proj2 (Z.ltb_ge _ _)) by lia. eauto.
    + left. rewrite (proj2 (Z.ltb_lt _ _)), L3 by lia. cbn [res_bind].
      assert (forall i, 0 <= i < w * h * 3 -> ld8 m (u64 (a + i)) = Ok (bytes !!! Z.to_nat i)) as Hld.
      { intros i Hi. rewrite u64_id by lia. unfold ld8. rewrite Hby by done.
        destruct (lookup_lt_is_Some_2 bytes (Z.to_nat i)) as [v Ev]; [lia|].
        rewrite Ev. cbn. by rewrite (list_lookup_total_correct _ _ _ Ev). }
      rewrite (u32_id (3 * k + 1)), (u32_id (3 * k + 2)) by lia.
      rewrite !Hld by lia. cbn [res_bind].
      destruct (paste_one (colour bytes) x y w h k b b1 Hd ltac:(lia) Hs Hp) as (b2 & Eput & Hp2).
      unfold colour in Eput at 1. rewrite Eput. cbn [res_bind]. rewrite L1. cbn [res_bind].
      rewrite (next_pixel_ok x y w h k Hd) by lia. eexists. split; [done|].
      rewrite u32_id by lia. split; [|lia]. exists (k + 1). split; [lia|]. split; [lia|]. done.
  - exists 0. split; [lia|]. split; [done|]. rewrite Z.mod_0_l by lia. split; [done|].
    destruct (nth_pixel_on x y w h 0 Hd) as [_ Hr]; [lia|]. unfold nth_pixel in *.
    rewrite Z.div_0_l, Z.mod_0_l in * by lia. rewrite u32_id by lia. split; [lia|].
    split; [done|]. intros r c Hrc. unfold pasted. rewrite decide_False; [by destruct (pixel gw b r c)|].
    intros [[? ?] ?]. nia.
  - lia.
  - exists b'. done.
Qed.

(** The [k]-th pixel of a part of the screen. *)
Definition saved_pixel (fb : list PixelRGBA) (x y w k : Z) : PixelRGBA :=
  default (mkPixel 0 0 0 0) (fb !! Z.to_nat (nth_pixel x y w k)).

Definition pixel_ok (p : PixelRGBA) : Prop := byte_ok (pr p) /\ byte_ok (pg p) /\ byte_ok (pb p).

Lemma saved_pixel_ok fb x y w k : Forall pixel_ok fb -> pixel_ok (saved_pixel fb x y w k).
Proof.
  intros Hf. unfold saved_pixel. destruct (fb !! _) as [p|] eqn:E; cbn.
  - by eapply Forall_lookup_1.
  - unfold pixel_ok, byte_ok; cbn; lia.
Qed.

End screen.

(** kzalloc is kcalloc of one object: what kmalloc gives, cleared. *)
Lemma kcalloc_split h m n p h' : 0 <= n < 2 ^ 64 -> kernel_kmalloc h n = (p, h') -> p <> 0 ->
  kcalloc KERNEL_HEAP_END_VADDR 16 8 h m 1 n = let* m' := kzalloc m p n in Ok (p, h', m').
Proof.
  intros Hn Ek Hp. unfold kernel_kmalloc, kmalloc, alloc in Ek. unfold kcalloc, calloc, kzalloc.
  rewrite Z.mul_1_l, u64_id by lia. destruct (alloc_block _ _ _ h n) as [[b|] h0]; simplify_eq.
  by rewrite (proj2 (Z.eqb_neq _ _)), memset_fill by done.
Qed.

(** ** The size of the record

    [sizeof(ppm)] is the size of a pointer, 8, and the record has 16 bytes. In the heap
    the kernel starts with, the image is where the record ends for the allocator: at the
    field img. *)
Lemma first_image_overlaps n : 0 < n < 2 ^ 20 ->
  exists h', image_blocks kernel_heap n kernel_base (kernel_base + ppm_img) h'.
Proof.
  intros Hn. destruct (kernel_kmalloc kernel_heap sizeof_ppm) as [p h0] eqn:E0.
  assert (p = kernel_base /\ htop h0 = p + ppm_img /\ hfree h0 = [] /\ hfresh h0 <> O /\
    0 <= p + ppm_img < KERNEL_HEAP_END_VADDR - 2 ^ 21) as (<- & Et & Ef & Eh & Hp).
  { clear n Hn. vm_compute in E0. simplify_eq. vm_compute. naive_solver. }
  destruct (round_up_8 n ltac:(lia)) as (H1 & _ & _).
  assert (round_up 8 n <= n + 7) as H2.
  { unfold round_up. change 8 with (2 ^ 3). rewrite u64_id by lia. rewrite land_neg_pow2 by lia. dlia. }
  assert (KERNEL_HEAP_END_VADDR < 2 ^ 63) by done. change (2 ^ 21) with (2 * 2 ^ 20) in Hp.
  exists (snd (kernel_kmalloc h0 n)), h0. split; [done|].
  unfold kernel_kmalloc, kmalloc, alloc, alloc_block. rewrite Ef, Et. cbn [unlink_fit].
  destruct (hfresh h0); [done|]. rewrite u64_id by lia. by rewrite (proj2 (Z.leb_le _ _)) by lia.
Qed.

(** There the image begins at the pointer to it: the first byte stored is the last of
    the address of the bytes after it. *)
Lemma first_store_moves_image m p w h v : mem_ok m -> ppm_at m p w h (p + ppm_img) -> 0 <= p < 2 ^ 63 ->
  byte_ok v -> exists m', st8 m (u64 (p + ppm_img + 0)) v = Ok m' /\
    ld_le 8 m' (p + ppm_img) = Ok ((p + ppm_img) / 256 * 256 + v).
Proof.
  intros Hm (_ & _ & L) Hp Hv. unfold ppm_img in *. rewrite Z.add_0_r, u64_id by lia.
  change 8%nat with (Datatypes.S 7) in L |- *. remember 7%nat as n eqn:En.
  cbn [ld_le] in L |- *. unfold ld8 at 1 in L. destruct (m !! (p + 8)) as [b|] eqn:Eb; [|done].
  cbn [deref res_bind] in L. destruct (ld_le n m (p + 8 + 1)) as [r| | |] eqn:Er; try done.
  cbn [res_bind] in L. injection L as L. pose proof (Hm _ _ Eb) as Hb. unfold byte_ok in *.
  assert (st8 m (p + 8) v = Ok (<[p + 8 := u8 v]> m)) as E by (apply st8_ok; eauto).
  exists (<[p + 8 := u8 v]> m). split; [done|]. unfold ld8 at 1. rewrite lookup_insert_eq. cbn [deref res_bind].
  rewrite (ld_le_outside n m _ (p + 8 + 1) (p + 8) 1) by (first [apply (stored_out _ _ _ _ (st8_stored _ _ _ _ E)) | lia]).
  rewrite Er, u8_id by lia. cbn [res_bind]. f_equal.
  assert ((p + 8) / 256 = r) as -> by (symmetry; apply (Z.div_unique _ _ _ b); lia). lia.
Qed.

(** The address of the image lies in the first bytes of the image, and is the low one that
    the first store replaces. *)
Section overlap.
Context (m : mem) (p w h : Z) (c : PixelRGBA).
Context (Hm : mem_ok m) (Hat : ppm_at m p w h (p + ppm_img)) (Hp : 0 <= p < 2 ^ 62) (Hc : pixel_ok c).

Definition base : Z := (p + ppm_img) / 256 * 256.
Definition in_pointer (b : Z) : Prop := p + ppm_img <= b < p + ppm_img + 8.

Context (Hmap : mapped m base 258).
Context (Hr1 : ~ in_pointer (base + pr c + 1)) (Hr2 : ~ in_pointer (base + pr c + 2)).

(** The three stores of the first pixel. *)
Lemma first_pixel_stores : exists m1 m2 m3,
  ld_le 8 m (p + ppm_img) = Ok (p + ppm_img) /\ st8 m (u64 (p + ppm_img + 0)) (pr c) = Ok m1 /\
  ld_le 8 m1 (p + ppm_img) = Ok (base + pr c) /\ st8 m1 (u64 (base + pr c + 1)) (pg c) = Ok m2 /\
  ld_le 8 m2 (p + ppm_img) = Ok (base + pr c) /\ st8 m2 (u64 (base + pr c + 2)) (pb c) = Ok m3 /\
  ld_le 8 m3 (p + ppm_img) = Ok (base + pr c) /\
  m3 = <[base + pr c + 2 := pb c]> (<[base + pr c + 1 := pg c]> (<[p + ppm_img := pr c]> m)).
Proof.
  destruct Hc as (Hr & Hg & Hb). pose proof Hat as (_ & _ & L).
  destruct (first_store_moves_image m p w h (pr c) Hm Hat ltac:(lia) Hr) as (m1 & E1 & L1).
  fold base in L1. unfold byte_ok, in_pointer in *.
  assert (m1 = <[p + ppm_img := pr c]> m) as Em1.
  { unfold st8 in E1. rewrite Z.add_0_r, u64_id in E1 by (unfold ppm_img; lia).
    destruct (m !! (p + ppm_img)); [|done]. injection E1 as <-. by rewrite u8_id by lia. }
  assert (0 <= base <= p + ppm_img) as Hbase by (unfold base, ppm_img; dlia).
  assert (forall m', dom m' = dom m -> forall i v, 0 <= i < 258 -> 0 <= v < 256 ->
    st8 m' (base + i) v = Ok (<[base + i := v]> m') /\ dom (<[base + i := v]> m') = dom m) as Hst.
  { intros m' Hd i v Hi Hv.
    assert (is_Some (m' !! (base + i))) as His.
    { apply elem_of_dom. rewrite Hd. apply elem_of_dom. by apply Hmap. }
    rewrite (st8_ok _ _ _ His), u8_id by lia. split; [done|]. by rewrite (dom_insert_is_Some _ _ _ His). }
  pose proof (stored_dom _ _ _ _ (st8_stored _ _ _ _ E1)) as D1.
  rewrite <- !Z.add_assoc, !u64_id by (unfold ppm_img in *; lia).
  destruct (Hst m1 D1 (pr c + 1) (pg c)) as [E2 D2]; [lia | lia |].
  destruct (Hst _ D2 (pr c + 2) (pb c)) as [E3 D3]; [lia | lia |].
  rewrite <- Z.add_assoc, u64_id in E1 by (unfold ppm_img in *; lia).
  eexists m1, _, _. split; [done|]. split; [exact E1|]. split; [done|]. split; [exact E2|].
  assert (ld_le 8 (<[base + (pr c + 1) := pg c]> m1) (p + ppm_img) = Ok (base + pr c)) as L2.
  { rewrite <- L1. apply (ld_le_outside _ _ _ _ _ _ (stored_out _ _ _ _ (st8_stored _ _ _ _ E2))).
    change (Z.of_nat 8) with 8. lia. }
  split; [exact L2|]. split; [exact E3|]. split; [|by rewrite Em1].
  rewrite <- L2. apply (ld_le_outside _ _ _ _ _ _ (stored_out _ _ _ _ (st8_stored _ _ _ _ E3))).
  change (Z.of_nat 8) with 8. lia.
Qed.

End overlap.

(** (C32) Saving a part of the screen on the heap the kernel starts with overwrites memory
    that the colours choose. ppm_write_fb asks for 8 bytes for the record of 16, so the
    image is given the address of the field img, where its own address is then stored;
    the red byte of the first pixel replaces the low byte of that address, and its green
    and blue bytes are stored not after the red one but at [base + red + 1] and
    [base + red + 2], where [base], the address of the field rounded down to 256, is in
    the descriptors of kmalloc's blocks, of which the last 32 bytes begin there; the copy
    goes on from an image that begins at [base + red]. *)
Theorem saved_image_overwrites {S} `{!FileCalls S} gw gh x y w h path fb d :
  0 <= gw -> 0 <= gh -> gw * gh <= 2 ^ 31 -> dims_ok w h -> w * h * 3 < 2 ^ 20 ->
  on_display gw gh x y w h -> is_screen gw gh fb -> Forall pixel_ok fb ->
  heap d = kernel_heap -> mem_ok (dmem d) ->
  mapped (dmem d) KERNEL_HEAP_START_VADDR (KERNEL_HEAP_PAGES * 4096) ->
  let p := kernel_base in let c := saved_pixel gw fb x y w 0 in
  let bound := u32 (u32 (gw * u32 (h - 1) + w) + u32 (y * gw + x)) in
  ~ (38 <= pr c <= 46) ->
  exists h1 m0 m1 j px,
    image_blocks kernel_heap (w * h * 3) p (p + ppm_img) h1 /\
    ppm_at m0 p w h (p + ppm_img) /\ base p = p - 32 /\
    m1 = <[base p + pr c + 2 := pb c]> (<[base p + pr c + 1 := pg c]> (<[p + ppm_img := pr c]> m0)) /\
    ld_le 8 m1 (p + ppm_img) = Ok (base p + pr c) /\
    ppm_write_fb path gw x y w h fb d =
      (let* m := loop (Z.to_nat bound) (save_step p gw w bound fb) (3, j, px, m1) in
       let* d := ppm_write p path (mkD m h1 (files d)) in ppm_free p d).
Proof.
  intros Hgw Hgh Hsc Hdim Hsz Hd Hs Hf Hheap Hok Hmap p c bound Hc. pose proof Hdim as (Hw & Hh & _).
  pose proof Hd as [Hx Hy _]. assert (0 < w * h) as Hwh by nia.
  destruct (first_image_overlaps (w * h * 3)) as (h1 & Hal); [lia|]. fold p in Hal.
  assert (p = 0x1c0fffa020) as Ep by (vm_compute; reflexivity).
  change KERNEL_HEAP_START_VADDR with 0x1c0ffee000 in Hmap. change (KERNEL_HEAP_PAGES * 4096) with 33554432 in Hmap.
  assert (image_room (dmem d) p (p + ppm_img) (w * h * 3)) as Hrm.
  { unfold ppm_img, sizeof_ppm. rewrite Ep.
    split; [split; [done|] | split; [done|] | unfold sizeof_ppm; lia | lia];
      (eapply mapped_mono; [exact Hmap | lia | lia]). }
  destruct (new_image _ _ _ _ _ Hrm Hdim) as (m1 & m2 & m3 & m4 & m5 & E1 & E2 & E3 & En & E4 & E5 & Hat & Hdm & Hok5 & _).
  assert (base p = p - 32) as Eb by (rewrite Ep; vm_compute; reflexivity).
  assert (pixel_ok c) as Hpc by (by apply saved_pixel_ok).
  destruct (first_pixel_stores m5 p w h c (Hok5 Hok) Hat) as (ma & mb & mc & La & Ea & Lb & Ebb & Lc & Ec & Ld & Em);
    [lia | done | | unfold in_pointer, ppm_img; lia | unfold in_pointer, ppm_img; lia |].
  { eapply mapped_dom; [exact Hdm|]. eapply mapped_mono; [exact Hmap | lia | lia]. }
  destruct (nth_pixel_on gw gh Hgw Hgh Hsc x y w h 0 Hd ltac:(lia)) as [_ Hr0].
  assert (nth_pixel gw x y w 0 = y * gw + x) as Ep0.
  { unfold nth_pixel. rewrite Z.div_0_l, Z.mod_0_l by lia. lia. }
  rewrite Ep0 in Hr0.
  destruct (nth_pixel_on gw gh Hgw Hgh Hsc x y w h (w * h - 1) Hd ltac:(lia)) as [_ Hrl].
  assert (nth_pixel gw x y w (w * h - 1) = gw * (h - 1) + w - 1 + (y * gw + x)) as Epl.
  { unfold nth_pixel. replace (w * h - 1) with ((h - 1) * w + (w - 1)) by lia.
    rewrite Z.div_add_l, (Z.add_comm (_ * w)), Z.mod_add by lia. rewrite Z.div_small, Z.mod_small by lia. lia. }
  rewrite Epl in Hrl. assert (0 <= gw * (h - 1)) by nia.
  assert (u32 (y * gw + x) < bound) as Hlt.
  { unfold bound. rewrite (u32_id (h - 1)), (u32_id (y * gw + x)), (u32_id (gw * (h - 1) + w)), u32_id by nia. lia. }
  destruct (next_pixel gw w 0 (u32 (y * gw + x))) as [px j] eqn:Enext.
  exists h1, m5, mc, j, px. split; [done|]. split; [done|]. split; [done|]. split; [done|]. split; [done|].
  unfold ppm_write_fb. rewrite Hheap. destruct Hal as (h0 & Eh0 & Eh1). rewrite Eh0, E1. cbn [res_bind].
  rewrite E2. cbn [res_bind]. rewrite E3. cbn [res_bind]. rewrite En. cbn [res_bind].
  rewrite Eh1, E4. cbn [res_bind]. rewrite E5. cbn [res_bind]. fold bound. rewrite loop_S.
  unfold save_step at 1. rewrite (proj2 (Z.ltb_lt _ _) Hlt).
  assert (get_pixel fb (u32 (y * gw + x)) = Ok c) as ->.
  { unfold get_pixel, c, saved_pixel. rewrite Ep0, u32_id by lia. unfold is_screen in Hs.
    destruct (lookup_lt_is_Some_2 fb (Z.to_nat (y * gw + x))) as [v Ev]; [lia|]. by rewrite Ev. }
  cbn [res_bind]. rewrite La. cbn [res_bind]. rewrite Ea. cbn [res_bind]. rewrite Lb. cbn [res_bind].
  change (u32 (0 + 1)) with 1. rewrite Ebb. cbn [res_bind]. rewrite Lc. cbn [res_bind].
  change (u32 (0 + 2)) with 2. rewrite Ec. cbn [res_bind]. rewrite Enext. done.
Qed.

(** ** A screen and a heap *)

Module Demo.

#[export] Existing Instances Disk.ramdisk_disk.

Definition red : PixelRGBA := mkPixel 255 0 0 255.
Definition demo_screen : list PixelRGBA := replicate 5 red ++ replicate 11 (mkPixel 0 0 7 255).

(** The files are those of the small disk of [MinixSpec]. *)
Definition demo_files : Minix.FileSystem Disk.ramdisk * MinixFile.open_env :=
  (MinixSpec.demo_opened, MinixOpen.demo_env).

Definition demo_state : dstate :=
  mkD (mem_const KERNEL_HEAP_START_VADDR (KERNEL_HEAP_PAGES * 4096) 0) kernel_heap demo_files.

Lemma saved_image_overwrites_witness :
  let p := kernel_base in
  exists h1 m0 m1 j px,
    image_blocks kernel_heap 12 p (p + ppm_img) h1 /\ ppm_at m0 p 2 2 (p + ppm_img) /\ base p = p - 32 /\
    m1 = <[base p + 255 + 2 := 0]> (<[base p + 255 + 1 := 0]> (<[p + ppm_img := 255]> m0)) /\
    ld_le 8 m1 (p + ppm_img) = Ok (base p + 255) /\
    ppm_write_fb [47] 4 0 0 2 2 demo_screen demo_state =
      (let* m := loop 6 (save_step p 4 2 6 demo_screen) (3, j, px, m1) in
       let* d := ppm_write p [47] (mkD m h1 (files demo_state)) in ppm_free p d).
Proof.
  apply (saved_image_overwrites 4 4 0 0 2 2 [47] demo_screen demo_state).
  all: try (unfold dims_ok; lia). all: try (split; lia). all: try reflexivity.
  - apply Forall_app. split; apply Forall_replicate; unfold pixel_ok, byte_ok; cbn; lia.
  - apply mem_const_ok. unfold byte_ok. lia.
  - apply mem_const_mapped.
  - intros [_ H]. vm_compute in H. by apply H.
Defined.

End Demo.
