(* ===== verification/Paint.v ===== *)
(** The loop of drawing_proc of src/src/drawing.c: the keys released choose the colour and the
    size of the brush and save and load images, the tablet draws.

    [turn] is one turn of its endless loop, up to the call of gpu_redraw at the end,
    which is modelled in Gpu.v. The display is [gw] by [gh] pixels. *)
From S2P Require Import Prelude Mem Lock Ring Input Kmalloc FrameBuffer Drawing.
From S2P Require Disk Minix MinixFile.

(** A [coord_pair], which may not have been set. *)
Definition coord_pair : Type := option Z * option Z.

Section proc.
Context {S : Type} `{!FileCalls S} (gw gh : Z) (fuel : nat).

Record painter := mkPainter {
  keydev : InputDevice;       (* g_keydev *)
  tabdev : InputDevice;       (* g_tabdev *)
  draw_color : PixelRGBA;
  draw_size : Z;
  coord : coord_pair;
  saved_coord : coord_pair;
  framebuffer : list PixelRGBA;
  disk : dstate (S := S)
}.

Definition set_keydev (p : painter) (d : InputDevice) : painter :=
  mkPainter d (tabdev p) (draw_color p) (draw_size p) (coord p) (saved_coord p) (framebuffer p) (disk p).
Definition set_tabdev (p : painter) (d : InputDevice) : painter :=
  mkPainter (keydev p) d (draw_color p) (draw_size p) (coord p) (saved_coord p) (framebuffer p) (disk p).
Definition set_brush (p : painter) (c : PixelRGBA) (n : Z) : painter :=
  mkPainter (keydev p) (tabdev p) c n (coord p) (saved_coord p) (framebuffer p) (disk p).
Definition set_coords (p : painter) (c s : coord_pair) : painter :=
  mkPainter (keydev p) (tabdev p) (draw_color p) (draw_size p) c s (framebuffer p) (disk p).
Definition set_screen (p : painter) (fb : list PixelRGBA) (d : dstate) : painter :=
  mkPainter (keydev p) (tabdev p) (draw_color p) (draw_size p) (coord p) (saved_coord p) fb d.

(** "/home/art.ppm", "/home/brush.ppm" and "/images/marz_photo_ppm.ppm" *)
Definition art_path : list Z := [47; 104; 111; 109; 101; 47; 97; 114; 116; 46; 112; 112; 109].
Definition brush_path : list Z := [47; 104; 111; 109; 101; 47; 98; 114; 117; 115; 104; 46; 112; 112; 109].
Definition marz_path : list Z :=
  [47; 105; 109; 97; 103; 101; 115; 47; 109; 97; 114; 122; 95; 112; 104; 111; 116; 111; 95;
   112; 112; 109; 46; 112; 112; 109].

Definition load_image (path : list Z) (p : painter) : res painter :=
  let* x := deref (fst (coord p)) in
  let* y := deref (snd (coord p)) in
  let* (d, fb) := ppm_read_fb fuel path gw x y (disk p) (framebuffer p) in
  Ok (set_screen p fb d).

(** The commands, and the key that is left of each. *)
Definition command (key : Z) (p : painter) : res (Z * painter) :=
  if key =? 115 then                                         (* s *)
    let* d := ppm_write_fb art_path gw 0 0 gw gh (framebuffer p) (disk p) in
    Ok (110, set_screen p (framebuffer p) d)
  else if key =? 117 then                                    (* u *)
    let* p := load_image brush_path p in Ok (110, p)
  else if key =? 105 then                                    (* i *)
    let* x := deref (fst (coord p)) in
    let* y := deref (snd (coord p)) in
    let* sx := deref (fst (saved_coord p)) in
    let* sy := deref (snd (saved_coord p)) in
    let* d := ppm_write_fb brush_path gw x y (u32 (sx - x)) (u32 (sy - y)) (framebuffer p) (disk p) in
    Ok (110, set_screen p (framebuffer p) d)
  else if key =? 106 then                                    (* j *)
    Ok (110, set_coords p (coord p) (coord p))
  else if key =? 122 then                                    (* z *)
    let* p := load_image marz_path p in Ok (110, p)
  else Ok (key, p).

Definition next_key (p : painter) : res (Z * painter) :=
  let* (key, d) := get_keyboard (keydev p) in Ok (key, set_keydev p d).

(** A digit goes round the loop again as a key that is pressed, which is passed over. *)
Definition key_step : Z * painter -> res (ctl (Z * painter) painter) :=
  fun '(key, p) =>
    if key =? 0 then Ok (Done p)
    else if key >? 0 then let* x := next_key p in Ok (Next x)
    else
      let key := s8 (- key) in
      if isdigit (u8 key) then Ok (Next (key, set_brush p (draw_color p) (u8 (key - 48))))
      else
        let* (key, p) := command key p in
        let p := set_brush p (default (draw_color p) (get_color key)) (draw_size p) in
        let* x := next_key p in Ok (Next x).

Definition handle_keys (p : painter) : res painter :=
  let* x := next_key p in loop fuel key_step x.

(** One event of the tablet. *)
Definition draw_event (raw_event : Z) (p : painter) : res painter :=
  let e := unpack_event raw_event in
  if ev_type e =? EV_SYN then Ok p
  else if ev_code e =? ABS_X then
    Ok (set_coords p (Some (u32 (ev_value e * gw) / 32767), snd (coord p)) (saved_coord p))
  else if ev_code e =? ABS_Y then
    let p := set_coords p (fst (coord p), Some (u32 (ev_value e * gh) / 32767)) (saved_coord p) in
    if negb (pa (draw_color p) =? 0) then
      let* x := deref (fst (coord p)) in
      let* y := deref (snd (coord p)) in
      let* fb := fb_fill_circ gw gh (framebuffer p) x y (draw_size p * 2) (draw_color p) in
      Ok (set_screen p fb (disk p))
    else Ok p
  else Ok p.

Definition event_step (_ : Z) (p : painter) : res painter :=
  let* (raw_event, rb) := input_ring_buffer_pop (ring_buffer (tabdev p)) in
  draw_event raw_event (set_tabdev p (mkInput (viodev (tabdev p)) rb)).

(** [event_ring_size] counts bytes. *)
Definition draw_events (p : painter) : res painter :=
  let* (handled, d) := input_handle (tabdev p) in
  let event_ring_size := ring_size (ring_buffer d) in
  for_up (Z.to_nat event_ring_size) 0 event_step (set_tabdev p d).

Definition turn (p : painter) : res painter :=
  let* p := handle_keys p in draw_events p.

(** What is set before the first turn. *)
Definition drawing_start (keys tablet : InputDevice) (fb : list PixelRGBA) (d : dstate) : res painter :=
  let* fb := fb_fill_rect gw gh fb (mkRect 0 0 gw gh) (mkPixel 0 0 0 255) in
  Ok (mkPainter keys tablet (mkPixel 0 0 0 0) 2 (None, None) (None, None) fb d).

End proc.

(** ** What the tablet draws *)

(** A position of the tablet on a display of [n] pixels. *)
Definition scale (n value : Z) : Z := value * n / 32767.

(** The positions where a disc is drawn, [x] being the last column: one for each row
    the tablet reports. *)
Fixpoint centres (gw gh x : Z) (evs : list Z) : list (Z * Z) :=
  match evs with
  | [] => []
  | raw :: evs =>
      let e := unpack_event raw in
      if ev_type e =? EV_SYN then centres gw gh x evs
      else if ev_code e =? ABS_X then centres gw gh (scale gw (ev_value e)) evs
      else if ev_code e =? ABS_Y then (x, scale gh (ev_value e)) :: centres gw gh x evs
      else centres gw gh x evs
  end.

(** The discs at [cs], of the colour unless it is transparent. *)
Definition in_disc (radius r c : Z) (centre : Z * Z) : Prop :=
  dist2 (fst centre) (snd centre) r c <= radius * radius.

#[export] Instance in_disc_dec radius r c k : Decision (in_disc radius r c k).
Proof. unfold in_disc. apply _. Defined.

Definition discs (cs : list (Z * Z)) (radius : Z) (color : PixelRGBA) : picture := fun r c =>
  if decide (pa color <> 0 /\ Exists (in_disc radius r c) cs) then Some color else None.

(** An event of the tablet: 64 bits, positions up to 32767. *)
Definition tablet_event (raw : Z) : Prop :=
  0 <= raw < 2 ^ 64 /\ ev_value (unpack_event raw) <= 32767.

Section events.
Context {S : Type} `{!FileCalls S} (gw gh : Z) (Hgw : 0 <= gw < 2 ^ 15) (Hgh : 0 <= gh < 2 ^ 15).

Lemma ev_value_nonneg raw : 0 <= ev_value (unpack_event raw).
Proof. cbn. apply Z.land_nonneg. by right. Qed.

Lemma scale_ok n raw : 0 <= n < 2 ^ 15 -> tablet_event raw ->
  let v := ev_value (unpack_event raw) in
  u32 (v * n) / 32767 = scale n v /\ 0 <= scale n v < 2 ^ 15.
Proof.
  intros Hn [_ Hv] v. pose proof (ev_value_nonneg raw). fold v in Hv, H. unfold scale.
  assert (0 <= v * n <= 32767 * n) by (split; [apply Z.mul_nonneg_nonneg; lia | apply Z.mul_le_mono_nonneg_r; lia]).
  rewrite u32_id by lia. split; [done|]. split; [apply Z.div_pos; lia|].
  apply (Z.le_lt_trans _ (32767 * n / 32767)); [apply Z.div_le_mono; lia|].
  rewrite (Z.mul_comm 32767), Z.div_mul; lia.
Qed.

(** The parts of the program that the tablet leaves alone. *)
Definition same_brush (p p' : painter (S := S)) : Prop :=
  keydev p' = keydev p /\ draw_color p' = draw_color p /\ draw_size p' = draw_size p /\
  saved_coord p' = saved_coord p /\ disk p' = disk p.

(** The column after an event. *)
Definition last_column (x : Z) (raw : Z) : Z :=
  let e := unpack_event raw in
  if ev_type e =? EV_SYN then x else if ev_code e =? ABS_X then scale gw (ev_value e) else x.

Lemma draw_one p raw x : tablet_event raw -> fst (coord p) = Some x -> 0 <= x < 2 ^ 15 ->
  0 <= draw_size p < 2 ^ 8 -> is_screen gw gh (framebuffer p) ->
  exists p', draw_event gw gh raw p = Ok p' /\ same_brush p p' /\ tabdev p' = tabdev p /\
    fst (coord p') = Some (last_column x raw) /\ 0 <= last_column x raw < 2 ^ 15 /\
    painted gw gh (discs (centres gw gh x [raw]) (draw_size p * 2) (draw_color p))
      (framebuffer p) (framebuffer p').
Proof.
  intros Hr Hx Hx15 Hn Hs. destruct (scale_ok gw raw Hgw Hr) as [Ew Hw]. destruct (scale_ok gh raw Hgh Hr) as [Eh Hh].
  assert (painted gw gh (discs [] (draw_size p * 2) (draw_color p)) (framebuffer p) (framebuffer p)) as Hnone.
  { split; [done|]. intros r c _. unfold discs. rewrite decide_False; [by rewrite None_union|].
    intros [_ H]. by apply Exists_nil in H. }
  unfold draw_event, last_column. cbn [centres].
  destruct (ev_type _ =? EV_SYN). { exists p. done. }
  destruct (ev_code _ =? ABS_X). { eexists. rewrite Ew. done. }
  destruct (ev_code _ =? ABS_Y); [|by exists p]. rewrite Eh. cbn [set_coords draw_color coord fst snd].
  rewrite Hx. destruct (Z.eqb_spec (pa (draw_color p)) 0) as [H0|H0]; cbn [negb].
  { eexists. split; [done|]. split; [done|]. split; [done|]. split; [done|]. split; [done|].
    eapply painted_ext; [|exact Hnone]. intros r c _. unfold discs. rewrite !decide_False; naive_solver. }
  cbn [deref res_bind framebuffer draw_size set_coords].
  destruct (fill_circ_paints gw gh ltac:(lia) ltac:(lia) ltac:(nia) x (scale gh (ev_value (unpack_event raw)))
    (draw_size p * 2) Hx15 Hh ltac:(lia) ltac:(lia) ltac:(lia) (draw_color p) _ Hs) as (b & E & Hp).
  rewrite E. cbn [res_bind]. eexists. split; [done|]. split; [done|]. split; [done|]. split; [done|].
  split; [done|]. eapply painted_ext; [|exact Hp]. intros r c _. unfold region, discs.
  apply decide_ext. rewrite Exists_cons, Exists_nil. unfold in_disc. cbn [fst snd]. tauto.
Qed.

Lemma centres_cons x raw evs :
  centres gw gh x (raw :: evs) = centres gw gh x [raw] ++ centres gw gh (last_column x raw) evs.
Proof. unfold last_column. cbn [centres]. by repeat case_match. Qed.

Lemma discs_app cs cs' radius color r c :
  discs cs' radius color r c ∪ discs cs radius color r c = discs (cs ++ cs') radius color r c.
Proof. unfold discs. pose proof (Exists_app (in_disc radius r c) cs cs'). repeat case_decide; tauto. Qed.

(** Draining the ring; the turns past the last event do nothing. *)
Lemma drain_events n : forall lo p evs x, holds (ring_buffer (tabdev p)) evs -> Forall tablet_event evs ->
  (length evs <= n)%nat -> fst (coord p) = Some x -> 0 <= x < 2 ^ 15 ->
  0 <= draw_size p < 2 ^ 8 -> is_screen gw gh (framebuffer p) ->
  exists p', for_up n lo (event_step gw gh) p = Ok p' /\ same_brush p p' /\
    holds (ring_buffer (tabdev p')) [] /\ viodev (tabdev p') = viodev (tabdev p) /\
    painted gw gh (discs (centres gw gh x evs) (draw_size p * 2) (draw_color p))
      (framebuffer p) (framebuffer p').
Proof.
  induction n as [|n IH]; intros lo p evs x Hh Hev Hlen Hx Hx15 Hn Hs; cbn [for_up].
  - destruct evs; [|cbn in Hlen; lia]. exists p. split; [done|]. split; [done|]. split; [done|].
    split; [done|]. split; [done|]. intros r c _. cbn [centres]. unfold discs.
    rewrite decide_False; [by rewrite None_union|]. intros [_ H]. by apply Exists_nil in H.
  - unfold event_step at 1. destruct evs as [|raw evs].
    + rewrite event_pop_empty by done. cbn [res_bind]. 
      change (draw_event gw gh 0 ?q) with (Ok q). cbn [res_bind].
      destruct (IH (lo + 1) (set_tabdev p (mkInput (viodev (tabdev p)) (ring_buffer (tabdev p)))) [] x)
        as (p' & E & H); try done; [cbn; lia|]. exists p'. done.
    + apply Forall_cons in Hev as [[Hr Hv] Hev]. destruct (event_pop _ _ _ Hr Hh) as (rb & -> & Hrb).
      cbn [res_bind length] in *.
      set (q := set_tabdev p (mkInput (viodev (tabdev p)) rb)).
      destruct (draw_one q raw x) as (p1 & -> & (B1 & B2 & B3 & B4 & B5) & Ht & Hc & Hc15 & Hp1); try done.
      cbn [res_bind].
      destruct (IH (lo + 1) p1 evs (last_column x raw)) as (p2 & E & (C1 & C2 & C3 & C4 & C5) & Hh2 & Hv2 & Hp2);
        [by rewrite Ht | done | lia | done | done | by rewrite B3 | by eapply painted_screen |].
      exists p2. split; [done|]. split.
      { unfold same_brush. by rewrite C1, C2, C3, C4, C5, B1, B2, B3, B4, B5. }
      split; [done|]. split; [by rewrite Hv2, Ht|]. rewrite B2, B3 in Hp2. cbn [q set_tabdev draw_size draw_color framebuffer] in *.
      eapply painted_ext; [|exact (painted_over _ _ _ _ _ _ _ Hp1 Hp2)]. intros r c _. cbv beta.
      by rewrite discs_app, <- centres_cons.
Qed.

End events.

(** (C33) The drawing loop empties the tablet's queue and draws a disc for each row the
    tablet reported, at that row and the last column, in the colour of the brush, and
    nothing else; that it goes round eight times an event does no harm. *)
Theorem draw_events_paints {S} `{!FileCalls S} gw gh (p : painter (S := S)) d rb es x :
  0 <= gw < 2 ^ 15 -> 0 <= gh < 2 ^ 15 -> is_screen gw gh (framebuffer p) ->
  tabdev p = mkInput d rb -> virtio_ok d -> vlock d = MUTEX_UNLOCKED -> holds rb [] ->
  length es = pending d -> (forall k e, es !! k = Some e -> pending_event d k = Some e) ->
  Forall tablet_event es -> fst (coord p) = Some x -> 0 <= x < 2 ^ 15 -> 0 <= draw_size p < 2 ^ 8 ->
  let evs := fold_left enqueue es [] in
  exists p', draw_events gw gh p = Ok p' /\ same_brush p p' /\
    holds (ring_buffer (tabdev p')) [] /\ pending (viodev (tabdev p')) = O /\
    painted gw gh (discs (centres gw gh x evs) (draw_size p * 2) (draw_color p))
      (framebuffer p) (framebuffer p').
Proof.
  intros Hgw Hgh Hs Ht Hd Hl Hh Hlen Hes Hev Hx Hx15 Hn evs.
  destruct (input_handle_drains d rb [] es Hd Hl Hh Hlen Hes) as (d' & rb' & E & Hh' & _ & _ & Hp).
  fold evs in Hh'.
  assert (Forall tablet_event evs) as Hevs.
  { unfold evs. assert (forall l acc, Forall tablet_event l -> Forall tablet_event acc ->
      Forall tablet_event (fold_left enqueue l acc)) as H.
    { induction l as [|e l IH]; intros acc Hl' Ha; [done|]. apply Forall_cons in Hl' as [He Hl'].
      cbn [fold_left]. apply IH; [done|]. unfold enqueue. case_match; [done|].
      apply Forall_app. split; [done|]. constructor; [done | constructor]. }
    apply H; [done | constructor]. }
  unfold draw_events. rewrite Ht, E. cbn [res_bind ring_buffer]. rewrite (holds_size _ _ Hh').
  destruct (drain_events gw gh Hgw Hgh (Z.to_nat (8 * Z.of_nat (length evs))) 0 (set_tabdev p (mkInput d' rb')) evs x)
    as (p' & -> & B & H1 & H2 & H3); try done; [lia|].
  exists p'. split; [done|]. split; [done|]. split; [done|]. by rewrite H2.
Qed.

(** [coord] is not initialised: a row before any column is drawn at a column that is not
    set, and so is an image that is loaded before the tablet moved. *)
Lemma unset_column_undefined {S} `{!FileCalls S} gw gh (p : painter (S := S)) raw :
  ev_type (unpack_event raw) <> EV_SYN -> ev_code (unpack_event raw) = ABS_Y ->
  pa (draw_color p) <> 0 -> fst (coord p) = None -> draw_event gw gh raw p = Ub.
Proof.
  intros Ht Hc Ha Hx. unfold draw_event. rewrite (proj2 (Z.eqb_neq _ _) Ht), Hc.
  cbn [Z.eqb ABS_X ABS_Y set_coords draw_color coord fst].
  by rewrite (proj2 (Z.eqb_neq _ _) Ha), Hx.
Qed.

Lemma load_unset_undefined {S} `{!FileCalls S} gw fuel path (p : painter (S := S)) :
  fst (coord p) = None -> load_image gw fuel path p = Ub.
Proof. intros Hx. unfold load_image. by rewrite Hx. Qed.

(** An image saved with its second corner to the left of the first is as wide as the
    difference taken in 32 bits. *)
Lemma save_corner_wraps {S} `{!FileCalls S} gw gh fuel (p : painter (S := S)) x y sx sy :
  coord p = (Some x, Some y) -> saved_coord p = (Some sx, Some sy) -> 0 <= sx < x -> x < 2 ^ 32 ->
  command gw gh fuel 105 p =
    let* d := ppm_write_fb brush_path gw x y (sx - x + 2 ^ 32) (u32 (sy - y)) (framebuffer p) (disk p) in
    Ok (110, set_screen p (framebuffer p) d).
Proof.
  intros Hc Hs Hx Hb. unfold command. cbn [Z.eqb Pos.eqb]. rewrite Hc, Hs. cbn [fst snd deref res_bind].
  replace (u32 (sx - x)) with (sx - x + 2 ^ 32); [done|].
  unfold u32. apply (Z.mod_unique _ _ (-1)); lia.
Qed.

(** ** The keys *)

Section keys.
Context {S : Type} `{!FileCalls S} (gw gh : Z) (fuel : nat).

(** What a key does when it is released, with the key that is left of it. *)
Definition release (key : Z) (p : painter (S := S)) : res painter :=
  if isdigit (u8 key) then Ok (set_brush p (draw_color p) (u8 (key - 48)))
  else
    let* (key, p) := command gw gh fuel key p in
    Ok (set_brush p (default (draw_color p) (get_color key)) (draw_size p)).

(** Keys that are pressed do nothing. *)
Fixpoint releases (keys : list Z) (p : painter) : res painter :=
  match keys with
  | [] => Ok p
  | key :: keys => let* p := (if key >? 0 then Ok p else release (- key) p) in releases keys p
  end.

(** The keyboard gives [keys], and then none. *)
Fixpoint gives (d : InputDevice) (keys : list Z) (d' : InputDevice) : Prop :=
  match keys with
  | [] => get_keyboard d = Ok (0, d')
  | key :: keys => -128 < key < 128 /\ key <> 0 /\
      exists d1, get_keyboard d = Ok (key, d1) /\ gives d1 keys d'
  end.

Lemma load_keydev path p d :
  load_image gw fuel path (set_keydev p d) = let* p := load_image gw fuel path p in Ok (set_keydev p d).
Proof.
  unfold load_image. destruct p as [? ? ? ? [[x|] [y|]] ? ? ?]; cbn; try done.
  by destruct (ppm_read_fb fuel path gw x y _ _) as [[? ?]| | |].
Qed.

Lemma command_keydev key p d : command gw gh fuel key (set_keydev p d) =
  let* (key, p) := command gw gh fuel key p in Ok (key, set_keydev p d).
Proof.
  unfold command. rewrite !load_keydev.
  destruct (key =? 115). { cbn. by destruct (ppm_write_fb _ _ _ _ _ _ _ _). }
  destruct (key =? 117). { by destruct (load_image gw fuel brush_path p). }
  destruct (key =? 105).
  { destruct p as [? ? ? ? [[x|] [y|]] [[sx|] [sy|]] ? ?]; cbn; try done.
    by destruct (ppm_write_fb _ _ _ _ _ _ _ _). }
  destruct (key =? 106); [done|].
  destruct (key =? 122); [|done]. by destruct (load_image gw fuel marz_path p).
Qed.

Lemma keys_loop keys : forall n p d d', gives d keys d' -> (2 * length keys < n)%nat ->
  (let* x := next_key (set_keydev p d) in loop n (key_step gw gh fuel) x) =
  let* p := releases keys p in Ok (set_keydev p d').
Proof.
  induction keys as [|key keys IH]; intros [|n] p d d' Hg Hn; cbn [length] in Hn; try lia; cbn [gives] in Hg.
  { unfold next_key. cbn [set_keydev keydev]. rewrite Hg. cbn [res_bind]. rewrite loop_S. done. }
  destruct Hg as (Hk & H0 & d1 & Eg & Hg). unfold next_key at 1. cbn [set_keydev keydev]. rewrite Eg.
  cbn [res_bind releases]. rewrite loop_S. unfold key_step at 1. rewrite (proj2 (Z.eqb_neq _ _) H0).
  change (set_keydev (set_keydev p d) d1) with (set_keydev p d1).
  destruct (Z.gtb_spec key 0) as [Hp|Hp].
  { cbn [res_bind]. rewrite <- (IH n p d1 d' Hg ltac:(lia)).
    by destruct (next_key (set_keydev p d1)). }
  assert (s8 (- key) = - key) as Es by (unfold s8; rewrite Z.mod_small by lia; lia). rewrite Es.
  unfold release. destruct (isdigit (u8 (- key))) eqn:Ed; cbn [res_bind].
  - destruct n as [|n]; [lia|]. rewrite loop_S. unfold key_step at 1.
    rewrite (proj2 (Z.eqb_neq _ _)), Z.gtb_ltb, (proj2 (Z.ltb_lt _ _)) by lia.
    rewrite <- (IH n _ d1 d' Hg ltac:(lia)). 
    change (set_brush (set_keydev p d1) ?c ?s) with (set_keydev (set_brush p c s) d1).
    by destruct (next_key (set_keydev _ d1)).
  - rewrite command_keydev. destruct (command gw gh fuel (- key) p) as [[k q]| | |]; cbn [res_bind]; try done.
    rewrite <- (IH n _ d1 d' Hg ltac:(lia)).
    change (set_brush (set_keydev q d1) ?c ?s) with (set_keydev (set_brush q c s) d1).
    by destruct (next_key (set_keydev _ d1)).
Qed.

(** The keys released are carried out in order; pressing them does nothing. *)
Theorem handle_keys_correct keys p d' : gives (keydev p) keys d' -> (2 * length keys < fuel)%nat ->
  handle_keys gw gh fuel p = let* p := releases keys p in Ok (set_keydev p d').
Proof.
  intros Hg Hf. rewrite <- (keys_loop keys fuel p (keydev p) d' Hg Hf). by destruct p.
Qed.

End keys.

Module Demo.
Export Drawing.Demo.

(** Column 8192 of 32767, then row 16384. *)
Definition tablet : VirtioDevice :=
  mkVirtio MUTEX_UNLOCKED 4 65535 1 [(1, 8); (0, 8); (2, 8); (0, 8)]
    [0x200000000003; 0x400000010003; 0] 0.

Definition painting : painter (S := Minix.FileSystem Disk.ramdisk * MinixFile.open_env) :=
  mkPainter (mkInput tablet empty_events) (mkInput tablet empty_events) red 1 (Some 0, None) (None, None)
    demo_screen (mkD ∅ kernel_heap demo_files).

Lemma draw_events_paints_witness :
  exists p', draw_events 4 4 painting = Ok p' /\ same_brush painting p' /\
    holds (ring_buffer (tabdev p')) [] /\ pending (viodev (tabdev p')) = O /\
    painted 4 4 (discs (centres 4 4 0 [0x200000000003; 0x400000010003]) 2 (draw_color painting))
      (framebuffer painting) (framebuffer p').
Proof.
  apply (draw_events_paints 4 4 painting tablet empty_events [0x200000000003; 0x400000010003] 0).
  1, 2, 12: lia.
  - by vm_compute.
  - reflexivity.
  - split; vm_compute; done.
  - reflexivity.
  - apply empty_holds.
  - by vm_compute.
  - intros [|[|k]] e E; vm_compute in E; [| | done]; injection E as <-; by vm_compute.
  - repeat constructor; vm_compute; congruence.
  - reflexivity.
  - by vm_compute.
Defined.

(** The key A pressed and released, then none: nothing happens. The key R: the brush is red. *)
Lemma handle_keys_correct_witness :
  let p := set_keydev painting (mkInput
    (mkVirtio MUTEX_UNLOCKED 4 0 2 [(0, 8); (1, 8); (0, 8); (0, 8)] [0x100130001; 0x130001] 0) empty_events) in
  exists d', handle_keys 4 4 5 p = let* p := releases 4 4 5 [114; -114] p in Ok (set_keydev p d').
Proof.
  intros p. destruct (get_keyboard (keydev p)) as [[k1 d1]| | |] eqn:E1; [|vm_compute in E1; discriminate..].
  destruct (get_keyboard d1) as [[k2 d2]| | |] eqn:E2;
    [|vm_compute in E1; injection E1 as <- <-; vm_compute in E2; discriminate..].
  destruct (get_keyboard d2) as [[k3 d3]| | |] eqn:E3.
  2-4: vm_compute in E1; injection E1 as <- <-; vm_compute in E2; injection E2 as <- <-;
    vm_compute in E3; discriminate.
  exists d3. apply handle_keys_correct; [|cbn; lia]. cbn [gives].
  assert (k1 = 114 /\ k2 = -114 /\ k3 = 0) as (-> & -> & ->).
  { vm_compute in E1; injection E1 as <- <-; vm_compute in E2; injection E2 as <- <-;
    vm_compute in E3; injection E3 as <- <-. done. }
  split; [lia|]. split; [lia|]. exists d1. split; [exact E1|]. split; [lia|]. split; [lia|].
  exists d2. exact (conj E2 E3).
Defined.

End Demo.
