(* ===== verification/SyscallFile.v ===== *)
(** The system calls of src/src/syscall.c that reach the file system, and the one that maps
    the GPU.

    A process gives the kernel addresses of its own; the data of a read or a write go
    through a kernel buffer: [Uaccess] on one side, [MinixFile] on the other. The buffer's
    address is what kzalloc returned and is an argument; that it is never freed shows in
    nothing here. *)
From S2P Require Import Prelude Mem Lock Util Page Mmu Uaccess Input RBTree DList Process Sched Syscall.
From S2P Require Import Disk Minix MinixCache MinixFile MinixSpec MinixWrite.

(** The C string in an array of [n] bytes; one that does not end in it is read past it. *)
Fixpoint ld_string (n : nat) (m : mem) (a : Z) : res (list Z) :=
  match n with
  | O => Ub
  | S n' => let* b := ld8 m a in
            if b =? 0 then Ok [] else let* l := ld_string n' m (a + 1) in Ok (b :: l)
  end.

(** ** Stores in a page of the kernel that is no page table *)

Section pages.
Context {St : Type} `{!PageAllocator St} `{!PageAllocatorLaws St}.

(** The [n] bytes at [a] are in a page of the kernel's own. *)
Definition kernel_buffer (s : St) (L : gmap Z nat) (a n : Z) : Prop :=
  exists p, pa_owned s p /\ L !! p = None /\ p <= a /\ a + n <= p + 4096.

Lemma kernel_buffer_ok s root L a n : tree_ok s root L -> kernel_buffer s L a n ->
  0 < a /\ a + n <= 2 ^ 56 /\ mapped (pa_mem s) a n /\
  forall t l, L !! t = Some l -> a + n <= t \/ t + 4096 <= a.
Proof.
  intros Ht (p & Hp & Hn & H1 & H2). pose proof (tr_inv _ _ _ Ht) as Hi.
  destruct (pa_owned_page s p Hi Hp) as (Hp0 & Hpm & Hpb & Hm).
  split; [lia|]. split; [lia|]. split; [by eapply mapped_mono|].
  intros t l Hl. destruct (tr_page _ _ _ _ _ Ht Hl) as (_ & Htm & _ & _).
  assert (t <> p) by congruence. dlia.
Qed.

Lemma tree_ok_store s root L a n m : tree_ok s root L -> kernel_buffer s L a n ->
  stored (pa_mem s) m a n ->
  tree_ok (pa_set s m) root L /\ pa_mem (pa_set s m) = m /\ kernel_buffer (pa_set s m) L a n /\
  tables_kept s L m.
Proof.
  intros Ht Hb Hst. destruct (kernel_buffer_ok _ _ _ _ _ Ht Hb) as (_ & _ & _ & Hap).
  destruct Hb as (p & Hp & Hn & H1 & H2).
  destruct (pa_write_law s p m a n (tr_inv _ _ _ Ht) Hp Hst H1 H2) as (Hi & Em & Ho & _).
  assert (tables_kept s L m) as Hk.
  { intros t l b Hl Hb. apply (stored_out _ _ _ _ Hst). destruct (Hap t l Hl); lia. }
  assert (forall t l i, L !! t = Some l -> 0 <= i < 512 ->
    ld_entry (pa_mem (pa_set s m)) t i = ld_entry (pa_mem s) t i) as He.
  { intros t l i Hl Hi'. rewrite Em. apply ld_le_ext. intros b Hb. apply (Hk t l b Hl). lia. }
  split; [|split; [done|split; [exists p; auto|done]]]. split.
  - done.
  - apply Ht.
  - intros t l Hl. by eapply Ho, tr_owned.
  - intros t l i e Hl Hi' E. rewrite (He t l i Hl Hi') in E. by eapply tr_child.
  - intros t1 t2 l1 l2 i1 i2 e1 e2 Hl1 Hl2 Hi1 Hi2 E1 E2.
    rewrite (He _ _ _ Hl1 Hi1) in E1. rewrite (He _ _ _ Hl2 Hi2) in E2. by eapply tr_inj.
Qed.

End pages.

Section calls.
Context {D : Type} `{!Disk D}.
Context (heap_start heap_end : Z).
#[local] Instance the_allocator : PageAllocator page_state := page_allocator heap_start heap_end.

Record OS := mkOS { sys : Sys; files : FileSystem D }.

(** What a call finds: as in [Syscall], and the address of its buffer, what [open] finds in
    memory, and the GPU device: where it is, where its frame buffer is, and its size. *)
Record FileContext := mkFileContext {
  ctx : Context_; kbuf : Z; env : open_env;
  g_gdev : Z; framebuffer : Z; gwidth : Z; gheight : Z
}.

Definition file_handler : Type := FileContext -> Z -> OS -> list Z -> res (OS * list Z).

Definition A1 : nat := 11.
Definition A2 : nat := 12.

Definition set_pages (s : OS) (p : page_state) : OS :=
  mkOS (set_kern (sys s) (set_pa (kern (sys s)) p)) (files s).

Definition set_memory (s : OS) (m : mem) : OS := set_pages s (pa_set (pa (kern (sys s))) m).

Definition memory (s : OS) : mem := pa_mem (pa (kern (sys s))).

(** [get_proc_on_hart(hart)->ptable] *)
Definition caller_table (s : OS) (hart : Z) : res Z :=
  let* p := get_proc_on_hart (kern (sys s)) (u32 hart) in
  let* pr := proc (kern (sys s)) p in Ok (ptable pr).

(** [char buf[60]] is on the kernel stack. *)
Definition syscall_open : file_handler := fun c hart s scratch =>
  let buf := stack (ctx c) in
  let* tab := caller_table s hart in
  let* (_, m) := copy_from (memory s) buf tab (u64 (XREG scratch A0)) 60 in
  let* file_path := ld_string 60 m buf in
  let* (fd, f) := open (files s) file_path (s32 (XREG scratch A1)) (u32 (XREG scratch A2)) (env c) in
  Ok (mkOS (sys (set_memory s m)) f, set_xreg scratch A0 fd).

Definition syscall_close : file_handler := fun c hart s scratch =>
  let* (r, f) := close (files s) (s32 (XREG scratch A0)) in
  Ok (mkOS (sys s) f, set_xreg scratch A0 r).

(** The result is that of [copy_to], not that of [read]. *)
Definition syscall_read : file_handler := fun c hart s scratch =>
  let fd := s32 (XREG scratch A0) in
  let count := u64 (XREG scratch A2) in
  let* p := get_proc_on_hart (kern (sys s)) (u32 hart) in
  let buf := kbuf c in
  let* m := kzalloc (memory s) buf count in
  let* (_, bytes, f) := read (S (Z.to_nat count)) (files s) fd count in
  let* m := st_list m buf bytes in
  let* pr := proc (kern (sys s)) p in
  let* (n, m) := copy_to m (u64 (XREG scratch A1)) (ptable pr) buf count in
  Ok (mkOS (sys (set_memory s m)) f, set_xreg scratch A0 n).

Definition syscall_write : file_handler := fun c hart s scratch =>
  let fd := s32 (XREG scratch A0) in
  let count := u64 (XREG scratch A2) in
  let* p := get_proc_on_hart (kern (sys s)) (u32 hart) in
  let buf := kbuf c in
  let* m := kzalloc (memory s) buf count in
  let* pr := proc (kern (sys s)) p in
  let* (_, m) := copy_from m buf (ptable pr) (u64 (XREG scratch A1)) count in
  let* data := (if buf =? 0 then Ok None
                else let* l := ld_list (Z.to_nat count) m buf in Ok (Some l)) in
  let* (r, f) := write (files s) fd data in
  Ok (mkOS (sys (set_memory s m)) f, set_xreg scratch A0 r).

(** The device structure is mapped for the user to read, the frame buffer to write. *)
Definition syscall_get_gpu : file_handler := fun c hart s scratch =>
  let k := kern (sys s) in
  let* tab := caller_table s hart in
  let* phys := mmu_translate (memory s) (kernel_mmu_table k) (g_gdev c) in
  let* (_, p) := mmu_map (pa k) tab (g_gdev c) phys MMU_LEVEL_4K (Z.lor PB_USER PB_READ) in
  let s := set_pages s p in
  let vaddr := framebuffer c in
  let* phys := mmu_translate (memory s) (kernel_mmu_table k) vaddr in
  let* (_, p) := mmu_map_range (pa (kern (sys s))) tab vaddr
                   (u64 (vaddr + u32 (gwidth c * gheight c) * 4)) phys MMU_LEVEL_4K
                   (Z.lor (Z.lor PB_USER PB_READ) PB_WRITE) in
  Ok (set_pages s p, set_xreg scratch A0 (g_gdev c)).

(** A call of [Syscall] does not touch the files. *)
Definition lift (h : handler) : file_handler := fun c hart s scratch =>
  let* (s', scratch) := h (ctx c) hart (sys s) scratch in Ok (mkOS s' (files s), scratch).

(** ** Data between a process and a file *)

Context `{!DiskLaws D} `{!PageAllocatorLaws page_state}.

(** The process of a call on [hart], whose page table is at [tab], and its kernel buffer of
    [count] bytes. *)
Record caller (s : OS) (hart buf count p : Z) (pr : Process) (L : gmap Z nat) : Prop :=
  mkCaller {
  ca_proc : get_proc_on_hart (kern (sys s)) (u32 hart) = Ok p;
  ca_record : proc (kern (sys s)) p = Ok pr;
  ca_tree : tree_ok (pa (kern (sys s))) (ptable pr) L;
  ca_buffer : kernel_buffer (pa (kern (sys s))) L buf count
}.

(** The process reads [l] at its address [from]. *)
Definition user_reads (m : mem) (tab from : Z) (l : list Z) : Prop :=
  forall i, 0 <= i < Z.of_nat (length l) -> exists q, user_pa m tab 0x12 (from + i) = Some q /\
    m !! q = l !! Z.to_nat i.

(** No byte the process reaches with [perms] in the [n] at [from] is in the buffer. *)
Definition user_apart (m : mem) (tab perms from n buf : Z) : Prop :=
  forall i q, 0 <= i < n -> user_pa m tab perms (from + i) = Some q ->
    is_Some (m !! q) /\ ~ (buf <= q < buf + n).

(** What kzalloc and copy_from leave in the kernel buffer. *)
Lemma fetch_ok s hart buf p pr L from data :
  let n := Z.of_nat (length data) in
  caller s hart buf n p pr L -> 0 <= from -> from + n < 2 ^ 64 ->
  user_reads (memory s) (ptable pr) from data ->
  user_apart (memory s) (ptable pr) 0x12 from n buf ->
  exists m m', kzalloc (memory s) buf n = Ok m /\
    copy_from m buf (ptable pr) from n = Ok (n, m') /\ stored (memory s) m' buf n /\
    ld_list (length data) m' buf = Ok data.
Proof.
  intros n [_ _ Ht Hb] Hf Hfn Hrd Hap.
  destruct (kernel_buffer_ok _ _ _ _ _ Ht Hb) as (Hb0 & Hbn & Hbm & Hbt).
  assert (0 <= n < 2 ^ 31) as Hn.
  { split; [unfold n; lia|]. destruct Hb as (q & _ & _ & ? & ?). lia. }
  destruct (kzalloc_ok (memory s) buf n ltac:(lia) Hn Hbm) as (m & Ez & Sz & _).
  destruct (tree_ok_store _ _ _ _ _ _ Ht Hb Sz) as (Ht1 & Em1 & Hb1 & Hk1).
  assert (forall v, user_pa m (ptable pr) 0x12 v = user_pa (memory s) (ptable pr) 0x12 v) as Eu
    by (intros v; apply (user_pa_kept _ _ _ Ht _ _ _ Hk1)).
  destruct (copy_from_ok (pa_set (pa (kern (sys s))) m) buf (ptable pr) L from n Ht1)
    as (k & m' & E & Hk & Hend & S & Hin); try lia.
  { rewrite Em1. eapply stored_mapped; [exact Sz | exact Hbm]. }
  { intros t l Hl. by apply (Hbt t l). }
  { intros i q Hi Eq. rewrite Em1 in *. rewrite Eu in Eq. destruct (Hap i q Hi Eq) as [Hs Hout].
    split; [|done]. by rewrite (stored_out _ _ _ _ Sz). }
  rewrite Em1 in *. assert (k = n) as ->.
  { destruct Hend as [->|Hno]; [done|]. rewrite Eu in Hno.
    destruct (decide (k = n)); [done|]. destruct (Hrd k ltac:(lia)) as (q & Eq & _). congruence. }
  exists m, m'. split; [done|]. split; [done|].
  split; [by eapply stored_trans|]. apply ld_list_ok; [done|]. intros i Hi.
  destruct (Hin i Hi) as (q & Eq & ->). rewrite Eu in Eq.
  destruct (Hrd i Hi) as (q' & Eq' & Hq'). assert (q' = q) as -> by congruence.
  rewrite (stored_out _ _ _ _ Sz); [done|]. by apply (Hap i q Hi).
Qed.

(** The write system call stores in the file the bytes the process has at its address:
    where those are readable by the process, not in the kernel's buffer, and there is room
    in the file, the file gets exactly these bytes at the descriptor's offset, the call
    returns their number, and memory changes only in the buffer. *)
Theorem syscall_write_correct c hart s scratch p pr L data e ce off :
  let n := Z.of_nat (length data) in
  let fd := s32 (XREG scratch A0) in
  let from := u64 (XREG scratch A1) in
  u64 (XREG scratch A2) = n -> from + n < 2 ^ 64 -> data <> [] -> Forall byte_ok data ->
  caller s hart (kbuf c) n p pr L ->
  user_reads (memory s) (ptable pr) from data ->
  user_apart (memory s) (ptable pr) 0x12 from n (kbuf c) ->
  writable (files s) fd e ce off ->
  off + n < room (files s) (cached_inode ce) -> room (files s) (cached_inode ce) < 2 ^ 32 ->
  off mod 1024 + n <> 1024 ->
  exists m f' e' ce', syscall_write c hart s scratch =
      Ok (mkOS (sys (set_memory s m)) f', set_xreg scratch A0 n) /\
    stored (memory s) m (kbuf c) n /\ writable f' fd e' ce' (off + n) /\
    data_written (files s) f' ce ce' off data.
Proof.
  intros n fd from En Hfrom Hne Hd Hc Hrd Hap Hw Hroom Hbig Hmod.
  destruct (fetch_ok s hart (kbuf c) p pr L from data Hc) as (m & m' & Ez & Ecp & S & El); try done.
  { apply u64_range. }
  fold n in Ez, Ecp.
  destruct (write_ok (files s) fd e ce off data Hw Hd Hne Hroom Hbig Hmod) as (d & e' & E & H1 & H2 & _).
  destruct (kernel_buffer_ok _ _ _ _ _ (ca_tree _ _ _ _ _ _ _ Hc) (ca_buffer _ _ _ _ _ _ _ Hc)) as (Hb0 & _).
  do 4 eexists. split; [|split; [exact S|split; [exact H1|exact H2]]].
  unfold syscall_write. rewrite En. fold fd from.
  rewrite (ca_proc _ _ _ _ _ _ _ Hc). cbn [res_bind]. rewrite Ez. cbn [res_bind].
  rewrite (ca_record _ _ _ _ _ _ _ Hc). cbn [res_bind]. rewrite Ecp. cbn [res_bind].
  rewrite (proj2 (Z.eqb_neq _ _)) by lia. replace (Z.to_nat n) with (length data) by (unfold n; lia).
  rewrite El. cbn [res_bind]. rewrite E. done.
Qed.

(** The process can write the [n] bytes at its address [to]: they are in memory, different
    addresses are different bytes, and none is in the kernel's buffer or a page table. *)
Record user_writes (m : mem) (tab to n buf : Z) (L : gmap Z nat) : Prop := mkUserWrites {
  uw_pa : forall i, 0 <= i < n -> is_Some (user_pa m tab 0x14 (to + i));
  uw_apart : user_apart m tab 0x14 to n buf;
  uw_tables : forall i q t l, 0 <= i < n -> user_pa m tab 0x14 (to + i) = Some q ->
    L !! t = Some l -> ~ (t <= q < t + 4096);
  uw_inj : forall i j q, 0 <= i < n -> 0 <= j < n -> user_pa m tab 0x14 (to + i) = Some q ->
    user_pa m tab 0x14 (to + j) = Some q -> i = j
}.

(** What kzalloc, the bytes [l] of the file and copy_to do to memory. *)
Lemma deliver_ok s hart buf p pr L to n l :
  caller s hart buf n p pr L -> 0 <= to -> to + n < 2 ^ 64 -> 0 <= n ->
  Forall byte_ok l -> Z.of_nat (length l) <= n ->
  user_writes (memory s) (ptable pr) to n buf L ->
  exists m1 m2 m, kzalloc (memory s) buf n = Ok m1 /\ st_list m1 buf l = Ok m2 /\
    copy_to m2 to (ptable pr) buf n = Ok (n, m) /\
    forall i q, 0 <= i < n -> user_pa (memory s) (ptable pr) 0x14 (to + i) = Some q ->
      m !! q = Some (default 0 (l !! Z.to_nat i)).
Proof.
  intros [_ _ Ht Hb] Hto Hn64 Hn0 Hl Hln [Hpa Hap Htb Hinj].
  destruct (kernel_buffer_ok _ _ _ _ _ Ht Hb) as (Hb0 & Hbn & Hbm & Hbt).
  assert (0 <= n < 2 ^ 31) as Hn by (destruct Hb as (q & _ & _ & ? & ?); lia).
  destruct (kzalloc_ok (memory s) buf n ltac:(lia) Hn Hbm) as (m1 & Ez & Sz & Hz).
  destruct (st_list_ok l m1 buf Hl) as (m2 & Es & Ss & Hs).
  { eapply stored_mapped; [exact Sz|]. eapply mapped_mono; [exact Hbm | lia | lia]. }
  assert (stored (memory s) m2 buf n) as S2
    by (eapply stored_trans; [exact Sz | eapply stored_mono; [exact Ss | lia | lia]]).
  destruct (tree_ok_store _ _ _ _ _ _ Ht Hb S2) as (Ht2 & Em2 & _ & Hk2).
  assert (forall v, user_pa m2 (ptable pr) 0x14 v = user_pa (memory s) (ptable pr) 0x14 v) as Eu
    by (intros v; apply (user_pa_kept _ _ _ Ht _ _ _ Hk2)).
  destruct (copy_to_ok (pa_set (pa (kern (sys s))) m2) to (ptable pr) L buf n Ht2)
    as (k & m & E & Hk & Hend & _ & Hin); try lia.
  { rewrite Em2. eapply stored_mapped; [exact S2 | exact Hbm]. }
  { intros i q Hi Eq. rewrite Em2 in *. rewrite Eu in Eq. destruct (Hap i q Hi Eq) as [Hq Hout].
    split; [by rewrite (stored_out _ _ _ _ S2)|]. split; [done|].
    intros t l' Hl'. by apply (Htb i q t l' Hi Eq). }
  { intros i j q Hi Hj Ei Ej. rewrite Em2, Eu in *. by apply (Hinj i j q). }
  rewrite Em2 in *. assert (k = n) as ->.
  { destruct Hend as [->|Hno]; [done|]. destruct (decide (k = n)); [done|].
    rewrite Eu in Hno. destruct (Hpa k ltac:(lia)) as [q Eq]. congruence. }
  exists m1, m2, m. split; [done|]. split; [done|]. split; [done|].
  intros i q Hi Eq. destruct (Hin i Hi) as (q' & Eq' & Emq). rewrite Eu, Eq in Eq'. injection Eq' as <-.
  rewrite Emq.
  destruct (decide (i < Z.of_nat (length l))) as [Hil|Hil].
  - rewrite Hs by lia. destruct (lookup_lt_is_Some_2 l (Z.to_nat i)) as [b ->]; [lia | done].
  - rewrite (stored_out _ _ _ _ Ss) by lia. rewrite Hz by lia.
    by rewrite lookup_ge_None_2 by lia.
Qed.

(** The read system call gives the process the bytes of the file at the descriptor's
    offset, zeros after them where the file ends before, and moves the descriptor by what
    was read. It returns the number asked for even so: a process cannot see the end of the
    file, nor an error of the read. *)
Theorem syscall_read_correct c hart s scratch p pr L e ce off count :
  let fd := s32 (XREG scratch A0) in
  let to := u64 (XREG scratch A1) in
  u64 (XREG scratch A2) = count -> to + count < 2 ^ 64 ->
  caller s hart (kbuf c) count p pr L ->
  user_writes (memory s) (ptable pr) to count (kbuf c) L ->
  opened (files s) fd e ce off -> file_ok (files s) (cached_inode ce) ->
  off + count < 2 ^ 64 -> off <= isize (cached_inode ce) <= room (files s) (cached_inode ce) ->
  let k := available (cached_inode ce) off count in
  off + k < room (files s) (cached_inode ce) ->
  exists m e', let f' := set_fd (files s) fd e' in
    syscall_read c hart s scratch = Ok (mkOS (sys (set_memory s m)) f', set_xreg scratch A0 count) /\
    opened f' fd e' ce (off + k) /\
    forall i q, 0 <= i < count -> user_pa (memory s) (ptable pr) 0x14 (to + i) = Some q ->
      m !! q = Some (if decide (i < k) then file_byte (files s) (cached_inode ce) (off + i) else 0).
Proof.
  intros fd to En Hto Hc Hu Ho Hf Hoff Hsz k Hroom.
  assert (0 <= count) as H0 by (rewrite <- En; apply u64_range).
  destruct (read_inside (S (Z.to_nat count)) (files s) fd e ce off count Ho Hf H0 Hoff Hsz ltac:(lia) Hroom)
    as (e' & Er & Ho'). fold k in Er, Ho'.
  assert (0 <= k <= count) as Hk.
  { pose proof (at_nonneg _ _ _ _ (proj2 Ho)). unfold k, available. lia. }
  set (l := file_bytes (files s) (cached_inode ce) off k) in *.
  assert (Z.of_nat (length l) = k) as Hl by (unfold l, file_bytes; rewrite length_fmap, length_seqZ; lia).
  destruct (deliver_ok s hart (kbuf c) p pr L to count l Hc) as (m1 & m2 & m & E1 & E2 & E3 & Hm);
    try done; try lia.
  { apply u64_range. }
  { apply Forall_forall. intros x (i & -> & _)%list_elem_of_fmap. apply content_ok. }
  exists m, e'. split; [|split; [exact Ho'|]].
  - unfold syscall_read. rewrite En. fold fd to. rewrite (ca_proc _ _ _ _ _ _ _ Hc). cbn [res_bind].
    rewrite E1. cbn [res_bind]. rewrite Er. cbn [res_bind]. rewrite E2. cbn [res_bind].
    rewrite (ca_record _ _ _ _ _ _ _ Hc). cbn [res_bind]. rewrite E3. done.
  - intros i q Hi Eq. rewrite (Hm i q Hi Eq). f_equal. case_decide.
    + unfold l, file_bytes. rewrite list_lookup_fmap, lookup_seqZ_lt by lia. cbn. f_equal. lia.
    + by rewrite lookup_ge_None_2 by lia.
Qed.

End calls.

(** ** A process that reads and writes: the heap of [Uaccess] with its first four pages
    taken, the small disk of [MinixSpec], and a process on hart 0 *)

#[local] Existing Instances demo_alloc demo_laws ramdisk_disk ramdisk_laws.

Definition os_mem : mem := <[4096 := 255]> user_mem.
Definition os_pages : page_state := mkPages os_mem MUTEX_UNLOCKED.

Definition os_process : Process := mkProcess demo_frame PS_RUNNING 0 0 0 10000 0 5000 0 1 8192 0 0.

Definition os_kernel {St} (s : St) : Kernel St :=
  let k := demo_kernel s 32 in set_procs k (<[1000 := os_process]> (procs k)).

Definition demo_os : OS (D := ramdisk) :=
  mkOS (mkSys (os_kernel os_pages) demo_device demo_device []) demo_opened.

Definition os_context : FileContext :=
  mkFileContext demo_context 12288 (mkOpenEnv (mkChunk 300 0) 0 0 [] 0 0 0) 0 0 0 0.

Lemma os_on_hart {St} (s : St) : get_proc_on_hart (os_kernel s) 0 = Ok 1000.
Proof. by vm_compute. Qed.

Lemma os_lookup a : 4096 < a < 24576 -> os_mem !! a = user_mem !! a.
Proof. intros. unfold os_mem. by rewrite lookup_insert_ne by lia. Qed.

Lemma os_bits i : 0 <= i < 5 -> bits 4096 os_mem i = if i <=? 3 then 3 else 0.
Proof.
  intros Hi. unfold bits. assert (i = 4 \/ i / 4 = 0) as [-> | E] by dlia.
  - by rewrite os_lookup, user_lookup by dlia.
  - rewrite E. replace (4096 + 0) with 4096 by lia. unfold os_mem. rewrite lookup_insert_eq.
    assert (i = 0 \/ i = 1 \/ i = 2 \/ i = 3) as [-> | [-> | [-> | ->]]] by dlia; done.
Qed.

Lemma os_mapped : mapped os_mem 4096 20480.
Proof.
  intros i Hi. unfold os_mem, user_mem. do 2 (apply lookup_insert_is_Some'; right).
  by apply demo_mapped.
Qed.

Lemma os_mem_ok : mem_ok os_mem.
Proof.
  apply mem_ok_insert; [|by vm_compute]. rewrite <- user_state_mem.
  exact (pa_inv_ok _ (proj1 user_state_inv)).
Qed.

#[local] Opaque os_mem user_mem demo_mem.

Lemma os_inv : pa_inv os_pages.
Proof.
  split; [|exact os_mapped]. change (num_pages 4096 24576) with 5.
  split; cbn [pmem page_lock os_pages]; change (num_pages 4096 24576) with 5;
    change (num_pages_bk 4096 24576) with 1.
  - split; [exact os_mem_ok|]. eapply mapped_mono; [apply os_mapped | done | done].
  - intros i Hi. rewrite os_bits by done. case_match; auto.
  - intros i Hi. rewrite os_bits by lia. by replace (i <=? 3) with true by lia.
  - intros i Hi. rewrite os_bits by done. by case_match.
  - done.
Qed.

Lemma os_owned i : 1 <= i <= 3 -> pa_owned os_pages (4096 + i * 4096).
Proof.
  intros Hi. exists i. split; [done|]. change (num_pages 4096 24576) with 5.
  change (num_pages_bk 4096 24576) with 1. split; [lia|]. cbn [pmem os_pages].
  rewrite !os_bits by lia. rewrite !(proj2 (Z.leb_le _ _)) by lia. done.
Qed.

Lemma os_leaf : one_leaf os_mem.
Proof.
  intros i Hi. rewrite <- user_entry by done. apply ld_le_ext. intros b Hb. apply os_lookup. lia.
Qed.

Lemma os_caller n : 0 <= n <= 4096 ->
  @caller ramdisk 4096 24576 _ demo_os 0 12288 n 1000 os_process {[ 8192 := 2%nat ]}.
Proof.
  intros Hn. split.
  - apply os_on_hart.
  - reflexivity.
  - apply one_leaf_tree_ok; [exact os_inv | exact (os_owned 1 ltac:(lia)) | exact os_leaf].
  - exists 12288. split; [exact (os_owned 2 ltac:(lia))|]. split; [by apply lookup_singleton_ne|]. lia.
Qed.

Definition write_regs : list Z := <[11%nat := 0x40002008]> (<[12%nat := 3]> (replicate 32 0)).
Definition read_regs : list Z := <[11%nat := 0x40004000]> (<[12%nat := 3]> (replicate 32 0)).

Lemma os_pa perms from i : Z.land 31 perms = perms -> 0 <= from -> from + i < 2 ^ 30 -> 0 <= i ->
  user_pa os_mem 8192 perms (0x40000000 + from + i) = Some (from + i).
Proof. intros. rewrite <- Z.add_assoc. apply one_leaf_pa; [exact os_leaf | done | lia]. Qed.

Lemma os_apart perms from : Z.land 31 perms = perms -> 4097 <= from <= 24573 ->
  from + 3 <= 12288 \/ 12291 <= from ->
  user_apart os_mem 8192 perms (0x40000000 + from) 3 12288.
Proof.
  intros Hp Hf Ha i q Hi Eq.
  rewrite (os_pa perms from i Hp ltac:(lia) ltac:(lia) ltac:(lia)) in Eq. injection Eq as <-. split; [|lia].
  rewrite os_lookup, user_lookup by lia. eauto.
Qed.

(** What the process reads at 8200, and where the call to read puts what it gets. *)
Lemma os_reads : user_reads os_mem 8192 (0x40000000 + 8200) [31; 0; 0].
Proof.
  intros i Hi. exists (8200 + i). cbn [length] in Hi. split; [apply os_pa; [done | lia | lia | lia]|].
  rewrite os_lookup, user_lookup by lia.
  assert (i = 0 \/ i = 1 \/ i = 2) as [-> | [-> | ->]] by lia; done.
Qed.

Lemma os_writes : user_writes os_mem 8192 (0x40000000 + 16384) 3 12288 {[ 8192 := 2%nat ]}.
Proof.
  assert (forall i, 0 <= i < 3 -> user_pa os_mem 8192 0x14 (0x40000000 + 16384 + i) = Some (16384 + i)) as Hpa
    by (intros i Hi; apply os_pa; [done | lia | lia | lia]).
  split.
  - intros i Hi. exists (16384 + i). by apply Hpa.
  - by apply (os_apart 0x14 16384); [| |lia].
  - intros i q t l Hi Eq [<- _]%lookup_singleton_Some. rewrite (Hpa i Hi) in Eq. injection Eq as <-. lia.
  - intros i j q Hi Hj Ei Ej. rewrite (Hpa i Hi) in Ei. rewrite (Hpa j Hj) in Ej.
    injection Ei as <-. injection Ej. lia.
Qed.

Lemma syscall_write_correct_witness :
  @caller ramdisk 4096 24576 _ demo_os 0 12288 3 1000 os_process {[ 8192 := 2%nat ]} /\
  exists m f' ce', syscall_write 4096 24576 os_context 0 demo_os write_regs =
      Ok (mkOS (sys (set_memory 4096 24576 demo_os m)) f', set_xreg write_regs A0 3) /\
    data_written demo_opened f' demo_entry ce' 0 [31; 0; 0].
Proof.
  split; [by apply os_caller|].
  destruct (syscall_write_correct 4096 24576 os_context 0 demo_os write_regs 1000 os_process
    {[ 8192 := 2%nat ]} [31; 0; 0] demo_descriptor demo_entry 0) as (m & f' & e' & c' & E & _ & _ & Hd).
  - reflexivity.
  - reflexivity.
  - discriminate.
  - computed.
  - by apply os_caller.
  - exact os_reads.
  - by apply (os_apart 0x12 8200); [| |lia].
  - exact demo_writable.
  - change (3 < room demo_opened demo_file). rewrite demo_room. reflexivity.
  - change (room demo_opened demo_file < 2 ^ 32). rewrite demo_room. reflexivity.
  - discriminate.
  - exists m, f', c'. split; [exact E | exact Hd].
Defined.

Lemma syscall_read_correct_witness :
  @caller ramdisk 4096 24576 _ demo_os 0 12288 3 1000 os_process {[ 8192 := 2%nat ]} /\
  exists m f', syscall_read 4096 24576 os_context 0 demo_os read_regs =
      Ok (mkOS (sys (set_memory 4096 24576 demo_os m)) f', set_xreg read_regs A0 3) /\
    m !! 16384 = Some 97.
Proof.
  split; [by apply os_caller|].
  destruct (syscall_read_correct 4096 24576 os_context 0 demo_os read_regs 1000 os_process
    {[ 8192 := 2%nat ]} demo_descriptor demo_entry 0 3) as (m & e' & E & _ & Hm).
  - reflexivity.
  - reflexivity.
  - by apply os_caller.
  - exact os_writes.
  - exact demo_at_start.
  - exact demo_file_ok.
  - reflexivity.
  - change (cached_inode demo_entry) with demo_file. change (files demo_os) with demo_opened.
    rewrite demo_room. split; discriminate.
  - change (cached_inode demo_entry) with demo_file. change (files demo_os) with demo_opened.
    rewrite demo_room. reflexivity.
  - exists m, (set_fd demo_opened 0 e'). split; [exact E|].
    rewrite (Hm 0 16384); [by vm_compute | lia|].
    change (user_pa os_mem 8192 0x14 (0x40000000 + 16384 + 0) = Some (16384 + 0)).
    apply os_pa; [done | lia | lia | lia].
Defined.
