(* ===== verification/Trap.v ===== *)
(** The supervisor trap entry, src/src/trap.c, with the table of system calls and the
    interrupt controller: the part of the kernel where the system calls of [SyscallFile],
    the scheduler, the display of [Gpu] and the dispatch of interrupts of [Devices] meet.

    The state is that of the system calls, the display, the registers of the interrupt
    controller and those of the devices. The memory of the display's driver is the memory of
    the kernel. What the claim register returns, where the stack of gpu_redraw is, and the
    list of the devices are arguments. *)
From S2P Require Import Prelude Mem Lock Util Page Mmu Uaccess Process Sched Syscall Disk SyscallFile.
From S2P Require Import Virtio FrameBuffer Transport Plic Devices.
From S2P Require Gpu.

Definition EINVAL : Z := 22.

Section trap.
Context {D : Type} `{!Disk D} {B : Type} `{!Device B} {M : Type} `{!Mmio M}.
Context (heap_start heap_end : Z) (phys : Z -> Z).
#[local] Instance pages : PageAllocator page_state := page_allocator heap_start heap_end.

Record World := mkWorld {
  os : OS (D := D);
  gdev : Gpu.GpuDevice B;
  controller : plic;
  registers : M
}.

Definition with_os (s : OS) (w : World) : World := mkWorld s (gdev w) (controller w) (registers w).

(** The display with the kernel's memory, and the memory it leaves. *)
Definition display_of (w : World) : Gpu.GpuDevice B :=
  Gpu.with_mem (gdev w) (memory heap_start heap_end (os w)).

Definition with_display (g : Gpu.GpuDevice B) (w : World) : World :=
  mkWorld (set_memory heap_start heap_end (os w) (Gpu.gmem g)) g (controller w) (registers w).

Record TrapContext := mkTrapContext {
  files_ctx : FileContext; redraw_at : Gpu.redraw_frame; claimed : Z; sources : list irq_source
}.

Definition world_handler : Type := TrapContext -> Z -> World -> list Z -> res (World * list Z).

(** The calls that do not reach the display. *)
Definition on_os (h : file_handler (D := D)) : world_handler := fun c hart w scratch =>
  let* (s, scratch) := h (files_ctx c) hart (os w) scratch in Ok (with_os s w, scratch).

(** The device is at the address the process gives: at any other than that of the one
    device the kernel reads what is no device. The result of the call is dropped. *)
Definition syscall_gpu_redraw : world_handler := fun c hart w scratch =>
  if u64 (XREG scratch A0) =? g_gdev (files_ctx c) then
    let g := display_of w in
    let* (_, g) := Gpu.gpu_redraw phys (redraw_at c) (Gpu.full g) g in
    Ok (with_display g w, scratch)
  else Ub.

Definition SYSCALLS : list world_handler :=
  (on_os <$>
    [lift (syscall_exit heap_start heap_end); lift syscall_putchar; lift syscall_getchar;
     lift (syscall_yield heap_start heap_end); lift (syscall_sleep heap_start heap_end);
     lift syscall_get_keyboard; lift (syscall_get_cursor heap_start heap_end);
     syscall_get_gpu heap_start heap_end;
     lift (syscall_malloc heap_start heap_end); lift (syscall_free heap_start heap_end);
     lift syscall_fstat; syscall_open heap_start heap_end; syscall_close;
     syscall_read heap_start heap_end; syscall_write heap_start heap_end]) ++ [syscall_gpu_redraw].

Definition with_sepc (c : TrapContext) (epc : Z) : TrapContext :=
  let f := files_ctx c in let m := mc (ctx f) in
  mkTrapContext
    (mkFileContext (mkContext (mkMachine (now m) (whoami m) (u64 (epc + 4)) (started m)) (inchar (ctx f))
                      (width (ctx f)) (height (ctx f)) (stack (ctx f)))
       (kbuf f) (env f) (g_gdev f) (framebuffer f) (gwidth f) (gheight f))
    (redraw_at c) (claimed c) (sources c).

(** No entry of the table is null. A number that indexes before it is out of bounds. *)
Definition syscall_handle (c : TrapContext) (hart epc : Z) (w : World) (scratch : list Z) :
    res (World * list Z) :=
  let n := XREG scratch A7 in
  if n >=? Z.of_nat (length SYSCALLS) then Ok (w, set_xreg scratch A0 (- EINVAL))
  else if n <? 0 then Ub
  else let* f := deref (A := world_handler) (SYSCALLS !! Z.to_nat n) in f (with_sepc c epc) hart w scratch.

(** ** c_trap_handler *)

Definition SCAUSE_IS_ASYNC (x : Z) : bool := negb (Z.land (Z.shiftr x 63) 1 =? 0).
Definition SCAUSE_NUM (x : Z) : Z := Z.land x 0xff.
Definition CAUSE_STIP : Z := 5.
Definition CAUSE_SEIP : Z := 9.
Definition CAUSE_ECALL_U_MODE : Z := 8.

(** [None] is the hart parked in [WFI_LOOP]. The timer is acknowledged by the monitor. *)
Definition c_trap_handler (c : TrapContext) (cause epc : Z) (w : World) (scratch : list Z) :
    res (option (World * list Z)) :=
  let m := mc (ctx (files_ctx c)) in
  let hart := whoami m in
  if SCAUSE_IS_ASYNC cause then
    let cause := SCAUSE_NUM cause in
    if cause =? CAUSE_STIP then
      let* k := sched_invoke m (kern (sys (os w))) (u32 hart) in
      Ok (Some (with_os (mkOS (set_kern (sys (os w)) k) (files (os w))) w, scratch))
    else if cause =? CAUSE_SEIP then
      let '(p, r) := plic_handle_irq hart (claimed c) (sources c) (controller w, registers w) in
      Ok (Some (mkWorld (os w) (gdev w) p r, scratch))
    else Ok (Some (w, scratch))
  else if cause =? CAUSE_ECALL_U_MODE then
    let* r := syscall_handle c hart epc w scratch in Ok (Some r)
  else Ok None.

(** ** Dispatch *)

Context `{!DeviceLaws B} `{!Gpu.GpuLaws B} `{!IsrLaws (M := M)}.


Lemma redraw_call c hart w scratch : u64 (XREG scratch A0) = g_gdev (files_ctx c) ->
  Gpu.ready (display_of w) -> Gpu.redraw_ok phys (memory heap_start heap_end (os w)) (redraw_at c) ->
  let r := Gpu.run (Gpu.hw (gdev w)) (Gpu.redraw_script (Gpu.full (gdev w)) (Gpu.width (gdev w)) (Gpu.height (gdev w))) in
  exists g, syscall_gpu_redraw c hart w scratch = Ok (with_display g w, scratch) /\
    Gpu.hw g = snd r /\ Gpu.ready g /\ Gpu.same_device (display_of w) g.
Proof.
  intros Ha Hr Hl r. unfold syscall_gpu_redraw. rewrite Ha, Z.eqb_refl.
  destruct (Gpu.gpu_redraw_ok phys (redraw_at c) (Gpu.full (display_of w)) (display_of w) Hr Hl)
    as (g & E & Eh & Hr' & Hs).
  cbv zeta. rewrite E. cbn [res_bind]. exists g. by split.
Qed.

Lemma os_entry n : 0 <= n < 15 -> exists h, SYSCALLS !! Z.to_nat n = Some (on_os h).
Proof.
  intros Hn. unfold SYSCALLS. rewrite lookup_app_l by (cbn; lia). rewrite list_lookup_fmap.
  match goal with |- context [?l !! Z.to_nat n] => destruct (lookup_lt_is_Some_2 l (Z.to_nat n)) as [h ->] end.
  - cbn [length]. lia.
  - by exists h.
Qed.

Lemma on_os_keeps h c hart w scratch w' scratch' :
  on_os h c hart w scratch = Ok (w', scratch') -> exists s, w' = with_os s w.
Proof.
  unfold on_os. destruct (h _ _ _ _) as [[s r]| | |]; cbn [res_bind]; [|done..].
  intros [= <- <-]. by exists s.
Qed.

(** (C27) The trap handler does what the cause says and nothing else. An external interrupt
    acknowledges the devices on the line that was claimed and completes it; processes,
    files, memory and the registers of the interrupted process stay. Any other interrupt but the
    timer's changes nothing. An exception that is no system call parks the hart. A
    system call past the table returns -EINVAL. The fifteen calls before gpu_redraw leave
    the display, the interrupt controller and the devices alone. gpu_redraw, given the address of
    the device, transfers the whole frame buffer and flushes it: the display gets exactly
    these two commands, the process keeps its registers. *)
Theorem c_trap_handler_correct c cause epc w scratch :
  let hart := whoami (mc (ctx (files_ctx c))) in
  let n := XREG scratch A7 in
  let trap := c_trap_handler c cause epc w scratch in
  (SCAUSE_IS_ASYNC cause = true ->
    (SCAUSE_NUM cause = CAUSE_SEIP -> 0 <= claimed c < 2 ^ 32 -> exists p r,
      trap = Ok (Some (mkWorld (os w) (gdev w) p r, scratch)) /\
      (forall a, pending r a =
         negb (bool_decide (32 <= claimed c <= 35) && acknowledged (claimed c) (sources c) a) &&
         pending (registers w) a) /\
      rd p (PLIC_CLAIM hart PLIC_MODE_SUPERVISOR) = claimed c /\
      forall a, a <> PLIC_CLAIM hart PLIC_MODE_SUPERVISOR -> rd p a = rd (controller w) a) /\
    (SCAUSE_NUM cause <> CAUSE_SEIP -> SCAUSE_NUM cause <> CAUSE_STIP -> trap = Ok (Some (w, scratch)))) /\
  (SCAUSE_IS_ASYNC cause = false ->
    (cause <> CAUSE_ECALL_U_MODE -> trap = Ok None) /\
    (cause = CAUSE_ECALL_U_MODE ->
      (16 <= n -> trap = Ok (Some (w, set_xreg scratch A0 (-22)))) /\
      (0 <= n < 15 -> forall w' scratch', trap = Ok (Some (w', scratch')) -> exists s, w' = with_os s w) /\
      (n = 15 -> u64 (XREG scratch A0) = g_gdev (files_ctx c) -> Gpu.ready (display_of w) ->
       Gpu.redraw_ok phys (memory heap_start heap_end (os w)) (redraw_at c) ->
       exists g, trap = Ok (Some (with_display g w, scratch)) /\
         Gpu.hw g = snd (Gpu.run (Gpu.hw (gdev w))
           (Gpu.redraw_script (Gpu.full (gdev w)) (Gpu.width (gdev w)) (Gpu.height (gdev w)))) /\
         Gpu.ready g /\ Gpu.same_device (display_of w) g))).
Proof.
  intros hart n trap. unfold trap, c_trap_handler. fold hart.
  split; intros ->.
  - split; intros E.
    + intros Hc. rewrite E. change (CAUSE_SEIP =? CAUSE_STIP) with false. rewrite Z.eqb_refl.
      destruct (plic_handle_irq_correct hart (claimed c) (sources c) (controller w) (registers w) Hc)
        as (p & r & Ep & HH). rewrite Ep. by exists p, r.
    + intros E'. by rewrite !(proj2 (Z.eqb_neq _ _)).
  - split; intros E.
    + by rewrite (proj2 (Z.eqb_neq _ _)).
    + rewrite E, Z.eqb_refl. unfold syscall_handle. cbv zeta. change (Z.of_nat (length SYSCALLS)) with 16. fold n.
      split_and!; intros Hn.
      * by replace (n >=? 16) with true by lia.
      * intros w' scratch'. replace (n >=? 16) with false by lia.
        replace (n <? 0) with false by lia. destruct (os_entry n Hn) as [h Hh]. rewrite Hh. cbn [deref res_bind].
        destruct (on_os h _ _ _ _) as [[w1 s1]| | |] eqn:E1; cbn [res_bind]; [|done..].
        intros [= <- <-]. by eapply on_os_keeps.
      * intros Ha Hr Hl. rewrite Hn. change (15 >=? 16) with false. change (15 <? 0) with false.
        change (SYSCALLS !! Z.to_nat 15) with (Some syscall_gpu_redraw). cbn [deref res_bind].
        destruct (redraw_call (with_sepc c epc) hart w scratch Ha Hr Hl) as (g & -> & HH). by exists g.
Qed.

End trap.

Module Demo.

(** The kernel of [SyscallFile] with the display of [Gpu] and one pending disk. *)
Definition registers0 : gset Z := {[0x1000; 0x2000]}.
Definition display : Gpu.GpuDevice Gpu.demo_gpu :=
  Gpu.mkGpu (Gpu.viodev Gpu.demo_driver) ∅ (Gpu.hw Gpu.demo_driver) 4 2 2048.
Definition world : World (D := ramdisk) (B := Gpu.demo_gpu) (M := gset Z) :=
  mkWorld demo_os display ∅ registers0.
Definition structures : Gpu.redraw_frame := Gpu.mkRedrawFrame 20480 20544 20608.
Definition trap_context : TrapContext := mkTrapContext os_context structures 33 Devices.Demo.sources.
Definition redraw_regs : list Z := <[17%nat := 15]> (<[10%nat := g_gdev os_context]> (replicate 32 0)).

#[local] Existing Instances Devices.Demo.isr_mmio Devices.Demo.isr_laws
  Gpu.demo_gpu_device Gpu.demo_gpu_queue Gpu.demo_gpu_laws.

#[local] Opaque os_mem user_mem demo_mem.

Lemma buffer a n : 20480 <= a -> a + n <= 24576 -> buffer_ok (fun p => p) os_mem a n.
Proof. intros. split; [|done]. eapply mapped_mono; [apply os_mapped | lia | lia]. Qed.

Lemma structures_ok : Gpu.redraw_ok (fun p => p) os_mem structures.
Proof.
  split.
  - exact (buffer 20480 24 ltac:(lia) ltac:(lia)).
  - split; [exact (buffer 20544 56 ltac:(lia) ltac:(lia)) | right; cbn; lia].
  - split; [exact (buffer 20608 48 ltac:(lia) ltac:(lia)) | right; cbn; lia].
Qed.

Lemma display_ready : Gpu.ready (display_of 4096 24576 world).
Proof. split; [exact (Gpu.rd_idle _ Gpu.demo_ready) | discriminate | exact os_mem_ok]. Qed.

Lemma c_trap_handler_correct_witness :
  (exists g, c_trap_handler 4096 24576 (fun p => p) trap_context CAUSE_ECALL_U_MODE 1000 world redraw_regs =
      Ok (Some (with_display 4096 24576 g world, redraw_regs)) /\
    Gpu.seen (Gpu.hw g) = [Gpu.TransferToHost2d (mkRect 0 0 4 2) 0 1;
                           Gpu.ResourceFlush (mkRect 0 0 4 2) 1]) /\
  exists p r, c_trap_handler 4096 24576 (fun p => p) trap_context (2 ^ 63 + CAUSE_SEIP) 1000 world redraw_regs =
      Ok (Some (mkWorld demo_os display p r, redraw_regs)) /\
    pending r 0x1000 = false /\ pending r 0x2000 = true.
Proof.
  split.
  - destruct (c_trap_handler_correct 4096 24576 (fun p => p) trap_context CAUSE_ECALL_U_MODE 1000 world
      redraw_regs) as [_ Hs].
    destruct (Hs eq_refl) as [_ Hc]. destruct (Hc eq_refl) as (_ & _ & Hr).
    destruct (Hr eq_refl eq_refl display_ready structures_ok) as (g & E & Eh & _).
    exists g. split; [exact E|]. rewrite Eh. by vm_compute.
  - destruct (c_trap_handler_correct 4096 24576 (fun p => p) trap_context (2 ^ 63 + CAUSE_SEIP) 1000 world
      redraw_regs) as [Ha _].
    destruct (Ha eq_refl) as [Hx _].
    destruct (Hx eq_refl ltac:(done)) as (p & r & E & Hp & _).
    exists p, r. split; [exact E|]. rewrite !Hp. split; reflexivity.
Defined.

End Demo.
