(* ===== verification/Libc.v ===== *)
(** The C library of the user programs, its calls into the kernel: user/libc/unistd.c,
    stdio.c and event.c, down to the supervisor trap handler of [Trap] and the system calls of
    [SyscallFile].

    A call loads its number into A7 and its arguments into A0, A1 and A2, executes [ecall]
    and converts what it finds in A0 to the type it returns. A call does not come back when
    the trap handler parks the hart. user_copy/libc is a copy. *)
From S2P Require Import Prelude Mem Lock Util Page Mmu Uaccess Process Sched Syscall Disk.
From S2P Require Import Minix MinixCache MinixFile MinixSpec MinixWrite SyscallFile Virtio Transport Plic Devices Trap.
From S2P Require SbiCalls Gpu.

Inductive syscall_nos :=
  | SYS_EXIT | SYS_PUTCHAR | SYS_GETCHAR | SYS_YIELD | SYS_SLEEP | SYS_GET_KEYBOARD
  | SYS_GET_CURSOR | SYS_GET_GPU | SYS_MALLOC | SYS_FREE | SYS_FSTAT | SYS_OPEN | SYS_CLOSE
  | SYS_READ | SYS_WRITE | SYS_GPU_REDRAW | SYS_SEEK | SYS_UNLINK | SYS_CHMOD | SYS_MKDIR
  | SYS_RMDIR | SYS_CHDIR | SYS_GETCWD | SYS_MKNOD | SYS_FORK | SYS_EXEC | SYS_WAIT | SYS_KILL.

Definition number (s : syscall_nos) : Z :=
  match s with
  | SYS_EXIT => 0 | SYS_PUTCHAR => 1 | SYS_GETCHAR => 2 | SYS_YIELD => 3 | SYS_SLEEP => 4
  | SYS_GET_KEYBOARD => 5 | SYS_GET_CURSOR => 6 | SYS_GET_GPU => 7 | SYS_MALLOC => 8
  | SYS_FREE => 9 | SYS_FSTAT => 10 | SYS_OPEN => 11 | SYS_CLOSE => 12 | SYS_READ => 13
  | SYS_WRITE => 14 | SYS_GPU_REDRAW => 15 | SYS_SEEK => 16 | SYS_UNLINK => 17
  | SYS_CHMOD => 18 | SYS_MKDIR => 19 | SYS_RMDIR => 20 | SYS_CHDIR => 21 | SYS_GETCWD => 22
  | SYS_MKNOD => 23 | SYS_FORK => 24 | SYS_EXEC => 25 | SYS_WAIT => 26 | SYS_KILL => 27
  end.

Section libc.
Context {D : Type} `{!Disk D} {B : Type} `{!Device B} {M : Type} `{!Mmio M}.
Context (heap_start heap_end : Z) (phys : Z -> Z).
#[local] Instance pages : PageAllocator page_state := page_allocator heap_start heap_end.

#[local] Abbreviation World := (World (D := D) (B := B) (M := M)).
#[local] Abbreviation world_handler := (world_handler (D := D) (B := B) (M := M)).

(** What the trap finds in the machine, and the address of the [ecall]. *)
Context (c : TrapContext) (epc : Z).

(** A call of result [A]: [None] when the process does not go on. *)
Definition call (A : Type) : Type := World -> list Z -> res (option (A * World * list Z)).

(** [mv a7, n], [mv a0, ...] and so on. *)
Definition frame (n : Z) (args : list Z) (regs : list Z) : list Z :=
  SbiCalls.load_args A0 (u64 <$> args) (<[A7 := n]> regs).

Definition ecall (n : Z) (args : list Z) : call Z := fun w regs =>
  let* r := c_trap_handler heap_start heap_end phys c CAUSE_ECALL_U_MODE epc w (frame n args regs) in
  Ok ((fun '(w, regs) => (XREG regs A0, w, regs)) <$> r).

Definition returns {A : Type} (f : Z -> A) (m : call Z) : call A := fun w regs =>
  let* r := m w regs in Ok ((fun '(a, w, regs) => (f a, w, regs)) <$> r).

Definition void (m : call Z) : call unit := returns (fun _ => tt) m.

(** ** unistd.c *)

Definition exit : call unit := void (ecall (number SYS_EXIT) []).
Definition yield : call unit := void (ecall (number SYS_YIELD) []).
Definition sleep (secs : Z) : call unit := void (ecall (number SYS_SLEEP) [secs]).
Definition get_keyboard : call Z := returns Input.s8 (ecall (number SYS_GET_KEYBOARD) []).
Definition get_cursor (coord_pair : Z) : call unit := void (ecall (number SYS_GET_CURSOR) [coord_pair]).
Definition get_gpu : call Z := returns u64 (ecall (number SYS_GET_GPU) []).
Definition malloc (amt : Z) : call Z := returns u64 (ecall (number SYS_MALLOC) [amt]).
Definition free (ptr : Z) : call unit := void (ecall (number SYS_FREE) [ptr]).
Definition fstat (path stat : Z) : call Z := returns s32 (ecall (number SYS_FSTAT) [path; stat]).
Definition open (path flags mode : Z) : call Z := returns s32 (ecall (number SYS_OPEN) [path; flags; mode]).
Definition close (fd : Z) : call Z := returns s32 (ecall (number SYS_CLOSE) [fd]).
Definition read (fd buf count : Z) : call Z := returns s64 (ecall (number SYS_READ) [fd; buf; count]).
Definition write (fd buf count : Z) : call Z := returns s64 (ecall (number SYS_WRITE) [fd; buf; count]).
Definition gpu_redraw (gdev : Z) : call unit := void (ecall (number SYS_GPU_REDRAW) [gdev]).
Definition lseek (fd offset whence : Z) : call Z :=
  returns s64 (ecall (number SYS_SEEK) [fd; offset; whence]).
Definition unlink (path : Z) : call Z := returns s32 (ecall (number SYS_UNLINK) [path]).
Definition chmod (path mode : Z) : call Z := returns s32 (ecall (number SYS_CHMOD) [path; mode]).
Definition mkdir (path mode : Z) : call Z := returns s32 (ecall (number SYS_MKDIR) [path; mode]).
Definition rmdir (path : Z) : call Z := returns s32 (ecall (number SYS_RMDIR) [path]).
Definition chdir (path : Z) : call Z := returns s32 (ecall (number SYS_CHDIR) [path]).

(** The result is an [int] and is returned as a [size_t]. *)
Definition getcwd (buf bufsize : Z) : call Z :=
  returns (fun a => u64 (s32 a)) (ecall (number SYS_GETCWD) [buf; bufsize]).
Definition mknod (path mode dev : Z) : call Z := returns s32 (ecall (number SYS_MKNOD) [path; mode; dev]).
Definition fork : call Z := returns s32 (ecall (number SYS_FORK) []).
Definition exec (path argv : Z) : call Z := returns s32 (ecall (number SYS_EXEC) [path; argv]).
Definition wait (pid : Z) : call Z := returns s32 (ecall (number SYS_WAIT) [pid]).
Definition kill (pid : Z) : call Z := returns s32 (ecall (number SYS_KILL) [pid]).

(** ** stdio.c and event.c *)

Definition getchar : call Z := returns u8 (ecall 2 []).
Definition putchar (ch : Z) : call unit := void (ecall 1 [ch]).
Definition get_events (event_buffer max_events : Z) : call Z :=
  returns u32 (ecall 5 [event_buffer; max_events]).

(** ** What a call reaches *)

Definition hart : Z := whoami (mc (ctx (files_ctx c))).

(** The call of number [n] runs the handler [h] on its frame. *)
Definition reaches (n : Z) (h : world_handler) : Prop := forall args w regs,
  length regs = 32%nat -> (length args <= 7)%nat ->
  ecall n args w regs =
    (let* r := h (with_sepc c epc) hart w (frame n args regs) in
     Ok (Some (XREG (snd r) A0, fst r, snd r))).

(** The kernel has no such call: it answers -EINVAL and nothing happens. *)
Definition refused {A : Type} (a : A) (m : call A) : Prop := forall w regs, length regs = 32%nat ->
  exists regs', m w regs = Ok (Some (a, w, regs')) /\ length regs' = 32%nat /\
    forall i, (i < A0 \/ A7 < i)%nat -> regs' !! i = regs !! i.

Lemma XREG_A7 n args regs : length regs = 32%nat -> (length args <= 7)%nat -> - 2 ^ 63 <= n < 2 ^ 63 ->
  XREG (frame n args regs) A7 = n.
Proof.
  intros Hr Ha Hn. unfold XREG, frame.
  rewrite SbiCalls.load_args_after by (rewrite length_fmap; unfold A0, A7; lia).
  rewrite list_lookup_insert_eq by (rewrite Hr; unfold A7; lia). by apply s64_id.
Qed.

Lemma XREG_arg n args regs i a : length regs = 32%nat -> (length args <= 7)%nat -> args !! i = Some a ->
  XREG (frame n args regs) (A0 + i) = s64 (u64 a).
Proof.
  intros Hr Ha E. unfold XREG, frame.
  rewrite (SbiCalls.load_args_at _ _ i _ (u64 a)); [done | |].
  - rewrite length_insert, Hr, length_fmap. unfold A0. lia.
  - by rewrite list_lookup_fmap, E.
Qed.

Lemma frame_length n args regs : length (frame n args regs) = length regs.
Proof. unfold frame. by rewrite SbiCalls.length_load_args, length_insert. Qed.

Lemma frame_kept n args regs i : (length args <= 7)%nat -> (i < A0 \/ A7 < i)%nat ->
  frame n args regs !! i = regs !! i.
Proof.
  intros Ha Hi. unfold frame, A0, A7 in *. destruct Hi as [Hi|Hi].
  - by rewrite SbiCalls.load_args_before, list_lookup_insert_ne by lia.
  - by rewrite SbiCalls.load_args_after, list_lookup_insert_ne by (rewrite ?length_fmap; lia).
Qed.

Lemma ecall_handled n args w regs : length regs = 32%nat -> (length args <= 7)%nat ->
  - 2 ^ 63 <= n < 2 ^ 63 ->
  ecall n args w regs =
    (let* r := (if n >=? 16 then Ok (w, set_xreg (frame n args regs) A0 (- EINVAL))
                else if n <? 0 then Ub
                else let* f := deref (A := world_handler) (SYSCALLS heap_start heap_end phys !! Z.to_nat n) in
                     f (with_sepc c epc) hart w (frame n args regs)) in
     Ok (Some (XREG (snd r) A0, fst r, snd r))).
Proof.
  intros Hr Ha Hn. unfold ecall, c_trap_handler. change (SCAUSE_IS_ASYNC CAUSE_ECALL_U_MODE) with false.
  rewrite Z.eqb_refl. unfold syscall_handle. rewrite XREG_A7 by done. cbv zeta.
  change (Z.of_nat (length (SYSCALLS heap_start heap_end phys))) with 16. fold hart.
  destruct (n >=? 16); [done|]. destruct (n <? 0); [done|].
  destruct (deref _) as [f| | |]; cbn [res_bind]; [|done..].
  by destruct (f _ _ _ _) as [[w1 r1]| | |].
Qed.

Lemma reaches_entry n h : 0 <= n < 16 -> SYSCALLS heap_start heap_end phys !! Z.to_nat n = Some h ->
  reaches n h.
Proof.
  intros Hn E args w regs Hr Ha. rewrite ecall_handled by lia.
  replace (n >=? 16) with false by lia. replace (n <? 0) with false by lia. by rewrite E.
Qed.

Lemma refused_call {A : Type} n args (f : Z -> A) : 16 <= n < 2 ^ 63 -> (length args <= 7)%nat ->
  refused (f (-22)) (returns f (ecall n args)).
Proof.
  intros Hn Ha w regs Hr. unfold returns. rewrite ecall_handled by lia.
  replace (n >=? 16) with true by lia. cbn [res_bind fst snd].
  exists (set_xreg (frame n args regs) A0 (- EINVAL)). unfold set_xreg. split_and!.
  - replace (XREG (<[A0:=u64 (- EINVAL)]> (frame n args regs)) A0) with (-22); [done|].
    unfold XREG. by rewrite list_lookup_insert_eq by (rewrite frame_length, Hr; unfold A0; lia).
  - by rewrite length_insert, frame_length.
  - intros i Hi. rewrite list_lookup_insert_ne by (unfold A0, A7 in *; lia). by apply frame_kept.
Qed.

(** *** stdio.c and event.c in the kernel *)

Definition printed (ch : Z) (w : World) : World :=
  let s := sys (os w) in
  with_os (mkOS (mkSys (kern s) (keydev s) (tabdev s) (u8 ch :: console s)) (files (os w))) w.

Definition with_keys (dev : Input.InputDevice) (w : World) : World :=
  let s := sys (os w) in
  with_os (mkOS (mkSys (kern s) dev (tabdev s) (console s)) (files (os w))) w.

Lemma with_os_self (w : World) : with_os (os w) w = w.
Proof. by destruct w. Qed.

Lemma a0_set r v : length r = 32%nat -> - 2 ^ 63 <= v < 2 ^ 63 -> XREG (set_xreg r A0 v) A0 = v.
Proof.
  intros Hr Hv. unfold XREG, set_xreg. rewrite list_lookup_insert_eq by (rewrite Hr; unfold A0; lia).
  change (s64 (u64 v) = v). unfold s64, u64. rewrite Zplus_mod_idemp_l. rewrite Z.mod_small; lia.
Qed.

Lemma u8_s64 v : u8 (s64 (u64 v)) = u8 v.
Proof. unfold u8, s64, u64. Z.div_mod_to_equations. lia. Qed.

Lemma user_getchar_ok w regs : length regs = 32%nat -> exists regs',
  getchar w regs = Ok (Some (u8 (inchar (ctx (files_ctx c))), w, regs')).
Proof.
  intros Hr. unfold getchar, returns.
  rewrite (reaches_entry 2 (on_os (lift syscall_getchar))) by (done || (cbn; lia)).
  eexists. cbn -[frame XREG set_xreg u8]. rewrite a0_set.
  - rewrite (u8_id (u8 _)) by apply u8_range.
    replace (mkOS (sys (os w)) (files (os w))) with (os w) by (by destruct (os w)). by rewrite with_os_self.
  - by rewrite frame_length.
  - pose proof (u8_range (inchar (ctx (files_ctx c)))). lia.
Qed.

Lemma user_putchar_ok ch w regs : length regs = 32%nat -> exists regs',
  putchar ch w regs = Ok (Some (tt, printed ch w, regs')).
Proof.
  intros Hr. unfold putchar, void, returns.
  rewrite (reaches_entry 1 (on_os (lift syscall_putchar))) by (done || (cbn; lia)).
  assert (XREG (frame 1 [ch] regs) A0 = s64 (u64 ch)) as E by (apply (XREG_arg 1 [ch] regs 0); cbn; auto; lia).
  eexists. cbn -[frame XREG u8]. rewrite E. unfold printed. by rewrite u8_s64.
Qed.

Lemma user_get_events_ok w regs events max k dev : length regs = 32%nat ->
  Input.get_keyboard (keydev (sys (os w))) = Ok (k, dev) -> - 128 <= k < 128 ->
  exists regs', get_events events max w regs = Ok (Some (u32 k, with_keys dev w, regs')).
Proof.
  intros Hr E Hk. unfold get_events, returns.
  rewrite (reaches_entry 5 (on_os (lift syscall_get_keyboard))) by (done || (cbn; lia)).
  eexists. unfold on_os, lift, syscall_get_keyboard. rewrite E.
  cbn -[frame XREG set_xreg u32]. rewrite a0_set; [done | by rewrite frame_length | lia].
Qed.

(** (C13) The numbers of the library are those of the kernel: each call runs the handler of its
    name, on its arguments, and the calls the kernel does not have answer -EINVAL (getcwd,
    which has no sign, 2^64 - 22) and change nothing. getchar gets the character that
    waits, putchar sends one. But get_events has the number of get_keyboard: the number of
    events it returns is a key, and no event is stored. *)
Theorem calls_reach_handlers :
  (reaches (number SYS_EXIT) (on_os (lift (syscall_exit heap_start heap_end))) /\
   reaches (number SYS_PUTCHAR) (on_os (lift syscall_putchar)) /\
   reaches (number SYS_GETCHAR) (on_os (lift syscall_getchar)) /\
   reaches (number SYS_YIELD) (on_os (lift (syscall_yield heap_start heap_end))) /\
   reaches (number SYS_SLEEP) (on_os (lift (syscall_sleep heap_start heap_end))) /\
   reaches (number SYS_GET_KEYBOARD) (on_os (lift syscall_get_keyboard)) /\
   reaches (number SYS_GET_CURSOR) (on_os (lift (syscall_get_cursor heap_start heap_end))) /\
   reaches (number SYS_GET_GPU) (on_os (syscall_get_gpu heap_start heap_end)) /\
   reaches (number SYS_MALLOC) (on_os (lift (syscall_malloc heap_start heap_end))) /\
   reaches (number SYS_FREE) (on_os (lift (syscall_free heap_start heap_end))) /\
   reaches (number SYS_FSTAT) (on_os (lift syscall_fstat)) /\
   reaches (number SYS_OPEN) (on_os (syscall_open heap_start heap_end)) /\
   reaches (number SYS_CLOSE) (on_os syscall_close) /\
   reaches (number SYS_READ) (on_os (syscall_read heap_start heap_end)) /\
   reaches (number SYS_WRITE) (on_os (syscall_write heap_start heap_end)) /\
   reaches (number SYS_GPU_REDRAW) (syscall_gpu_redraw heap_start heap_end phys)) /\
  (forall a b d, refused (-22) (lseek a b d) /\ refused (-22) (unlink a) /\ refused (-22) (chmod a b) /\
     refused (-22) (mkdir a b) /\ refused (-22) (rmdir a) /\ refused (-22) (chdir a) /\
     refused (2 ^ 64 - 22) (getcwd a b) /\ refused (-22) (mknod a b d) /\ refused (-22) fork /\
     refused (-22) (exec a b) /\ refused (-22) (wait a) /\ refused (-22) (kill a)) /\
  (forall w regs, length regs = 32%nat ->
     (exists regs', getchar w regs = Ok (Some (u8 (inchar (ctx (files_ctx c))), w, regs'))) /\
     (forall ch, exists regs', putchar ch w regs = Ok (Some (tt, printed ch w, regs'))) /\
     forall events max k dev, Input.get_keyboard (keydev (sys (os w))) = Ok (k, dev) -> - 128 <= k < 128 ->
       exists regs', get_events events max w regs = Ok (Some (u32 k, with_keys dev w, regs'))).
Proof.
  split; [|split].
  - split_and!; apply reaches_entry; (lia || done).
  - intros a b d. split_and!.
    all: match goal with
         | |- refused _ ?m => match eval unfold lseek, unlink, chmod, mkdir, rmdir, chdir, getcwd, mknod,
             fork, exec, wait, kill in m with
           | returns ?f (ecall (number ?s) ?l) => exact (refused_call (number s) l f ltac:(cbn; lia) ltac:(cbn; lia))
           end
         end.
  - intros w regs Hr. split_and!; [by apply user_getchar_ok | by intros; apply user_putchar_ok |].
    intros. by apply user_get_events_ok.
Qed.

(** ** Reading and writing *)

Lemma s32_arg v : - 2 ^ 31 <= v < 2 ^ 31 -> s32 (s64 (u64 v)) = v.
Proof. intros. unfold s32, s64, u64. Z.div_mod_to_equations. lia. Qed.

Lemma u64_arg v : 0 <= v < 2 ^ 64 -> u64 (s64 (u64 v)) = v.
Proof. intros. unfold s64, u64. Z.div_mod_to_equations. lia. Qed.

Lemma three_args n x y z regs : length regs = 32%nat ->
  XREG (frame n [x; y; z] regs) A0 = s64 (u64 x) /\ XREG (frame n [x; y; z] regs) A1 = s64 (u64 y) /\
  XREG (frame n [x; y; z] regs) A2 = s64 (u64 z).
Proof.
  intros Hr. split_and!.
  - by apply (XREG_arg n [x; y; z] regs 0); [done | cbn; lia |].
  - by apply (XREG_arg n [x; y; z] regs 1); [done | cbn; lia |].
  - by apply (XREG_arg n [x; y; z] regs 2); [done | cbn; lia |].
Qed.

Context `{!DiskLaws D} `{!PageAllocatorLaws page_state}.

(** The state after a call that gave the memory [m] and the files [f]. *)
Definition after (w : World) (m : mem) (f : FileSystem D) : World :=
  with_os (mkOS (sys (set_memory heap_start heap_end (os w) m)) f) w.

(** (C12) A process that calls read gets the bytes of the file at the offset of the descriptor
    in its own memory, where it asked for them, with zeros after the end of the file, and
    the descriptor moves by what was read: through the registers, the trap, the table of
    system calls, the file system and the tables of the process. *)
Theorem user_read_correct w regs p pr L e ce fd to count off :
  length regs = 32%nat -> - 2 ^ 31 <= fd < 2 ^ 31 -> 0 <= to -> 0 <= count -> to + count < 2 ^ 64 ->
  caller heap_start heap_end (os w) hart (kbuf (files_ctx c)) count p pr L ->
  user_writes (memory heap_start heap_end (os w)) (ptable pr) to count (kbuf (files_ctx c)) L ->
  opened (files (os w)) fd e ce off -> file_ok (files (os w)) (cached_inode ce) ->
  off + count < 2 ^ 64 -> off <= isize (cached_inode ce) <= room (files (os w)) (cached_inode ce) ->
  let k := available (cached_inode ce) off count in
  off + k < room (files (os w)) (cached_inode ce) ->
  exists m e' regs', let f' := set_fd (files (os w)) fd e' in
    read fd to count w regs = Ok (Some (count, after w m f', regs')) /\
    opened f' fd e' ce (off + k) /\
    forall i q, 0 <= i < count ->
      user_pa (memory heap_start heap_end (os w)) (ptable pr) 0x14 (to + i) = Some q ->
      m !! q = Some (if decide (i < k) then file_byte (files (os w)) (cached_inode ce) (off + i) else 0).
Proof.
  intros Hr Hfd Hto H0 Htc Hc Hu Ho Hf Hoff Hsz k Hroom.
  assert (0 <= count < 2 ^ 31) as Hn by (destruct (ca_buffer _ _ _ _ _ _ _ _ _ Hc) as (q & _ & _ & ? & ?); lia).
  destruct (three_args (number SYS_READ) fd to count regs Hr) as (E0 & E1 & E2).
  set (scratch := frame (number SYS_READ) [fd; to; count] regs) in *.
  destruct (syscall_read_correct heap_start heap_end (files_ctx (with_sepc c epc)) hart (os w) scratch
    p pr L e ce off count) as (m & e' & E & Ho' & Hm);
    rewrite ?E0, ?E1, ?E2, ?s32_arg, ?u64_arg by lia; try done; try lia.
  rewrite E0, s32_arg in E, Ho' by done. rewrite E1, u64_arg in Hm by lia.
  exists m, e'. eexists. split; [|split; [exact Ho' | exact Hm]].
  unfold read, returns.
  rewrite (reaches_entry (number SYS_READ) (on_os (syscall_read heap_start heap_end))) by (done || (cbn; lia)).
  fold scratch. unfold on_os. rewrite E. cbn [res_bind fst snd fmap option_fmap option_map].
  rewrite a0_set; [|unfold scratch; by rewrite frame_length | lia]. by rewrite s64_id by lia.
Qed.

(** (C11) A process that calls write puts the bytes at its address into the file, at the
    offset of the descriptor, and gets their number: the descriptor moves behind them, the
    file is as long as they reach, every other byte of it is as it was, and memory changes
    only in the buffer of the kernel. *)
Theorem user_write_correct w regs p pr L data e ce fd from off :
  let n := Z.of_nat (length data) in
  length regs = 32%nat -> - 2 ^ 31 <= fd < 2 ^ 31 -> 0 <= from -> from + n < 2 ^ 64 ->
  data <> [] -> Forall byte_ok data ->
  caller heap_start heap_end (os w) hart (kbuf (files_ctx c)) n p pr L ->
  user_reads (memory heap_start heap_end (os w)) (ptable pr) from data ->
  user_apart (memory heap_start heap_end (os w)) (ptable pr) 0x12 from n (kbuf (files_ctx c)) ->
  writable (files (os w)) fd e ce off ->
  off + n < room (files (os w)) (cached_inode ce) -> room (files (os w)) (cached_inode ce) < 2 ^ 32 ->
  off mod 1024 + n <> 1024 ->
  exists m f' e' ce' regs',
    write fd from n w regs = Ok (Some (n, after w m f', regs')) /\
    stored (memory heap_start heap_end (os w)) m (kbuf (files_ctx c)) n /\
    writable f' fd e' ce' (off + n) /\ data_written (files (os w)) f' ce ce' off data.
Proof.
  intros n Hr Hfd Hfrom Hfn Hne Hd Hc Hrd Hap Hw Hroom Hbig Hmod.
  assert (0 <= n < 2 ^ 31) as Hn by (destruct (ca_buffer _ _ _ _ _ _ _ _ _ Hc) as (q & _ & _ & ? & ?); lia).
  destruct (three_args (number SYS_WRITE) fd from n regs Hr) as (E0 & E1 & E2).
  set (scratch := frame (number SYS_WRITE) [fd; from; n] regs) in *.
  destruct (syscall_write_correct heap_start heap_end (files_ctx (with_sepc c epc)) hart (os w) scratch
    p pr L data e ce off) as (m & f' & e' & ce' & E & Hs & Hw' & Hd');
    rewrite ?E0, ?E1, ?E2, ?s32_arg, ?u64_arg by lia; try done; try lia.
  rewrite E0, s32_arg in Hw' by done.
  exists m, f', e', ce'. eexists. split; [|split_and!; [exact Hs | exact Hw' | exact Hd']].
  unfold write, returns.
  rewrite (reaches_entry (number SYS_WRITE) (on_os (syscall_write heap_start heap_end))) by (done || (cbn; lia)).
  fold scratch. unfold on_os. rewrite E. cbn [res_bind fst snd fmap option_fmap option_map].
  rewrite a0_set; [|unfold scratch; by rewrite frame_length | lia]. by rewrite s64_id by lia.
Qed.

End libc.

(** ** The process of [SyscallFile] *)

Module Demo.

#[local] Existing Instances Devices.Demo.isr_mmio Gpu.demo_gpu_device demo_alloc demo_laws
  ramdisk_disk ramdisk_laws.
#[local] Opaque os_mem user_mem demo_mem.

Definition world : World (D := ramdisk) (B := Gpu.demo_gpu) (M := gset Z) :=
  mkWorld demo_os Gpu.demo_driver ∅ ∅.
Definition at_trap : TrapContext := mkTrapContext os_context (Gpu.mkRedrawFrame 20480 20544 20608) 0 [].

Lemma user_read_correct_witness : length (replicate 32 0) = 32%nat /\ exists m f' regs',
  read 4096 24576 (fun p => p) at_trap 1000 0 (0x40000000 + 16384) 3 world (replicate 32 0) =
    Ok (Some (3, after 4096 24576 world m f', regs')) /\ m !! 16384 = Some 97.
Proof.
  split; [done|].
  destruct (user_read_correct 4096 24576 (fun p => p) at_trap 1000 world (replicate 32 0) 1000 os_process
    {[ 8192 := 2%nat ]} demo_descriptor demo_entry 0 (0x40000000 + 16384) 3 0)
    as (m & e' & regs' & E & _ & Hm).
  - reflexivity.
  - done.
  - done.
  - done.
  - reflexivity.
  - by apply os_caller.
  - exact os_writes.
  - exact demo_at_start.
  - exact demo_file_ok.
  - reflexivity.
  - change (cached_inode demo_entry) with demo_file. change (files (os world)) with demo_opened.
    rewrite demo_room. split; discriminate.
  - change (cached_inode demo_entry) with demo_file. change (files (os world)) with demo_opened.
    rewrite demo_room. reflexivity.
  - eexists m, _, regs'. split; [exact E|].
    rewrite (Hm 0 16384); [by vm_compute | lia|].
    change (user_pa os_mem 8192 0x14 (0x40000000 + 16384 + 0) = Some (16384 + 0)).
    apply os_pa; [done | lia | lia | lia].
Defined.

Lemma user_write_correct_witness : length (replicate 32 0) = 32%nat /\ exists m f' ce' regs',
  write 4096 24576 (fun p => p) at_trap 1000 0 (0x40000000 + 8200) 3 world (replicate 32 0) =
    Ok (Some (3, after 4096 24576 world m f', regs')) /\
  data_written demo_opened f' demo_entry ce' 0 [31; 0; 0].
Proof.
  split; [done|].
  destruct (user_write_correct 4096 24576 (fun p => p) at_trap 1000 world (replicate 32 0) 1000 os_process
    {[ 8192 := 2%nat ]} [31; 0; 0] demo_descriptor demo_entry 0 (0x40000000 + 8200) 0)
    as (m & f' & e' & ce' & regs' & E & _ & _ & Hd).
  - reflexivity.
  - done.
  - done.
  - reflexivity.
  - discriminate.
  - computed.
  - by apply os_caller.
  - exact os_reads.
  - by apply (os_apart 0x12 8200); [| |lia].
  - exact demo_writable.
  - change (3 < room demo_opened demo_file). rewrite demo_room. reflexivity.
  - change (room demo_opened demo_file < 2 ^ 32). rewrite demo_room. reflexivity.
  - discriminate.
  - exists m, f', ce', regs'. split; [exact E | exact Hd].
Defined.

Lemma calls_reach_handlers_witness : length (replicate 32 0) = 32%nat /\ exists regs',
  putchar 4096 24576 (fun p => p) at_trap 1000 65 world (replicate 32 0) =
    Ok (Some (tt, printed 65 world, regs')) /\ console (sys (os (printed 65 world))) = [65].
Proof.
  split; [done|].
  destruct (calls_reach_handlers (D := ramdisk) (B := Gpu.demo_gpu) (M := gset Z) 4096 24576
    (fun p => p) at_trap 1000) as (_ & _ & H).
  destruct (H world (replicate 32 0) eq_refl) as (_ & Hp & _). destruct (Hp 65) as [regs' E].
  exists regs'. split; [exact E | reflexivity].
Defined.

End Demo.
