(* ===== verification/Console.v ===== *)
(** The two console programs of a process: user/console.c, on the serial line, and
    user/consolev.c, on the events of the keyboard.

    A program is a loop over what it gets: the characters getchar returns (255 when none
    waits), or the worlds in which it calls the get_events of [Libc]. It ends here when
    nothing more comes, waiting. Its output is the bytes given to putchar and printf, in
    order. The array of the command is a list of bytes, of which [at] are in use. *)
From Stdlib Require Import Ascii String.
From S2P Require Import Prelude Mem.
From S2P Require Input Page Mmu Uaccess Process Sched Syscall SyscallFile Disk Virtio Transport Trap Libc.

(** The bytes of a string literal. *)
Definition literal (s : string) : list Z := (fun a => Z.of_nat (nat_of_ascii a)) <$> list_ascii_of_string s.

Definition newline : list Z := [10].

(** [a[i] = v] *)
Definition store (a : list Z) (i v : Z) : res (list Z) :=
  if (0 <=? i) && (i <? Z.of_nat (length a)) then Ok (<[Z.to_nat i := v]> a) else Ub.

(** The string in an array: what strcmp and printf read, up to the first zero. *)
Fixpoint cstring (a : list Z) : res (list Z) :=
  match a with
  | [] => Ub
  | b :: a => if b =? 0 then Ok [] else let* s := cstring a in Ok (b :: s)
  end.

(** ** A line in its array *)

(** The first [length l] bytes of the array are the line [l]. *)
Definition holds_line (a : list Z) (at_ : Z) (l : list Z) : Prop :=
  at_ = Z.of_nat (length l) /\ take (length l) a = l.

Lemma holds_nil a : holds_line a 0 [].
Proof. done. Qed.

Lemma store_ok a i v : 0 <= i < Z.of_nat (length a) -> store a i v = Ok (<[Z.to_nat i := v]> a).
Proof. intros Hi. unfold store. by replace ((0 <=? i) && (i <? Z.of_nat (length a))) with true by lia. Qed.

(** A character behind the line. *)
Lemma holds_snoc a i l v : holds_line a i l -> i < Z.of_nat (length a) ->
  exists a', store a i v = Ok a' /\ length a' = length a /\ holds_line a' (i + 1) (l ++ [v]).
Proof.
  intros [-> Hl] Hi. rewrite store_ok by lia. eexists. split; [done|]. split; [by rewrite length_insert|].
  split; [rewrite length_app; cbn; lia|]. rewrite Nat2Z.id, length_app. cbn [length].
  rewrite Nat.add_1_r, (take_S_r _ _ v) by (apply list_lookup_insert_eq; lia).
  by rewrite take_insert_ge, Hl by lia.
Qed.

(** The last character is gone. *)
Lemma holds_erase a i l : holds_line a i l -> 0 < i ->
  holds_line a (i - 1) (removelast l).
Proof.
  intros [-> Hl] Hi. destruct l as [|x l _] using rev_ind; [cbn in Hi; lia|].
  rewrite removelast_last. rewrite length_app in *. cbn [length] in *. split; [lia|].
  apply (f_equal (take (length l))) in Hl. rewrite take_take, take_app_length in Hl.
  by replace (length l `min` (length l + 1))%nat with (length l) in Hl by lia.
Qed.

(** The bytes of a line before the first zero in it. *)
Fixpoint before_zero (l : list Z) : list Z :=
  match l with [] => [] | b :: l => if b =? 0 then [] else b :: before_zero l end.

Lemma cstring_app l r : cstring (l ++ 0 :: r) = Ok (before_zero l).
Proof.
  induction l as [|b l IH]; [done|]. cbn. destruct (b =? 0); [done|]. by rewrite IH.
Qed.

(** The line as a string, once the zero behind it is written. *)
Lemma holds_string a i l : holds_line a i l -> i < Z.of_nat (length a) ->
  exists a', store a i 0 = Ok a' /\ length a' = length a /\ cstring a' = Ok (before_zero l) /\
    a' !! O = Some (match l with [] => 0 | b :: _ => b end).
Proof.
  intros Hh Hi. destruct (holds_snoc a i l 0 Hh Hi) as (a' & E & Hlen & _ & Ht).
  exists a'. split; [done|]. split; [done|].
  rewrite <- (take_drop (length (l ++ [0])) a'), Ht, <- app_assoc. cbn [app].
  split; [apply cstring_app|]. by destruct l.
Qed.

(** ** The line editor

    What both programs do to the line with a character that is neither the end of the line
    nor an erasure, and with an erasure. *)
Definition typed (room : Z) (l : list Z) (ch : Z) : list Z :=
  if Z.of_nat (length l) <? room then l ++ [ch] else l.

Definition echoed (room : Z) (l : list Z) (ch : Z) : list Z :=
  if Z.of_nat (length l) <? room then [ch] else [].

Lemma typed_length room l ch : Z.of_nat (length l) <= room -> Z.of_nat (length (typed room l ch)) <= room.
Proof.
  intros Hl. unfold typed. destruct (Z.ltb_spec (Z.of_nat (length l)) room); [|done].
  rewrite length_app. cbn. lia.
Qed.

Lemma removelast_length {A} (l : list A) : (length (removelast l) <= length l)%nat.
Proof.
  destruct l as [|x l _] using rev_ind; [done|]. rewrite removelast_last, length_app. lia.
Qed.

Record virtio_input_event := mkEvent { type_ : Z; code : Z; value : Z }.


(** ** console.c *)

Section console.

(** What the [n]th call of get_events stores and returns, and how printf shows an event and
    a number. *)
Context (get_events : nat -> list virtio_input_event * Z).
Context (show_event : virtio_input_event -> list Z) (show_number : Z -> list Z).

(** [num] is an [int]; nothing compares it with the size of the array. *)
Definition print_events (n : nat) : res (list Z) :=
  let '(events, num) := get_events n in
  let* out := loop (S (Z.to_nat num))
    (fun '(i, out) =>
       if i <? num then let* e := deref (events !! Z.to_nat i) in Ok (Next (i + 1, out ++ show_event e))
       else Ok (Done out)) (0, []) in
  Ok (out ++ literal "Processed " ++ show_number num ++ literal " events." ++ newline).


Definition prompt : list Z := literal "~> ".





(** *** What the user sees *)




Hypothesis events_fit : forall n, snd (get_events n) <= Z.of_nat (length (fst (get_events n))).









End console.

(** The number of events is not compared with the size of the array: when get_events says
    more than fit, as it can once its number is that of another call, the command reads past
    the array. *)
Lemma gev_reads_past get_events show_event show_number n :
  Z.of_nat (length (fst (get_events n))) < snd (get_events n) ->
  print_events get_events show_event show_number n = Ub.
Proof.
  unfold print_events. destruct (get_events n) as [events num]. cbn [fst snd]. intros Hn.
  assert (forall k m i out, Z.of_nat k + i = Z.of_nat (length events) -> 0 <= i -> (k < m)%nat ->
    loop m (fun '(i, out) =>
       if i <? num then let* e := deref (events !! Z.to_nat i) in Ok (Next (i + 1, out ++ show_event e))
       else Ok (Done out)) (i, out) = Ub) as Hl.
  { induction k as [|k IH]; intros [|m] i out Hk Hi Hm; try lia; rewrite loop_S;
      replace (i <? num) with true by lia.
    - by rewrite (lookup_ge_None_2 events) by lia.
    - destruct (lookup_lt_is_Some_2 events (Z.to_nat i)) as [e E]; [lia|]. rewrite E. cbn [deref res_bind].
      apply IH; lia. }
  by rewrite (Hl (length events)) by lia.
Qed.

(** ** consolev.c *)

Definition EV_KEY : Z := 1.
Definition KEY_LEFTSHIFT : Z := 42.
Definition KEY_RIGHTSHIFT : Z := 54.

(** The characters of the key codes from 0 to KEY_SPACE; those without one are zero. *)
Definition keys : list Z :=
  [0; 0; 49; 50; 51; 52; 53; 54; 55; 56; 57; 48; 0; 0; 8; 0] ++   (* 1..9, 0, backspace *)
  literal "qwertyuiop" ++ [0; 0; 10; 0] ++ literal "asdfghjkl" ++ [0; 0; 0; 0; 0] ++
  literal "zxcvbnm" ++ [0; 0; 0; 0; 0; 0] ++ [32].

Definition num_keys : Z := Z.of_nat (length keys).
Definition num_shift_keys : list Z := literal ")!@#$%^&*(".

Definition conv_key (shift : bool) (code : Z) : res Z :=
  if code <? num_keys then
    let* ret := deref (keys !! Z.to_nat code) in
    if shift then
      if (ret >=? 97) && (ret <=? 122) then Ok (ret - 32)
      else if (ret >=? 48) && (ret <=? 57) then deref (num_shift_keys !! Z.to_nat (ret - 48))
      else Ok ret
    else Ok ret
  else Ok 0.

Definition is_shift (ev : virtio_input_event) : bool :=
  (code ev =? KEY_RIGHTSHIFT) || (code ev =? KEY_LEFTSHIFT).

(** One event; [break] leaves [i] where it is. *)
Definition scan_event (events : list virtio_input_event) (num ret : Z) (s : Z * bool) :
    res (ctl (Z * bool) (Z * bool * Z)) :=
  let '(i, shift) := s in
  if i <? num then
    let* ev := deref (events !! Z.to_nat i) in
    if type_ ev =? EV_KEY then
      if is_shift ev then Ok (Next (i + 1, negb (value ev =? 0)))
      else if value ev =? 1 then let* k := conv_key shift (code ev) in Ok (Done (i + 1, shift, k))
      else Ok (Next (i + 1, shift))
    else Ok (Next (i + 1, shift))
  else Ok (Done (i + 1, shift, ret)).

(** The result, the shift key and what is stored at [ret]. *)
Definition get_next_key (events : list virtio_input_event) (at_ num : Z) (shift : bool) (ret : Z) :
    res (Z * bool * Z) :=
  loop (S (Z.to_nat (num - at_))) (scan_event events num ret) (at_, shift).

Definition run_command_v (command : list Z) : res (list Z) :=
  let* s := cstring command in
  if decide (s = literal "help") then Ok (literal "Help is coming!" ++ newline)
  else
    let* b := deref (command !! 0%nat) in
    if negb (b =? 0) then Ok (literal "Unknown command '" ++ s ++ literal "'." ++ newline) else Ok [].

(** The array of the command, [at], and the output. *)
Definition handle_key (ch : Z) (s : list Z * Z * list Z) : res (list Z * Z * list Z) :=
  let '(command, at_, out) := s in
  if negb (ch =? 0) && negb (ch =? 255) then
    if (ch =? 13) || (ch =? 10) then
      let* command := store command at_ 0 in
      let* answer := run_command_v command in
      Ok (command, 0, out ++ newline ++ answer ++ newline ++ prompt)
    else if ch =? 8 then
      if at_ >? 0 then Ok (command, at_ - 1, out ++ [8; 32; 8]) else Ok (command, at_, out ++ [7])
    else if at_ <? 24 then
      let* command := store command at_ ch in Ok (command, at_ + 1, out ++ [ch])
    else Ok (command, at_, out)
  else Ok (command, at_, out).

Record ConsoleV := mkConsoleV {
  line : list Z * Z * list Z; shift : bool;
  events : list virtio_input_event; atev : Z; sizeev : Z
}.

Section consolev.
Context {D : Type} `{!Disk.Disk D} {B : Type} `{!Virtio.Device B} {M : Type} `{!Transport.Mmio M}.
Context (heap_start heap_end : Z) (phys : Z -> Z) (epc : Z).

#[local] Abbreviation World := (Trap.World (D := D) (B := B) (M := M)).

(** The page table of the process, and where its array of events is. *)
Context (pt event_buffer : Z).

Definition user_memory (w : World) : mem := SyscallFile.memory heap_start heap_end (Trap.os w).

(** [n] bytes at an address of the process. *)
Fixpoint ld_user (n : nat) (m : mem) (v : Z) : res Z :=
  match n with
  | O => Ok 0
  | S n => let* q := deref (Uaccess.user_pa m pt 0x12 v) in
           let* b := ld8 m q in let* r := ld_user n m (v + 1) in Ok (b + 256 * r)
  end.

Definition ld_event (m : mem) (v : Z) : res virtio_input_event :=
  let* t := ld_user 2 m v in let* c := ld_user 2 m (v + 2) in let* x := ld_user 4 m (v + 4) in
  Ok (mkEvent (u16 t) (u16 c) (u32 x)).

Fixpoint ld_events (n : nat) (m : mem) (v : Z) : res (list virtio_input_event) :=
  match n with
  | O => Ok []
  | S n => let* e := ld_event m v in let* l := ld_events n m (v + 8) in Ok (e :: l)
  end.

(** [struct virtio_input_event events[128]] *)
Definition num_events : nat := 128.
Definition sizeof_events : Z := 8 * Z.of_nat num_events.

(** A call of get_events: the context of its trap, the world and the registers. The
    process gives the hart away between two calls (sleep(10)), so the next world is
    another one. *)
Definition Wake : Type := Trap.TrapContext * World * list Z.

(** One turn of either loop: the call, after which the array is what the memory of the
    process holds, and a key. *)
Definition consolev_turn (s : ConsoleV * list Wake) : res (ctl (ConsoleV * list Wake) (list Z)) :=
  let '(v, wakes) := s in
  if atev v >=? sizeev v then
    match wakes with
    | [] => Ok (Done (snd (line v)))
    | (c, w, regs) :: wakes =>
        let* r := Libc.get_events heap_start heap_end phys c epc event_buffer sizeof_events w regs in
        match r with
        | None => Ok (Done (snd (line v)))
        | Some (num, w, _) =>
            let* events := ld_events num_events (user_memory w) event_buffer in
            Ok (Next (mkConsoleV (line v) (shift v) events 0 (s32 num), wakes))
        end
    end
  else
    let* (at_, sh, ch) := get_next_key (events v) (atev v) (sizeev v) (shift v) 0xFF in
    let* l := handle_key ch (line v) in
    Ok (Next (mkConsoleV l sh (events v) at_ (sizeev v), wakes)).

Definition consolev_main (fuel : nat) (command : list Z) (wakes : list Wake) : res (list Z) :=
  loop fuel consolev_turn (mkConsoleV (command, 0, prompt) false [] 0 0, wakes).

End consolev.

(** *** What the user sees *)

(** The character of a key, and the keys of a sequence of events. *)
Definition char_of (shift : bool) (code : Z) : Z :=
  let c := default 0 (keys !! Z.to_nat code) in
  if shift then
    if (c >=? 97) && (c <=? 122) then c - 32
    else if (c >=? 48) && (c <=? 57) then default 0 (num_shift_keys !! Z.to_nat (c - 48)) else c
  else c.

Definition shifted (ev : virtio_input_event) (shift : bool) : bool :=
  if (type_ ev =? EV_KEY) && is_shift ev then negb (value ev =? 0) else shift.

Definition is_press (ev : virtio_input_event) : bool :=
  (type_ ev =? EV_KEY) && negb (is_shift ev) && (value ev =? 1).

Fixpoint pressed (shift : bool) (evs : list virtio_input_event) : list Z :=
  match evs with
  | [] => []
  | ev :: evs =>
      (if is_press ev then [char_of shift (code ev)] else []) ++ pressed (shifted ev shift) evs
  end.

Definition reply_v (l : list Z) : list Z :=
  if decide (before_zero l = literal "help") then literal "Help is coming!" ++ newline
  else match before_zero l with
       | [] => []
       | s => literal "Unknown command '" ++ s ++ literal "'." ++ newline
       end.

(** A key typed after the line [l]. *)
Definition after_key (s : list Z * list Z) (ch : Z) : list Z * list Z :=
  let '(l, out) := s in
  if (ch =? 0) || (ch =? 255) then (l, out)
  else if (ch =? 13) || (ch =? 10) then ([], out ++ newline ++ reply_v l ++ newline ++ prompt)
  else if ch =? 8 then (removelast l, out ++ (if decide (l = []) then [7] else [8; 32; 8]))
  else (typed 24 l ch, out ++ echoed 24 l ch).

Lemma conv_key_ok sh c : 0 <= c -> conv_key sh c = Ok (char_of sh c).
Proof.
  intros Hc. unfold conv_key, char_of. destruct (Z.ltb_spec c num_keys) as [Hn|Hn].
  - assert (forallb (fun i => match conv_key sh (Z.of_nat i) with
        | Ok v => v =? char_of sh (Z.of_nat i) | _ => false end) (seq 0 (length keys)) = true) as Hall
      by (destruct sh; vm_compute; reflexivity).
    rewrite forallb_forall in Hall. specialize (Hall (Z.to_nat c)).
    rewrite Z2Nat.id in Hall by done. unfold conv_key, char_of in Hall.
    replace (c <? num_keys) with true in Hall by lia.
    assert (In (Z.to_nat c) (seq 0 (length keys))) as Hin by (apply in_seq; unfold num_keys in Hn; lia).
    specialize (Hall Hin). destruct (deref _) as [k| | |]; cbn [res_bind] in *; try done.
    destruct sh; [|by apply Z.eqb_eq in Hall as ->].
    destruct ((k >=? 97) && _); [by apply Z.eqb_eq in Hall as <-|].
    destruct ((k >=? 48) && _); [|by apply Z.eqb_eq in Hall as ->].
    destruct (deref _); [by apply Z.eqb_eq in Hall as ->|done..].
  - rewrite lookup_ge_None_2 by (unfold num_keys in Hn; lia). by destruct sh.
Qed.

Lemma run_command_v_ok a l : cstring a = Ok (before_zero l) ->
  a !! 0%nat = Some (match l with [] => 0 | b :: _ => b end) -> run_command_v a = Ok (reply_v l).
Proof.
  intros Es E0. unfold run_command_v, reply_v. rewrite Es. cbn [res_bind].
  destruct (decide (before_zero l = literal "help")); [done|]. rewrite E0. cbn [deref res_bind].
  destruct l as [|b l]; [done|]. cbn [before_zero]. by destruct (b =? 0).
Qed.

(** The array with its index holds the line, inside its 25 bytes. *)
Definition shows (s : list Z * Z * list Z) (t : list Z * list Z) : Prop :=
  let '(a, i, out) := s in
  length a = 25%nat /\ holds_line a i (fst t) /\ Z.of_nat (length (fst t)) <= 24 /\ out = snd t.

Lemma handle_key_ok ch s t : shows s t -> exists s', handle_key ch s = Ok s' /\ shows s' (after_key t ch).
Proof.
  destruct s as [[a i] out], t as [l out']. intros (Ha & Hh & Hl & ->). cbn [fst snd] in *.
  pose proof Hh as [Hi _]. unfold handle_key, after_key.
  destruct (Z.eqb_spec ch 0); [by eexists|]. destruct (Z.eqb_spec ch 255); [by eexists|]. cbn [negb andb orb].
  destruct ((ch =? 13) || (ch =? 10)).
  { destruct (holds_string a i l Hh) as (a' & -> & Ha' & Es & E0); [lia|]. cbn [res_bind].
    rewrite (run_command_v_ok a' l Es E0). eexists. split; [done|].
    split; [lia|]. split; [apply holds_nil|]. split; [cbn; lia|done]. }
  destruct (ch =? 8).
  { pose proof (removelast_length l). destruct (Z.gtb_spec i 0).
    - eexists. split; [done|]. rewrite decide_False by (intros ->; cbn in Hi; lia).
      split; [done|]. split; [by apply holds_erase|]. split; [cbn; lia|done].
    - destruct l as [|b l]; [|cbn in Hi; lia]. eexists. by split. }
  unfold echoed. pose proof (typed_length 24 l ch Hl) as Hl'.
  unfold typed in *. rewrite <- Hi in *. destruct (Z.ltb_spec i 24).
  - destruct (holds_snoc a i l ch Hh) as (a' & -> & Ha' & Hh'); [lia|]. eexists. split; [done|].
    split; [lia|]. by split.
  - eexists. split; [done|]. rewrite app_nil_r. by split.
Qed.

(** The first key of some events, the shift key then, and the events after it. *)
Fixpoint first_key (shift : bool) (ret : Z) (evs : list virtio_input_event) :
    Z * bool * list virtio_input_event :=
  match evs with
  | [] => (ret, shift, [])
  | ev :: evs =>
      if is_press ev then (char_of shift (code ev), shift, evs) else first_key (shifted ev shift) ret evs
  end.

Definition code_ok (ev : virtio_input_event) : Prop := 0 <= code ev.

Lemma get_next_key_loop evs array num ret : num <= Z.of_nat (length array) ->
  evs = take (Z.to_nat num) array -> Forall code_ok evs ->
  forall k i shift, (Z.to_nat (num - i) < k)%nat -> 0 <= i ->
  let '(c, shift', rest) := first_key shift ret (drop (Z.to_nat i) evs) in
  exists at_, loop k (scan_event array num ret) (i, shift) = Ok (at_, shift', c) /\
    i < at_ /\ drop (Z.to_nat at_) evs = rest.
Proof.
  intros Hn Ev Hc. assert (length evs = Z.to_nat num) as Hlen by (rewrite Ev, length_take; lia).
  induction k as [|k IH]; intros i shift Hk Hi; [lia|]. rewrite loop_S. cbn [scan_event]. destruct (Z.ltb_spec i num) as [Hin|Hin].
  - destruct (lookup_lt_is_Some_2 evs (Z.to_nat i)) as [ev E]; [lia|].
    pose proof (Forall_lookup_1 _ _ _ _ Hc E) as Hcode.
    assert (array !! Z.to_nat i = Some ev) as -> by (rewrite Ev, lookup_take in E; by case_decide).
    cbn [deref res_bind]. rewrite (drop_S evs ev (Z.to_nat i) E). cbn [first_key].
    assert (S (Z.to_nat i) = Z.to_nat (i + 1)) as Esucc by lia. rewrite Esucc.
    assert (forall sh, let '(c, shift', rest) := first_key sh ret (drop (Z.to_nat (i + 1)) evs) in
      exists at_, loop k (scan_event array num ret) (i + 1, sh) = Ok (at_, shift', c) /\ i < at_ /\ drop (Z.to_nat at_) evs = rest) as Hnext.
    { intros sh. specialize (IH (i + 1) sh ltac:(lia) ltac:(lia)).
      destruct (first_key sh ret _) as [[c sh'] rest]. destruct IH as (at_ & E1 & Ha & Er).
      exists at_. split; [exact E1|]. split; [lia | exact Er]. }
    unfold is_press, shifted. destruct (type_ ev =? EV_KEY); cbn [andb]; [|exact (Hnext shift)].
    destruct (is_shift ev); cbn [andb negb]; [exact (Hnext (negb (value ev =? 0)))|].
    destruct (value ev =? 1); [|exact (Hnext shift)].
    rewrite (conv_key_ok shift (code ev) Hcode). cbn [res_bind]. exists (i + 1). split; [done|]. split; [lia | done].
  - rewrite drop_ge by lia. cbn [first_key]. exists (i + 1). split; [done|]. split; [lia|]. by rewrite drop_ge by lia.
Qed.

Lemma key_step_ignored t : after_key t 255 = t.
Proof. by destruct t. Qed.

(** Keys are handled one after the other, across the ends of batches. *)
Lemma pressed_next evs : forall sh more t, 
  let '(c, sh', rest) := first_key sh 255 evs in
  fold_left after_key (pressed sh (evs ++ more)) t =
    fold_left after_key (pressed sh' (rest ++ more)) (after_key t c).
Proof.
  induction evs as [|ev evs IH]; intros sh more t; cbn [first_key]; [by rewrite key_step_ignored|].
  destruct (is_press ev) eqn:Ep.
  - cbn [app pressed]. rewrite Ep. cbn [app fold_left].
    replace (shifted ev sh) with sh; [done|]. unfold is_press in Ep. unfold shifted.
    destruct (type_ ev =? EV_KEY), (is_shift ev); done.
  - specialize (IH (shifted ev sh) more t). cbn [app pressed]. rewrite Ep. cbn [app].
    by destruct (first_key (shifted ev sh) 255 evs) as [[c sh'] rest].
Qed.

(** *** The program on the kernel's get_events *)

Section consolev_proofs.
Context {D : Type} `{!Disk.Disk D} {B : Type} `{!Virtio.Device B} {M : Type} `{!Transport.Mmio M}.
Context (heap_start heap_end : Z) (phys : Z -> Z) (epc pt event_buffer : Z).

#[local] Abbreviation World := (Trap.World (D := D) (B := B) (M := M)).
#[local] Abbreviation Wake := (Wake (D := D) (B := B) (M := M)).

Lemma ld_events_spec n : forall m v l, ld_events pt n m v = Ok l -> length l = n /\ Forall code_ok l.
Proof.
  induction n as [|n IH]; intros m v l E; cbn [ld_events] in E; [by injection E as <-|].
  inv_ok. destruct (IH _ _ _ E1) as [Hl Hc]. cbn [length]. split; [lia|]. apply Forall_cons. split; [|done].
  unfold ld_event in E0. inv_ok. apply u16_range.
Qed.

Lemma s8_range z : - 128 <= Input.s8 z < 128.
Proof. unfold Input.s8. dlia. Qed.

Lemma ok_inj {A} (a b : A) : Ok a = Ok b -> a = b.
Proof. by intros [= ->]. Qed.

Lemma keyboard_range dev k dev' : Input.get_keyboard dev = Ok (k, dev') -> - 128 <= k < 128.
Proof.
  unfold Input.get_keyboard. intros E. inv_ok. destruct (_ >? 0); [|inv_ok; lia].
  inv_ok. destruct v0 as [x rb]. destruct (x =? 0); [inv_ok; lia|].
  apply res_bind_ok in E as (rv & _ & E). apply ok_inj, (f_equal fst) in E. cbn [fst] in E. rewrite <- E.
  apply s8_range.
Qed.

(** The keyboard answers [k] in the world of the call, where the array of the process
    holds [evs]. *)
Definition answers (evs : list virtio_input_event) (wake : Wake) (k : Z) : Prop :=
  let '(_, w, regs) := wake in
  length regs = 32%nat /\ ld_events pt num_events (user_memory heap_start heap_end w) event_buffer = Ok evs /\
  exists dev, Input.get_keyboard (Syscall.keydev (SyscallFile.sys (Trap.os w))) = Ok (k, dev).

(** The events the program goes through: the array again and again. *)
Definition scanned (evs : list virtio_input_event) (ks : list Z) : list virtio_input_event :=
  ks ≫= fun k => take (Z.to_nat k) evs.

Record at_keys (evs : list virtio_input_event) (v : ConsoleV) (t : list Z * list Z) : Prop := mkAtKeys {
  ak_line : shows (line v) t;
  ak_at : 0 <= atev v;
  ak_size : sizeev v <= Z.of_nat (length (events v));
  ak_codes : Forall code_ok (events v)
}.

Definition waiting (v : ConsoleV) : list virtio_input_event :=
  drop (Z.to_nat (atev v)) (take (Z.to_nat (sizeev v)) (events v)).

Definition work (evs : list virtio_input_event) (v : ConsoleV) (ks : list Z) : nat :=
  (length (waiting v) + length ks + length (scanned evs ks))%nat.

Lemma consolev_loop evs : forall k v wakes ks t, (work evs v ks < k)%nat -> at_keys evs v t ->
  Forall2 (answers evs) wakes ks ->
  loop k (consolev_turn heap_start heap_end phys epc pt event_buffer) (v, wakes) =
    Ok (snd (fold_left after_key (pressed (shift v) (waiting v ++ scanned evs ks)) t)).
Proof.
  induction k as [|k IH]; intros v wakes ks t Hk [Hs Hat Hsz Hc] Hans; [lia|]. rewrite loop_S.
  cbn [consolev_turn]. unfold work in Hk. destruct (Z.geb_spec (atev v) (sizeev v)) as [Hge|Hlt].
  - assert (waiting v = []) as Hw by (unfold waiting; apply drop_ge; rewrite length_take; lia).
    rewrite Hw in *. destruct Hans as [|[[c w] regs] num wakes ks (Hr & Hev & dev & Edev) Hans]; cbn [res_bind app].
    + destruct (line v) as [[a i] out]. by destruct Hs as (_ & _ & _ & ->).
    + pose proof (keyboard_range _ _ _ Edev) as Hnum.
      destruct (Libc.user_get_events_ok heap_start heap_end phys c epc w regs event_buffer sizeof_events num dev Hr Edev Hnum)
        as (regs' & ->). cbn [res_bind].
      change (user_memory heap_start heap_end (Libc.with_keys dev w)) with (user_memory heap_start heap_end w).
      rewrite Hev. cbn [res_bind]. destruct (ld_events_spec _ _ _ _ Hev) as [Hlen Hcs].
      rewrite s32_u32, s32_id by lia. set (v' := mkConsoleV _ _ _ _ _).
      assert (waiting v' = take (Z.to_nat num) evs) as Hw' by done.
      rewrite (IH v' wakes ks t).
      * by rewrite Hw'.
      * unfold work. rewrite Hw'. unfold scanned in *. cbn [mbind list_bind length] in Hk.
        rewrite length_app in Hk. lia.
      * unfold num_events in Hlen. split; cbn; [done | done | lia | done].
      * done.
  - set (batch := take (Z.to_nat (sizeev v)) (events v)) in *.
    assert (Forall code_ok batch) as Hb by (by apply Forall_take).
    pose proof (get_next_key_loop batch (events v) (sizeev v) 255 Hsz eq_refl Hb
      (S (Z.to_nat (sizeev v - atev v))) (atev v) (shift v) ltac:(lia) Hat) as Hg.
    pose proof (pressed_next (drop (Z.to_nat (atev v)) batch) (shift v) (scanned evs ks) t) as Hp.
    destruct (first_key (shift v) 255 (drop (Z.to_nat (atev v)) batch)) as [[c sh'] rest].
    destruct Hg as (at' & Eg & Hat' & Er). unfold get_next_key. rewrite Eg. cbn [res_bind].
    destruct (handle_key_ok c (line v) t Hs) as (l' & -> & Hs'). cbn [res_bind].
    set (v' := mkConsoleV _ _ _ _ _).
    assert (waiting v' = rest) as Hw' by (unfold waiting; cbn; exact Er).
    assert (length rest < length (waiting v))%nat as Hless.
    { rewrite <- Er. unfold waiting. fold batch. rewrite !length_drop.
      assert (length batch = Z.to_nat (sizeev v)) by (unfold batch; rewrite length_take; lia). lia. }
    rewrite (IH v' wakes ks (after_key t c)).
    + rewrite Hw'. cbn [shift v']. unfold waiting. fold batch. by rewrite Hp.
    + unfold work. rewrite Hw'. lia.
    + split; [done | cbn; lia | done | done].
    + done.
Qed.

Lemma pressed_none evs : Forall (fun ev => is_press ev = false) evs -> forall sh, pressed sh evs = [].
Proof. induction 1 as [|ev evs Hev _ IH]; intros sh; [done|]. cbn [pressed]. by rewrite Hev, IH. Qed.

(** (C31) The console on the keyboard, with the get_events that the C library and the
    kernel have: whatever keys [ks] the keyboard answers, one for each call, the program
    stays inside its arrays and comes to the end. But it never sees a key that is typed.
    get_events stores no event, so the array keeps what it held before, [evs], and the
    number it returns is the character: for each answer the program goes through the
    first [k] events of that array once more, none when [k] is not positive, and prints
    what the presses among them mean, a letter, a digit or a sign as the shift keys are
    at that moment. With no press in the array, as when it is all zero, it prints its
    prompt and nothing more, whatever is typed. *)
Theorem consolev_correct command wakes evs ks fuel :
  length command = 25%nat -> Forall2 (answers evs) wakes ks ->
  (length ks + length (scanned evs ks) < fuel)%nat ->
  consolev_main heap_start heap_end phys epc pt event_buffer fuel command wakes =
    Ok (snd (fold_left after_key (pressed false (scanned evs ks)) ([], prompt))) /\
  (Forall (fun ev => is_press ev = false) evs ->
     consolev_main heap_start heap_end phys epc pt event_buffer fuel command wakes = Ok prompt).
Proof.
  intros Hc Hans Hk.
  assert (consolev_main heap_start heap_end phys epc pt event_buffer fuel command wakes =
    Ok (snd (fold_left after_key (pressed false (scanned evs ks)) ([], prompt)))) as E.
  { unfold consolev_main. rewrite (consolev_loop evs fuel _ wakes ks ([], prompt)); [done | done | | done].
    split; cbn; [|done | done | constructor]. split; [done|]. split; [apply holds_nil|]. by cbn. }
  split; [done|]. intros Hno. rewrite E, pressed_none; [done|].
  unfold scanned. clear Hans E Hk. induction ks as [|k ks IH]; [constructor|]. cbn [mbind list_bind].
  apply Forall_app. split; [by apply Forall_take | exact IH].
Qed.

End consolev_proofs.

(** ** Concrete instances *)


(** A key is typed, and the array of the process is zero. *)
Module Demo.

#[local] Opaque SyscallFile.os_mem Uaccess.user_mem Mmu.demo_mem.
#[local] Existing Instances Devices.Demo.isr_mmio Gpu.demo_gpu_device Disk.ramdisk_disk.

Definition events_at : Z := 0x40004000.

Lemma zero_user n : forall m v,
  (forall i, 0 <= i < Z.of_nat n -> exists q, Uaccess.user_pa m 8192 0x12 (v + i) = Some q /\ m !! q = Some 0) ->
  ld_user 8192 n m v = Ok 0.
Proof.
  induction n as [|n IH]; intros m v H; cbn [ld_user]; [done|].
  destruct (H 0 ltac:(lia)) as (q & E & Eq). rewrite Z.add_0_r in E. rewrite E. cbn [deref res_bind].
  unfold ld8. rewrite Eq. cbn [deref res_bind]. rewrite IH; [done|].
  intros i Hi. replace (v + 1 + i) with (v + (1 + i)) by lia. apply H. lia.
Qed.

Lemma zero_events n : forall m v,
  (forall i, 0 <= i < 8 * Z.of_nat n -> exists q, Uaccess.user_pa m 8192 0x12 (v + i) = Some q /\ m !! q = Some 0) ->
  ld_events 8192 n m v = Ok (replicate n (mkEvent 0 0 0)).
Proof.
  induction n as [|n IH]; intros m v H; cbn [ld_events]; [done|]. unfold ld_event.
  rewrite !zero_user; cbn [res_bind].
  - rewrite IH; [done|]. intros i Hi. rewrite <- Z.add_assoc. apply H. lia.
  - intros i Hi. rewrite <- Z.add_assoc. apply H. lia.
  - intros i Hi. rewrite <- Z.add_assoc. apply H. lia.
  - intros i Hi. apply H. lia.
Qed.

(** The keyboard with the press of A in its ring. *)
Definition keyboard : Input.InputDevice :=
  Input.mkInput Input.demo_virtio
    (match Input.input_ring_buffer_push Input.empty_events 0x1001E0001 with Ok r => r | _ => Input.empty_events end).

Definition key : Z := match Input.get_keyboard keyboard with Ok (k, _) => k | _ => 0 end.

Definition typing : Trap.World := Libc.with_keys keyboard Libc.Demo.world.

Lemma typing_answers : answers 4096 24576 8192 events_at (replicate 128 (mkEvent 0 0 0))
  (Libc.Demo.at_trap, typing, replicate 32 0) key.
Proof.
  split; [done|]. split.
  - change (user_memory 4096 24576 typing) with SyscallFile.os_mem. unfold num_events.
    apply zero_events. intros i Hi. exists (16384 + i). change events_at with (0x40000000 + 16384).
    rewrite (SyscallFile.os_pa 0x12 16384 i) by (done || lia). split; [done|].
    rewrite SyscallFile.os_lookup, Uaccess.user_lookup by lia. by replace (16384 + i =? 8200) with false by lia.
  - change (Syscall.keydev (SyscallFile.sys (Trap.os typing))) with keyboard.
    unfold key. destruct (Input.get_keyboard keyboard) as [[k d]| | |] eqn:E; [by eexists | vm_compute in E; discriminate ..].
Qed.

Lemma consolev_correct_witness : length (replicate 25 0) = 25%nat /\ key = 97 /\
  consolev_main 4096 24576 (fun p => p) 1000 8192 events_at 200 (replicate 25 0)
    [(Libc.Demo.at_trap, typing, replicate 32 0)] = Ok prompt.
Proof.
  split; [done|]. split; [vm_compute; reflexivity|].
  destruct (consolev_correct 4096 24576 (fun p => p) 1000 8192 events_at (replicate 25 0)
    [(Libc.Demo.at_trap, typing, replicate 32 0)] (replicate 128 (mkEvent 0 0 0)) [key] 200) as [_ H].
  - reflexivity.
  - apply Forall2_cons. split; [exact typing_answers | constructor].
  - apply Nat.ltb_lt. vm_compute. reflexivity.
  - apply H. by apply Forall_replicate.
Defined.

End Demo.
