(* ===== verification/ProcessFree.v ===== *)
(** The end of a process: [process_free] of src/src/process.c gives back the page
    tables of the process ([MmuFree]), the pages on its three lists and the lists
    themselves ([DList]), and nothing else. *)
From S2P Require Import Prelude Mem Lock Util Page Mmu MmuFree DList Uaccess Process Sched Syscall SyscallFile.

Section process.
Context {St : Type} `{!PageAllocator St} `{!PageAllocatorLaws St} `{!PageFreeLaws St}.
Implicit Type k : Kernel St.

Lemma given_one s p : pa_inv s -> pa_owned s p ->
  exists s', pa_free s p = Ok s' /\ given_back s s' [p] [].
Proof.
  intros Hs Hp. destruct (pa_free_law s p Hs Hp) as (s' & E & I & O & S & R). exists s'. split; [done|].
  split; [done | | | done].
  - intros q. rewrite O, list_elem_of_singleton. done.
  - intros q Hq Hne _ a Ha. rewrite list_elem_of_singleton in Hne. by apply (S q).
Qed.

(** The [list_for_each] of [process_free]. *)
Lemma free_pages_loop h lst s0 : forall n ps1 ps2 s, dlist h lst (ps1 ++ ps2) ->
  given_back s0 s (vals h ps1) [] -> NoDup (vals h (ps1 ++ ps2)) ->
  (forall v, v ∈ vals h ps2 -> pa_owned s0 v) -> (length ps2 < n)%nat ->
  exists s', loop n (fun '(e, s) =>
      if list_elem_valid lst e then
        let* x := elem h e in let* s := pa_free s (value x) in Ok (Next (prev x, s))
      else Ok (Done s)) (after_of ps2 lst, s) = Ok s' /\ given_back s0 s' (vals h (ps1 ++ ps2)) [].
Proof.
  induction n as [|n IH]; intros ps1 ps2 s Hd G Hnd Ho Hn; [lia|]. rewrite loop_S.
  unfold list_elem_valid. destruct ps2 as [|e ps2].
  { change (after_of [] lst) with lst. rewrite Z.eqb_refl, andb_false_r. rewrite app_nil_r. by exists s. }
  change (after_of (e :: ps2) lst) with e. cbn [length] in Hn.
  assert (e ∈ ps1 ++ e :: ps2) as He by (apply elem_of_app; right; left).
  assert (e <> lst) as Hel.
  { intros ->. by apply (proj1 (proj1 (NoDup_cons _ _) (dl_nodup _ _ _ Hd))). }
  assert (e <> 0) as He0 by (intros ->; apply (dl_nonnull _ _ _ Hd); by right).
  rewrite !(proj2 (Z.eqb_neq e _)) by done. cbn [negb andb].
  destruct (prevf_elem h e) as (x & -> & _ & Px & _ & Vx); [eapply dlist_elem; [done | by right]|].
  cbn [res_bind]. rewrite <- Vx.
  pose proof (dl_path _ _ _ Hd) as Hp. apply path_app in Hp as [_ Hp]. apply path_first in Hp.
  rewrite Px in Hp. injection Hp as ->.
  rewrite cons_middle, app_assoc in Hd, Hnd |- *.
  assert (vals h (ps1 ++ [e]) = vals h ps1 ++ [val_at h e]) as Ev by (unfold vals; by rewrite fmap_app).
  destruct (given_one s (val_at h e)) as (s1 & -> & G1); [apply G | |].
  { apply (gb_owned _ _ _ _ G). split; [apply Ho; left|]. intros Hin.
    unfold vals in Hnd. rewrite !fmap_app in Hnd. apply NoDup_app in Hnd as [Hnd _].
    apply NoDup_app in Hnd as (_ & Hnd & _). apply (Hnd _ Hin). left. }
  cbn [res_bind]. apply IH; [done | | done | | lia].
  - rewrite Ev. by eapply given_trans.
  - intros v Hv. apply Ho. by right.
Qed.

(** One of the lists: its pages go back to the allocator, its nodes off the heap. *)
Lemma free_page_list_ok k lst ps : dlist (lists k) lst ps -> pa_inv (pa k) ->
  NoDup (vals (lists k) ps) -> (forall v, v ∈ vals (lists k) ps -> pa_owned (pa k) v) ->
  exists s', free_page_list k lst = Ok (set_lists (set_pa k s') (without (lists k) (lst :: ps))) /\
    given_back (pa k) s' (vals (lists k) ps) [].
Proof.
  intros Hd Hs Hnd Ho. assert (lst <> 0) as Hl by (intros ->; apply (dl_nonnull _ _ _ Hd); left).
  unfold free_page_list. rewrite (proj2 (Z.eqb_neq _ _)) by done.
  destruct (prevf_elem (lists k) lst) as (x & -> & _ & Px & _); [eapply dlist_elem; [done | left]|].
  cbn [res_bind]. rewrite (path_first _ _ _ _ (dl_path _ _ _ Hd)) in Px. injection Px as <-.
  pose proof (dlist_size _ _ _ Hd).
  destruct (free_pages_loop (lists k) lst (pa k) (list_fuel (lists k)) [] ps (pa k)) as (s' & -> & G);
    [done | by apply given_refl | done | done | unfold list_fuel; lia |].
  cbn [res_bind]. rewrite (list_free_ok _ _ _ Hd). by exists s'.
Qed.

(** A list that shares no node with the freed one stays. *)
Lemma dlist_without h qs lst ps : dlist h lst ps -> (forall a, a ∈ lst :: ps -> a ∉ qs) ->
  dlist (without h qs) lst ps /\ vals (without h qs) ps = vals h ps.
Proof.
  intros [Hnd Hnn Hp] Ha.
  assert (forall a, a ∈ lst :: ps -> without h qs !! a = h !! a) as E.
  { intros a Hin. rewrite without_lookup. by rewrite decide_False by auto. }
  split.
  - split; [done | done |]. eapply path_frame; [| | exact Hp].
    + intros a Hin. unfold prevf. by rewrite E.
    + intros b Hin. unfold nextf. rewrite E; [done|].
      apply elem_of_app in Hin as [Hin | ->%list_elem_of_singleton]; [by right | left].
  - apply vals_ext. intros a Hin. unfold val_at. by rewrite E by (by right).
Qed.

(** What a process holds: its table tree, and the pages on its three lists, whose
    nodes are [ps1], [ps2] and [ps3]; no page and no node is there twice. *)
Definition held_pages k (x : Process) (ps1 ps2 ps3 : list Z) : list Z :=
  tables 2 (pa_mem (pa k)) (ptable x) ++
  vals (lists k) ps1 ++ vals (lists k) ps2 ++ vals (lists k) ps3.

Definition held_nodes (x : Process) (ps1 ps2 ps3 : list Z) : list Z :=
  (pages x :: ps1) ++ (image_pages x :: ps2) ++ (heap_pages x :: ps3).

Record holds k (x : Process) (L : gmap Z nat) (ps1 ps2 ps3 : list Z) : Prop := mkHolds {
  hd_tree : tree_ok (pa k) (ptable x) L;
  hd_pages : dlist (lists k) (pages x) ps1;
  hd_image : dlist (lists k) (image_pages x) ps2;
  hd_heap : dlist (lists k) (heap_pages x) ps3;
  hd_nodes : NoDup (held_nodes x ps1 ps2 ps3);
  hd_owned : forall q, q ∈ held_pages k x ps1 ps2 ps3 -> pa_owned (pa k) q;
  hd_apart : NoDup (held_pages k x ps1 ps2 ps3)
}.

(** A page that is owned and was not among those given back is owned still. *)
Lemma still_owned s s' ts q : given_back s s' ts [] -> pa_owned s q -> q ∉ ts -> pa_owned s' q.
Proof. intros G Hq Hn. by apply (gb_owned _ _ _ _ G). Qed.

Lemma without_app h ps qs : without (without h ps) qs = without h (ps ++ qs).
Proof.
  apply map_eq. intros a. rewrite !without_lookup.
  destruct (decide (a ∈ qs)) as [H1|H1], (decide (a ∈ ps)) as [H2|H2],
    (decide (a ∈ ps ++ qs)) as [H3|H3]; rewrite ?elem_of_app in H3; tauto.
Qed.

(** The three lists one after the other. *)
Lemma free_lists_ok k x ps1 ps2 ps3 : pa_inv (pa k) ->
  dlist (lists k) (pages x) ps1 -> dlist (lists k) (image_pages x) ps2 ->
  dlist (lists k) (heap_pages x) ps3 -> NoDup (held_nodes x ps1 ps2 ps3) ->
  let vs := vals (lists k) ps1 ++ vals (lists k) ps2 ++ vals (lists k) ps3 in
  NoDup vs -> (forall q, q ∈ vs -> pa_owned (pa k) q) ->
  exists s', (let* k := free_page_list k (pages x) in
              let* k := free_page_list k (image_pages x) in
              free_page_list k (heap_pages x)) =
      Ok (set_lists (set_pa k s') (without (lists k) (held_nodes x ps1 ps2 ps3))) /\
    given_back (pa k) s' vs [].
Proof.
  intros Hs D1 D2 D3 Hn vs Hv Ho. unfold vs, held_nodes in *.
  apply NoDup_app in Hn as (_ & Hn1 & (_ & Hn2 & _)%NoDup_app).
  apply NoDup_app in Hv as (V1 & V12 & (V2 & V23 & V3)%NoDup_app).
  setoid_rewrite elem_of_app in Hn1. setoid_rewrite elem_of_app in V12.
  setoid_rewrite elem_of_app in Ho. setoid_rewrite elem_of_app in Ho.
  destruct (free_page_list_ok k (pages x) ps1 D1 Hs V1) as (s1 & -> & G1); [intros; apply Ho; auto|].
  cbn [res_bind].
  destruct (dlist_without (lists k) (pages x :: ps1) _ _ D2) as [D2' E2].
  { intros a Ha Hin. apply (Hn1 _ Hin). by left. }
  destruct (dlist_without (lists k) (pages x :: ps1) _ _ D3) as [D3' E3].
  { intros a Ha Hin. apply (Hn1 _ Hin). by right. }
  set (k1 := set_lists (set_pa k s1) (without (lists k) (pages x :: ps1))).
  destruct (free_page_list_ok k1 (image_pages x) ps2 D2' (gb_inv _ _ _ _ G1)) as (s2 & -> & G2).
  { unfold k1. cbn [lists set_lists]. by rewrite E2. }
  { unfold k1. cbn [lists set_lists pa set_pa]. rewrite E2. intros v Hv.
    eapply still_owned; [exact G1 | auto |]. intros Hin. apply (V12 _ Hin). by left. }
  cbn [res_bind]. unfold k1 in G2 |- *. cbn [lists set_lists pa set_pa] in G2. rewrite E2 in G2.
  destruct (dlist_without (without (lists k) (pages x :: ps1)) (image_pages x :: ps2) _ _ D3') as [D3'' E3'].
  { intros a Ha Hin. by apply (Hn2 _ Hin). }
  set (k2 := set_lists (set_pa (set_lists (set_pa k s1) (without (lists k) (pages x :: ps1))) s2) (without (without (lists k) (pages x :: ps1)) (image_pages x :: ps2))).
  assert (given_back (pa k) s2 (vals (lists k) ps1 ++ vals (lists k) ps2) []) as G12
    by (by eapply given_trans).
  destruct (free_page_list_ok k2 (heap_pages x) ps3 D3'' (gb_inv _ _ _ _ G2)) as (s3 & E & G3).
  { unfold k2. cbn [lists set_lists]. by rewrite E3', E3. }
  { unfold k2. cbn [lists set_lists pa set_pa]. rewrite E3', E3. intros v Hv.
    eapply still_owned; [exact G12 | auto |]. rewrite elem_of_app. intros [Hin|Hin].
    - apply (V12 _ Hin). by right.
    - by apply (V23 _ Hin). }
  change (lists (set_lists (set_pa k s1) (without (lists k) (pages x :: ps1)))) with (without (lists k) (pages x :: ps1)).
  fold k2. rewrite E. unfold k2 in G3 |- *. cbn [lists set_lists pa set_pa] in G3 |- *. rewrite E3', E3 in G3. exists s3. split.
  - rewrite !without_app, <- app_assoc. done.
  - rewrite app_assoc. by eapply given_trans.
Qed.

(** The nonzero addresses among [l], last first, as [kfree] records them. *)
Definition kfreed (l : list Z) : list Z := reverse (filter (fun a => a <> 0) l).

Lemma kfree_freed k a : freed (kfree_ k a) = kfreed [a] ++ freed k /\
  pa (kfree_ k a) = pa k /\ lists (kfree_ k a) = lists k.
Proof.
  unfold kfree_, kfreed. rewrite filter_cons, filter_nil.
  destruct (Z.eqb_spec a 0), (decide (a <> 0)); try done; lia.
Qed.

Lemma kfree_procs k a q : q <> a ->
  procs (kfree_ k a) !! q = procs k !! q /\ vectors (kfree_ k a) !! q = vectors k !! q.
Proof.
  intros H. unfold kfree_. destruct (a =? 0); [done|]. cbn [procs vectors set_freed set_vectors set_procs].
  by rewrite !lookup_delete_ne by done.
Qed.

Lemma kfreed_app l1 l2 : kfreed l2 ++ kfreed l1 = kfreed (l1 ++ l2).
Proof. unfold kfreed. by rewrite filter_app, reverse_app. Qed.

(** The vector and its values, in the order of [vector_free]. *)
Lemma fd_vector_free_ok k vec v : vec <> 0 -> vectors k !! vec = Some v -> fd_values v <> vec ->
  exists k', fd_vector_free k vec = Ok k' /\ freed k' = kfreed [fd_values v; vec] ++ freed k /\
    pa k' = pa k /\ lists k' = lists k /\
    (forall q, q <> fd_values v -> q <> vec -> procs k' !! q = procs k !! q).
Proof.
  intros H0 E Hne. unfold fd_vector_free. rewrite E. cbn [deref res_bind].
  destruct (kfree_freed k (fd_values v)) as (F1 & P1 & L1).
  rewrite (proj2 (kfree_procs k (fd_values v) vec ltac:(done))), E. cbn [deref res_bind].
  set (k1 := set_vectors _ _). destruct (kfree_freed k1 vec) as (F2 & P2 & L2).
  eexists. split; [done|]. rewrite F2, P2, L2. unfold k1. cbn [freed pa lists set_vectors].
  rewrite F1, P1, L1, app_assoc, kfreed_app. split_and!; try done.
  intros q H1 H2. rewrite (proj1 (kfree_procs _ vec q H2)). by apply kfree_procs.
Qed.

Lemma process_free_ok k p x v L ps1 ps2 ps3 :
  p <> 0 -> procs k !! p = Some x -> holds k x L ps1 ps2 ps3 ->
  fds x <> 0 -> vectors k !! fds x = Some v ->
  trap_stack (frame x) <> fds x -> fd_values v <> fds x ->
  let ts := held_pages k x ps1 ps2 ps3 in
  let blocks := [trap_stack (frame x); fd_values v; fds x; p] in
  (hart x <> HART_NONE -> process_free k p = Ok (-1, k)) /\
  (hart x = HART_NONE -> exists k', process_free k p = Ok (0, k') /\ pa_inv (pa k') /\
    (forall q, pa_owned (pa k') q <-> pa_owned (pa k) q /\ q ∉ ts) /\
    (forall q a, pa_owned (pa k) q -> q ∉ ts -> q <= a < q + 4096 ->
       pa_mem (pa k') !! a = pa_mem (pa k) !! a) /\
    pa_room (pa k') = pa_room (pa k) + Z.of_nat (length ts) /\
    lists k' = without (lists k) (held_nodes x ps1 ps2 ps3) /\
    freed k' = kfreed blocks ++ freed k /\ procs k' !! p = None /\
    (forall q, q ∉ blocks -> procs k' !! q = procs k !! q)).
Proof.
  intros Hp Ex [Ht D1 D2 D3 Hn Ho Hnd] Hf Ev Hts Hvf ts blocks. unfold process_free, proc.
  rewrite (proj2 (Z.eqb_neq _ _)), Ex by done. cbn [deref res_bind]. split; intros Hh.
  { by rewrite (proj2 (Z.eqb_neq _ _)). }
  rewrite Hh, Z.eqb_refl. cbn [negb].
  destruct (kfree_freed k (trap_stack (frame x))) as (F1 & P1 & L1).
  set (k1 := kfree_ k (trap_stack (frame x))) in *.
  rewrite (proj2 (Z.eqb_neq _ _)) by (by eapply tree_root_nonzero). cbn [negb].
  pose proof (tr_root _ _ _ Ht) as Hr.
  destruct (free_tree 2 (pa k) (ptable x) (tr_inv _ _ _ Ht) (tree_subtree _ _ _ Ht _ _ Hr)
    (tables_NoDup _ _ _ Ht _ _ Hr)) as (s1 & E1 & G1).
  rewrite P1, E1. cbn [res_bind].
  unfold ts, held_pages in *. apply NoDup_app in Hnd as (_ & Hap & Hnd).
  setoid_rewrite elem_of_app in Ho.
  destruct (free_lists_ok (set_pa k1 s1) x ps1 ps2 ps3) as (s2 & E2 & G2);
    cbn [pa set_pa lists]; rewrite ?L1; try done.
  { apply G1. }
  { intros q Hq. eapply still_owned; [exact G1 | auto |]. intros Hin. by apply (Hap _ Hin). }
  destruct (free_page_list (set_pa k1 s1) (pages x)) as [ka| | |]; cbn [res_bind] in E2 |- *; try discriminate.
  destruct (free_page_list ka (image_pages x)) as [kb| | |]; cbn [res_bind] in E2 |- *; try discriminate.
  rewrite E2. clear E2. cbn [res_bind]. cbn [pa set_pa lists] in G2 |- *. rewrite L1 in *.
  set (k2 := set_lists (set_pa (set_pa k1 s1) s2) (without (lists k) (held_nodes x ps1 ps2 ps3))).
  assert (forall q, q <> trap_stack (frame x) -> procs k2 !! q = procs k !! q /\ vectors k2 !! q = vectors k !! q)
    as K2 by (intros q; apply kfree_procs).
  rewrite (proj2 (Z.eqb_neq _ _)) by done. cbn [negb].
  destruct (fd_vector_free_ok k2 (fds x) v) as (k3 & -> & F2 & P2 & L2 & Q2); [done | | done |].
  { by rewrite (proj2 (K2 _ (not_eq_sym Hts))). }
  cbn [res_bind]. destruct (kfree_freed k3 p) as (F3 & P3 & L3).
  assert (given_back (pa k) s2 (tables 2 (pa_mem (pa k)) (ptable x) ++
    vals (lists k) ps1 ++ vals (lists k) ps2 ++ vals (lists k) ps3) []) as [I O S R]
    by (by eapply given_trans).
  eexists. split; [reflexivity|]. rewrite P3, P2, L3, L2. cbn [k2 pa set_pa set_lists lists].
  split; [exact I|]. split; [exact O|]. split; [intros q a Hq Hne; apply S; [done | done | apply not_elem_of_nil]|].
  split; [exact R|]. split; [done|]. split_and!.
  - rewrite F3, F2. change (freed k2) with (freed k1). rewrite F1, !app_assoc, !kfreed_app. done.
  - unfold kfree_ at 1. rewrite (proj2 (Z.eqb_neq _ _)) by done. cbn [procs set_procs set_freed set_vectors].
    by rewrite lookup_delete_eq.
  - intros q Hq. unfold blocks in Hq. rewrite !not_elem_of_cons in Hq. destruct Hq as (Q0 & Q3 & Q4 & Q5 & _).
    rewrite (proj1 (kfree_procs k3 p q Q5)), Q2 by done. by apply K2.
Qed.

(** Every process that has been scheduled has the one trap stack of sched.c: the first
    that ends hands it to kfree while the others still name it. *)
Lemma trap_stack_freed_in_use k p x v L ps1 ps2 ps3 q y :
  p <> 0 -> procs k !! p = Some x -> holds k x L ps1 ps2 ps3 ->
  fds x <> 0 -> vectors k !! fds x = Some v ->
  trap_stack (frame x) <> fds x -> fd_values v <> fds x -> hart x = HART_NONE ->
  q ∉ [trap_stack (frame x); fd_values v; fds x; p] -> procs k !! q = Some y ->
  trap_stack (frame y) = trap_stack (frame x) -> trap_stack (frame x) <> 0 ->
  exists k', process_free k p = Ok (0, k') /\ procs k' !! q = Some y /\
    trap_stack (frame y) ∈ freed k'.
Proof.
  intros Hp Ex Hh Hf Ev H1 H2 Hn Hq Ey Et H0.
  destruct (process_free_ok k p x v L ps1 ps2 ps3 Hp Ex Hh Hf Ev H1 H2) as [_ H].
  destruct (H Hn) as (k' & E & _ & _ & _ & _ & _ & F & _ & Hps). exists k'. split; [done|].
  split; [by rewrite Hps|]. rewrite F, Et. apply elem_of_app. left. unfold kfreed.
  rewrite elem_of_reverse, list_elem_of_filter. split; [done | left].
Qed.

(** (C4) process_free gives back all a process holds, once. For a process that is
    on no hart it returns 0: the page tables and the pages on the three lists are
    again free, no other page changes hands or contents; the allocator has that many
    pages more; the nodes of the lists, and nothing else, are off the list heap; the
    trap stack, both blocks of the descriptor vector and the process itself have been
    handed to kfree in this order, no process is at its address any more, and the
    other processes are as they were. For a process on a hart it returns -1 and does
    nothing. *)
Theorem process_free_correct k p x v L ps1 ps2 ps3 :
  p <> 0 -> procs k !! p = Some x -> holds k x L ps1 ps2 ps3 ->
  fds x <> 0 -> vectors k !! fds x = Some v ->
  trap_stack (frame x) <> fds x -> fd_values v <> fds x ->
  let ts := held_pages k x ps1 ps2 ps3 in
  let blocks := [trap_stack (frame x); fd_values v; fds x; p] in
  (hart x <> HART_NONE -> process_free k p = Ok (-1, k)) /\
  (hart x = HART_NONE -> exists k', process_free k p = Ok (0, k') /\ pa_inv (pa k') /\
    (forall q, pa_owned (pa k') q <-> pa_owned (pa k) q /\ q ∉ ts) /\
    (forall q a, pa_owned (pa k) q -> q ∉ ts -> q <= a < q + 4096 ->
       pa_mem (pa k') !! a = pa_mem (pa k) !! a) /\
    pa_room (pa k') = pa_room (pa k) + Z.of_nat (length ts) /\
    lists k' = without (lists k) (held_nodes x ps1 ps2 ps3) /\
    freed k' = kfreed blocks ++ freed k /\ procs k' !! p = None /\
    (forall q, q ∉ blocks -> procs k' !! q = procs k !! q)).
Proof. apply process_free_ok. Qed.

End process.

(** A table without branches is a tree by itself. *)
Lemma tables_single l m t : (forall i e, 0 <= i < 512 -> ld_entry m t i = Ok e -> ~ branch e) ->
  tables l m t = [t].
Proof.
  intros H. rewrite tables_eq. replace (indices ≫= below l m t) with (@nil Z); [done|].
  symmetry. apply elem_of_nil_inv. intros x (i & Hx & Hi%elem_of_indices)%list_elem_of_bind.
  destruct l as [|l]; [by apply not_elem_of_nil in Hx|]. cbn [below] in Hx. unfold entry_of in Hx.
  destruct (ld_entry m t i) as [e| | |] eqn:E; try by apply not_elem_of_nil in Hx.
  destruct (is_branch e) eqn:B; [|by apply not_elem_of_nil in Hx].
  apply is_branch_spec in B. by destruct (H i e Hi E).
Qed.

(** ** A process that ends: one table, two stack pages, no image and no heap *)
Module Demo.

#[local] Existing Instances demo_alloc demo_laws demo_free.

#[local] Opaque os_mem user_mem demo_mem.

Definition lists_heap : res lheap :=
  let* r := list_new ∅ 100 in
  let* h := list_add (snd r) 100 110 12288 in
  let* h := list_add h 100 111 16384 in
  let* r := list_new h 101 in
  let* r := list_new (snd r) 102 in Ok (snd r).

Definition nodes : lheap := match lists_heap with Ok h => h | _ => ∅ end.

Definition ended : Process := mkProcess (set_trap_stack 900 demo_frame) PS_DEAD 101 102 0 10000
  HART_NONE 0 0 1 8192 100 901.

Definition kernel : Kernel page_state :=
  set_vectors (set_lists (set_procs (os_kernel os_pages) {[ 1000 := ended ]}) nodes)
    {[ 901 := mkFds 0 5 902 ]}.

Lemma one_list lst ps : bool_decide (NoDup (lst :: ps)) = true -> bool_decide (0 ∉ lst :: ps) = true ->
  path nodes lst ps lst -> dlist nodes lst ps.
Proof. intros H1%bool_decide_eq_true H2%bool_decide_eq_true H3. by split. Qed.

Lemma table_alone : tables 2 (pa_mem (pa kernel)) 8192 = [8192].
Proof.
  apply tables_single. intros i e Hi E. change (pa_mem (pa kernel)) with os_mem in E.
  rewrite (os_leaf i Hi) in E. injection E as <-. destruct (i =? 1); intros [H1 H2]; discriminate.
Qed.

Lemma pages_held : held_pages kernel ended [110; 111] [] [] = [8192; 12288; 16384].
Proof. unfold held_pages. change (ptable ended) with 8192. rewrite table_alone. by vm_compute. Qed.

Lemma ended_holds : holds kernel ended {[ 8192 := 2%nat ]} [110; 111] [] [].
Proof.
  split.
  - apply one_leaf_tree_ok; [exact os_inv | exact (os_owned 1 ltac:(lia)) | exact os_leaf].
  - apply one_list; [done | done | vm_compute; repeat split].
  - apply one_list; [done | done | vm_compute; repeat split].
  - apply one_list; [done | done | vm_compute; repeat split].
  - apply (bool_decide_unpack _). by vm_compute.
  - rewrite pages_held. intros q Hq. rewrite !elem_of_cons in Hq.
    destruct Hq as [-> | [-> | [-> | Hq%not_elem_of_nil]]]; [| | |done].
    + exact (os_owned 1 ltac:(lia)).
    + exact (os_owned 2 ltac:(lia)).
    + exact (os_owned 3 ltac:(lia)).
  - rewrite pages_held. apply (bool_decide_unpack _). by vm_compute.
Qed.

Lemma process_free_correct_witness : exists k', process_free kernel 1000 = Ok (0, k') /\
  (forall q, pa_owned (pa k') q <-> pa_owned (pa kernel) q /\ q ∉ [8192; 12288; 16384]) /\
  pa_room (pa k') = pa_room (pa kernel) + 3 /\ freed k' = [1000; 901; 902; 900] /\ lists k' = ∅.
Proof.
  assert (1000 <> 0) as H0 by discriminate. assert (fds ended <> 0) as H1 by discriminate.
  assert (trap_stack (frame ended) <> fds ended) as H2 by discriminate.
  assert (fd_values (mkFds 0 5 902) <> fds ended) as H3 by discriminate.
  destruct (process_free_correct kernel 1000 ended (mkFds 0 5 902) {[ 8192 := 2%nat ]} [110; 111] [] []
    H0 eq_refl ended_holds H1 eq_refl H2 H3) as [_ H]. destruct (H eq_refl) as (k' & E & _ & Ho & _ & Hr & Hl & Hf & _).
  rewrite pages_held in Ho, Hr. exists k'. split; [exact E|]. split; [exact Ho|]. split; [exact Hr|].
  split; [exact Hf|]. rewrite Hl. vm_compute. reflexivity.
Defined.

End Demo.
